(** * nomyo-js: the hybrid-encryption client, embedded and verified

    A shallow embedding of the TypeScript sources of nomyo-js
    (src/core/crypto/utils.ts, encryption.ts, rsa.ts, keys.ts,
    src/core/memory/secure.ts, node.ts, browser.ts,
    src/core/SecureCompletionClient.ts, src/errors.ts).

    Conventions of the embedding
    - an [ArrayBuffer] is a location in a heap of byte sequences, so that
      the aliasing between a secret buffer and the context that zeroes it
      is the one of the program;
    - an [async] method is a computation in the monad [M]: it threads the
      world (heap, call trace, entropy cursor, file system, key manager
      fields) and ends in [Return v] or [Throw e]; [await] is sequencing;
    - a JavaScript string is held by its UTF-8 bytes, so that
      [TextEncoder.encode] is the list of its bytes;
    - what the platform provides and the repository does not implement
      (Web Crypto primitives, JSON.parse, the network, the entropy source)
      is a field of [Platform] or of [Primitives]. *)

From Stdlib Require Import ZArith NArith Lia List Bool Ascii String.
From Stdlib Require Import Strings.Byte DecimalString.
From stdpp Require Import base option list gmap strings pretty.

Import ListNotations.
Set Warnings "-register-all".
Local Open Scope string_scope.
Local Open Scope list_scope.
Local Open Scope nat_scope.

(** ** Bytes *)

Abbreviation byte := Byte.byte.
Abbreviation bytes := (list Byte.byte).

Definition zero_byte : byte := Byte.x00.

#[global] Instance byte_eq_decision : EqDecision byte := Byte.byte_eq_dec.

(** [TextEncoder.encode]: the UTF-8 bytes of a string. *)
Definition utf8_encode (s : string) : bytes := list_byte_of_string s.

(** ** JavaScript values that cross JSON *)

(** A [number]: not a number, an infinity, or a finite number, given by
    the decimal that [Number::toString] works from, the shortest one that
    identifies the number: [(-1)^negative * digits * 10^exponent].  Zero
    of either sign has [digits = 0]. *)
Inductive JsNumber : Type :=
| NaN
| Infinity (negative : bool)
| Decimal (negative : bool) (digits : N) (exponent : Z).

(** The number that an integer literal denotes. *)
Definition integer (n : Z) : JsNumber := Decimal (n <? 0)%Z (Z.abs_N n) 0.

Inductive JValue : Type :=
| JUndefined
| JNull
| JBool (b : bool)
| JNumber (x : JsNumber)
| JString (s : string)
| JArray (items : list JValue)
| JObject (fields : list (string * JValue)).

(** Property lookup on the own fields of an object literal. *)
Fixpoint assoc_lookup (k : string) (fs : list (string * JValue)) : option JValue :=
  match fs with
  | [] => None
  | (k', v) :: rest => if String.eqb k k' then Some v else assoc_lookup k rest
  end.

(** [obj[k] = v] on an object literal: overwrite in place, else append. *)
Fixpoint assoc_set (k : string) (v : JValue) (fs : list (string * JValue))
  : list (string * JValue) :=
  match fs with
  | [] => [(k, v)]
  | (k', v') :: rest =>
      if String.eqb k k' then (k, v) :: rest else (k', v') :: assoc_set k v rest
  end.

(** ** Errors (src/errors.ts and the built-in ones the code can meet) *)

Inductive ErrorClass : Type :=
| Error
| TypeError
| ReferenceError
| RangeError
| SyntaxError
| DOMException (name : string)
| APIError
| AuthenticationError
| InvalidRequestError
| RateLimitError
| ServerError
| APIConnectionError
| SecurityError.

Record JsError : Type := mkError {
  err_class : ErrorClass;
  message : string;
  statusCode : option Z;
  errorDetails : option JValue
}.

(** [new C(message)] for the classes that take a message only. *)
Definition new_error (c : ErrorClass) (msg : string) : JsError :=
  mkError c msg None None.

(** [new C(message, statusCode, errorDetails)] for [APIError] and its
    subclasses. *)
Definition new_api_error (c : ErrorClass) (msg : string) (status : Z)
    (details : JValue) : JsError :=
  mkError c msg (Some status) (Some details).

(** What a [throw] can carry: an [Error] object or any other value. *)
Inductive Thrown : Type :=
| ErrObj (e : JsError)
| NonError (v : JValue).

Definition instanceof_Error (t : Thrown) : bool :=
  match t with ErrObj _ => true | NonError _ => false end.

Definition instanceof_SecurityError (t : Thrown) : bool :=
  match t with
  | ErrObj e => match err_class e with SecurityError => true | _ => false end
  | NonError _ => false
  end.

(** ** The world an async method runs in *)

Definition loc := nat.

Inductive HttpMethod := GET | POST.

(** A [CryptoKey]: what it is for and the key material it wraps (raw
    bytes for AES and PBKDF2 keys, the PKCS8 encoding for an RSA private
    key, the SPKI encoding for an RSA public key). *)
Inductive KeyKind := AesGcmKey | AesCbcKey | Pbkdf2Key | RsaPublicKey | RsaPrivateKey.

Record CryptoKey : Type := mkCryptoKey {
  key_kind : KeyKind;
  key_data : bytes
}.

Inductive Event : Type :=
| EvZeroMemory (buf : loc)
| EvHttp (method : HttpMethod) (url : string)
| EvRsaGenerate (modulusLength : N)
| EvConsoleLog (line : string)
| EvConsoleWarn (line : string).

Record World : Type := mkWorld {
  heap : gmap nat bytes;             (* contents of the ArrayBuffers *)
  next_loc : nat;                    (* next fresh location *)
  trace : list Event;                (* calls made so far, newest first *)
  rng_pos : nat;                     (* cursor in the entropy stream *)
  fs : gmap string string;           (* files by path *)
  km_publicKey : option CryptoKey;   (* KeyManager.publicKey *)
  km_privateKey : option CryptoKey;  (* KeyManager.privateKey *)
  km_publicKeyPem : option string    (* KeyManager.publicKeyPem *)
}.

Definition set_heap (h : gmap nat bytes) (n : nat) (w : World) : World :=
  mkWorld h n (trace w) (rng_pos w) (fs w)
          (km_publicKey w) (km_privateKey w) (km_publicKeyPem w).
Definition set_trace (t : list Event) (w : World) : World :=
  mkWorld (heap w) (next_loc w) t (rng_pos w) (fs w)
          (km_publicKey w) (km_privateKey w) (km_publicKeyPem w).
Definition set_rng_pos (p : nat) (w : World) : World :=
  mkWorld (heap w) (next_loc w) (trace w) p (fs w)
          (km_publicKey w) (km_privateKey w) (km_publicKeyPem w).
Definition set_fs (f : gmap string string) (w : World) : World :=
  mkWorld (heap w) (next_loc w) (trace w) (rng_pos w) f
          (km_publicKey w) (km_privateKey w) (km_publicKeyPem w).
Definition set_km (pub priv : option CryptoKey) (pem : option string) (w : World)
  : World :=
  mkWorld (heap w) (next_loc w) (trace w) (rng_pos w) (fs w) pub priv pem.

Inductive Outcome (A : Type) : Type :=
| Return (a : A)
| Throw (t : Thrown).
Arguments Return {A} a.
Arguments Throw {A} t.

Definition M (A : Type) : Type := World -> Outcome A * World.

Definition ret {A} (a : A) : M A := fun w => (Return a, w).

Definition bind {A B} (m : M A) (k : A -> M B) : M B :=
  fun w => match m w with
           | (Return a, w') => k a w'
           | (Throw t, w') => (Throw t, w')
           end.

Definition throw {A} (e : JsError) : M A := fun w => (Throw (ErrObj e), w).
Definition rethrow {A} (t : Thrown) : M A := fun w => (Throw t, w).

(** [try { m } catch (error) { h error }] *)
Definition try_catch {A} (m : M A) (h : Thrown -> M A) : M A :=
  fun w => match m w with
           | (Return a, w') => (Return a, w')
           | (Throw t, w') => h t w'
           end.

(** [try { m } finally { f }]: [f] runs on both exits; if [f] itself
    throws, that replaces the outcome of [m]. *)
Definition try_finally {A} (m : M A) (f : M unit) : M A :=
  fun w => match m w with
           | (r, w') => match f w' with
                        | (Return _, w'') => (r, w'')
                        | (Throw t, w'') => (Throw t, w'')
                        end
           end.

Declare Scope js_scope.
Delimit Scope js_scope with js.
Notation "x <- m ;; k" := (bind m (fun x => k))
  (at level 100, m at next level, right associativity) : js_scope.
Notation "m ;; k" := (bind m (fun _ => k))
  (at level 100, right associativity) : js_scope.
Local Open Scope js_scope.

Definition get_world : M World := fun w => (Return w, w).

Definition emit (e : Event) : M unit :=
  fun w => (Return tt, set_trace (e :: trace w) w).

Definition console_log (s : string) : M unit := emit (EvConsoleLog s).
Definition console_warn (s : string) : M unit := emit (EvConsoleWarn s).

(** Allocation of a fresh ArrayBuffer holding [bs]. *)
Definition alloc (bs : bytes) : M loc :=
  fun w => (Return (next_loc w),
            set_heap (<[next_loc w := bs]> (heap w)) (S (next_loc w)) w).

(** Contents of an ArrayBuffer (empty for a location never allocated). *)
Definition buffer_bytes (w : World) (b : loc) : bytes := heap w !!! b.

Definition read (b : loc) : M bytes := fun w => (Return (buffer_bytes w b), w).

Definition write (b : loc) (bs : bytes) : M unit :=
  fun w => (Return tt, set_heap (<[b := bs]> (heap w)) (next_loc w) w).

(** ** What the platform provides *)

Record HttpRequest : Type := mkRequest {
  req_method : HttpMethod;
  req_url : string;
  req_headers : list (string * string);
  req_body : bytes
}.

(** What the network does with a request: a response (status, headers,
    body bytes) or a rejection (connection error, 'Request timeout'). *)
Inductive NetReply : Type :=
| Responds (status : Z) (headers : list (string * string)) (body : bytes)
| Rejects (t : Thrown).

(** The Web Crypto primitives behind [SubtleCrypto], on key material. *)
Record Primitives : Type := mkPrimitives {
  (* key, iv, tagLength, data *)
  aes_gcm_encrypt : bytes -> bytes -> N -> bytes -> option bytes;
  aes_gcm_decrypt : bytes -> bytes -> N -> bytes -> option bytes;
  (* key, iv, data *)
  aes_cbc_encrypt : bytes -> bytes -> bytes -> option bytes;
  aes_cbc_decrypt : bytes -> bytes -> bytes -> option bytes;
  (* password, salt, iterations, key length in bits *)
  pbkdf2_hmac_sha256 : bytes -> bytes -> N -> N -> bytes;
  (* modulusLength, entropy stream, cursor: (PKCS8, SPKI) and new cursor *)
  rsa_generate : N -> (nat -> byte) -> nat -> (bytes * bytes) * nat;
  (* SPKI, OAEP seed, message *)
  rsa_oaep_encrypt : bytes -> bytes -> bytes -> option bytes;
  (* PKCS8, ciphertext *)
  rsa_oaep_decrypt : bytes -> bytes -> option bytes;
  (* importKey('spki' / 'pkcs8'): the encoding of the key read, None: DataError *)
  parse_spki : bytes -> option bytes;
  parse_pkcs8 : bytes -> option bytes
}.

Record Platform : Type := mkPlatform {
  has_window : bool;          (* typeof window !== 'undefined' *)
  has_btoa : bool;            (* typeof btoa !== 'undefined' *)
  has_atob : bool;            (* typeof atob !== 'undefined' *)
  has_global_crypto : bool;   (* typeof crypto !== 'undefined', with
                                 getRandomValues and subtle *)
  entropy : nat -> byte;      (* the output of the system CSPRNG, by position *)
  typed_array_headroom : N;   (* by how much the largest typed array length of
                                 the engine exceeds 2^30 - 1, the smallest
                                 limit there is (V8 on 32 bits) *)
  JSON_parse : string -> option JValue;        (* None: SyntaxError *)
  TextDecoder_decode : bytes -> string;
  Buffer_from_base64 : JValue -> option bytes; (* Buffer.from(x, 'base64'),
                                                  None: TypeError *)
  network : HttpRequest -> NetReply;
  fs_writable : string -> bool;                (* mkdir / writeFile allowed *)
  fs_chmod_ok : string -> bool;                (* chmod supported on the path *)
  path_join : string -> string -> string;      (* require('path').join *)
  path_dirname : string -> string;             (* require('path').dirname *)
  subtle : Primitives                          (* crypto.subtle *)
}.

(** ** Secure memory (src/core/memory/secure.ts, node.ts, browser.ts) *)

Inductive ProtectionMethod := mlock | zero_only | none.

Record ProtectionInfo : Type := mkProtectionInfo {
  canLock : bool;
  isPlatformSecure : bool;
  method : ProtectionMethod;
  details : string
}.

(** The [SecureMemory] interface. *)
Class SecureMemory : Type := mkSecureMemory {
  zeroMemory : loc -> M unit;
  getProtectionInfo : ProtectionInfo
}.

(** [new Uint8Array(data).fill(0)]: every byte of the buffer becomes 0,
    the length stays.  The call is recorded in the trace. *)
Definition fill_zero (data : loc) : M unit :=
  fun w => write data (replicate (length (buffer_bytes w data)) zero_byte) w.

Definition NodeSecureMemory : SecureMemory :=
  {| zeroMemory := fun data => (emit (EvZeroMemory data) ;; fill_zero data);
     getProtectionInfo :=
       mkProtectionInfo false false zero_only
         ("Node.js environment (pure JS): memory locking not available without native addon. "
          +:+ "Using immediate zeroing only. "
          +:+ "For enhanced security, consider implementing the optional native addon (see native/ directory).") |}.

Definition BrowserSecureMemory : SecureMemory :=
  {| zeroMemory := fun data => (emit (EvZeroMemory data) ;; fill_zero data);
     getProtectionInfo :=
       mkProtectionInfo false false zero_only
         "Browser environment: memory locking not available. Using immediate zeroing only." |}.

(** [createSecureMemory()]: chosen by [typeof window !== 'undefined']. *)
Definition createSecureMemory (pf : Platform) : SecureMemory :=
  if has_window pf then BrowserSecureMemory else NodeSecureMemory.

Record SecureByteContext : Type := mkSecureByteContext {
  sbc_data : loc;
  sbc_secureMemory : SecureMemory;
  sbc_useSecure : bool
}.

(** [new SecureByteContext(data, useSecure)] *)
Definition new_SecureByteContext (pf : Platform) (data : loc) (useSecure : bool)
  : SecureByteContext :=
  mkSecureByteContext data (createSecureMemory pf) useSecure.

(** [SecureByteContext.use(fn)] *)
Definition use {T} (ctx : SecureByteContext) (fn : loc -> M T) : M T :=
  try_finally
    (fn (sbc_data ctx))
    (if sbc_useSecure ctx
     then @zeroMemory (sbc_secureMemory ctx) (sbc_data ctx)
     else ret tt).

(** ** Codec utilities (src/core/crypto/utils.ts) *)

(** *** Base64 (RFC 4648), as [btoa], [atob] and [Buffer] implement it *)

Definition byte_of_N (n : N) : byte := byte_of_ascii (ascii_of_N n).

(** The base64 digit of a 6-bit value. *)
Definition b64_char (n : N) : ascii :=
  if (n <? 26)%N then ascii_of_N (n + 65)
  else if (n <? 52)%N then ascii_of_N (n + 71)
  else if (n <? 62)%N then ascii_of_N (n - 4)
  else if (n =? 62)%N then "+"%char else "/"%char.

(** The 6-bit value of a base64 digit. *)
Definition b64_index (c : ascii) : option N :=
  let n := N_of_ascii c in
  if ((65 <=? n) && (n <=? 90))%N then Some (n - 65)%N
  else if ((97 <=? n) && (n <=? 122))%N then Some (n - 71)%N
  else if ((48 <=? n) && (n <=? 57))%N then Some (n + 4)%N
  else if (n =? 43)%N then Some 62%N
  else if (n =? 47)%N then Some 63%N
  else None.

(** Three bytes give four 6-bit values; a tail of one or two bytes gives
    two or three, the missing low bits being 0. *)
Fixpoint sextets_of_bytes (bs : bytes) : list N :=
  match bs with
  | a :: b :: c :: rest =>
      let '(x, y, z) := (Byte.to_N a, Byte.to_N b, Byte.to_N c) in
      [x / 4; (x mod 4) * 16 + y / 16; (y mod 16) * 4 + z / 64; z mod 64]%N
        ++ sextets_of_bytes rest
  | [a; b] =>
      let '(x, y) := (Byte.to_N a, Byte.to_N b) in
      [x / 4; (x mod 4) * 16 + y / 16; (y mod 16) * 4]%N
  | [a] =>
      let x := Byte.to_N a in
      [x / 4; (x mod 4) * 16]%N
  | [] => []
  end.

Definition b64_padding (n : nat) : list ascii :=
  match n mod 3 with
  | 0 => []
  | 1 => ["="%char; "="%char]
  | _ => ["="%char]
  end.

(** The characters of an encoding: the digits, then the padding. *)
Definition encoded_chars (bs : bytes) : list ascii :=
  map b64_char (sextets_of_bytes bs) ++ b64_padding (length bs).

Definition base64_encode (bs : bytes) : string :=
  string_of_list_ascii (encoded_chars bs).

(** [btoa(binary)], where the binary string has one char code per byte,
    and [Buffer.from(bytes).toString('base64')]. *)
Definition btoa (binary : bytes) : string := base64_encode binary.
Definition Buffer_toString_base64 (bs : bytes) : string := base64_encode bs.

(** Four 6-bit values give three bytes; a tail of two or three gives one
    or two bytes, the remaining low bits being dropped. *)
Fixpoint bytes_of_sextets (sx : list N) : bytes :=
  match sx with
  | s1 :: s2 :: s3 :: s4 :: rest =>
      [byte_of_N (s1 * 4 + s2 / 16); byte_of_N ((s2 mod 16) * 16 + s3 / 4);
       byte_of_N ((s3 mod 4) * 64 + s4)]%N ++ bytes_of_sextets rest
  | [s1; s2; s3] =>
      [byte_of_N (s1 * 4 + s2 / 16); byte_of_N ((s2 mod 16) * 16 + s3 / 4)]%N
  | [s1; s2] => [byte_of_N (s1 * 4 + s2 / 16)%N]
  | _ => []
  end.

(** ASCII whitespace of the forgiving-base64 decoder: TAB, LF, FF, CR, SPACE. *)
Definition is_ascii_whitespace (c : ascii) : bool :=
  let n := N_of_ascii c in
  ((n =? 9) || (n =? 10) || (n =? 12) || (n =? 13) || (n =? 32))%N.

(** Removal of one or two trailing [=]. *)
Definition strip_b64_padding (l : list ascii) : list ascii :=
  match rev l with
  | "="%char :: "="%char :: r => rev r
  | "="%char :: r => rev r
  | _ => l
  end.

Fixpoint sextets_of_chars (l : list ascii) : option (list N) :=
  match l with
  | [] => Some []
  | c :: rest =>
      match b64_index c, sextets_of_chars rest with
      | Some n, Some ns => Some (n :: ns)
      | _, _ => None
      end
  end.

(** [atob(data)]: the forgiving-base64 decode; [None] is the
    InvalidCharacterError. *)
Definition atob (data : string) : option bytes :=
  let d := List.filter (fun c => negb (is_ascii_whitespace c))
                       (list_ascii_of_string data) in
  let d := if length d mod 4 =? 0 then strip_b64_padding d else d in
  if length d mod 4 =? 1 then None
  else match sextets_of_chars d with
       | Some sx => Some (bytes_of_sextets sx)
       | None => None
       end.


(** *** Strings: the operations of [String.prototype] the code uses *)

(** [s.startsWith(p)] *)
Definition startsWith (s p : string) : bool := String.prefix p s.

(** [s.replace(/\/$/, '')]: one trailing slash removed. *)
Fixpoint remove_trailing_slash (s : string) : string :=
  match s with
  | EmptyString => EmptyString
  | String c EmptyString => if Ascii.eqb c "/"%char then EmptyString else s
  | String c rest => String c (remove_trailing_slash rest)
  end.

Fixpoint string_drop (n : nat) (s : string) : string :=
  match n, s with
  | S n', String _ rest => string_drop n' rest
  | _, _ => s
  end.

(** [s.replace(pat, rep)] with a string pattern: the first occurrence. *)
Fixpoint replace_first (pat rep s : string) : string :=
  if String.prefix pat s then rep +:+ string_drop (String.length pat) s
  else match s with
       | EmptyString => EmptyString
       | String c rest => String c (replace_first pat rep rest)
       end.

(** [s.replace(/\s/g, '')]: every white space and line terminator of
    ECMAScript removed; on UTF-8 bytes these are TAB, LF, VT, FF, CR,
    SPACE, U+00A0, U+1680, U+2000..U+200A, U+2028, U+2029, U+202F, U+205F,
    U+3000 and U+FEFF. *)
Definition is_space1 (c : ascii) : bool :=
  let n := N_of_ascii c in
  (((9 <=? n) && (n <=? 13)) || (n =? 32))%N.

Definition is_space2 (c1 c2 : ascii) : bool :=
  ((N_of_ascii c1 =? 194) && (N_of_ascii c2 =? 160))%N.

Definition is_space3 (c1 c2 c3 : ascii) : bool :=
  let '(a, b, c) := (N_of_ascii c1, N_of_ascii c2, N_of_ascii c3) in
  (((a =? 225) && (b =? 154) && (c =? 128))
   || ((a =? 226) && (b =? 128)
       && (((128 <=? c) && (c <=? 138)) || (c =? 168) || (c =? 169) || (c =? 175)))
   || ((a =? 226) && (b =? 129) && (c =? 159))
   || ((a =? 227) && (b =? 128) && (c =? 128))
   || ((a =? 239) && (b =? 187) && (c =? 191)))%N.

Fixpoint remove_whitespace (s : string) : string :=
  match s with
  | EmptyString => EmptyString
  | String c1 rest1 =>
      if is_space1 c1 then remove_whitespace rest1
      else match rest1 with
           | String c2 rest2 =>
               if is_space2 c1 c2 then remove_whitespace rest2
               else match rest2 with
                    | String c3 rest3 =>
                        if is_space3 c1 c2 c3 then remove_whitespace rest3
                        else String c1 (remove_whitespace rest1)
                    | EmptyString => String c1 (remove_whitespace rest1)
                    end
           | EmptyString => String c1 EmptyString
           end
  end.

(** [s.match(/.{1,64}/g)?.join('\n') || s] on a string without line
    terminators (base64 text has none): a line feed after every 64
    characters that are followed by more. *)
Fixpoint wrap64 (col : nat) (s : string) : string :=
  match s with
  | EmptyString => EmptyString
  | String c rest =>
      if (col =? 64)%nat then String "010"%char (String c (wrap64 1 rest))
      else String c (wrap64 (S col) rest)
  end.

Definition LF : string := String "010"%char EmptyString.

(** *** PEM *)

Inductive PemType := PUBLIC | PRIVATE.

Definition pem_label (type : PemType) : string :=
  match type with PUBLIC => "PUBLIC" | PRIVATE => "PRIVATE" end.

Definition pem_header (type : PemType) : string :=
  "-----BEGIN " +:+ pem_label type +:+ " KEY-----".
Definition pem_footer (type : PemType) : string :=
  "-----END " +:+ pem_label type +:+ " KEY-----".

(** The [pemContents] of [pemToArrayBuffer]: header, footer and white
    space removed. *)
Definition pem_contents (pem : string) (type : PemType) : string :=
  let header := pem_header type in
  let footer := pem_footer type in
  remove_whitespace (replace_first footer "" (replace_first header "" pem)).

(** The text that [arrayBufferToPem] builds around the base64 of a buffer. *)
Definition pem_text (base64 : string) (type : PemType) : string :=
  let header := pem_header type in
  let footer := pem_footer type in
  let formatted := wrap64 0 base64 in
  header +:+ LF +:+ formatted +:+ LF +:+ footer.

(** ** JavaScript coercions on JSON values *)

(** [String(n)] for an integer. *)
Definition string_of_Z (n : Z) : string := pretty n.
Definition string_of_nat (n : nat) : string := pretty n.

Fixpoint leading_zeros (digits : list ascii) : nat :=
  match digits with
  | "0"%char :: rest => S (leading_zeros rest)
  | _ => 0
  end.

(** [Number::toString(x)] in radix 10 (ECMA-262, 6.1.6.1.20).  With [s]
    the [k] significant digits and [n] the position of the decimal point
    after the first of them: plain digits up to 10^21, a fraction with at
    most six leading zeros, the exponent form otherwise. *)
Definition Number_toString (x : JsNumber) : string :=
  match x with
  | NaN => "NaN"
  | Infinity negative => (if negative then "-" else "") +:+ "Infinity"
  | Decimal negative digits exponent =>
      if (digits =? 0)%N then "0"
      else
        let all := list_ascii_of_string (pretty digits) in
        let zeros := leading_zeros (rev all) in
        let s := take (length all - zeros) all in
        let k := Z.of_nat (length s) in
        let n := (k + exponent + Z.of_nat zeros)%Z in
        (if negative then "-" else "") +:+
        (if (k <=? n)%Z && (n <=? 21)%Z then
           string_of_list_ascii (s ++ replicate (Z.to_nat (n - k)) "0"%char)
         else if (0 <? n)%Z && (n <=? 21)%Z then
           string_of_list_ascii (take (Z.to_nat n) s ++ "."%char :: drop (Z.to_nat n) s)
         else if (-6 <? n)%Z && (n <=? 0)%Z then
           "0." +:+ string_of_list_ascii (replicate (Z.to_nat (- n)) "0"%char ++ s)
         else
           let e := (n - 1)%Z in
           let exp := "e" +:+ (if (e <? 0)%Z then "-" else "+") +:+ pretty (Z.abs_N e) in
           match s with
           | [] => exp
           | [d] => String d exp
           | d :: rest => string_of_list_ascii (d :: "."%char :: rest) +:+ exp
           end)
  end.

Fixpoint join (sep : string) (l : list string) : string :=
  match l with
  | [] => ""
  | [x] => x
  | x :: rest => x +:+ sep +:+ join sep rest
  end.

(** [String(v)], as template literals and [atob] apply it. *)
Fixpoint js_ToString (v : JValue) : string :=
  match v with
  | JUndefined => "undefined"
  | JNull => "null"
  | JBool true => "true"
  | JBool false => "false"
  | JNumber x => Number_toString x
  | JString s => s
  | JArray items =>
      join "," (map (fun x => match x with
                              | JUndefined | JNull => ""
                              | _ => js_ToString x
                              end) items)
  | JObject _ => "[object Object]"
  end.

(** Truthiness: [!!v]. *)
Definition truthy (v : JValue) : bool :=
  match v with
  | JUndefined | JNull | JBool false => false
  | JNumber NaN => false
  | JNumber (Infinity _) => true
  | JNumber (Decimal _ digits _) => negb (digits =? 0)%N
  | JString s => negb (String.eqb s "")
  | _ => true
  end.

(** [v.k] on a value that is not null or undefined: the own field of an
    object, [undefined] otherwise. *)
Definition get_field (v : JValue) (k : string) : JValue :=
  match v with
  | JObject fs => default JUndefined (assoc_lookup k fs)
  | _ => JUndefined
  end.

(** [k in v]: defined on objects and arrays (for the field names the code
    asks about, an array has none); a TypeError on primitives. *)
Definition has_field (k : string) (v : JValue) : option bool :=
  match v with
  | JObject fs => Some (bool_decide (is_Some (assoc_lookup k fs)))
  | JArray _ => Some false
  | _ => None
  end.

(** ** JSON.stringify *)

(** The double quote, as a one-character string. *)
Definition DQ : string := String "034"%char EmptyString.

Definition hex_digit (n : N) : ascii :=
  if (n <? 10)%N then ascii_of_N (n + 48) else ascii_of_N (n + 87).

(** QuoteJSONString on UTF-8 bytes: the quote, the backslash and the
    control characters below 0x20 are escaped. *)
Definition json_escape_char (c : ascii) : string :=
  let n := N_of_ascii c in
  if (n =? 34)%N then "\" +:+ DQ
  else if (n =? 92)%N then "\\"
  else if (n =? 8)%N then "\b"
  else if (n =? 9)%N then "\t"
  else if (n =? 10)%N then "\n"
  else if (n =? 12)%N then "\f"
  else if (n =? 13)%N then "\r"
  else if (n <? 32)%N then
    "\u00" +:+ String (hex_digit (n / 16)) (String (hex_digit (n mod 16)) "")
  else String c "".

Fixpoint json_escape (s : string) : string :=
  match s with
  | EmptyString => EmptyString
  | String c rest => json_escape_char c +:+ json_escape rest
  end.

Definition json_quote (s : string) : string :=
  DQ +:+ json_escape s +:+ DQ.

(** [JSON.stringify(v)] of a value: [None] where JavaScript gives
    [undefined] (the value [undefined] itself); inside an array
    [undefined] prints as null, inside an object the field is left out.
    A finite number prints as [String] prints it, the others as null. *)
Fixpoint JSON_stringify (v : JValue) : option string :=
  match v with
  | JUndefined => None
  | JNull => Some "null"
  | JBool true => Some "true"
  | JBool false => Some "false"
  | JNumber (Decimal _ _ _ as x) => Some (Number_toString x)
  | JNumber _ => Some "null"
  | JString s => Some (json_quote s)
  | JArray items =>
      Some ("[" +:+ join "," (map (fun x => default "null" (JSON_stringify x)) items)
                +:+ "]")
  | JObject fields =>
      Some ("{" +:+ join ","
                  (omap (fun kv => match JSON_stringify (snd kv) with
                                   | Some t => Some (json_quote (fst kv) +:+ ":" +:+ t)
                                   | None => None
                                   end) fields)
                +:+ "}")
  end.

(** ** The program *)

Section Utils.

Context (pf : Platform).

(** *** utils.ts, on buffers *)

(** [arrayBufferToBase64(buffer)] *)
Definition arrayBufferToBase64 (buffer : loc) : M string :=
  binary <- read buffer ;;
  if has_btoa pf then ret (btoa binary)
  else ret (Buffer_toString_base64 binary).

(** The binary string that [base64ToArrayBuffer] decodes its argument
    to: by [atob] where there is one, by [Buffer.from] otherwise. *)
Definition decode_base64 (base64 : JValue) : option bytes :=
  if has_atob pf then atob (js_ToString base64) else Buffer_from_base64 pf base64.

(** [base64ToArrayBuffer(base64)].  The argument is typed [string]; the
    fields of a parsed package reach it as they are, hence [JValue]. *)
Definition base64ToArrayBuffer (base64 : JValue) : M loc :=
  binary <- (if has_atob pf then
               match atob (js_ToString base64) with
               | Some b => ret b
               | None => throw (new_error (DOMException "InvalidCharacterError")
                                          "The string to be decoded is not correctly encoded.")
               end
             else
               match Buffer_from_base64 pf base64 with
               | Some b => ret b
               | None => throw (new_error TypeError
                                          "The first argument must be of type string")
               end) ;;
  alloc binary.

(** The next [n] bytes of the entropy stream. *)
Definition draw (n : nat) : M bytes :=
  fun w => (Return (map (entropy pf) (seq (rng_pos w) n)),
            set_rng_pos (rng_pos w + n) w).

(** [crypto.getRandomValues(new Uint8Array(n))]: at most 65536 bytes a call. *)
Definition crypto_getRandomValues (n : nat) : M loc :=
  if (65536 <? N.of_nat n)%N
  then throw (new_error (DOMException "QuotaExceededError")
                        "The requested length exceeds 65,536 bytes")
  else (bs <- draw n ;; alloc bs).

(** The largest [length] that [new Uint8Array(length)] accepts, the
    [kMaxLength] of buffers too: 2^30 - 1 on V8 on 32 bits, 2^32 - 1 or
    2^53 - 1 on 64 bits; never more than the 2^53 - 1 of [ToIndex]. *)
Definition max_typed_array_length : N :=
  N.min (2 ^ 53 - 1) (2 ^ 30 - 1 + typed_array_headroom pf).

(** [addNumericalSeparator] of Node.js: an underscore before every group
    of three digits, counted from the right. *)
Fixpoint separate_thousands (digits : list ascii) : list ascii :=
  match digits with
  | a :: b :: c :: ((_ :: _) as rest) =>
      a :: b :: c :: "_"%char :: separate_thousands rest
  | _ => digits
  end.

Definition addNumericalSeparator (val : string) : string :=
  string_of_list_ascii
    (rev (separate_thousands (rev (list_ascii_of_string val)))).

(** The message of the ERR_OUT_OF_RANGE that [crypto.randomBytes(size)]
    throws (lib/internal/errors.js): integers above 2^32 are printed with
    separators. *)
Definition size_out_of_range (size : N) : JsError :=
  new_error RangeError
    ("The value of " +:+ DQ +:+ "size" +:+ DQ +:+ " is out of range. It must be >= 0 && <= "
     +:+ pretty (N.min max_typed_array_length (2 ^ 31 - 1)) +:+ ". Received "
     +:+ (if (2 ^ 32 <? size)%N then addNumericalSeparator (pretty size)
          else pretty size)).

(** [generateRandomBytes(length)], for a length that is a natural number;
    the result is the [Uint8Array], given here by its buffer.  The array
    is made first: [new Uint8Array(length)] throws a RangeError past the
    limit of the engine.  [crypto.randomBytes(length)] of the Node.js
    fallback takes at most 2^31 - 1 bytes. *)
Definition generateRandomBytes (length : nat) : M loc :=
  if (max_typed_array_length <? N.of_nat length)%N
  then throw (new_error RangeError
                ("Invalid typed array length: " +:+ pretty (N.of_nat length)))
  else if has_global_crypto pf then crypto_getRandomValues length
  else if (N.min max_typed_array_length (2 ^ 31 - 1) <? N.of_nat length)%N
  then throw (size_out_of_range (N.of_nat length))
  else (randomBytes <- draw length ;; alloc randomBytes).

(** [stringToArrayBuffer(str)] *)
Definition stringToArrayBuffer (str : string) : M loc := alloc (utf8_encode str).

(** [arrayBufferToString(buffer)] *)
Definition arrayBufferToString (buffer : loc) : M string :=
  bs <- read buffer ;; ret (TextDecoder_decode pf bs).

(** [pemToArrayBuffer(pem, type)] *)
Definition pemToArrayBuffer (pem : string) (type : PemType) : M loc :=
  base64ToArrayBuffer (JString (pem_contents pem type)).

(** [arrayBufferToPem(buffer, type)] *)
Definition arrayBufferToPem (buffer : loc) (type : PemType) : M string :=
  base64 <- arrayBufferToBase64 buffer ;;
  ret (pem_text base64 type).

(** *** SubtleCrypto, as the program calls it *)

Definition OperationError : JsError :=
  new_error (DOMException "OperationError")
            "The operation failed for an operation-specific reason".
Definition InvalidAccessError : JsError :=
  new_error (DOMException "InvalidAccessError")
            "The requested operation is not valid for the provided key".
Definition DataError : JsError :=
  new_error (DOMException "DataError") "Invalid key data".

Definition of_option {A} (e : JsError) (o : option A) : M A :=
  match o with Some a => ret a | None => throw e end.

Definition require_kind (k : KeyKind) (key : CryptoKey) : M unit :=
  match k, key_kind key with
  | AesGcmKey, AesGcmKey | AesCbcKey, AesCbcKey | Pbkdf2Key, Pbkdf2Key
  | RsaPublicKey, RsaPublicKey | RsaPrivateKey, RsaPrivateKey => ret tt
  | _, _ => throw InvalidAccessError
  end.

(** [subtle.encrypt({name: 'AES-GCM', iv, tagLength}, key, data)] *)
Definition subtle_encrypt_AES_GCM (iv : loc) (tagLength : N) (key : CryptoKey)
    (data : loc) : M loc :=
  require_kind AesGcmKey key ;;
  ivb <- read iv ;;
  pt <- read data ;;
  ct <- of_option OperationError
          (aes_gcm_encrypt (subtle pf) (key_data key) ivb tagLength pt) ;;
  alloc ct.

(** [subtle.decrypt({name: 'AES-GCM', iv, tagLength}, key, data)] *)
Definition subtle_decrypt_AES_GCM (iv : loc) (tagLength : N) (key : CryptoKey)
    (data : loc) : M loc :=
  require_kind AesGcmKey key ;;
  ivb <- read iv ;;
  ct <- read data ;;
  pt <- of_option OperationError
          (aes_gcm_decrypt (subtle pf) (key_data key) ivb tagLength ct) ;;
  alloc pt.

(** [subtle.encrypt / decrypt({name: 'AES-CBC', iv}, key, data)] *)
Definition subtle_encrypt_AES_CBC (iv : loc) (key : CryptoKey) (data : loc) : M loc :=
  require_kind AesCbcKey key ;;
  ivb <- read iv ;;
  pt <- read data ;;
  ct <- of_option OperationError (aes_cbc_encrypt (subtle pf) (key_data key) ivb pt) ;;
  alloc ct.

Definition subtle_decrypt_AES_CBC (iv : loc) (key : CryptoKey) (data : loc) : M loc :=
  require_kind AesCbcKey key ;;
  ivb <- read iv ;;
  ct <- read data ;;
  pt <- of_option OperationError (aes_cbc_decrypt (subtle pf) (key_data key) ivb ct) ;;
  alloc pt.

(** [subtle.encrypt / decrypt({name: 'RSA-OAEP'}, key, data)]; encryption
    draws the 32-byte OAEP seed. *)
Definition subtle_encrypt_RSA_OAEP (key : CryptoKey) (data : loc) : M loc :=
  require_kind RsaPublicKey key ;;
  msg <- read data ;;
  seed <- draw 32 ;;
  ct <- of_option OperationError (rsa_oaep_encrypt (subtle pf) (key_data key) seed msg) ;;
  alloc ct.

Definition subtle_decrypt_RSA_OAEP (key : CryptoKey) (data : loc) : M loc :=
  require_kind RsaPrivateKey key ;;
  ct <- read data ;;
  pt <- of_option OperationError (rsa_oaep_decrypt (subtle pf) (key_data key) ct) ;;
  alloc pt.

(** [subtle.generateKey({name: 'AES-GCM', length: 256}, ...)] *)
Definition subtle_generateKey_AES_GCM_256 : M CryptoKey :=
  k <- draw 32 ;; ret (mkCryptoKey AesGcmKey k).

(** [subtle.generateKey({name: 'RSA-OAEP', modulusLength, ...}, ...)] *)
Definition subtle_generateKey_RSA_OAEP (modulusLength : N) : M (CryptoKey * CryptoKey) :=
  emit (EvRsaGenerate modulusLength) ;;
  fun w =>
    let '((pkcs8, spki), pos) := rsa_generate (subtle pf) modulusLength (entropy pf) (rng_pos w) in
    (Return (mkCryptoKey RsaPublicKey spki, mkCryptoKey RsaPrivateKey pkcs8),
     set_rng_pos pos w).

(** [subtle.exportKey(format, key)] for 'raw', 'spki' and 'pkcs8'. *)
Definition subtle_exportKey (format : KeyKind) (key : CryptoKey) : M loc :=
  require_kind format key ;;
  alloc (key_data key).

(** [subtle.importKey('raw', keyData, {name: 'AES-GCM', length: 256}, ...)] *)
Definition subtle_importKey_raw_AES_GCM (keyData : loc) : M CryptoKey :=
  bs <- read keyData ;;
  if (length bs =? 16)%nat || (length bs =? 24)%nat || (length bs =? 32)%nat
  then ret (mkCryptoKey AesGcmKey bs)
  else throw DataError.

(** [subtle.importKey('raw', keyData, 'PBKDF2', false, ['deriveKey'])] *)
Definition subtle_importKey_raw_PBKDF2 (keyData : loc) : M CryptoKey :=
  bs <- read keyData ;; ret (mkCryptoKey Pbkdf2Key bs).

(** [subtle.importKey('spki' / 'pkcs8', keyData, {name: 'RSA-OAEP', hash: 'SHA-256'}, ...)] *)
Definition subtle_importKey_spki (keyData : loc) : M CryptoKey :=
  bs <- read keyData ;;
  spki <- of_option DataError (parse_spki (subtle pf) bs) ;;
  ret (mkCryptoKey RsaPublicKey spki).

Definition subtle_importKey_pkcs8 (keyData : loc) : M CryptoKey :=
  bs <- read keyData ;;
  pkcs8 <- of_option DataError (parse_pkcs8 (subtle pf) bs) ;;
  ret (mkCryptoKey RsaPrivateKey pkcs8).

(** [subtle.deriveKey({name: 'PBKDF2', salt, iterations, hash: 'SHA-256'},
    passwordKey, {name: 'AES-CBC', length}, ...)] *)
Definition subtle_deriveKey_PBKDF2_AES_CBC (salt : loc) (iterations : N)
    (passwordKey : CryptoKey) (length : N) : M CryptoKey :=
  require_kind Pbkdf2Key passwordKey ;;
  s <- read salt ;;
  ret (mkCryptoKey AesCbcKey
         (pbkdf2_hmac_sha256 (subtle pf) (key_data passwordKey) s iterations length)).

(** [error instanceof Error ? error.message : 'Unknown error'] *)
Definition message_or_unknown (t : Thrown) : string :=
  match t with ErrObj e => message e | NonError _ => "Unknown error" end.

End Utils.

(** *** AESEncryption (src/core/crypto/encryption.ts) *)

Module AESEncryption.
Section WithPlatform.
Context (pf : Platform).

(** [generateKey()] *)
Definition generateKey : M CryptoKey := subtle_generateKey_AES_GCM_256 pf.

(** [encrypt(data, key)]: the pair [{ciphertext, nonce}]. *)
Definition encrypt (data : loc) (key : CryptoKey) : M (loc * loc) :=
  nonce <- generateRandomBytes pf 12 ;;
  ciphertext <- subtle_encrypt_AES_GCM pf nonce 128 key data ;;
  ret (ciphertext, nonce).

(** [decrypt(ciphertext, nonce, key)] *)
Definition decrypt (ciphertext nonce : loc) (key : CryptoKey) : M loc :=
  try_catch
    (plaintext <- subtle_decrypt_AES_GCM pf nonce 128 key ciphertext ;;
     ret plaintext)
    (fun error =>
       throw (new_error Error ("AES-GCM decryption failed: " +:+ message_or_unknown error))).

(** [exportKey(key)] *)
Definition exportKey (key : CryptoKey) : M loc := subtle_exportKey AesGcmKey key.

(** [importKey(keyData)] *)
Definition importKey (keyData : loc) : M CryptoKey :=
  bs <- read keyData ;;
  if negb (length bs =? 32)%nat
  then throw (new_error Error ("Invalid AES key length: expected 32 bytes, got "
                               +:+ string_of_nat (length bs)))
  else subtle_importKey_raw_AES_GCM keyData.

End WithPlatform.
End AESEncryption.

(** *** RSAOperations (src/core/crypto/rsa.ts) *)

(** [keySize: 2048 | 4096] *)
Inductive KeySize := K2048 | K4096.

Definition keySize_bits (k : KeySize) : N :=
  match k with K2048 => 2048 | K4096 => 4096 end.

(** [if (password)] on [password?: string], and the like on any optional
    string: absent and empty are falsy. *)
Definition password_given (password : option string) : option string :=
  match password with
  | Some p => if String.eqb p "" then None else Some p
  | None => None
  end.

Module RSAOperations.
Section WithPlatform.
Context (pf : Platform).

(** [generateKeyPair(keySize = 4096)]: [(publicKey, privateKey)]. *)
Definition generateKeyPair (keySize : KeySize) : M (CryptoKey * CryptoKey) :=
  subtle_generateKey_RSA_OAEP pf (keySize_bits keySize).

(** [encryptKey(aesKey, publicKey)] *)
Definition encryptKey (aesKey : loc) (publicKey : CryptoKey) : M loc :=
  subtle_encrypt_RSA_OAEP pf publicKey aesKey.

(** [decryptKey(encryptedKey, privateKey)] *)
Definition decryptKey (encryptedKey : loc) (privateKey : CryptoKey) : M loc :=
  try_catch
    (subtle_decrypt_RSA_OAEP pf privateKey encryptedKey)
    (fun error =>
       throw (new_error Error ("RSA-OAEP decryption failed: " +:+ message_or_unknown error))).

(** [exportPublicKey(publicKey)] *)
Definition exportPublicKey (publicKey : CryptoKey) : M string :=
  exported <- subtle_exportKey RsaPublicKey publicKey ;;
  arrayBufferToPem pf exported PUBLIC.

(** [importPublicKey(pem)] *)
Definition importPublicKey (pem : string) : M CryptoKey :=
  keyData <- pemToArrayBuffer pf pem PUBLIC ;;
  subtle_importKey_spki pf keyData.

(** The global [crypto.getRandomValues(new Uint8Array(n))] that rsa.ts
    calls directly: a ReferenceError where there is no global [crypto]. *)
Definition global_crypto_getRandomValues (n : nat) : M loc :=
  if has_global_crypto pf then crypto_getRandomValues pf n
  else throw (new_error ReferenceError "crypto is not defined").

(** [encryptPrivateKeyWithPassword(keyData, password)] *)
Definition encryptPrivateKeyWithPassword (keyData : loc) (password : string) : M string :=
  pw <- stringToArrayBuffer password ;;
  passwordKey <- subtle_importKey_raw_PBKDF2 pw ;;
  salt <- global_crypto_getRandomValues 16 ;;
  derivedKey <- subtle_deriveKey_PBKDF2_AES_CBC pf salt 100000 passwordKey 256 ;;
  iv <- global_crypto_getRandomValues 16 ;;
  encrypted <- subtle_encrypt_AES_CBC pf iv derivedKey keyData ;;
  saltb <- read salt ;;
  ivb <- read iv ;;
  encb <- read encrypted ;;
  combined <- alloc (saltb ++ ivb ++ encb) ;;
  arrayBufferToPem pf combined PRIVATE.

(** [decryptPrivateKeyWithPassword(pem, password)] *)
Definition decryptPrivateKeyWithPassword (pem : string) (password : string) : M loc :=
  combined <- pemToArrayBuffer pf pem PRIVATE ;;
  combinedArray <- read combined ;;
  salt <- alloc (take 16 combinedArray) ;;
  iv <- alloc (take 16 (drop 16 combinedArray)) ;;
  encrypted <- alloc (drop 32 combinedArray) ;;
  pw <- stringToArrayBuffer password ;;
  passwordKey <- subtle_importKey_raw_PBKDF2 pw ;;
  derivedKey <- subtle_deriveKey_PBKDF2_AES_CBC pf salt 100000 passwordKey 256 ;;
  try_catch
    (subtle_decrypt_AES_CBC pf iv derivedKey encrypted)
    (fun error =>
       throw (new_error Error
                "Failed to decrypt private key: invalid password or corrupted key")).

(** [exportPrivateKey(privateKey, password?)] *)
Definition exportPrivateKey (privateKey : CryptoKey) (password : option string)
  : M string :=
  exported <- subtle_exportKey RsaPrivateKey privateKey ;;
  match password_given password with
  | Some p =>
      encryptedKey <- encryptPrivateKeyWithPassword exported p ;;
      ret encryptedKey
  | None => arrayBufferToPem pf exported PRIVATE
  end.

(** [importPrivateKey(pem, password?)] *)
Definition importPrivateKey (pem : string) (password : option string) : M CryptoKey :=
  keyData <- match password_given password with
             | Some p => decryptPrivateKeyWithPassword pem p
             | None => pemToArrayBuffer pf pem PRIVATE
             end ;;
  subtle_importKey_pkcs8 pf keyData.

End WithPlatform.
End RSAOperations.

(** *** The file system, as [require('fs').promises] *)

Section FileSystem.
Context (pf : Platform).

Definition fs_error (code path : string) : JsError :=
  new_error Error (code +:+ ": " +:+ path).

Definition fs_access (path : string) : M unit :=
  fun w => match fs w !! path with
           | Some _ => (Return tt, w)
           | None => (Throw (ErrObj (fs_error "ENOENT" path)), w)
           end.

Definition fs_readFile (path : string) : M string :=
  fun w => match fs w !! path with
           | Some content => (Return content, w)
           | None => (Throw (ErrObj (fs_error "ENOENT" path)), w)
           end.

Definition fs_mkdir (path : string) : M unit :=
  if fs_writable pf path then ret tt else throw (fs_error "EACCES" path).

Definition fs_writeFile (path content : string) : M unit :=
  if fs_writable pf path
  then fun w => (Return tt, set_fs (<[path := content]> (fs w)) w)
  else throw (fs_error "EACCES" path).

Definition fs_chmod (path : string) : M unit :=
  if fs_chmod_ok pf path then ret tt else throw (fs_error "EPERM" path).

End FileSystem.

(** *** KeyManager (src/core/crypto/keys.ts) *)

Record KeyGenOptions : Type := mkKeyGenOptions {
  kg_keySize : option KeySize;
  kg_saveToFile : option bool;
  kg_keyDir : option string;
  kg_password : option string
}.

Record KeyPaths : Type := mkKeyPaths {
  privateKeyPath : string;
  publicKeyPath : option string
}.

Module KeyManager.
Section WithPlatform.
Context (pf : Platform).

Definition set_publicKey (k : CryptoKey) : M unit :=
  fun w => (Return tt, set_km (Some k) (km_privateKey w) (km_publicKeyPem w) w).
Definition set_privateKey (k : CryptoKey) : M unit :=
  fun w => (Return tt, set_km (km_publicKey w) (Some k) (km_publicKeyPem w) w).
Definition set_publicKeyPem (pem : string) : M unit :=
  fun w => (Return tt, set_km (km_publicKey w) (km_privateKey w) (Some pem) w).

(** [saveKeys(directory, password?)] *)
Definition saveKeys (directory : string) (password : option string) : M unit :=
  if has_window pf
  then throw (new_error Error "File-based key saving is not supported in browsers")
  else
    w <- get_world ;;
    match km_privateKey w, km_publicKey w with
    | Some privateKey, Some publicKey =>
        console_log ("Saving keys to " +:+ directory +:+ "/...") ;;
        fs_mkdir pf directory ;;
        privateKeyPem <- RSAOperations.exportPrivateKey pf privateKey password ;;
        let privateKeyPath := path_join pf directory "private_key.pem" in
        fs_writeFile pf privateKeyPath privateKeyPem ;;
        try_catch
          (fs_chmod pf privateKeyPath ;;
           console_log "Private key permissions set to 600 (owner-only access)")
          (fun error => console_warn "Could not set private key permissions:") ;;
        w' <- get_world ;;
        publicKeyPem <- match password_given (km_publicKeyPem w') with
                        | Some pem => ret pem
                        | None =>
                            pem <- RSAOperations.exportPublicKey pf publicKey ;;
                            set_publicKeyPem pem ;;
                            ret pem
                        end ;;
        let publicKeyPath := path_join pf directory "public_key.pem" in
        fs_writeFile pf publicKeyPath publicKeyPem ;;
        try_catch
          (fs_chmod pf publicKeyPath ;;
           console_log "Public key permissions set to 644")
          (fun error => console_warn "Could not set public key permissions:") ;;
        match password_given password with
        | Some _ => console_log "Private key encrypted with password"
        | None => console_warn "Private key saved UNENCRYPTED (not recommended for production)"
        end ;;
        console_log ("Keys saved to " +:+ directory +:+ "/")
    | _, _ => throw (new_error Error "No keys to save. Generate or load keys first.")
    end.

(** [generateKeys(options = {})] *)
Definition generateKeys (options : KeyGenOptions) : M unit :=
  let keySize := default K4096 (kg_keySize options) in
  let saveToFile := default false (kg_saveToFile options) in
  let keyDir := default "client_keys" (kg_keyDir options) in
  let password := kg_password options in
  console_log ("Generating " +:+ pretty (keySize_bits keySize) +:+ "-bit RSA key pair...") ;;
  keyPair <- RSAOperations.generateKeyPair pf keySize ;;
  set_publicKey (fst keyPair) ;;
  set_privateKey (snd keyPair) ;;
  pem <- RSAOperations.exportPublicKey pf (fst keyPair) ;;
  set_publicKeyPem pem ;;
  console_log ("Generated " +:+ pretty (keySize_bits keySize) +:+ "-bit RSA key pair") ;;
  if saveToFile then saveKeys keyDir password else ret tt.

(** [loadKeys(paths, password?)] *)
Definition loadKeys (paths : KeyPaths) (password : option string) : M unit :=
  if has_window pf
  then throw (new_error Error
                "File-based key loading is not supported in browsers. Use in-memory keys only.")
  else
    console_log "Loading keys from files..." ;;
    privateKeyPem <- fs_readFile (privateKeyPath paths) ;;
    privateKey <- RSAOperations.importPrivateKey pf privateKeyPem password ;;
    set_privateKey privateKey ;;
    match password_given (publicKeyPath paths) with
    | Some path =>
        pem <- fs_readFile path ;;
        set_publicKeyPem pem ;;
        publicKey <- RSAOperations.importPublicKey pf pem ;;
        set_publicKey publicKey
    | None =>
        let path := path_join pf (path_dirname pf (privateKeyPath paths)) "public_key.pem" in
        pem <- fs_readFile path ;;
        set_publicKeyPem pem ;;
        publicKey <- RSAOperations.importPublicKey pf pem ;;
        set_publicKey publicKey
    end ;;
    console_log "Keys loaded successfully".

(** [getPublicKeyPEM()] *)
Definition getPublicKeyPEM : M string :=
  w <- get_world ;;
  match password_given (km_publicKeyPem w) with
  | Some pem => ret pem
  | None =>
      match km_publicKey w with
      | None => throw (new_error Error
                         "No public key available. Generate or load keys first.")
      | Some publicKey =>
          pem <- RSAOperations.exportPublicKey pf publicKey ;;
          set_publicKeyPem pem ;;
          ret pem
      end
  end.

(** [getPrivateKey()] *)
Definition getPrivateKey : M CryptoKey :=
  w <- get_world ;;
  match km_privateKey w with
  | None => throw (new_error Error "No private key available. Generate or load keys first.")
  | Some k => ret k
  end.

(** [getPublicKey()] *)
Definition getPublicKey : M CryptoKey :=
  w <- get_world ;;
  match km_publicKey w with
  | None => throw (new_error Error "No public key available. Generate or load keys first.")
  | Some k => ret k
  end.

(** [hasKeys()] *)
Definition hasKeys : M bool :=
  w <- get_world ;;
  ret (bool_decide (is_Some (km_privateKey w)) && bool_decide (is_Some (km_publicKey w))).

End WithPlatform.
End KeyManager.

(** *** HttpClient (src/core/http/client.ts, node.ts, browser.ts) *)

Record HttpResponse : Type := mkResponse {
  resp_statusCode : Z;
  resp_headers : list (string * string);
  resp_body : loc
}.

Section Http.
Context (pf : Platform).

(** A request goes out (and is recorded); the reply of the network is the
    response, its body in a fresh buffer, or the rejection. *)
Definition http_send (req : HttpRequest) : M HttpResponse :=
  emit (EvHttp (req_method req) (req_url req)) ;;
  match network pf req with
  | Responds status headers body =>
      b <- alloc body ;; ret (mkResponse status headers b)
  | Rejects t => rethrow t
  end.

(** [httpClient.get(url, {timeout})] *)
Definition http_get (url : string) : M HttpResponse :=
  http_send (mkRequest GET url [] []).

(** [httpClient.post(url, {headers, body, timeout})] *)
Definition http_post (url : string) (headers : list (string * string)) (body : loc)
  : M HttpResponse :=
  bs <- read body ;;
  http_send (mkRequest POST url headers bs).

End Http.

(** [encodeURIComponent(s)] on UTF-8 bytes: every byte but the unreserved
    marks, digits and letters becomes %XX. *)
Definition uri_unreserved (c : ascii) : bool :=
  let n := N_of_ascii c in
  (((65 <=? n) && (n <=? 90)) || ((97 <=? n) && (n <=? 122))
   || ((48 <=? n) && (n <=? 57))
   || (n =? 45) || (n =? 95) || (n =? 46) || (n =? 33) || (n =? 126)
   || (n =? 42) || (n =? 39) || (n =? 40) || (n =? 41))%N.

Definition upper_hex_digit (n : N) : ascii :=
  if (n <? 10)%N then ascii_of_N (n + 48) else ascii_of_N (n + 55).

Fixpoint encodeURIComponent (s : string) : string :=
  match s with
  | EmptyString => EmptyString
  | String c rest =>
      if uri_unreserved c then String c (encodeURIComponent rest)
      else String "%"%char
             (String (upper_hex_digit (N_of_ascii c / 16))
                (String (upper_hex_digit (N_of_ascii c mod 16))
                   (encodeURIComponent rest)))
  end.

(** The own enumerable properties that an object spread copies. *)
Definition own_properties (v : JValue) : list (string * JValue) :=
  match v with
  | JObject fs => fs
  | JArray items => imap (fun i x => (pretty i, x)) items
  | JString s =>
      imap (fun i c => (pretty i, JString (String c EmptyString)))
           (list_ascii_of_string s)
  | _ => []
  end.

(** [v.k] as an expression: a TypeError on null and undefined. *)
Definition get_prop (v : JValue) (k : string) : M JValue :=
  match v with
  | JUndefined | JNull =>
      throw (new_error TypeError ("Cannot read properties of " +:+ js_ToString v
                                  +:+ " (reading '" +:+ k +:+ "')"))
  | _ => ret (get_field v k)
  end.

(** [v.k = x] in strict code: a TypeError on primitives; a named property
    set on an array is not part of its JSON value. *)
Definition set_prop (v : JValue) (k : string) (x : JValue) : M JValue :=
  match v with
  | JObject fs => ret (JObject (assoc_set k x fs))
  | JArray items => ret (JArray items)
  | _ => throw (new_error TypeError ("Cannot create property '" +:+ k +:+ "' on "
                                     +:+ js_ToString v))
  end.

(** [for (const field of fields) if (!(field in obj)) throw new Error(msg + field)] *)
Fixpoint require_fields (fields : list string) (obj : JValue) (msg : string) : M unit :=
  match fields with
  | [] => ret tt
  | field :: rest =>
      match has_field field obj with
      | None => throw (new_error TypeError
                         ("Cannot use 'in' operator to search for '" +:+ field +:+ "' in "
                          +:+ js_ToString obj))
      | Some false => throw (new_error Error (msg +:+ field))
      | Some true => require_fields rest obj msg
      end
  end.

(** *** SecureCompletionClient (src/core/SecureCompletionClient.ts) *)

Record ClientConfig : Type := mkClientConfig {
  cfg_routerUrl : string;
  cfg_allowHttp : option bool;
  cfg_secureMemory : option bool;
  cfg_keySize : option KeySize;
  cfg_apiKey : option string
}.

(** The object that [SecureCompletionClient.generateKeys] is called with:
    [saveToFile], [keyDir] and [password] by its declared type, and a
    [keySize] when the caller's object carries one (a [KeyGenOptions] is
    assignable to the parameter). *)
Record GenerateKeysOptions : Type := mkGenerateKeysOptions {
  gk_keySize : option KeySize;
  gk_saveToFile : option bool;
  gk_keyDir : option string;
  gk_password : option string
}.

Definition protection_method_name (m : ProtectionMethod) : string :=
  match m with mlock => "mlock" | zero_only => "zero-only" | none => "none" end.

Definition SECURITY_ERROR_MESSAGE : string :=
  "Decryption failed: integrity check or authentication failed".

Module SecureCompletionClient.

(** The fields of a client; its key manager is the one of the world. *)
Record t : Type := mkClient {
  routerUrl : string;
  allowHttp : bool;
  secureMemory : bool
}.

Section WithPlatform.
Context (pf : Platform).

(** [new SecureCompletionClient(config)] *)
Definition constructor (config : option ClientConfig) : M t :=
  let config := default (mkClientConfig "https://api.nomyo.ai:12434" None None None None)
                        config in
  let routerUrl := cfg_routerUrl config in
  let allowHttp := default false (cfg_allowHttp config) in
  let secureMemory := default true (cfg_secureMemory config) in
  let keySize := default K4096 (cfg_keySize config) in
  let this_routerUrl := remove_trailing_slash routerUrl in
  (if negb (startsWith this_routerUrl "https://") then
     if negb allowHttp then
       console_warn ("⚠️  WARNING: Using HTTP instead of HTTPS. "
                     +:+ "This is INSECURE and should only be used for local development. "
                     +:+ "Man-in-the-middle attacks are possible!")
     else console_log "HTTP mode enabled for local development (INSECURE)"
   else ret tt) ;;
  let protectionInfo := @getProtectionInfo (createSecureMemory pf) in
  console_log ("Memory protection: " +:+ protection_method_name (method protectionInfo)
               +:+ " (" +:+ details protectionInfo +:+ ")") ;;
  ret (mkClient this_routerUrl allowHttp secureMemory).

(** [generateKeys(options = {})]: [{keySize: 4096, ...options}]; the
    spread puts the [keySize] of [options], when it has one, over the
    4096. *)
Definition generateKeys (this : t) (options : GenerateKeysOptions) : M unit :=
  KeyManager.generateKeys pf
    (mkKeyGenOptions (match gk_keySize options with
                      | Some keySize => Some keySize
                      | None => Some K4096
                      end)
                     (gk_saveToFile options) (gk_keyDir options)
                     (gk_password options)).

(** [loadKeys(privateKeyPath, publicKeyPath?, password?)] *)
Definition loadKeys (this : t) (privateKeyPath : string) (publicKeyPath : option string)
    (password : option string) : M unit :=
  KeyManager.loadKeys pf (mkKeyPaths privateKeyPath publicKeyPath) password.

(** [ensureKeys()] *)
Definition ensureKeys (this : t) : M unit :=
  has <- KeyManager.hasKeys ;;
  if (has : bool) then ret tt
  else
    loaded <- (if negb (has_window pf) then
                 try_catch
                   (let privateKeyPath := path_join pf "client_keys" "private_key.pem" in
                    let publicKeyPath := path_join pf "client_keys" "public_key.pem" in
                    fs_access privateKeyPath ;;
                    fs_access publicKeyPath ;;
                    loadKeys this privateKeyPath (Some publicKeyPath) None ;;
                    console_log "Loaded existing keys from client_keys/" ;;
                    ret true)
                   (fun error =>
                      console_log "No existing keys found, generating new keys..." ;;
                      ret false)
               else ret false) ;;
    if (loaded : bool) then ret tt
    else generateKeys this
           (mkGenerateKeysOptions None (Some (negb (has_window pf))) (Some "client_keys")
                                  None).

(** [fetchServerPublicKey()] *)
Definition fetchServerPublicKey (this : t) : M string :=
  console_log "Fetching server's public key..." ;;
  (if negb (startsWith (routerUrl this) "https://") then
     if negb (allowHttp this) then
       throw (new_error SecurityError
                ("Server public key must be fetched over HTTPS to prevent MITM attacks. "
                 +:+ "For local development, initialize with allowHttp=true: "
                 +:+ "new SecureChatCompletion({ baseUrl: " +:+ DQ
                 +:+ "http://localhost:12434" +:+ DQ +:+ ", allowHttp: true })"))
     else console_warn "Fetching key over HTTP (local development mode)"
   else ret tt) ;;
  let url := routerUrl this +:+ "/pki/public_key" in
  try_catch
    (response <- http_get pf url ;;
     if (resp_statusCode response =? 200)%Z then
       serverPublicKey <- arrayBufferToString pf (resp_body response) ;;
       try_catch
         (RSAOperations.importPublicKey pf serverPublicKey ;; ret tt)
         (fun error => throw (new_error Error "Server returned invalid public key format")) ;;
       (if startsWith (routerUrl this) "https://"
        then console_log "Server's public key fetched securely over HTTPS"
        else console_warn "Server's public key fetched over HTTP (INSECURE)") ;;
       ret serverPublicKey
     else
       throw (new_error Error ("Failed to fetch server's public key: HTTP "
                               +:+ string_of_Z (resp_statusCode response))))
    (fun error =>
       if instanceof_SecurityError error then rethrow error
       else match error with
            | ErrObj e =>
                throw (new_error APIConnectionError
                         ("Failed to fetch server's public key: " +:+ message e))
            | NonError _ => rethrow error
            end).

(** The object literal [encryptedPackage] of [performEncryption]. *)
Definition encryptedPackage (ciphertext nonce encryptedAesKey : string) : JValue :=
  JObject
    [("version", JString "1.0");
     ("algorithm", JString "hybrid-aes256-rsa4096");
     ("encrypted_payload",
       JObject [("ciphertext", JString ciphertext); ("nonce", JString nonce)]);
     ("encrypted_aes_key", JString encryptedAesKey);
     ("key_algorithm", JString "RSA-OAEP-SHA256");
     ("payload_algorithm", JString "AES-256-GCM")].

(** [JSON.stringify(v)] where the program expects a string: [undefined]
    reaches [stringToArrayBuffer] as the text it coerces to. *)
Definition stringify (v : JValue) : string := default "undefined" (JSON_stringify v).

(** [performEncryption(payloadBytes)] *)
Definition performEncryption (this : t) (payloadBytes : loc) : M loc :=
  aesKey <- AESEncryption.generateKey pf ;;
  aesKeyBytes <- AESEncryption.exportKey aesKey ;;
  let aesContext := new_SecureByteContext pf aesKeyBytes (secureMemory this) in
  use aesContext (fun protectedAesKey =>
    cn <- AESEncryption.encrypt pf payloadBytes aesKey ;;
    let '(ciphertext, nonce) := cn in
    serverPublicKeyPem <- fetchServerPublicKey this ;;
    serverPublicKey <- RSAOperations.importPublicKey pf serverPublicKeyPem ;;
    encryptedAesKey <- RSAOperations.encryptKey pf protectedAesKey serverPublicKey ;;
    ciphertext64 <- arrayBufferToBase64 pf ciphertext ;;
    nonce64 <- arrayBufferToBase64 pf nonce ;;
    encryptedAesKey64 <- arrayBufferToBase64 pf encryptedAesKey ;;
    let packageJson := stringify (encryptedPackage ciphertext64 nonce64 encryptedAesKey64) in
    packageBytes <- stringToArrayBuffer packageJson ;;
    w <- get_world ;;
    console_log ("Encrypted package size: "
                 +:+ string_of_nat (length (buffer_bytes w packageBytes)) +:+ " bytes") ;;
    ret packageBytes).

Definition MAX_PAYLOAD_SIZE : N := 10 * 1024 * 1024.

(** [typeof v === 'object'] *)
Definition typeof_object (v : JValue) : bool :=
  match v with JNull | JArray _ | JObject _ => true | _ => false end.

(** [encryptPayload(payload)] *)
Definition encryptPayload (this : t) (payload : JValue) : M loc :=
  console_log "Encrypting payload..." ;;
  if negb (truthy payload) || negb (typeof_object payload)
  then throw (new_error Error "Payload must be an object")
  else
    ensureKeys this ;;
    let payloadJson := stringify payload in
    payloadBytes <- stringToArrayBuffer payloadJson ;;
    w <- get_world ;;
    let byteLength := N.of_nat (length (buffer_bytes w payloadBytes)) in
    if (MAX_PAYLOAD_SIZE <? byteLength)%N
    then throw (new_error Error ("Payload too large: " +:+ pretty byteLength
                                 +:+ " bytes (max: " +:+ pretty MAX_PAYLOAD_SIZE +:+ ")"))
    else
      console_log ("Payload size: " +:+ pretty byteLength +:+ " bytes") ;;
      if secureMemory this then
        let context := new_SecureByteContext pf payloadBytes true in
        use context (fun protectedPayload => performEncryption this protectedPayload)
      else performEncryption this payloadBytes.

(** [JSON.parse(text)]: a SyntaxError where the text is not JSON. *)
Definition json_parse (text : string) : M JValue :=
  of_option (new_error SyntaxError "Unexpected token in JSON")
            (JSON_parse pf text).

(** The [_metadata] literal that [decryptResponse] assigns. *)
Definition response_metadata (old : JValue) (payloadId : string) (packageData : JValue)
  : JValue :=
  JObject
    (assoc_set "encryption_algorithm" (get_field packageData "algorithm")
       (assoc_set "is_encrypted" (JBool true)
          (assoc_set "processed_at" (get_field packageData "processed_at")
             (assoc_set "payload_id" (JString payloadId) (own_properties old))))).

(** The body of the [try] block of [decryptResponse]. *)
Definition decrypt_package (this : t) (packageData : JValue) (payloadId : string)
  : M JValue :=
  encryptedAesKey <- base64ToArrayBuffer pf (get_field packageData "encrypted_aes_key") ;;
  privateKey <- KeyManager.getPrivateKey ;;
  aesKeyBytes <- RSAOperations.decryptKey pf encryptedAesKey privateKey ;;
  let aesContext := new_SecureByteContext pf aesKeyBytes (secureMemory this) in
  response <- use aesContext (fun protectedAesKey =>
    aesKey <- AESEncryption.importKey protectedAesKey ;;
    encrypted_payload <- get_prop packageData "encrypted_payload" ;;
    c64 <- get_prop encrypted_payload "ciphertext" ;;
    ciphertext <- base64ToArrayBuffer pf c64 ;;
    n64 <- get_prop encrypted_payload "nonce" ;;
    nonce <- base64ToArrayBuffer pf n64 ;;
    plaintext <- AESEncryption.decrypt pf ciphertext nonce aesKey ;;
    let plaintextContext := new_SecureByteContext pf plaintext (secureMemory this) in
    use plaintextContext (fun protectedPlaintext =>
      responseJson <- arrayBufferToString pf protectedPlaintext ;;
      json_parse responseJson)) ;;
  old <- get_prop response "_metadata" ;;
  response <- (if negb (truthy old) then set_prop response "_metadata" (JObject [])
               else ret response) ;;
  old <- get_prop response "_metadata" ;;
  response <- set_prop response "_metadata" (response_metadata old payloadId packageData) ;;
  console_log "Response decrypted successfully" ;;
  ret response.

(** [decryptResponse(encryptedResponse, payloadId)] *)
Definition decryptResponse (this : t) (encryptedResponse : loc) (payloadId : string)
  : M JValue :=
  console_log "Decrypting response..." ;;
  body <- read encryptedResponse ;;
  if (length body =? 0)%nat
  then throw (new_error Error "Empty encrypted response")
  else
    packageData <-
      try_catch
        (packageJson <- arrayBufferToString pf encryptedResponse ;;
         json_parse packageJson)
        (fun error =>
           throw (new_error Error "Invalid encrypted package format: malformed JSON")) ;;
    require_fields ["version"; "algorithm"; "encrypted_payload"; "encrypted_aes_key"]
                   packageData "Missing required field in encrypted package: " ;;
    require_fields ["ciphertext"; "nonce"] (get_field packageData "encrypted_payload")
                   "Missing field in encrypted_payload: " ;;
    try_catch
      (decrypt_package this packageData payloadId)
      (fun error => throw (new_error SecurityError SECURITY_ERROR_MESSAGE)).

(** [handleErrorResponse(response)]: the error to throw. *)
Definition handleErrorResponse (this : t) (response : HttpResponse) : M JsError :=
  errorData <-
    try_catch
      (errorJson <- arrayBufferToString pf (resp_body response) ;;
       json_parse errorJson)
      (fun e => ret (JObject [])) ;;
  d <- get_prop errorData "detail" ;;
  let detail := if truthy d then js_ToString d else "Unknown error" in
  let status := resp_statusCode response in
  if (status =? 400)%Z then
    ret (new_api_error InvalidRequestError ("Bad request: " +:+ detail) 400 errorData)
  else if (status =? 401)%Z then
    ret (new_api_error AuthenticationError
           ("Invalid API key or authentication failed: " +:+ detail) 401 errorData)
  else if (status =? 404)%Z then
    ret (new_api_error APIError ("Endpoint not found: " +:+ detail) 404 errorData)
  else if (status =? 429)%Z then
    ret (new_api_error RateLimitError ("Rate limit exceeded: " +:+ detail) 429 errorData)
  else if (status =? 500)%Z then
    ret (new_api_error ServerError ("Server error: " +:+ detail) 500 errorData)
  else
    ret (new_api_error APIError ("Unexpected status code: " +:+ string_of_Z status)
           status errorData).

(** Step 3 of [sendSecureRequest]: the [try] block that posts the
    package and the [catch] that follows it. *)
Definition transmit (this : t) (url : string) (headers : list (string * string))
    (encryptedPayload : loc) (payloadId : string) : M JValue :=
  try_catch
    (response <- http_post pf url headers encryptedPayload ;;
     console_log ("HTTP Status: " +:+ string_of_Z (resp_statusCode response)) ;;
     if (resp_statusCode response =? 200)%Z then
       decryptedResponse <- decryptResponse this (resp_body response) payloadId ;;
       ret decryptedResponse
     else
       e <- handleErrorResponse this response ;;
       throw e)
    (fun error =>
       match error with
       | ErrObj e =>
           if String.eqb (message e) "Request timeout"
           then throw (new_error APIConnectionError "Connection to server timed out")
           else throw (new_error APIConnectionError
                         ("Failed to connect to router: " +:+ message e))
       | NonError _ => rethrow error
       end).

(** [sendSecureRequest(payload, payloadId, apiKey?)] *)
Definition sendSecureRequest (this : t) (payload : JValue) (payloadId : string)
    (apiKey : option string) : M JValue :=
  console_log "Sending secure chat completion request..." ;;
  ensureKeys this ;;
  encryptedPayload <- encryptPayload this payload ;;
  publicKeyPem <- KeyManager.getPublicKeyPEM pf ;;
  let headers :=
    [("X-Payload-ID", payloadId);
     ("X-Public-Key", encodeURIComponent publicKeyPem);
     ("Content-Type", "application/octet-stream")]
    ++ match password_given apiKey with
       | Some key => [("Authorization", "Bearer " +:+ key)]
       | None => []
       end in
  let url := routerUrl this +:+ "/v1/chat/secure_completion" in
  console_log ("Target URL: " +:+ url) ;;
  transmit this url headers encryptedPayload payloadId.

End WithPlatform.
End SecureCompletionClient.

(** ** Statements about runs *)

(** What the scoped secret context promises for one run of [use]: the
    result is the one of the inner operation, [use] adds one call of
    [zeroMemory] on the buffer after it, and the buffer then holds zeros
    only. *)
Definition zeroed_once {T} (ctx : SecureByteContext) (fn : loc -> M T) (w : World)
  : Prop :=
  let inner := fn (sbc_data ctx) w in
  let final := use ctx fn w in
  final.1 = inner.1
  /\ trace final.2 = EvZeroMemory (sbc_data ctx) :: trace inner.2
  /\ buffer_bytes final.2 (sbc_data ctx)
     = replicate (length (buffer_bytes inner.2 (sbc_data ctx))) zero_byte.

(** The HTTP requests issued so far, newest first. *)
Definition http_requests (w : World) : list (HttpMethod * string) :=
  omap (fun e => match e with EvHttp m url => Some (m, url) | _ => None end) (trace w).

(** The modulus lengths of the RSA key pairs generated so far, newest first. *)
Definition rsa_generations (w : World) : list N :=
  omap (fun e => match e with EvRsaGenerate n => Some n | _ => None end) (trace w).

(** The buffers [zeroMemory] was called on so far, newest first. *)
Definition zeroed_buffers (w : World) : list loc :=
  omap (fun e => match e with EvZeroMemory b => Some b | _ => None end) (trace w).

(** A computation keeps a relation between the world before and after. *)
Definition keeps (R : World -> World -> Prop) {A} (m : M A) : Prop :=
  forall w, R w (m w).2.

(** Two worlds agree on an observation. *)
Definition same_on {X} (obs : World -> X) : World -> World -> Prop :=
  fun w w' => obs w' = obs w.

(** An observation that reads the trace only. *)
Definition trace_only {X} (obs : World -> X) : Prop :=
  forall w w', trace w = trace w' -> obs w = obs w'.

(** A relation that holds across the recording of an event. *)
Definition admits (R : World -> World -> Prop) (e : Event) : Prop :=
  forall w, R w (set_trace (e :: trace w) w).

(** A frame: a preorder on worlds that holds across every allocation,
    every draw of entropy, every change of the file system or of the key
    manager, and every line on the console. *)
Class Frame (R : World -> World -> Prop) : Prop := {
  frame_preorder :: PreOrder R;
  frame_alloc : forall bs w,
    R w (set_heap (<[next_loc w := bs]> (heap w)) (S (next_loc w)) w);
  frame_rng : forall p w, R w (set_rng_pos p w);
  frame_fs : forall f w, R w (set_fs f w);
  frame_km : forall pub priv pem w, R w (set_km pub priv pem w);
  frame_log : forall s, admits R (EvConsoleLog s);
  frame_warn : forall s, admits R (EvConsoleWarn s)
}.

(** The heap grows: the buffers allocated so far keep their contents and
    fresh locations stay fresh or get allocated. *)
Definition grows : World -> World -> Prop :=
  fun w w' =>
    next_loc w <= next_loc w'
    /\ forall b, b < next_loc w -> heap w' !! b = heap w !! b.

(** The channel rule of [fetchServerPublicKey]. *)
Definition insecure_channel (this : SecureCompletionClient.t) : bool :=
  negb (startsWith (SecureCompletionClient.routerUrl this) "https://")
  && negb (SecureCompletionClient.allowHttp this).

(** [config] with its [keySize] replaced. *)
Definition with_keySize (k : option KeySize) (config : ClientConfig) : ClientConfig :=
  mkClientConfig (cfg_routerUrl config) (cfg_allowHttp config) (cfg_secureMemory config)
                 k (cfg_apiKey config).

(** The invariant the specification gives to ClientConfig: a secure
    transport scheme unless allowHttp is true. *)
Definition channel_invariant (this : SecureCompletionClient.t) : Prop :=
  startsWith (SecureCompletionClient.routerUrl this) "https://" = true
  \/ SecureCompletionClient.allowHttp this = true.

(** The error class the taxonomy gives to a status code. *)
Definition taxonomy_class (status : Z) : ErrorClass :=
  if (status =? 400)%Z then InvalidRequestError
  else if (status =? 401)%Z then AuthenticationError
  else if (status =? 429)%Z then RateLimitError
  else if (status =? 500)%Z then ServerError
  else APIError.

(** The world after [AESEncryption.encrypt] has drawn its nonce: twelve
    bytes of entropy in a fresh buffer, the cursor moved past them. *)
Definition after_nonce (pf : Platform) (w : World) : World :=
  set_heap (<[next_loc w := map (entropy pf) (seq (rng_pos w) 12)]> (heap w))
           (S (next_loc w)) (set_rng_pos (rng_pos w + 12) w).

(** The law of AES-GCM: decryption under the same key, iv and tag length
    gives back what was encrypted. *)
Definition aes_gcm_correct (prim : Primitives) : Prop :=
  forall key iv tagLength data ct,
    aes_gcm_encrypt prim key iv tagLength data = Some ct ->
    aes_gcm_decrypt prim key iv tagLength ct = Some data.

(** The premise of the claims on [decryptResponse]: the parsed package
    has the required fields. *)
Definition fields_present (fields : list string) (obj : JValue) : bool :=
  forallb (fun k => bool_decide (has_field k obj = Some true)) fields.

Definition package_fields_present (packageData : JValue) : bool :=
  fields_present ["version"; "algorithm"; "encrypted_payload"; "encrypted_aes_key"]
                 packageData
  && fields_present ["ciphertext"; "nonce"] (get_field packageData "encrypted_payload").

(** Every step of the decryption sequence succeeds: base64 decoding of the
    wrapped key, RSA-OAEP unwrap with the private key of the key manager,
    AES key import, base64 decoding of ciphertext and nonce, AES-256-GCM
    decryption, parsing of the plaintext. *)
Definition decryption_steps_succeed (pf : Platform) (packageData : JValue) (w : World)
  : Prop :=
  exists wrapped privateKey keyBytes ciphertext nonce plaintext json,
    decode_base64 pf (get_field packageData "encrypted_aes_key") = Some wrapped
    /\ km_privateKey w = Some privateKey
    /\ key_kind privateKey = RsaPrivateKey
    /\ rsa_oaep_decrypt (subtle pf) (key_data privateKey) wrapped = Some keyBytes
    /\ length keyBytes = 32
    /\ decode_base64 pf (get_field (get_field packageData "encrypted_payload") "ciphertext")
       = Some ciphertext
    /\ decode_base64 pf (get_field (get_field packageData "encrypted_payload") "nonce")
       = Some nonce
    /\ aes_gcm_decrypt (subtle pf) keyBytes nonce 128 ciphertext = Some plaintext
    /\ JSON_parse pf (TextDecoder_decode pf plaintext) = Some json.

(** The one error [decryptResponse] lets out of its decryption block. *)
Definition decryption_failed : Thrown :=
  ErrObj (new_error SecurityError SECURITY_ERROR_MESSAGE).

(** The envelope on the wire, character for character. *)
Definition envelope_text (ciphertext nonce encryptedAesKey : string) : string :=
  "{" +:+ DQ +:+ "version" +:+ DQ +:+ ":" +:+ DQ +:+ "1.0" +:+ DQ +:+ ","
  +:+ DQ +:+ "algorithm" +:+ DQ +:+ ":" +:+ DQ +:+ "hybrid-aes256-rsa4096" +:+ DQ +:+ ","
  +:+ DQ +:+ "encrypted_payload" +:+ DQ +:+ ":{"
  +:+ DQ +:+ "ciphertext" +:+ DQ +:+ ":" +:+ DQ +:+ ciphertext +:+ DQ +:+ ","
  +:+ DQ +:+ "nonce" +:+ DQ +:+ ":" +:+ DQ +:+ nonce +:+ DQ +:+ "},"
  +:+ DQ +:+ "encrypted_aes_key" +:+ DQ +:+ ":" +:+ DQ +:+ encryptedAesKey +:+ DQ +:+ ","
  +:+ DQ +:+ "key_algorithm" +:+ DQ +:+ ":" +:+ DQ +:+ "RSA-OAEP-SHA256" +:+ DQ +:+ ","
  +:+ DQ +:+ "payload_algorithm" +:+ DQ +:+ ":" +:+ DQ +:+ "AES-256-GCM" +:+ DQ +:+ "}".

(** A character that the PEM reader keeps and that cannot start the
    footer: it is no white space, it is ASCII, and it is not the hyphen. *)
Definition pem_safe (c : ascii) : bool :=
  negb (is_space1 c) && (N_of_ascii c <? 128)%N && negb (Ascii.eqb c "-"%char).

(** The law of AES-CBC: decryption under the same key and iv gives back
    what was encrypted. *)
Definition aes_cbc_correct (prim : Primitives) : Prop :=
  forall key iv data ct,
    aes_cbc_encrypt prim key iv data = Some ct ->
    aes_cbc_decrypt prim key iv ct = Some data.

(** The base64 decoder of the platform reads what the encoder writes
    ([atob] does; [Buffer.from] is taken at its word). *)
Definition decodes_base64 (pf : Platform) : Prop :=
  forall bs, decode_base64 pf (JString (base64_encode bs)) = Some bs.

(** An RSA private key as [generateKey] and [importKey] make them: its
    material is the PKCS8 encoding that [importKey] reads back. *)
Definition well_formed_private_key (pf : Platform) (key : CryptoKey) : Prop :=
  key_kind key = RsaPrivateKey
  /\ parse_pkcs8 (subtle pf) (key_data key) = Some (key_data key).

(** The AES-256-CBC key of a password: PBKDF2-HMAC-SHA256, 100,000
    iterations, 256 bits. *)
Definition derived_key (pf : Platform) (password : string) (salt : bytes) : bytes :=
  pbkdf2_hmac_sha256 (subtle pf) (utf8_encode password) salt 100000 256.

(** The layout of a password-protected key: salt(16), iv(16), then the
    AES-256-CBC ciphertext of the PKCS8 bytes under the derived key. *)
Definition password_layout (pf : Platform) (key : CryptoKey) (password : string)
    (salt iv ct : bytes) : Prop :=
  length salt = 16 /\ length iv = 16
  /\ aes_cbc_encrypt (subtle pf) (derived_key pf password salt) iv (key_data key) = Some ct.

(** The one error of a failed password decryption. *)
Definition private_key_decrypt_failed : Thrown :=
  ErrObj (new_error Error "Failed to decrypt private key: invalid password or corrupted key").

(** What [pemToArrayBuffer] decodes a PEM text to. *)
Definition pem_decode (pf : Platform) (pem : string) (type : PemType) : option bytes :=
  decode_base64 pf (JString (pem_contents pem type)).

(** ** A concrete platform, for examples *)

Module Example.

(** A message authentication stand-in of 16 bytes. *)
Definition mac (key iv : bytes) : bytes :=
  take 16 (key ++ iv ++ replicate 16 zero_byte).

Definition bytes_eqb (a b : bytes) : bool := bool_decide (a = b).

(** Stand-ins for the Web Crypto primitives: they keep the laws of the
    real ones (decryption inverts encryption under the same key and iv and
    rejects anything else) and nothing of their secrecy. *)
Definition seal (key iv data : bytes) : option bytes := Some (data ++ mac key iv).

Definition unseal (key iv data : bytes) : option bytes :=
  let n := length data - 16 in
  if (16 <=? length data)%nat && bytes_eqb (drop n data) (mac key iv)
  then Some (take n data) else None.

(** A key encoding is accepted when it starts like a DER SEQUENCE. *)
Definition parse_der (b : bytes) : option bytes :=
  match b with
  | Byte.x30 :: _ => Some b
  | _ => None
  end.

Definition primitives : Primitives :=
  {| aes_gcm_encrypt := fun key iv _ data => seal key iv data;
     aes_gcm_decrypt := fun key iv _ data => unseal key iv data;
     aes_cbc_encrypt := seal;
     aes_cbc_decrypt := unseal;
     pbkdf2_hmac_sha256 := fun password salt _ bits =>
       take (N.to_nat (bits / 8)) (password ++ salt ++ replicate 32 zero_byte);
     rsa_generate := fun bits ent pos =>
       let k := Byte.x30 :: map ent (seq pos 4) in ((k, k), pos + 4);
     rsa_oaep_encrypt := fun spki seed msg => seal spki [] msg;
     rsa_oaep_decrypt := fun pkcs8 ct => unseal pkcs8 [] ct;
     parse_spki := parse_der;
     parse_pkcs8 := parse_der |}.

(** A Node.js platform without network: every request is refused. *)
Definition node (parse : string -> option JValue) (net : HttpRequest -> NetReply)
  : Platform :=
  {| has_window := false;
     has_btoa := true;
     has_atob := true;
     has_global_crypto := true;
     entropy := fun n => byte_of_N (N.of_nat n * 7 + 3);
     typed_array_headroom := 2 ^ 32 - 2 ^ 30;
     JSON_parse := parse;
     TextDecoder_decode := string_of_list_byte;
     Buffer_from_base64 := fun v => atob (js_ToString v);
     network := net;
     fs_writable := fun _ => true;
     fs_chmod_ok := fun _ => true;
     path_join := fun a b => a +:+ "/" +:+ b;
     path_dirname := fun p => p;
     subtle := primitives |}.

Definition offline : HttpRequest -> NetReply :=
  fun _ => Rejects (ErrObj (new_error Error "getaddrinfo ENOTFOUND")).

Definition no_json : string -> option JValue := fun _ => None.

(** [{ routerUrl: 'http://localhost:12434' }] *)
Definition http_config : ClientConfig :=
  mkClientConfig "http://localhost:12434" None None None None.

(** The PEM of the router's public key [30 01 02 03]. *)
Definition router_pem : string :=
  "-----BEGIN PUBLIC KEY-----" +:+ LF +:+ "MAECAw==" +:+ LF +:+ "-----END PUBLIC KEY-----".

(** The body of the router's 401 reply and what JSON.parse reads from it. *)
Definition unauthorized_body : string :=
  "{" +:+ DQ +:+ "detail" +:+ DQ +:+ ":" +:+ DQ +:+ "bad key" +:+ DQ +:+ "}".

Definition parse_unauthorized (text : string) : option JValue :=
  if String.eqb text unauthorized_body
  then Some (JObject [("detail", JString "bad key")])
  else None.

(** A router that serves its public key and answers every submission
    with 401. *)
Definition router_401 (req : HttpRequest) : NetReply :=
  match req_method req with
  | GET => Responds 200 [] (utf8_encode router_pem)
  | POST => Responds 401 [] (utf8_encode unauthorized_body)
  end.

(** [{ routerUrl: 'https://api.nomyo.ai:12434' }] after construction. *)
Definition https_client : SecureCompletionClient.t :=
  SecureCompletionClient.mkClient "https://api.nomyo.ai:12434" false true.

(** [{"model":"x","messages":[]}] *)
Definition chat_payload : JValue :=
  JObject [("model", JString "x"); ("messages", JArray [])].

(** An RSA private key, by its PKCS8 bytes. *)
Definition private_key : CryptoKey :=
  mkCryptoKey RsaPrivateKey [Byte.x30; Byte.x0a; Byte.x0b].

(** A world whose key manager already holds a key pair. *)
Definition ready_world : World :=
  mkWorld ∅ 0 [] 0 ∅
          (Some (mkCryptoKey RsaPublicKey [Byte.x30; Byte.x0a; Byte.x0b]))
          (Some private_key)
          None.

(** A 256-bit AES key and a world holding the payload at location 0. *)
Definition aes_key : CryptoKey :=
  mkCryptoKey AesGcmKey (replicate 32 Byte.x2a).

Definition world_with_payload : World :=
  mkWorld {[ 0 := utf8_encode "{}" ]} 1 [] 0 ∅ None None None.

(** A package whose wrapped key is not base64, its text, and a world
    holding that text at location 0. *)
Definition tampered_package : JValue :=
  SecureCompletionClient.encryptedPackage "AAAA" "AAAAAAAAAAAAAAAA" "!not-base64!".

Definition tampered_text : string := SecureCompletionClient.stringify tampered_package.

Definition parse_tampered (text : string) : option JValue :=
  if String.eqb text tampered_text then Some tampered_package else None.

Definition world_with_response : World :=
  mkWorld {[ 0 := utf8_encode tampered_text ]} 1 [] 0 ∅
          (Some (mkCryptoKey RsaPublicKey [Byte.x30; Byte.x0a; Byte.x0b]))
          (Some private_key)
          None.

(** The PEM that [exportPrivateKey] writes for [private_key] under the
    password hunter2, from the empty world. *)
Definition protected_pem : string :=
  Eval vm_compute in
    match (RSAOperations.exportPrivateKey (node no_json offline) private_key
             (Some "hunter2") (mkWorld ∅ 0 [] 0 ∅ None None None)).1 with
    | Return pem => pem
    | Throw _ => ""
    end.

Definition empty_world : World :=
  mkWorld ∅ 0 [] 0 ∅ None None None.

(** A world with one three-byte buffer at location 0. *)
Definition world_with_secret : World :=
  mkWorld {[ 0 := [Byte.x01; Byte.x02; Byte.x03] ]} 1 [] 0 ∅ None None None.

End Example.

(** ** Further statements about runs *)

(** An RSA public key as [generateKey] and [importKey] make them: its
    material is the SPKI encoding that [importKey] reads back. *)
Definition well_formed_public_key (pf : Platform) (key : CryptoKey) : Prop :=
  key_kind key = RsaPublicKey
  /\ parse_spki (subtle pf) (key_data key) = Some (key_data key).

(** The law of RSA-OAEP for a key pair: the private key decrypts what was
    encrypted to the public key, whatever the seed. *)
Definition rsa_oaep_correct (prim : Primitives) (publicKey privateKey : CryptoKey)
  : Prop :=
  forall seed msg ct,
    rsa_oaep_encrypt prim (key_data publicKey) seed msg = Some ct ->
    rsa_oaep_decrypt prim (key_data privateKey) ct = Some msg.

(** Whether a PEM text imports as an RSA public key: its body decodes and
    [importKey] reads the bytes as SPKI. *)
Definition imports_as_public_key (pf : Platform) (pem : string) : bool :=
  match pem_decode pf pem PUBLIC with
  | Some bs => bool_decide (is_Some (parse_spki (subtle pf) bs))
  | None => false
  end.

(** Something thrown that the [catch] of [sendSecureRequest] wraps with
    the prefix 'Failed to connect to router: ': an error object whose
    message is not the 'Request timeout' of the HTTP client. *)
Definition not_a_timeout (t : Thrown) : Prop :=
  match t with
  | ErrObj e => String.eqb (message e) "Request timeout" = false
  | NonError _ => False
  end.

(** A computation that issues the request [x] once and no other, or fails
    without having issued any. *)
Definition sends_or_fails (x : HttpMethod * string) {A} (m : M A) : Prop :=
  forall w,
    (http_requests (m w).2 = http_requests w /\ exists t, (m w).1 = Throw t)
    \/ http_requests (m w).2 = x :: http_requests w.

(** The world after [zeroMemory(data)]: the call is recorded and every
    byte of the buffer is 0. *)
Definition zeroed (data : loc) (w : World) : World :=
  set_heap (<[data := replicate (length (buffer_bytes w data)) zero_byte]> (heap w))
           (next_loc w)
           (set_trace (EvZeroMemory data :: trace w) w).

(** The SPKI bytes of the key that a PEM text imports as, if it does. *)
Definition imported_public_key (pf : Platform) (pem : string) : option bytes :=
  match pem_decode pf pem PUBLIC with
  | Some bs => parse_spki (subtle pf) bs
  | None => None
  end.

(** A memory frame: a preorder on worlds that holds across every
    allocation and every draw of entropy. *)
Class MemFrame (R : World -> World -> Prop) : Prop := {
  mem_preorder :: PreOrder R;
  mem_alloc : forall bs w,
    R w (set_heap (<[next_loc w := bs]> (heap w)) (S (next_loc w)) w);
  mem_rng : forall p w, R w (set_rng_pos p w)
}.

(** Two worlds with the same files and the same key manager. *)
Definition same_store : World -> World -> Prop :=
  fun w w' =>
    fs w' = fs w
    /\ km_publicKey w' = km_publicKey w
    /\ km_privateKey w' = km_privateKey w
    /\ km_publicKeyPem w' = km_publicKeyPem w.

(** The world in which [encryptPayload] has printed its first line and
    made sure of the keys: where it goes on to serialise the payload. *)
Definition keys_ensured (pf : Platform) (this : SecureCompletionClient.t) (w : World)
  : World :=
  (SecureCompletionClient.ensureKeys pf this
     (set_trace (EvConsoleLog "Encrypting payload..." :: trace w) w)).2.

(** The client with another [secureMemory]. *)
Definition with_secureMemory (secureMemory : bool) (this : SecureCompletionClient.t)
  : SecureCompletionClient.t :=
  SecureCompletionClient.mkClient (SecureCompletionClient.routerUrl this)
    (SecureCompletionClient.allowHttp this) secureMemory.

(** Two worlds with the same key pair in the key manager. *)
Definition same_keys : World -> World -> Prop :=
  fun w w' =>
    km_publicKey w' = km_publicKey w /\ km_privateKey w' = km_privateKey w.

(** ** SecureChatCompletion (src/api/SecureChatCompletion.ts) *)

Record ChatCompletionConfig : Type := mkChatCompletionConfig {
  cc_baseUrl : option string;
  cc_allowHttp : option bool;
  cc_apiKey : option string;
  cc_secureMemory : option bool
}.

(** [delete obj[k]] on an object literal. *)
Definition delete_field (k : string) (fs : list (string * JValue))
  : list (string * JValue) :=
  List.filter (fun kv => negb (String.eqb (fst kv) k)) fs.

(** [this.apiKey], a string or undefined, as a value. *)
Definition optional_string (s : option string) : JValue :=
  match s with
  | Some s => JString s
  | None => JUndefined
  end.

Module SecureChatCompletion.

(** The fields of the object. *)
Record t : Type := mkChat {
  client : SecureCompletionClient.t;
  apiKey : option string
}.

Section WithPlatform.
Context (pf : Platform).

(** [new SecureChatCompletion(config = {})] *)
Definition constructor (config : option ChatCompletionConfig) : M t :=
  let config := default (mkChatCompletionConfig None None None None) config in
  let baseUrl := default "https://api.nomyo.ai:12434"%string (cc_baseUrl config) in
  let allowHttp := default false (cc_allowHttp config) in
  let apiKey := cc_apiKey config in
  let secureMemory := default true (cc_secureMemory config) in
  client <- SecureCompletionClient.constructor pf
              (Some (mkClientConfig baseUrl (Some allowHttp) (Some secureMemory)
                                    None None)) ;;
  ret (mkChat client apiKey).

(** [generatePayloadId()], from the reading of [Date.now()] and the text
    [Math.random().toString(36)] of the number drawn:
    [substring(2, 15)] keeps at most 13 characters from the third on. *)
Definition generatePayloadId (now : Z) (random36 : string) : string :=
  let timestamp := now in
  let random := substring 2 13 random36 in
  string_of_Z timestamp +:+ "-" +:+ random.

(** [client.sendSecureRequest(payload, payloadId, apiKey)] as [create]
    calls it: the [apiKey] it passes is [api_key || this.apiKey], a value
    of any type, which [if (apiKey)] tests for truthiness and the template
    literal turns into text. *)
Definition sendSecureRequest (this : SecureCompletionClient.t) (payload : JValue)
    (payloadId : string) (apiKey : JValue) : M JValue :=
  console_log "Sending secure chat completion request..." ;;
  SecureCompletionClient.ensureKeys pf this ;;
  encryptedPayload <- SecureCompletionClient.encryptPayload pf this payload ;;
  publicKeyPem <- KeyManager.getPublicKeyPEM pf ;;
  let headers :=
    [("X-Payload-ID", payloadId);
     ("X-Public-Key", encodeURIComponent publicKeyPem);
     ("Content-Type", "application/octet-stream")]%string
    ++ (if truthy apiKey
        then [("Authorization", "Bearer " +:+ js_ToString apiKey)]%string
        else []) in
  let url := SecureCompletionClient.routerUrl this +:+ "/v1/chat/secure_completion" in
  console_log ("Target URL: " +:+ url) ;;
  SecureCompletionClient.transmit pf this url headers encryptedPayload payloadId.

(** [create(request)], at the time [now] and with the random text
    [random36] (see [generatePayloadId]). *)
Definition create (this : t) (now : Z) (random36 : string) (request : JValue)
  : M JValue :=
  let payloadId := "openai-compat-" +:+ generatePayloadId now random36 in
  api_key <- get_prop request "api_key" ;;
  let apiKey := if truthy api_key then api_key else optional_string (apiKey this) in
  let payload := JObject (delete_field "api_key" (own_properties request)) in
  if negb (truthy (get_field payload "model"))
  then throw (new_error Error "Missing required field: model")
  else
    let messages := get_field payload "messages" in
    if negb (truthy messages)
       || negb (match messages with JArray _ => true | _ => false end)
    then throw (new_error Error "Missing or invalid required field: messages")
    else
      response <- sendSecureRequest (client this) payload payloadId apiKey ;;
      ret response.

(** [acreate(request)] *)
Definition acreate (this : t) (now : Z) (random36 : string) (request : JValue)
  : M JValue :=
  create this now random36 request.

End WithPlatform.
End SecureChatCompletion.

(** The request has no usable [model]: absent or falsy. *)
Definition lacks_model (fields : list (string * JValue)) : Prop :=
  truthy (default JUndefined (assoc_lookup "model" fields)) = false.

(** The request's [messages] is an array. *)
Definition messages_array (fields : list (string * JValue)) : Prop :=
  exists items, assoc_lookup "messages" fields = Some (JArray items).

(** ** More concrete cases *)

Module Fixtures.

(** A Node.js without the global [crypto] object (before Node 19): the
    platform of the examples in every other respect. *)
Definition legacy_node : Platform :=
  let pf := Example.node Example.no_json Example.offline in
  {| has_window := false;
     has_btoa := has_btoa pf;
     has_atob := has_atob pf;
     has_global_crypto := false;
     entropy := entropy pf;
     typed_array_headroom := typed_array_headroom pf;
     JSON_parse := JSON_parse pf;
     TextDecoder_decode := TextDecoder_decode pf;
     Buffer_from_base64 := Buffer_from_base64 pf;
     network := network pf;
     fs_writable := fs_writable pf;
     fs_chmod_ok := fs_chmod_ok pf;
     path_join := path_join pf;
     path_dirname := path_dirname pf;
     subtle := subtle pf |}.

(** The public key that goes with [Example.private_key]. *)
Definition public_key : CryptoKey :=
  mkCryptoKey RsaPublicKey [Byte.x30; Byte.x0a; Byte.x0b].

(** [{ routerUrl: 'https://api.nomyo.ai:12434', secureMemory: false }]
    after construction. *)
Definition plain_client : SecureCompletionClient.t :=
  SecureCompletionClient.mkClient "https://api.nomyo.ai:12434" false false.

(** An encrypted reply of the router to the client that holds
    [Example.private_key]: the JSON text of [{"id":"r1"}] under a session
    key, the session key wrapped to the client. *)
Definition reply_json : JValue := JObject [("id", JString "r1")].

Definition reply_text : string := SecureCompletionClient.stringify reply_json.

Definition session_key : bytes := replicate 32 Byte.x2a.

Definition reply_nonce : bytes := replicate 12 Byte.x01.

Definition reply_ciphertext : bytes :=
  default [] (Example.seal session_key reply_nonce (utf8_encode reply_text)).

Definition reply_wrapped_key : bytes :=
  default [] (Example.seal (key_data Example.private_key) [] session_key).

Definition reply_package : JValue :=
  SecureCompletionClient.encryptedPackage
    (base64_encode reply_ciphertext) (base64_encode reply_nonce)
    (base64_encode reply_wrapped_key).

Definition reply_package_text : string := SecureCompletionClient.stringify reply_package.

Definition parse_reply (text : string) : option JValue :=
  if String.eqb text reply_package_text then Some reply_package
  else if String.eqb text reply_text then Some reply_json
  else None.

(** A world that holds the reply at location 0 and the client's keys. *)
Definition world_with_reply : World :=
  mkWorld {[ 0 := utf8_encode reply_package_text ]} 1 [] 0 ∅
          (Some public_key) (Some Example.private_key) None.

(** A fresh process on a machine whose client_keys directory holds a
    private key protected with the password hunter2, and its public key. *)
Definition world_with_protected_keys : World :=
  mkWorld ∅ 0 [] 0
          (<["client_keys/private_key.pem"%string := Example.protected_pem]>
             (<["client_keys/public_key.pem"%string :=
                  pem_text (base64_encode (key_data public_key)) PUBLIC]> ∅))
          None None None.

(** A Node.js whose disk is read-only: the platform of the examples in
    every other respect. *)
Definition readonly_node : Platform :=
  let pf := Example.node Example.no_json Example.offline in
  {| has_window := false;
     has_btoa := has_btoa pf;
     has_atob := has_atob pf;
     has_global_crypto := has_global_crypto pf;
     entropy := entropy pf;
     typed_array_headroom := typed_array_headroom pf;
     JSON_parse := JSON_parse pf;
     TextDecoder_decode := TextDecoder_decode pf;
     Buffer_from_base64 := Buffer_from_base64 pf;
     network := network pf;
     fs_writable := fun _ => false;
     fs_chmod_ok := fs_chmod_ok pf;
     path_join := path_join pf;
     path_dirname := path_dirname pf;
     subtle := subtle pf |}.

(** A process that holds a key pair, on a machine where keys/private.pem
    holds another private key, unprotected, and there is no public key
    file. *)
Definition other_private_key : CryptoKey :=
  mkCryptoKey RsaPrivateKey [Byte.x30; Byte.x0c; Byte.x0d].

Definition world_with_lone_private_key : World :=
  mkWorld ∅ 0 [] 0
          {[ "keys/private.pem"%string :=
               pem_text (base64_encode (key_data other_private_key)) PRIVATE ]}
          (Some public_key) (Some Example.private_key) None.

End Fixtures.

(** * Properties *)

(** ** Base64 on known vectors *)

Example base64_encode_ex :
  base64_encode (list_byte_of_string "Many hands make light work.")
  = "TWFueSBoYW5kcyBtYWtlIGxpZ2h0IHdvcmsu"%string
  /\ base64_encode (list_byte_of_string "light w") = "bGlnaHQgdw=="%string
  /\ base64_encode (list_byte_of_string "light wo") = "bGlnaHQgd28="%string.
Proof. repeat split; reflexivity. Qed.

Example atob_ex :
  atob "bGlnaHQgd28=" = Some (list_byte_of_string "light wo")
  /\ atob "bGln aHQg
dw" = Some (list_byte_of_string "light w")
  /\ atob "abcde" = None /\ atob "ab-d" = None.
Proof. repeat split; reflexivity. Qed.

Example string_ops_ex :
  remove_trailing_slash "https://a.b/" = "https://a.b"%string
  /\ remove_trailing_slash "https://a.b//" = "https://a.b/"%string
  /\ remove_trailing_slash "/x" = "/x"%string
  /\ replace_first "bc" "" "abcbc" = "abc"%string
  /\ replace_first "zz" "" "abcbc" = "abcbc"%string
  /\ remove_whitespace ("a b" +:+ LF +:+ "c") = "abc"%string
  /\ wrap64 0 "abc" = "abc"%string.
Proof. repeat split; reflexivity. Qed.

Example Number_toString_ex :
  Number_toString (integer (-3)) = "-3"%string
  /\ Number_toString (integer 0) = "0"%string
  /\ Number_toString (Decimal true 0 0) = "0"%string
  /\ Number_toString (integer 9007199254740991) = "9007199254740991"%string
  /\ Number_toString (Decimal false 7 (-1)) = "0.7"%string
  /\ Number_toString (Decimal false 123456 (-3)) = "123.456"%string
  /\ Number_toString (Decimal false 1 (-6)) = "0.000001"%string
  /\ Number_toString (Decimal false 1 (-7)) = "1e-7"%string
  /\ Number_toString (Decimal false 15 (-8)) = "1.5e-7"%string
  /\ Number_toString (Decimal false 12345678901234568 4) = "123456789012345680000"%string
  /\ Number_toString (integer (10 ^ 21)) = "1e+21"%string
  /\ Number_toString (Decimal true 15 299) = "-1.5e+300"%string
  /\ Number_toString (Infinity true) = "-Infinity"%string
  /\ JSON_stringify (JArray [JNumber NaN; JNumber (Infinity false);
                             JNumber (Decimal false 25 (-2))])
     = Some "[null,null,0.25]"%string
  /\ truthy (JNumber NaN) = false
  /\ truthy (JNumber (Decimal true 0 0)) = false
  /\ truthy (JNumber (Decimal false 1 (-300))) = true.
Proof. repeat split; vm_compute; reflexivity. Qed.

Example JSON_stringify_ex :
  JSON_stringify
    (JObject [("model", JString "x"); ("messages", JArray []);
              ("n", JNumber (integer (-3))); ("u", JUndefined);
              ("q", JString ("a" +:+ DQ +:+ "\" +:+ LF))])
  = Some ("{" +:+ DQ +:+ "model" +:+ DQ +:+ ":" +:+ DQ +:+ "x" +:+ DQ
          +:+ "," +:+ DQ +:+ "messages" +:+ DQ +:+ ":[],"
          +:+ DQ +:+ "n" +:+ DQ +:+ ":-3,"
          +:+ DQ +:+ "q" +:+ DQ +:+ ":" +:+ DQ +:+ "a\" +:+ DQ +:+ "\\\n" +:+ DQ
          +:+ "}").
Proof. reflexivity. Qed.

(** ** The scoped secret context *)

Lemma buffer_bytes_write (w : World) (b : loc) (bs : bytes) :
  buffer_bytes (write b bs w).2 b = bs.
Proof.
  unfold buffer_bytes, write, set_heap. simpl.
  apply lookup_total_insert_eq.
Qed.

Lemma zeroMemory_spec (pf : Platform) (data : loc) (w : World) :
  let r := @zeroMemory (createSecureMemory pf) data w in
  r.1 = Return tt
  /\ trace r.2 = EvZeroMemory data :: trace w
  /\ buffer_bytes r.2 data = replicate (length (buffer_bytes w data)) zero_byte.
Proof.
  unfold createSecureMemory.
  destruct (has_window pf); simpl;
    (repeat split; try reflexivity; apply lookup_total_insert_eq).
Qed.

(** C2 (as amended): a context constructed with [useSecure = true], the
    default, calls the provider's [zeroMemory] on its buffer once, after
    the inner operation and whether that one returned or threw; the result
    of the inner operation is passed on and the buffer holds zeros only. *)
Theorem use_zeroes_when_secure {T} (pf : Platform) (data : loc) (fn : loc -> M T)
    (w : World) :
  zeroed_once (new_SecureByteContext pf data true) fn w.
Proof.
  unfold zeroed_once, use, try_finally. simpl.
  destruct (fn data w) as [r w1] eqn:Hfn. simpl.
  pose proof (zeroMemory_spec pf data w1) as Hz. simpl in Hz.
  destruct (@zeroMemory (createSecureMemory pf) data w1) as [[[]|t] w2];
    simpl in *; destruct Hz as (Hr & Ht & Hb); [ auto | discriminate ].
Qed.

(** C2 (as stated) fails: a context constructed with [useSecure = false]
    never calls [zeroMemory], and the secret stays in the buffer. *)
Lemma use_not_zeroed_when_insecure :
  let pf := Example.node Example.no_json Example.offline in
  let ctx := new_SecureByteContext pf 0 false in
  let final := use ctx (fun _ => ret tt) Example.world_with_secret in
  ~ zeroed_once ctx (fun _ => ret tt) Example.world_with_secret
  /\ trace final.2 = []
  /\ buffer_bytes final.2 0 = [Byte.x01; Byte.x02; Byte.x03].
Proof.
  simpl. split; [ | split; [reflexivity | ] ].
  - unfold zeroed_once. simpl. intros (_ & Htrace & _). discriminate.
  - unfold buffer_bytes. simpl. apply lookup_total_singleton_eq.
Qed.

(** ** Frames: what a computation leaves as it is *)

Section Keeps.

Context (R : World -> World -> Prop) `{!PreOrder R}.

Lemma keeps_ret {A} (a : A) : keeps R (ret a).
Proof. intros w. simpl. reflexivity. Qed.

Lemma keeps_throw {A} (e : JsError) : keeps R (@throw A e).
Proof. intros w. simpl. reflexivity. Qed.

Lemma keeps_rethrow {A} (t : Thrown) : keeps R (@rethrow A t).
Proof. intros w. simpl. reflexivity. Qed.

Lemma keeps_get_world : keeps R get_world.
Proof. intros w. simpl. reflexivity. Qed.

Lemma keeps_read (b : loc) : keeps R (read b).
Proof. intros w. simpl. reflexivity. Qed.

Lemma keeps_bind {A B} (m : M A) (k : A -> M B) :
  keeps R m -> (forall a, keeps R (k a)) -> keeps R (bind m k).
Proof.
  intros Hm Hk w. unfold bind. specialize (Hm w).
  destruct (m w) as [[a|t] w1]; simpl in *; [ | assumption ].
  etransitivity; [ eassumption | apply Hk ].
Qed.

Lemma keeps_try_catch {A} (m : M A) (h : Thrown -> M A) :
  keeps R m -> (forall t, keeps R (h t)) -> keeps R (try_catch m h).
Proof.
  intros Hm Hh w. unfold try_catch. specialize (Hm w).
  destruct (m w) as [[a|t] w1]; simpl in *; [ assumption | ].
  etransitivity; [ eassumption | apply Hh ].
Qed.

Lemma keeps_try_finally {A} (m : M A) (f : M unit) :
  keeps R m -> keeps R f -> keeps R (try_finally m f).
Proof.
  intros Hm Hf w. unfold try_finally. specialize (Hm w).
  destruct (m w) as [r w1]. specialize (Hf w1).
  destruct (f w1) as [[u|t] w2]; simpl in *; etransitivity; eassumption.
Qed.

Lemma keeps_of_option {A} (e : JsError) (o : option A) : keeps R (of_option e o).
Proof. destruct o; [ apply keeps_ret | apply keeps_throw ]; assumption. Qed.

Lemma keeps_require_kind (k : KeyKind) (key : CryptoKey) : keeps R (require_kind k key).
Proof.
  unfold require_kind.
  destruct k, (key_kind key); first [ apply keeps_ret | apply keeps_throw ]; assumption.
Qed.

End Keeps.

Create HintDb keeps discriminated.

Section BasisFrames.

Context (R : World -> World -> Prop) `{!Frame R}.

Lemma keeps_alloc (bs : bytes) : keeps R (alloc bs).
Proof. intros w. apply frame_alloc. Qed.

Lemma keeps_draw (pf : Platform) (n : nat) : keeps R (draw pf n).
Proof. intros w. apply frame_rng. Qed.

Lemma keeps_emit (e : Event) : admits R e -> keeps R (emit e).
Proof. intros He w. apply He. Qed.

Lemma keeps_console_log (s : string) : keeps R (console_log s).
Proof. apply keeps_emit, frame_log. Qed.

Lemma keeps_console_warn (s : string) : keeps R (console_warn s).
Proof. apply keeps_emit, frame_warn. Qed.

Lemma keeps_fs_access (path : string) : keeps R (fs_access path).
Proof. intros w. unfold fs_access. destruct (fs w !! path); reflexivity. Qed.

Lemma keeps_fs_readFile (path : string) : keeps R (fs_readFile path).
Proof. intros w. unfold fs_readFile. destruct (fs w !! path); reflexivity. Qed.

Lemma keeps_fs_mkdir (pf : Platform) (path : string) : keeps R (fs_mkdir pf path).
Proof. intros w. unfold fs_mkdir. destruct (fs_writable pf path); reflexivity. Qed.

Lemma keeps_fs_writeFile (pf : Platform) (path content : string) :
  keeps R (fs_writeFile pf path content).
Proof.
  intros w. unfold fs_writeFile.
  destruct (fs_writable pf path); [ apply frame_fs | reflexivity ].
Qed.

Lemma keeps_fs_chmod (pf : Platform) (path : string) : keeps R (fs_chmod pf path).
Proof. intros w. unfold fs_chmod. destruct (fs_chmod_ok pf path); reflexivity. Qed.

Lemma keeps_set_publicKey (k : CryptoKey) : keeps R (KeyManager.set_publicKey k).
Proof. intros w. apply frame_km. Qed.

Lemma keeps_set_privateKey (k : CryptoKey) : keeps R (KeyManager.set_privateKey k).
Proof. intros w. apply frame_km. Qed.

Lemma keeps_set_publicKeyPem (pem : string) : keeps R (KeyManager.set_publicKeyPem pem).
Proof. intros w. apply frame_km. Qed.

End BasisFrames.

#[global] Hint Extern 0 (Frame _) => typeclasses eauto : keeps.
#[global] Hint Extern 0 (PreOrder _) => typeclasses eauto : keeps.

(** One step of a frame proof: follow the shape of the computation. *)
Ltac keeps_step :=
  lazymatch goal with
  | |- keeps _ (bind _ _) => apply keeps_bind; try typeclasses eauto; [ | intros ]
  | |- keeps _ (ret _) => apply keeps_ret; try typeclasses eauto
  | |- keeps _ (throw _) => apply keeps_throw; try typeclasses eauto
  | |- keeps _ (rethrow _) => apply keeps_rethrow; try typeclasses eauto
  | |- keeps _ get_world => apply keeps_get_world; try typeclasses eauto
  | |- keeps _ (read _) => apply keeps_read; try typeclasses eauto
  | |- keeps _ (of_option _ _) => apply keeps_of_option; try typeclasses eauto
  | |- keeps _ (require_kind _ _) => apply keeps_require_kind; try typeclasses eauto
  | |- keeps _ (try_catch _ _) => apply keeps_try_catch; try typeclasses eauto; [ | intros ]
  | |- keeps _ (try_finally _ _) => apply keeps_try_finally; try typeclasses eauto
  | |- keeps _ (alloc _) => apply keeps_alloc; try typeclasses eauto
  | |- keeps _ (draw _ _) => apply keeps_draw; try typeclasses eauto
  | |- keeps _ (fs_access _) => apply keeps_fs_access; try typeclasses eauto
  | |- keeps _ (fs_readFile _) => apply keeps_fs_readFile; try typeclasses eauto
  | |- keeps _ (fs_mkdir _ _) => apply keeps_fs_mkdir; try typeclasses eauto
  | |- keeps _ (fs_writeFile _ _ _) => apply keeps_fs_writeFile; try typeclasses eauto
  | |- keeps _ (fs_chmod _ _) => apply keeps_fs_chmod; try typeclasses eauto
  | |- keeps _ (KeyManager.set_publicKey _) => apply keeps_set_publicKey; try typeclasses eauto
  | |- keeps _ (KeyManager.set_privateKey _) => apply keeps_set_privateKey; try typeclasses eauto
  | |- keeps _ (KeyManager.set_publicKeyPem _) =>
      apply keeps_set_publicKeyPem; try typeclasses eauto
  | |- keeps _ (console_log _) => apply keeps_console_log; try typeclasses eauto
  | |- keeps _ (console_warn _) => apply keeps_console_warn; try typeclasses eauto
  | |- keeps _ (emit _) => apply keeps_emit; try typeclasses eauto
  | |- keeps _ (if ?b then _ else _) => destruct b
  | |- keeps _ (match ?x with _ => _ end) => destruct x
  | |- admits _ _ => solve [ auto with keeps ]
  | |- keeps _ _ => solve [ auto with keeps ]
  end.

Ltac keeps_auto := repeat keeps_step.

(** Frames of the program's own functions. *)
Section ProgramFrames.

Context (R : World -> World -> Prop) `{!Frame R}.
Context (pf : Platform).

Lemma keeps_arrayBufferToBase64 (b : loc) : keeps R (arrayBufferToBase64 pf b).
Proof. unfold arrayBufferToBase64. keeps_auto. Qed.

Lemma keeps_base64ToArrayBuffer (v : JValue) : keeps R (base64ToArrayBuffer pf v).
Proof. unfold base64ToArrayBuffer. keeps_auto. Qed.

Lemma keeps_crypto_getRandomValues (n : nat) : keeps R (crypto_getRandomValues pf n).
Proof. unfold crypto_getRandomValues. keeps_auto. Qed.

Lemma keeps_generateRandomBytes (n : nat) : keeps R (generateRandomBytes pf n).
Proof.
  unfold generateRandomBytes.
  pose proof keeps_crypto_getRandomValues. keeps_auto.
Qed.

Lemma keeps_stringToArrayBuffer (s : string) : keeps R (stringToArrayBuffer s).
Proof. unfold stringToArrayBuffer. keeps_auto. Qed.

Lemma keeps_arrayBufferToString (b : loc) : keeps R (arrayBufferToString pf b).
Proof. unfold arrayBufferToString. keeps_auto. Qed.

Lemma keeps_pemToArrayBuffer (pem : string) (type : PemType) :
  keeps R (pemToArrayBuffer pf pem type).
Proof. unfold pemToArrayBuffer. apply keeps_base64ToArrayBuffer. Qed.

Lemma keeps_arrayBufferToPem (b : loc) (type : PemType) :
  keeps R (arrayBufferToPem pf b type).
Proof. unfold arrayBufferToPem, arrayBufferToBase64. keeps_auto. Qed.

#[local] Hint Resolve keeps_arrayBufferToBase64 keeps_base64ToArrayBuffer
  keeps_crypto_getRandomValues keeps_generateRandomBytes keeps_stringToArrayBuffer
  keeps_arrayBufferToString keeps_pemToArrayBuffer keeps_arrayBufferToPem : keeps.

Lemma keeps_subtle_encrypt_AES_GCM iv tag key data :
  keeps R (subtle_encrypt_AES_GCM pf iv tag key data).
Proof. unfold subtle_encrypt_AES_GCM. keeps_auto. Qed.

Lemma keeps_subtle_decrypt_AES_GCM iv tag key data :
  keeps R (subtle_decrypt_AES_GCM pf iv tag key data).
Proof. unfold subtle_decrypt_AES_GCM. keeps_auto. Qed.

Lemma keeps_subtle_encrypt_AES_CBC iv key data :
  keeps R (subtle_encrypt_AES_CBC pf iv key data).
Proof. unfold subtle_encrypt_AES_CBC. keeps_auto. Qed.

Lemma keeps_subtle_decrypt_AES_CBC iv key data :
  keeps R (subtle_decrypt_AES_CBC pf iv key data).
Proof. unfold subtle_decrypt_AES_CBC. keeps_auto. Qed.

Lemma keeps_subtle_encrypt_RSA_OAEP key data :
  keeps R (subtle_encrypt_RSA_OAEP pf key data).
Proof. unfold subtle_encrypt_RSA_OAEP. keeps_auto. Qed.

Lemma keeps_subtle_decrypt_RSA_OAEP key data :
  keeps R (subtle_decrypt_RSA_OAEP pf key data).
Proof. unfold subtle_decrypt_RSA_OAEP. keeps_auto. Qed.

Lemma keeps_subtle_generateKey_AES_GCM_256 : keeps R (subtle_generateKey_AES_GCM_256 pf).
Proof. unfold subtle_generateKey_AES_GCM_256. keeps_auto. Qed.

Lemma keeps_subtle_exportKey format key : keeps R (subtle_exportKey format key).
Proof. unfold subtle_exportKey. keeps_auto. Qed.

Lemma keeps_subtle_importKey_raw_AES_GCM keyData :
  keeps R (subtle_importKey_raw_AES_GCM keyData).
Proof. unfold subtle_importKey_raw_AES_GCM. keeps_auto. Qed.

Lemma keeps_subtle_importKey_raw_PBKDF2 keyData :
  keeps R (subtle_importKey_raw_PBKDF2 keyData).
Proof. unfold subtle_importKey_raw_PBKDF2. keeps_auto. Qed.

Lemma keeps_subtle_importKey_spki keyData : keeps R (subtle_importKey_spki pf keyData).
Proof. unfold subtle_importKey_spki. keeps_auto. Qed.

Lemma keeps_subtle_importKey_pkcs8 keyData : keeps R (subtle_importKey_pkcs8 pf keyData).
Proof. unfold subtle_importKey_pkcs8. keeps_auto. Qed.

Lemma keeps_subtle_deriveKey salt iterations passwordKey len :
  keeps R (subtle_deriveKey_PBKDF2_AES_CBC pf salt iterations passwordKey len).
Proof. unfold subtle_deriveKey_PBKDF2_AES_CBC. keeps_auto. Qed.

#[local] Hint Resolve keeps_subtle_encrypt_AES_GCM keeps_subtle_decrypt_AES_GCM
  keeps_subtle_encrypt_AES_CBC keeps_subtle_decrypt_AES_CBC
  keeps_subtle_encrypt_RSA_OAEP keeps_subtle_decrypt_RSA_OAEP
  keeps_subtle_generateKey_AES_GCM_256
  keeps_subtle_exportKey keeps_subtle_importKey_raw_AES_GCM
  keeps_subtle_importKey_raw_PBKDF2
  keeps_subtle_importKey_spki keeps_subtle_importKey_pkcs8
  keeps_subtle_deriveKey : keeps.

Lemma keeps_exportPublicKey key : keeps R (RSAOperations.exportPublicKey pf key).
Proof. unfold RSAOperations.exportPublicKey. keeps_auto. Qed.

Lemma keeps_importPublicKey pem : keeps R (RSAOperations.importPublicKey pf pem).
Proof. unfold RSAOperations.importPublicKey. keeps_auto. Qed.

Lemma keeps_encryptKey aesKey key : keeps R (RSAOperations.encryptKey pf aesKey key).
Proof. unfold RSAOperations.encryptKey. keeps_auto. Qed.

Lemma keeps_global_crypto_getRandomValues n :
  keeps R (RSAOperations.global_crypto_getRandomValues pf n).
Proof.
  unfold RSAOperations.global_crypto_getRandomValues.
  destruct (has_global_crypto pf); keeps_auto.
Qed.

#[local] Hint Resolve keeps_exportPublicKey keeps_importPublicKey keeps_encryptKey
  keeps_global_crypto_getRandomValues : keeps.

Lemma keeps_encryptPrivateKeyWithPassword keyData password :
  keeps R (RSAOperations.encryptPrivateKeyWithPassword pf keyData password).
Proof. unfold RSAOperations.encryptPrivateKeyWithPassword. keeps_auto. Qed.

Lemma keeps_decryptPrivateKeyWithPassword pem password :
  keeps R (RSAOperations.decryptPrivateKeyWithPassword pf pem password).
Proof. unfold RSAOperations.decryptPrivateKeyWithPassword. keeps_auto. Qed.

#[local] Hint Resolve keeps_encryptPrivateKeyWithPassword
  keeps_decryptPrivateKeyWithPassword : keeps.

Lemma keeps_exportPrivateKey key password :
  keeps R (RSAOperations.exportPrivateKey pf key password).
Proof. unfold RSAOperations.exportPrivateKey. keeps_auto. Qed.

Lemma keeps_importPrivateKey pem password :
  keeps R (RSAOperations.importPrivateKey pf pem password).
Proof. unfold RSAOperations.importPrivateKey. keeps_auto. Qed.

#[local] Hint Resolve keeps_exportPrivateKey keeps_importPrivateKey : keeps.

Lemma keeps_saveKeys directory password :
  keeps R (KeyManager.saveKeys pf directory password).
Proof. unfold KeyManager.saveKeys. keeps_auto. Qed.

Lemma keeps_loadKeys paths password : keeps R (KeyManager.loadKeys pf paths password).
Proof. unfold KeyManager.loadKeys. keeps_auto. Qed.

Lemma keeps_getPublicKeyPEM : keeps R (KeyManager.getPublicKeyPEM pf).
Proof. unfold KeyManager.getPublicKeyPEM. keeps_auto. Qed.

Lemma keeps_getPrivateKey : keeps R KeyManager.getPrivateKey.
Proof. unfold KeyManager.getPrivateKey. keeps_auto. Qed.

Lemma keeps_hasKeys : keeps R KeyManager.hasKeys.
Proof. unfold KeyManager.hasKeys. keeps_auto. Qed.

(** A request is one more event, and the response body one more buffer. *)
Lemma keeps_http_send (req : HttpRequest) :
  admits R (EvHttp (req_method req) (req_url req)) -> keeps R (http_send pf req).
Proof. intros Hreq. unfold http_send. keeps_auto. Qed.

Lemma keeps_fetchServerPublicKey (this : SecureCompletionClient.t) :
  (forall m url, admits R (EvHttp m url)) ->
  keeps R (SecureCompletionClient.fetchServerPublicKey pf this).
Proof.
  intros Hreq. unfold SecureCompletionClient.fetchServerPublicKey, http_get.
  keeps_auto. apply keeps_http_send, Hreq.
Qed.

End ProgramFrames.

#[global] Hint Resolve keeps_arrayBufferToBase64 keeps_base64ToArrayBuffer
  keeps_crypto_getRandomValues keeps_generateRandomBytes keeps_stringToArrayBuffer
  keeps_arrayBufferToString keeps_pemToArrayBuffer keeps_arrayBufferToPem
  keeps_subtle_encrypt_AES_GCM keeps_subtle_decrypt_AES_GCM
  keeps_subtle_encrypt_AES_CBC keeps_subtle_decrypt_AES_CBC
  keeps_subtle_encrypt_RSA_OAEP keeps_subtle_decrypt_RSA_OAEP
  keeps_subtle_generateKey_AES_GCM_256
  keeps_subtle_exportKey keeps_subtle_importKey_raw_AES_GCM
  keeps_subtle_importKey_raw_PBKDF2
  keeps_subtle_importKey_spki keeps_subtle_importKey_pkcs8
  keeps_subtle_deriveKey
  keeps_exportPublicKey keeps_importPublicKey keeps_encryptKey
  keeps_global_crypto_getRandomValues
  keeps_encryptPrivateKeyWithPassword keeps_decryptPrivateKeyWithPassword
  keeps_exportPrivateKey keeps_importPrivateKey
  keeps_saveKeys keeps_loadKeys keeps_getPublicKeyPEM keeps_getPrivateKey
  keeps_hasKeys : keeps.

(** ** Observations of the trace, as frames *)

#[global] Instance same_on_preorder {X} (obs : World -> X) : PreOrder (same_on obs).
Proof.
  split.
  - intros w. reflexivity.
  - intros w1 w2 w3 H12 H23. unfold same_on in *. congruence.
Qed.

Lemma same_on_frame {X} (obs : World -> X) :
  trace_only obs ->
  (forall s, admits (same_on obs) (EvConsoleLog s)) ->
  (forall s, admits (same_on obs) (EvConsoleWarn s)) ->
  Frame (same_on obs).
Proof.
  intros Hobs Hlog Hwarn.
  split; try assumption; try typeclasses eauto;
    intros; symmetry; apply Hobs; reflexivity.
Qed.

Lemma http_requests_trace_only : trace_only http_requests.
Proof. intros w w' H. unfold http_requests. rewrite H. reflexivity. Qed.

Lemma http_requests_admits (e : Event) :
  (forall m url, e <> EvHttp m url) -> admits (same_on http_requests) e.
Proof. intros He w. destruct e; try reflexivity. exfalso. eapply He. reflexivity. Qed.

Lemma rsa_generations_trace_only : trace_only rsa_generations.
Proof. intros w w' H. unfold rsa_generations. rewrite H. reflexivity. Qed.

Lemma rsa_generations_admits (e : Event) :
  (forall n, e <> EvRsaGenerate n) -> admits (same_on rsa_generations) e.
Proof. intros He w. destruct e; try reflexivity. exfalso. eapply He. reflexivity. Qed.

Lemma zeroed_buffers_trace_only : trace_only zeroed_buffers.
Proof. intros w w' H. unfold zeroed_buffers. rewrite H. reflexivity. Qed.

Lemma zeroed_buffers_admits (e : Event) :
  (forall b, e <> EvZeroMemory b) -> admits (same_on zeroed_buffers) e.
Proof. intros He w. destruct e; try reflexivity. exfalso. eapply He. reflexivity. Qed.

#[global] Instance http_requests_frame : Frame (same_on http_requests).
Proof.
  apply same_on_frame;
    [ apply http_requests_trace_only | intros s; apply http_requests_admits; discriminate .. ].
Qed.

#[global] Instance rsa_generations_frame : Frame (same_on rsa_generations).
Proof.
  apply same_on_frame;
    [ apply rsa_generations_trace_only
    | intros s; apply rsa_generations_admits; discriminate .. ].
Qed.

#[global] Instance zeroed_buffers_frame : Frame (same_on zeroed_buffers).
Proof.
  apply same_on_frame;
    [ apply zeroed_buffers_trace_only
    | intros s; apply zeroed_buffers_admits; discriminate .. ].
Qed.

#[global] Hint Extern 1 (admits (same_on http_requests) _) =>
  (apply http_requests_admits; discriminate) : keeps.
#[global] Hint Extern 1 (admits (same_on rsa_generations) _) =>
  (apply rsa_generations_admits; discriminate) : keeps.
#[global] Hint Extern 1 (admits (same_on zeroed_buffers) _) =>
  (apply zeroed_buffers_admits; discriminate) : keeps.

(** ** The growing heap, as a frame *)

#[global] Instance grows_preorder : PreOrder grows.
Proof.
  split.
  - intros w. split; [ lia | reflexivity ].
  - intros w1 w2 w3 [Hn12 Hh12] [Hn23 Hh23]. split; [ lia | ].
    intros b Hb. rewrite Hh23 by lia. apply Hh12, Hb.
Qed.

Lemma grows_admits (e : Event) : admits grows e.
Proof. intros w. split; [ simpl; lia | reflexivity ]. Qed.

#[global] Instance grows_frame : Frame grows.
Proof.
  split; try typeclasses eauto; try (intros; apply grows_admits).
  - intros bs w. split; [ simpl; lia | ].
    intros b Hb. simpl. apply lookup_insert_ne. lia.
  - intros p w. split; [ simpl; lia | reflexivity ].
  - intros f w. split; [ simpl; lia | reflexivity ].
  - intros pub priv pem w. split; [ simpl; lia | reflexivity ].
Qed.

#[global] Hint Resolve grows_admits : keeps.

(** What follows a computation that ends in a known observation, when the
    rest keeps it. *)
Lemma obs_try_catch_bind {X A B} (obs : World -> X) (m : M A) (k : A -> M B)
    (h : Thrown -> M B) (w : World) :
  (forall a, keeps (same_on obs) (k a)) ->
  (forall t, keeps (same_on obs) (h t)) ->
  obs (try_catch (bind m k) h w).2 = obs (m w).2.
Proof.
  intros Hk Hh. unfold try_catch, bind.
  destruct (m w) as [[a|t] w1]; simpl.
  - specialize (Hk a w1). unfold same_on in Hk.
    destruct (k a w1) as [[b|t] w2]; simpl in *; [ assumption | ].
    rewrite (Hh t w2). assumption.
  - apply Hh.
Qed.

(** ** fetchServerPublicKey *)

Lemma http_send_requests (pf : Platform) (req : HttpRequest) (w : World) :
  http_requests (http_send pf req w).2 = (req_method req, req_url req) :: http_requests w.
Proof.
  unfold http_send, bind, emit. simpl.
  destruct (network pf req); reflexivity.
Qed.

(** C3: when the router URL does not begin with https:// and allowHttp is
    false, fetchServerPublicKey throws a SecurityError and no HTTP request
    has been issued; in every other case exactly one request goes out, the
    GET of routerUrl/pki/public_key. *)
Theorem fetchServerPublicKey_channel (pf : Platform) (this : SecureCompletionClient.t)
    (w : World) :
  let r := SecureCompletionClient.fetchServerPublicKey pf this w in
  if insecure_channel this then
    (exists e, r.1 = Throw (ErrObj e) /\ err_class e = SecurityError)
    /\ http_requests r.2 = http_requests w
  else
    http_requests r.2
    = (GET, SecureCompletionClient.routerUrl this +:+ "/pki/public_key") :: http_requests w.
Proof.
  unfold insecure_channel, SecureCompletionClient.fetchServerPublicKey.
  destruct this as [url allow secure]. simpl.
  destruct (startsWith url "https://") eqn:Hs, allow eqn:Ha; simpl.
  4: { split; [ eexists; split; reflexivity | reflexivity ]. }
  all: unfold bind at 1; simpl; unfold bind at 1; simpl.
  all: rewrite obs_try_catch_bind;
    [ unfold http_get; rewrite http_send_requests; reflexivity
    | intros resp; keeps_auto
    | intros t; keeps_auto ].
Qed.

Lemma obs_bind_keeps {X A B} (obs : World -> X) (m : M A) (k : A -> M B) (w : World) :
  (forall a, keeps (same_on obs) (k a)) ->
  obs (bind m k w).2 = obs (m w).2.
Proof.
  intros Hk. unfold bind.
  destruct (m w) as [[a|t] w1]; simpl; [ apply Hk | reflexivity ].
Qed.

(** ** Key generation *)

Lemma generateKeyPair_generations (pf : Platform) (keySize : KeySize) (w : World) :
  rsa_generations (RSAOperations.generateKeyPair pf keySize w).2
  = keySize_bits keySize :: rsa_generations w.
Proof.
  unfold RSAOperations.generateKeyPair, subtle_generateKey_RSA_OAEP, bind, emit. simpl.
  destruct (rsa_generate (subtle pf) (keySize_bits keySize) (entropy pf) (rng_pos w))
    as [[pkcs8 spki] pos].
  reflexivity.
Qed.

Lemma KeyManager_generateKeys_generations (pf : Platform) (options : KeyGenOptions)
    (w : World) :
  rsa_generations (KeyManager.generateKeys pf options w).2
  = keySize_bits (default K4096 (kg_keySize options)) :: rsa_generations w.
Proof.
  unfold KeyManager.generateKeys. cbv zeta.
  unfold bind at 1. simpl.
  rewrite obs_bind_keeps.
  - rewrite generateKeyPair_generations. reflexivity.
  - intros keyPair. keeps_auto.
Qed.

Lemma ensureKeys_generations (pf : Platform) (this : SecureCompletionClient.t)
    (w : World) :
  exists l, rsa_generations (SecureCompletionClient.ensureKeys pf this w).2
            = l ++ rsa_generations w
            /\ (l = [] \/ l = [4096%N]).
Proof.
  unfold SecureCompletionClient.ensureKeys.
  unfold bind at 1. simpl.
  destruct (bool_decide (is_Some (km_privateKey w)) && bool_decide (is_Some (km_publicKey w)));
    [ exists []; split; [ reflexivity | left; reflexivity ] | ].
  unfold bind at 1.
  match goal with
  | |- context [ match ?m w with _ => _ end ] =>
      assert (Hload : rsa_generations (m w).2 = rsa_generations w);
      [ | destruct (m w) as [[[|]|t] w1] ]
  end.
  - assert (Hk : keeps (same_on rsa_generations)
              (if negb (has_window pf)
               then try_catch
                      (fs_access (path_join pf "client_keys" "private_key.pem") ;;
                       fs_access (path_join pf "client_keys" "public_key.pem") ;;
                       SecureCompletionClient.loadKeys pf this
                         (path_join pf "client_keys" "private_key.pem")
                         (Some (path_join pf "client_keys" "public_key.pem")) None ;;
                       console_log "Loaded existing keys from client_keys/" ;;
                       ret true)
                      (fun _ => console_log "No existing keys found, generating new keys..." ;;
                                ret false)
               else ret false)).
    { keeps_auto. unfold SecureCompletionClient.loadKeys. keeps_auto. }
    apply Hk.
  - exists []. split; [ exact Hload | left; reflexivity ].
  - exists [4096%N]. split; [ | right; reflexivity ].
    simpl in Hload. unfold SecureCompletionClient.generateKeys.
    rewrite KeyManager_generateKeys_generations. simpl. rewrite Hload. reflexivity.
  - exists []. split; [ exact Hload | left; reflexivity ].
Qed.

(** C10 (as amended): the keySize of the configuration does not reach
    the client: the constructor builds the same client and leaves the same
    world whatever keySize is.  ensureKeys generates either nothing or one
    key pair of 4096 bits.  generateKeys generates one key pair, of 4096
    bits unless the object it is called with carries a keySize of its own,
    which then decides. *)
Theorem client_key_size (pf : Platform) (config : ClientConfig)
    (k : option KeySize) (this : SecureCompletionClient.t)
    (options : GenerateKeysOptions) (w : World) :
  SecureCompletionClient.constructor pf (Some (with_keySize k config)) w
  = SecureCompletionClient.constructor pf (Some config) w
  /\ rsa_generations (SecureCompletionClient.generateKeys pf this options w).2
     = keySize_bits (default K4096 (gk_keySize options)) :: rsa_generations w
  /\ (rsa_generations (SecureCompletionClient.ensureKeys pf this w).2 = rsa_generations w
      \/ rsa_generations (SecureCompletionClient.ensureKeys pf this w).2
         = 4096%N :: rsa_generations w).
Proof.
  split; [ reflexivity | split ].
  - unfold SecureCompletionClient.generateKeys.
    rewrite KeyManager_generateKeys_generations. cbn [kg_keySize].
    destruct (gk_keySize options); reflexivity.
  - destruct (ensureKeys_generations pf this w) as (l & Hl & [-> | ->]);
      rewrite Hl; [ left | right ]; reflexivity.
Qed.

(** C10 (as stated) fails: a client constructed with keySize = 4096
    whose generateKeys is called with an object that carries
    keySize = 2048 generates a key pair of 2048 bits, because the spread
    [{keySize: 4096, ...options}] lets the caller's keySize win. *)
Lemma generateKeys_keySize_option_wins :
  let pf := Example.node Example.no_json Example.offline in
  let config := mkClientConfig "https://api.nomyo.ai:12434" None None (Some K4096) None in
  let options := mkGenerateKeysOptions (Some K2048) None None None in
  let constructed := SecureCompletionClient.constructor pf (Some config) Example.empty_world in
  let this := Example.https_client in
  let r := SecureCompletionClient.generateKeys pf this options constructed.2 in
  constructed.1 = Return this
  /\ r.1 = Return tt
  /\ rsa_generations r.2 = [2048%N]
  /\ rsa_generations r.2 <> 4096%N :: rsa_generations constructed.2.
Proof.
  cbv zeta.
  split; [ vm_compute; reflexivity | ].
  split; [ vm_compute; reflexivity | ].
  split; [ vm_compute; reflexivity | ].
  vm_compute. discriminate.
Qed.

(** ** The constructor *)

(** C9 (as amended): the constructor accepts every configuration.  The
    client it returns holds the configured URL without one trailing slash,
    allowHttp (false by default) and secureMemory (true by default); when
    that URL does not begin with https:// and allowHttp is false, the
    constructor prints a warning and still returns the client; it issues
    no request. *)
Theorem constructor_accepts_and_warns (pf : Platform) (config : ClientConfig)
    (w : World) :
  let r := SecureCompletionClient.constructor pf (Some config) w in
  let this :=
    SecureCompletionClient.mkClient
      (remove_trailing_slash (cfg_routerUrl config))
      (default false (cfg_allowHttp config))
      (default true (cfg_secureMemory config)) in
  r.1 = Return this
  /\ http_requests r.2 = http_requests w
  /\ exists memory_line,
       trace r.2
       = EvConsoleLog memory_line
           :: (if insecure_channel this
               then [EvConsoleWarn
                       ("⚠️  WARNING: Using HTTP instead of HTTPS. "
                        +:+ "This is INSECURE and should only be used for local development. "
                        +:+ "Man-in-the-middle attacks are possible!")]
               else if startsWith (SecureCompletionClient.routerUrl this) "https://"
                    then []
                    else [EvConsoleLog "HTTP mode enabled for local development (INSECURE)"])
           ++ trace w.
Proof.
  unfold SecureCompletionClient.constructor, insecure_channel. simpl.
  destruct (startsWith (remove_trailing_slash (cfg_routerUrl config)) "https://");
    destruct (default false (cfg_allowHttp config)); simpl;
    (split; [ reflexivity | split; [ reflexivity | eexists; reflexivity ] ]).
Qed.

(** C9 (as stated) fails: the configuration
    [{ routerUrl: 'http://localhost:12434' }] is accepted, and the client
    built from it breaks the invariant. *)
Lemma constructor_accepts_insecure_config :
  let pf := Example.node Example.no_json Example.offline in
  exists this w',
    SecureCompletionClient.constructor pf (Some Example.http_config) Example.empty_world
    = (Return this, w')
    /\ ~ channel_invariant this.
Proof.
  eexists. eexists. split; [ lazy; reflexivity | ].
  unfold channel_invariant. intros [H | H]; vm_compute in H; discriminate.
Qed.

(** ** The status code of the router *)

(** handleErrorResponse builds the error of the taxonomy: its class is the
    one of the status code, and it carries that code. *)
Lemma handleErrorResponse_taxonomy (pf : Platform) (this : SecureCompletionClient.t)
    (response : HttpResponse) (w w' : World) (e : JsError) :
  SecureCompletionClient.handleErrorResponse pf this response w = (Return e, w') ->
  err_class e = taxonomy_class (resp_statusCode response)
  /\ statusCode e = Some (resp_statusCode response).
Proof.
  unfold SecureCompletionClient.handleErrorResponse, taxonomy_class.
  unfold bind at 1.
  destruct (try_catch _ _ w) as [[errorData|t] w1]; [ | discriminate ].
  unfold bind at 1.
  destruct (get_prop errorData "detail" w1) as [[d|t] w2]; [ | discriminate ].
  destruct (resp_statusCode response =? 400)%Z eqn:E400;
    [ apply Z.eqb_eq in E400; rewrite E400; intros [= <- _]; split; reflexivity | ].
  destruct (resp_statusCode response =? 401)%Z eqn:E401;
    [ apply Z.eqb_eq in E401; rewrite E401; intros [= <- _]; split; reflexivity | ].
  destruct (resp_statusCode response =? 404)%Z eqn:E404;
    [ apply Z.eqb_eq in E404; rewrite E404; intros [= <- _]; split; reflexivity | ].
  destruct (resp_statusCode response =? 429)%Z eqn:E429;
    [ apply Z.eqb_eq in E429; rewrite E429; intros [= <- _]; split; reflexivity | ].
  destruct (resp_statusCode response =? 500)%Z eqn:E500;
    [ apply Z.eqb_eq in E500; rewrite E500; intros [= <- _]; split; reflexivity | ].
  intros [= <- _]. split; reflexivity.
Qed.

(** handleErrorResponse throws nothing but error objects. *)
Lemma handleErrorResponse_throws (pf : Platform) (this : SecureCompletionClient.t)
    (response : HttpResponse) (w : World) (t : Thrown) :
  (SecureCompletionClient.handleErrorResponse pf this response w).1 = Throw t ->
  instanceof_Error t = true.
Proof.
  unfold SecureCompletionClient.handleErrorResponse.
  unfold bind at 1.
  destruct (try_catch _ _ w) as [[errorData|t0] w1] eqn:Hparse.
  - unfold bind at 1.
    destruct errorData; simpl;
      try (intros [= <-]; reflexivity);
      repeat match goal with
             | |- context [ if ?b then _ else _ ] => destruct b
             end; simpl; discriminate.
  - exfalso. revert Hparse.
    unfold try_catch, bind, arrayBufferToString, read, SecureCompletionClient.json_parse.
    simpl. destruct (JSON_parse pf _); simpl; discriminate.
Qed.

(** Whatever the block of [transmit] throws as an error object comes out
    as an APIConnectionError. *)
Lemma transmit_non200 (pf : Platform) (this : SecureCompletionClient.t)
    (url : string) (headers : list (string * string)) (body : loc)
    (payloadId : string) (w : World) (status : Z) (hs : list (string * string))
    (reply : bytes) :
  network pf (mkRequest POST url headers (buffer_bytes w body)) = Responds status hs reply ->
  status <> 200%Z ->
  exists msg,
    (SecureCompletionClient.transmit pf this url headers body payloadId w).1
    = Throw (ErrObj (new_error APIConnectionError msg)).
Proof.
  intros Hnet Hstatus.
  unfold SecureCompletionClient.transmit, try_catch, http_post, http_send.
  unfold bind at 1. unfold bind at 1. simpl.
  unfold bind at 1. simpl. rewrite Hnet.
  unfold bind at 1. simpl. unfold bind at 1. simpl.
  destruct (Z.eqb_spec status 200) as [ | _ ]; [ contradiction | ].
  unfold bind at 1.
  match goal with
  | |- context [ SecureCompletionClient.handleErrorResponse pf this ?r ?w1 ] =>
      pose proof (handleErrorResponse_throws pf this r w1) as Hthrows;
      destruct (SecureCompletionClient.handleErrorResponse pf this r w1) as [[e|t] w2]
  end; simpl.
  - destruct (String.eqb (message e) "Request timeout"); eexists; reflexivity.
  - specialize (Hthrows t eq_refl). destruct t as [e|v]; [ | discriminate ].
    destruct (String.eqb (message e) "Request timeout"); eexists; reflexivity.
Qed.

(** C4, the code at a 401 reply: handleErrorResponse builds the
    AuthenticationError of the taxonomy, the [catch] around it wraps it, and
    the caller of sendSecureRequest gets an APIConnectionError. *)
Theorem sendSecureRequest_401_is_connection_error :
  let pf := Example.node Example.parse_unauthorized Example.router_401 in
  (SecureCompletionClient.sendSecureRequest pf Example.https_client
     Example.chat_payload "id-1" (Some "sk-wrong") Example.ready_world).1
  = Throw (ErrObj (new_error APIConnectionError
                     ("Failed to connect to router: "
                      +:+ "Invalid API key or authentication failed: bad key"))).
Proof. vm_compute. reflexivity. Qed.
(** ** AES-256-GCM *)

Lemma generateRandomBytes_small (pf : Platform) (n : nat) (w : World) :
  (N.of_nat n <= 65536)%N ->
  generateRandomBytes pf n w
  = (Return (next_loc w),
     set_heap (<[next_loc w := map (entropy pf) (seq (rng_pos w) n)]> (heap w))
              (S (next_loc w)) (set_rng_pos (rng_pos w + n) w)).
Proof.
  intros Hn. unfold generateRandomBytes, crypto_getRandomValues, max_typed_array_length.
  destruct (N.ltb_spec (N.min (2 ^ 53 - 1) (2 ^ 30 - 1 + typed_array_headroom pf))
              (N.of_nat n)); [ lia | ].
  destruct (has_global_crypto pf).
  - destruct (N.ltb_spec 65536 (N.of_nat n)); [ lia | reflexivity ].
  - destruct (N.ltb_spec (N.min (N.min (2 ^ 53 - 1) (2 ^ 30 - 1 + typed_array_headroom pf))
                                (2 ^ 31 - 1)) (N.of_nat n)); [ lia | reflexivity ].
Qed.

(** What [encrypt] computes, step by step. *)
Lemma encrypt_run (pf : Platform) (data : loc) (key : CryptoKey) (w : World) :
  let w1 := after_nonce pf w in
  AESEncryption.encrypt pf data key w
  = match key_kind key with
    | AesGcmKey =>
        match aes_gcm_encrypt (subtle pf) (key_data key)
                (map (entropy pf) (seq (rng_pos w) 12)) 128 (buffer_bytes w1 data) with
        | Some ct =>
            (Return (S (next_loc w), next_loc w),
             set_heap (<[S (next_loc w) := ct]> (heap w1)) (S (S (next_loc w))) w1)
        | None => (Throw (ErrObj OperationError), w1)
        end
    | _ => (Throw (ErrObj InvalidAccessError), w1)
    end.
Proof.
  intros w1. unfold AESEncryption.encrypt. unfold bind at 1.
  rewrite generateRandomBytes_small by (vm_compute; discriminate).
  fold (after_nonce pf w). fold w1.
  unfold subtle_encrypt_AES_GCM, require_kind.
  destruct (key_kind key); try reflexivity.
  unfold bind, read, of_option, alloc, ret. simpl.
  replace (buffer_bytes w1 (next_loc w)) with (map (entropy pf) (seq (rng_pos w) 12))
    by (symmetry; apply lookup_total_insert_eq).
  destruct (aes_gcm_encrypt _ _ _ _ _); reflexivity.
Qed.

(** What [decrypt] computes. *)
Lemma decrypt_run (pf : Platform) (ciphertext nonce : loc) (key : CryptoKey) (w : World) :
  AESEncryption.decrypt pf ciphertext nonce key w
  = match key_kind key with
    | AesGcmKey =>
        match aes_gcm_decrypt (subtle pf) (key_data key) (buffer_bytes w nonce) 128
                (buffer_bytes w ciphertext) with
        | Some pt =>
            (Return (next_loc w),
             set_heap (<[next_loc w := pt]> (heap w)) (S (next_loc w)) w)
        | None =>
            (Throw (ErrObj (new_error Error
                              ("AES-GCM decryption failed: " +:+ message OperationError))), w)
        end
    | _ =>
        (Throw (ErrObj (new_error Error
                          ("AES-GCM decryption failed: " +:+ message InvalidAccessError))), w)
    end.
Proof.
  unfold AESEncryption.decrypt, subtle_decrypt_AES_GCM, require_kind, try_catch.
  destruct (key_kind key); try reflexivity.
  unfold bind, read, of_option, alloc, ret. simpl.
  destruct (aes_gcm_decrypt _ _ _ _ _); reflexivity.
Qed.


(** C6: when encrypt returns a ciphertext and a nonce for the contents P of
    a buffer, decrypt of that ciphertext with that nonce and the same key
    returns a buffer holding exactly P. *)
Theorem encrypt_decrypt_roundtrip (pf : Platform) (data : loc) (key : CryptoKey)
    (w w' : World) (ciphertext nonce : loc) :
  aes_gcm_correct (subtle pf) ->
  data < next_loc w ->
  AESEncryption.encrypt pf data key w = (Return (ciphertext, nonce), w') ->
  exists plaintext w'',
    AESEncryption.decrypt pf ciphertext nonce key w' = (Return plaintext, w'')
    /\ buffer_bytes w'' plaintext = buffer_bytes w data.
Proof.
  intros Hlaw Hdata. rewrite encrypt_run. unfold after_nonce.
  set (iv := map (entropy pf) (seq (rng_pos w) 12)).
  destruct (key_kind key) eqn:Hkind; try discriminate.
  destruct (aes_gcm_encrypt _ _ _ _ _) as [ct|] eqn:Henc; [ | discriminate ].
  intros [= <- <- <-].
  rewrite decrypt_run, Hkind.
  unfold buffer_bytes in *. simpl in *.
  rewrite lookup_total_insert_ne in Henc by lia.
  rewrite lookup_total_insert_ne by lia.
  rewrite !lookup_total_insert_eq.
  rewrite (Hlaw _ _ _ _ _ Henc).
  eexists. eexists. split; [ reflexivity | ].
  simpl. rewrite lookup_total_insert_eq. reflexivity.
Qed.

Lemma Example_unseal_seal (key iv data ct : bytes) :
  Example.seal key iv data = Some ct -> Example.unseal key iv ct = Some data.
Proof.
  unfold Example.seal, Example.unseal. intros [= <-].
  assert (Hmac : length (Example.mac key iv) = 16).
  { unfold Example.mac. rewrite length_take, !length_app, length_replicate. lia. }
  rewrite length_app, Hmac.
  replace (length data + 16 - 16) with (length data) by lia.
  rewrite drop_app_length, take_app_length.
  destruct (Nat.leb_spec 16 (length data + 16)); [ | lia ].
  unfold Example.bytes_eqb. rewrite bool_decide_eq_true_2 by reflexivity.
  reflexivity.
Qed.

Lemma Example_aes_gcm_correct : aes_gcm_correct Example.primitives.
Proof. intros key iv tag data ct. apply Example_unseal_seal. Qed.

(** The round trip of C6 on the two bytes of the payload [{}]. *)
Lemma encrypt_decrypt_roundtrip_witness :
  let pf := Example.node Example.no_json Example.offline in
  exists plaintext w'',
    AESEncryption.decrypt pf 2 1 Example.aes_key
      (AESEncryption.encrypt pf 0 Example.aes_key Example.world_with_payload).2
    = (Return plaintext, w'')
    /\ buffer_bytes w'' plaintext = buffer_bytes Example.world_with_payload 0.
Proof.
  intros pf.
  apply (encrypt_decrypt_roundtrip pf 0 Example.aes_key Example.world_with_payload
           (AESEncryption.encrypt pf 0 Example.aes_key Example.world_with_payload).2 2 1).
  - exact Example_aes_gcm_correct.
  - simpl. lia.
  - vm_compute. reflexivity.
Defined.
(** ** decryptResponse *)

Lemma bind_Return_inv {A B} (m : M A) (k : A -> M B) (w w' : World) (b : B) :
  bind m k w = (Return b, w') ->
  exists a w1, m w = (Return a, w1) /\ k a w1 = (Return b, w').
Proof.
  unfold bind. destruct (m w) as [[a|t] w1]; [ | discriminate ].
  intros H. exists a, w1. split; [ reflexivity | exact H ].
Qed.

Lemma try_finally_Return_inv {A} (m : M A) (f : M unit) (w w' : World) (a : A) :
  try_finally m f w = (Return a, w') ->
  exists w1, m w = (Return a, w1).
Proof.
  unfold try_finally. destruct (m w) as [r w1].
  destruct (f w1) as [[u|t] w2]; [ | discriminate ].
  intros [= -> _]. exists w1. reflexivity.
Qed.

Lemma use_Return_inv {T} (ctx : SecureByteContext) (fn : loc -> M T) (w w' : World)
    (v : T) :
  use ctx fn w = (Return v, w') -> exists w1, fn (sbc_data ctx) w = (Return v, w1).
Proof. unfold use. apply try_finally_Return_inv. Qed.

Lemma base64ToArrayBuffer_run (pf : Platform) (v : JValue) (w : World) :
  base64ToArrayBuffer pf v w
  = match decode_base64 pf v with
    | Some b => (Return (next_loc w),
                 set_heap (<[next_loc w := b]> (heap w)) (S (next_loc w)) w)
    | None =>
        (Throw (ErrObj (if has_atob pf
                        then new_error (DOMException "InvalidCharacterError")
                               "The string to be decoded is not correctly encoded."
                        else new_error TypeError
                               "The first argument must be of type string")), w)
    end.
Proof.
  unfold base64ToArrayBuffer, decode_base64, bind.
  destruct (has_atob pf);
    [ destruct (atob (js_ToString v)) | destruct (Buffer_from_base64 pf v) ];
    reflexivity.
Qed.

Lemma decryptKey_run (pf : Platform) (encryptedKey : loc) (privateKey : CryptoKey)
    (w : World) :
  RSAOperations.decryptKey pf encryptedKey privateKey w
  = match key_kind privateKey with
    | RsaPrivateKey =>
        match rsa_oaep_decrypt (subtle pf) (key_data privateKey)
                (buffer_bytes w encryptedKey) with
        | Some pt => (Return (next_loc w),
                      set_heap (<[next_loc w := pt]> (heap w)) (S (next_loc w)) w)
        | None =>
            (Throw (ErrObj (new_error Error
                              ("RSA-OAEP decryption failed: " +:+ message OperationError))), w)
        end
    | _ =>
        (Throw (ErrObj (new_error Error
                          ("RSA-OAEP decryption failed: " +:+ message InvalidAccessError))), w)
    end.
Proof.
  unfold RSAOperations.decryptKey, subtle_decrypt_RSA_OAEP, require_kind, try_catch.
  destruct (key_kind privateKey); try reflexivity.
  unfold bind, read, of_option, alloc, ret. simpl.
  destruct (rsa_oaep_decrypt _ _ _); reflexivity.
Qed.

Lemma importKey_run (keyData : loc) (w : World) :
  AESEncryption.importKey keyData w
  = if (length (buffer_bytes w keyData) =? 32)%nat
    then (Return (mkCryptoKey AesGcmKey (buffer_bytes w keyData)), w)
    else (Throw (ErrObj (new_error Error
                           ("Invalid AES key length: expected 32 bytes, got "
                            +:+ string_of_nat (length (buffer_bytes w keyData))))), w).
Proof.
  unfold AESEncryption.importKey, subtle_importKey_raw_AES_GCM, bind, read. simpl.
  destruct (length (buffer_bytes w keyData) =? 32)%nat eqn:E; simpl; [ | reflexivity ].
  rewrite E, orb_true_r. reflexivity.
Qed.

Lemma require_fields_present (fields : list string) (obj : JValue) (msg : string)
    (w : World) :
  fields_present fields obj = true -> require_fields fields obj msg w = (Return tt, w).
Proof.
  induction fields as [ | k rest IH ]; simpl; [ reflexivity | ].
  intros [Hk Hrest]%andb_true_iff.
  apply bool_decide_eq_true in Hk. rewrite Hk. apply IH, Hrest.
Qed.

Lemma try_catch_constant {A} (m : M A) (e : JsError) (w : World) (t : Thrown) :
  (try_catch m (fun _ => throw e) w).1 = Throw t -> t = ErrObj e.
Proof.
  unfold try_catch. destruct (m w) as [[a|t0] w1]; simpl; [ discriminate | ].
  intros [= <-]. reflexivity.
Qed.

Lemma try_catch_Return_inv {A} (m : M A) (e : JsError) (w : World) (a : A) :
  (try_catch m (fun _ => throw e) w).1 = Return a -> (m w).1 = Return a.
Proof.
  unfold try_catch. destruct (m w) as [[a0|t0] w1]; simpl; [ auto | discriminate ].
Qed.
Lemma get_prop_Return_inv (v : JValue) (k : string) (w w' : World) (x : JValue) :
  get_prop v k w = (Return x, w') -> x = get_field v k /\ w' = w.
Proof.
  unfold get_prop. destruct v; try discriminate; intros [= <- <-]; split; reflexivity.
Qed.

(** When the decryption block returns, every step of the sequence has
    succeeded. *)
Lemma decrypt_package_steps (pf : Platform) (this : SecureCompletionClient.t)
    (packageData : JValue) (payloadId : string) (w w' : World) (v : JValue) :
  SecureCompletionClient.decrypt_package pf this packageData payloadId w = (Return v, w') ->
  decryption_steps_succeed pf packageData w.
Proof.
  unfold SecureCompletionClient.decrypt_package. intros H.
  apply bind_Return_inv in H as (l1 & w1 & H1 & H).
  rewrite base64ToArrayBuffer_run in H1.
  destruct (decode_base64 pf (get_field packageData "encrypted_aes_key"))
    as [wrapped|] eqn:Hwrapped; [ | discriminate ].
  injection H1 as <- <-.
  apply bind_Return_inv in H as (privateKey & w2 & H2 & H).
  unfold KeyManager.getPrivateKey, bind, get_world in H2. simpl in H2.
  destruct (km_privateKey w) as [pk|] eqn:Hpriv; [ | discriminate ].
  injection H2 as <- <-.
  apply bind_Return_inv in H as (l2 & w3 & H3 & H).
  rewrite decryptKey_run in H3.
  destruct (key_kind pk) eqn:Hkind; try discriminate.
  unfold buffer_bytes in H3 at 1. simpl in H3. rewrite lookup_total_insert_eq in H3.
  destruct (rsa_oaep_decrypt (subtle pf) (key_data pk) wrapped) as [keyBytes|] eqn:Hunwrap;
    [ | discriminate ].
  injection H3 as <- <-.
  apply bind_Return_inv in H as (response & w4 & H4 & _).
  apply use_Return_inv in H4 as (w5 & H4). simpl in H4.
  apply bind_Return_inv in H4 as (aesKey & w6 & H5 & H4).
  rewrite importKey_run in H5.
  unfold buffer_bytes in H5. simpl in H5. rewrite lookup_total_insert_eq in H5.
  destruct (Nat.eqb_spec (length keyBytes) 32) as [Hlen | ]; [ | discriminate ].
  injection H5 as <- <-.
  apply bind_Return_inv in H4 as (encrypted_payload & w7 & H6 & H4).
  apply get_prop_Return_inv in H6 as [-> ->].
  apply bind_Return_inv in H4 as (c64 & w8 & H7 & H4).
  apply get_prop_Return_inv in H7 as [-> ->].
  apply bind_Return_inv in H4 as (l3 & w9 & H8 & H4).
  rewrite base64ToArrayBuffer_run in H8.
  destruct (decode_base64 pf (get_field (get_field packageData "encrypted_payload")
                                        "ciphertext"))
    as [ct|] eqn:Hct; [ | discriminate ].
  injection H8 as <- <-.
  apply bind_Return_inv in H4 as (n64 & w10 & H9 & H4).
  apply get_prop_Return_inv in H9 as [-> ->].
  apply bind_Return_inv in H4 as (l4 & w11 & H10 & H4).
  rewrite base64ToArrayBuffer_run in H10.
  destruct (decode_base64 pf (get_field (get_field packageData "encrypted_payload")
                                        "nonce"))
    as [nonce|] eqn:Hnonce; [ | discriminate ].
  injection H10 as <- <-.
  apply bind_Return_inv in H4 as (l5 & w12 & H11 & H4).
  rewrite decrypt_run in H11. simpl in H11.
  unfold buffer_bytes in H11. simpl in H11.
  rewrite lookup_total_insert_eq in H11.
  rewrite lookup_total_insert_ne in H11 by lia.
  rewrite lookup_total_insert_eq in H11.
  destruct (aes_gcm_decrypt (subtle pf) keyBytes nonce 128 ct) as [pt|] eqn:Hpt;
    [ | discriminate ].
  injection H11 as <- <-.
  apply use_Return_inv in H4 as (w13 & H4). simpl in H4.
  unfold bind, arrayBufferToString, read, SecureCompletionClient.json_parse, of_option in H4.
  simpl in H4. unfold buffer_bytes in H4. simpl in H4.
  rewrite lookup_total_insert_eq in H4.
  destruct (JSON_parse pf (TextDecoder_decode pf pt)) as [json|] eqn:Hjson;
    [ | discriminate ].
  exists wrapped, pk, keyBytes, ct, nonce, pt, json. repeat split; assumption.
Qed.

Lemma parse_buffer_run (pf : Platform) (b : loc) (h : Thrown -> M JValue) (w : World) :
  try_catch (text <- arrayBufferToString pf b ;; SecureCompletionClient.json_parse pf text)
            h w
  = match JSON_parse pf (TextDecoder_decode pf (buffer_bytes w b)) with
    | Some v => (Return v, w)
    | None => h (ErrObj (new_error SyntaxError "Unexpected token in JSON")) w
    end.
Proof.
  unfold try_catch, bind, arrayBufferToString, read, SecureCompletionClient.json_parse,
    of_option. simpl.
  destruct (JSON_parse pf _); reflexivity.
Qed.

#[local] Arguments require_fields : simpl never.
#[local] Arguments SecureCompletionClient.decrypt_package : simpl never.

(** C1: for a response that is not empty, parses as JSON and has the
    required fields, decryptResponse lets one error out and no other: if a
    step of the decryption sequence fails (base64 decoding of the wrapped
    key, RSA-OAEP unwrap with the private key, AES key import, base64
    decoding of ciphertext or nonce, AES-256-GCM decryption, parsing of the
    plaintext), it throws the SecurityError 'Decryption failed: integrity
    check or authentication failed', and whatever it throws is that error. *)
Theorem decryptResponse_single_error (pf : Platform) (this : SecureCompletionClient.t)
    (encryptedResponse : loc) (payloadId : string) (w : World) (packageData : JValue) :
  buffer_bytes w encryptedResponse <> [] ->
  JSON_parse pf (TextDecoder_decode pf (buffer_bytes w encryptedResponse))
  = Some packageData ->
  package_fields_present packageData = true ->
  let r := SecureCompletionClient.decryptResponse pf this encryptedResponse payloadId w in
  (~ decryption_steps_succeed pf packageData w -> r.1 = Throw decryption_failed)
  /\ (forall t, r.1 = Throw t -> t = decryption_failed).
Proof.
  intros Hnonempty Hparse [Hpkg Hpayload]%andb_true_iff r.
  assert (Hr : r = try_catch
                     (SecureCompletionClient.decrypt_package pf this packageData payloadId)
                     (fun _ => throw (new_error SecurityError SECURITY_ERROR_MESSAGE))
                     (set_trace (EvConsoleLog "Decrypting response..." :: trace w) w)).
  { subst r. unfold SecureCompletionClient.decryptResponse.
    unfold bind at 1. simpl. unfold bind at 1. simpl.
    destruct (buffer_bytes _ encryptedResponse) as [ | b bs ] eqn:Hbody;
      [ contradiction | ]. simpl.
    unfold bind at 1. rewrite parse_buffer_run.
    replace (buffer_bytes _ encryptedResponse) with (b :: bs).
    rewrite Hparse.
    unfold bind at 1. rewrite require_fields_present by exact Hpkg.
    unfold bind at 1. rewrite require_fields_present by exact Hpayload.
    reflexivity. }
  assert (Hthrown : forall t, r.1 = Throw t -> t = decryption_failed).
  { intros t Ht. rewrite Hr in Ht. apply try_catch_constant in Ht. exact Ht. }
  split; [ | exact Hthrown ].
  intros Hsteps.
  destruct r.1 as [v|t] eqn:Hout; [ | rewrite (Hthrown t eq_refl); reflexivity ].
  exfalso. apply Hsteps.
  rewrite Hr in Hout. apply try_catch_Return_inv in Hout.
  destruct (SecureCompletionClient.decrypt_package pf this packageData payloadId _)
    as [o w1] eqn:Hrun.
  simpl in Hout. subst o.
  apply decrypt_package_steps in Hrun.
  exact Hrun.
Qed.

(** C1 on a package whose wrapped key is not base64. *)
Lemma decryptResponse_single_error_witness :
  let pf := Example.node Example.parse_tampered Example.offline in
  let r := SecureCompletionClient.decryptResponse pf Example.https_client 0 "id-1"
             Example.world_with_response in
  (~ decryption_steps_succeed pf Example.tampered_package Example.world_with_response ->
   r.1 = Throw decryption_failed)
  /\ (forall t, r.1 = Throw t -> t = decryption_failed).
Proof.
  apply (decryptResponse_single_error
           (Example.node Example.parse_tampered Example.offline)
           Example.https_client 0 "id-1" Example.world_with_response
           Example.tampered_package).
  - vm_compute. discriminate.
  - vm_compute. reflexivity.
  - vm_compute. reflexivity.
Defined.

Example decryptResponse_tampered :
  (SecureCompletionClient.decryptResponse
     (Example.node Example.parse_tampered Example.offline)
     Example.https_client 0 "id-1" Example.world_with_response).1
  = Throw decryption_failed.
Proof. vm_compute. reflexivity. Qed.
(** ** Base64 *)

Ltac Zify.zify_post_hook ::= Z.to_euclidean_division_equations.

Lemma byte_of_N_to_N (b : byte) : byte_of_N (Byte.to_N b) = b.
Proof. destruct b; reflexivity. Qed.

Lemma to_N_lt_256 (b : byte) : (Byte.to_N b < 256)%N.
Proof. pose proof (Byte.to_N_bounded b). lia. Qed.

(** Induction on a list of bytes, three at a time. *)
Lemma list_ind3 {A} (P : list A -> Prop) :
  P [] -> (forall a, P [a]) -> (forall a b, P [a; b]) ->
  (forall a b c l, P l -> P (a :: b :: c :: l)) ->
  forall l, P l.
Proof.
  intros H0 H1 H2 H3 l.
  assert (H : P l /\ (forall a, P (a :: l)) /\ (forall a b, P (a :: b :: l))).
  { induction l as [ | x l (IH0 & IH1 & IH2) ]; [ auto | ].
    split; [ apply IH1 | split; [ intros a; apply IH2 | ] ].
    intros a b. apply H3, IH0. }
  apply H.
Qed.

Lemma b64_index_char (n : N) : (n < 64)%N -> b64_index (b64_char n) = Some n.
Proof.
  intros Hn.
  assert (Hcases : exists k, k < 64 /\ n = N.of_nat k).
  { exists (N.to_nat n). split; lia. }
  destruct Hcases as (k & Hk & ->). clear Hn.
  do 64 (destruct k as [ | k ]; [ reflexivity | ]). lia.
Qed.

Lemma sextets_of_bytes_lt (bs : bytes) : Forall (fun s => (s < 64)%N) (sextets_of_bytes bs).
Proof.
  induction bs as [ | a | a b | a b c l IH ] using list_ind3; simpl.
  - constructor.
  - pose proof (to_N_lt_256 a). repeat (constructor; [ lia | ]). constructor.
  - pose proof (to_N_lt_256 a). pose proof (to_N_lt_256 b).
    repeat (constructor; [ lia | ]). constructor.
  - pose proof (to_N_lt_256 a). pose proof (to_N_lt_256 b). pose proof (to_N_lt_256 c).
    repeat (constructor; [ lia | ]). exact IH.
Qed.

Lemma byte_of_N_eq (n : N) (b : byte) : n = Byte.to_N b -> byte_of_N n = b.
Proof. intros ->. apply byte_of_N_to_N. Qed.

Lemma bytes_of_sextets_of_bytes (bs : bytes) : bytes_of_sextets (sextets_of_bytes bs) = bs.
Proof.
  induction bs as [ | a | a b | a b c l IH ] using list_ind3; simpl.
  - reflexivity.
  - pose proof (to_N_lt_256 a).
    f_equal. apply byte_of_N_eq. lia.
  - pose proof (to_N_lt_256 a). pose proof (to_N_lt_256 b).
    f_equal; [ apply byte_of_N_eq; lia | ].
    f_equal. apply byte_of_N_eq. lia.
  - pose proof (to_N_lt_256 a). pose proof (to_N_lt_256 b). pose proof (to_N_lt_256 c).
    f_equal; [ apply byte_of_N_eq; lia | ].
    f_equal; [ apply byte_of_N_eq; lia | ].
    f_equal; [ apply byte_of_N_eq; lia | exact IH ].
Qed.

Lemma b64_char_plain (n : N) :
  (n < 64)%N ->
  is_ascii_whitespace (b64_char n) = false /\ b64_char n <> "="%char.
Proof.
  intros Hn.
  assert (Hcases : exists k, k < 64 /\ n = N.of_nat k).
  { exists (N.to_nat n). split; lia. }
  destruct Hcases as (k & Hk & ->). clear Hn.
  do 64 (destruct k as [ | k ]; [ split; [ reflexivity | discriminate ] | ]). lia.
Qed.

Lemma sextets_of_chars_map (sx : list N) :
  Forall (fun s => (s < 64)%N) sx -> sextets_of_chars (map b64_char sx) = Some sx.
Proof.
  induction 1 as [ | s sx Hs _ IH ]; simpl; [ reflexivity | ].
  rewrite (b64_index_char s Hs), IH. reflexivity.
Qed.

Lemma b64_padding_plus3 (n : nat) : b64_padding (S (S (S n))) = b64_padding n.
Proof.
  unfold b64_padding.
  replace (S (S (S n)) mod 3) with (n mod 3); [ reflexivity | ].
  symmetry. replace (S (S (S n))) with (n + 1 * 3) by lia. apply Nat.Div0.mod_add.
Qed.

(** The digits and the padding of an encoding fill whole groups of four,
    and the digits alone never leave one over. *)
Lemma sextets_length (bs : bytes) :
  (length (sextets_of_bytes bs) + length (b64_padding (length bs))) mod 4 = 0
  /\ length (sextets_of_bytes bs) mod 4 <> 1.
Proof.
  induction bs as [ | a | a b | a b c l [IH1 IH2] ] using list_ind3.
  - split; [ reflexivity | discriminate ].
  - split; [ reflexivity | discriminate ].
  - split; [ reflexivity | discriminate ].
  - cbn [length]. rewrite b64_padding_plus3.
    cbn [sextets_of_bytes]. rewrite length_app. cbn [length].
    split.
    + replace (4 + length (sextets_of_bytes l) + length (b64_padding (length l)))
        with (length (sextets_of_bytes l) + length (b64_padding (length l)) + 1 * 4) by lia.
      rewrite Nat.Div0.mod_add. exact IH1.
    + replace (4 + length (sextets_of_bytes l))
        with (length (sextets_of_bytes l) + 1 * 4) by lia.
      rewrite Nat.Div0.mod_add. exact IH2.
Qed.

Lemma b64_padding_cases (n : nat) :
  b64_padding n = [] \/ b64_padding n = ["="%char] \/ b64_padding n = ["="%char; "="%char].
Proof.
  unfold b64_padding. destruct (n mod 3) as [ | [ | k ] ]; auto.
Qed.

Lemma strip_b64_padding_digits (sx : list N) (pad : list ascii) :
  Forall (fun s => (s < 64)%N) sx ->
  pad = [] \/ pad = ["="%char] \/ pad = ["="%char; "="%char] ->
  strip_b64_padding (map b64_char sx ++ pad) = map b64_char sx.
Proof.
  intros Hsx Hpad. unfold strip_b64_padding. rewrite rev_app_distr.
  assert (Hlast : rev (map b64_char sx) = []
                  \/ exists c r, rev (map b64_char sx) = c :: r /\ c <> "="%char).
  { destruct (rev (map b64_char sx)) as [ | c r ] eqn:Hrev; [ left; reflexivity | ].
    right. exists c, r. split; [ reflexivity | ].
    assert (Hin : In c (map b64_char sx)).
    { apply in_rev. rewrite Hrev. left. reflexivity. }
    apply in_map_iff in Hin as (s & <- & Hs).
    rewrite Forall_forall in Hsx.
    apply b64_char_plain, Hsx, list_elem_of_In, Hs. }
  assert (Hnil : rev (map b64_char sx) = [] -> map b64_char sx = []).
  { intros H. rewrite <- (rev_involutive (map b64_char sx)), H. reflexivity. }
  destruct Hpad as [-> | [-> | ->]]; simpl.
  - destruct Hlast as [H | (c & r & H & Hc)].
    + rewrite H, (Hnil H), app_nil_r. reflexivity.
    + rewrite H. rewrite app_nil_r.
      destruct (Ascii.eqb_spec c "="%char) as [ | _ ]; [ contradiction | ].
      destruct c as [[] [] [] [] [] [] [] []]; try reflexivity; contradiction.
  - destruct Hlast as [H | (c & r & H & Hc)].
    + rewrite H. rewrite (Hnil H). reflexivity.
    + rewrite H. transitivity (rev (c :: r)); [ | rewrite <- H; apply rev_involutive ].
      destruct c as [[] [] [] [] [] [] [] []]; try reflexivity; contradiction.
  - apply rev_involutive.
Qed.

Lemma filter_all {A} (p : A -> bool) (l : list A) :
  (forall x, In x l -> p x = true) -> List.filter p l = l.
Proof.
  induction l as [ | x l IH ]; simpl; intros H; [ reflexivity | ].
  rewrite (H x) by (left; reflexivity). f_equal. apply IH. intros y Hy. apply H. right. exact Hy.
Qed.

Lemma encoded_chars_plain (bs : bytes) (c : ascii) :
  In c (encoded_chars bs) -> is_ascii_whitespace c = false.
Proof.
  unfold encoded_chars. rewrite in_app_iff. intros [Hc | Hc].
  - apply in_map_iff in Hc as (s & <- & Hs).
    pose proof (sextets_of_bytes_lt bs) as Hlt. rewrite Forall_forall in Hlt.
    apply b64_char_plain, Hlt, list_elem_of_In, Hs.
  - destruct (b64_padding_cases (length bs)) as [H | [H | H]]; rewrite H in Hc;
      simpl in Hc; intuition (subst; reflexivity).
Qed.

(** [atob] inverts [btoa]. *)
Lemma atob_base64_encode (bs : bytes) : atob (base64_encode bs) = Some bs.
Proof.
  unfold atob, base64_encode. rewrite list_ascii_of_string_of_list_ascii.
  rewrite (filter_all _ (encoded_chars bs))
    by (intros c Hc; rewrite (encoded_chars_plain bs c Hc); reflexivity).
  destruct (sextets_length bs) as [Hfull Hdigits].
  assert (Hlen : length (encoded_chars bs) mod 4 = 0).
  { unfold encoded_chars. rewrite length_app, length_map. exact Hfull. }
  cbv zeta. rewrite Hlen. change (0 =? 0) with true. cbv iota.
  unfold encoded_chars.
  rewrite strip_b64_padding_digits
    by (apply sextets_of_bytes_lt || apply b64_padding_cases).
  rewrite length_map.
  destruct (Nat.eqb_spec (length (sextets_of_bytes bs) mod 4) 1) as [ | _ ];
    [ contradiction | ].
  rewrite sextets_of_chars_map by apply sextets_of_bytes_lt.
  rewrite bytes_of_sextets_of_bytes. reflexivity.
Qed.

(** ** The envelope of encryptPayload *)

(** Base64 text needs no escape in a JSON string. *)
Lemma json_escape_char_plain (c : ascii) :
  (N_of_ascii c =? 34)%N = false -> (N_of_ascii c =? 92)%N = false ->
  (N_of_ascii c <? 32)%N = false ->
  json_escape_char c = String c EmptyString.
Proof.
  intros H34 H92 H32. unfold json_escape_char. cbv zeta. rewrite H34, H92.
  assert (Hne : forall k, (k < 32)%N -> (N_of_ascii c =? k)%N = false).
  { intros k Hk. apply N.eqb_neq. apply N.ltb_ge in H32. lia. }
  rewrite !Hne by lia. rewrite H32. reflexivity.
Qed.

Lemma json_escape_chars (l : list ascii) :
  Forall (fun c => json_escape_char c = String c EmptyString) l ->
  json_escape (string_of_list_ascii l) = string_of_list_ascii l.
Proof.
  induction 1 as [ | c l Hc _ IH ]; simpl; [ reflexivity | ].
  rewrite Hc, IH. reflexivity.
Qed.

Lemma b64_char_unescaped (n : N) :
  (n < 64)%N -> json_escape_char (b64_char n) = String (b64_char n) EmptyString.
Proof.
  intros Hn.
  assert (Hcases : exists k, k < 64 /\ n = N.of_nat k).
  { exists (N.to_nat n). split; lia. }
  destruct Hcases as (k & Hk & ->). clear Hn.
  do 64 (destruct k as [ | k ]; [ reflexivity | ]). lia.
Qed.

Lemma json_escape_base64 (bs : bytes) :
  json_escape (base64_encode bs) = base64_encode bs.
Proof.
  unfold base64_encode. apply json_escape_chars.
  unfold encoded_chars. apply Forall_app. split.
  - apply Forall_map. eapply Forall_impl; [ apply sextets_of_bytes_lt | ].
    intros n Hn. apply b64_char_unescaped, Hn.
  - destruct (b64_padding_cases (length bs)) as [-> | [-> | ->]];
      repeat constructor.
Qed.

Lemma string_app_assoc (a b c : string) : (a +:+ b) +:+ c = a +:+ (b +:+ c).
Proof.
  induction a as [ | x a IH ]; [ reflexivity | ].
  change (String x ((a +:+ b) +:+ c) = String x (a +:+ (b +:+ c))).
  f_equal. exact IH.
Qed.

(** What JSON.stringify prints for the package, when its three texts need
    no escape. *)
Lemma stringify_envelope_text (c n k : string) :
  json_escape c = c -> json_escape n = n -> json_escape k = k ->
  JSON_stringify (SecureCompletionClient.encryptedPackage c n k)
  = Some (envelope_text c n k).
Proof.
  intros Hc Hn Hk.
  unfold SecureCompletionClient.encryptedPackage, envelope_text. simpl.
  unfold json_quote. rewrite Hc, Hn, Hk. f_equal.
  rewrite !string_app_assoc. reflexivity.
Qed.

Lemma stringify_envelope (c n k : bytes) :
  JSON_stringify (SecureCompletionClient.encryptedPackage
                    (base64_encode c) (base64_encode n) (base64_encode k))
  = Some (envelope_text (base64_encode c) (base64_encode n) (base64_encode k)).
Proof. apply stringify_envelope_text; apply json_escape_base64. Qed.

Lemma use_Return_heap {T} (pf : Platform) (data : loc) (useSecure : bool)
    (fn : loc -> M T) (w w' : World) (v : T) :
  use (new_SecureByteContext pf data useSecure) fn w = (Return v, w') ->
  exists w1, fn data w = (Return v, w1)
             /\ forall b, b <> data -> buffer_bytes w' b = buffer_bytes w1 b.
Proof.
  unfold use, try_finally, new_SecureByteContext, createSecureMemory. simpl.
  destruct (fn data w) as [r w1].
  destruct useSecure; simpl.
  - destruct (has_window pf); simpl; intros [= -> <-]; exists w1;
      (split; [ reflexivity | ]); intros b Hb; unfold buffer_bytes; simpl;
      apply lookup_total_insert_ne; congruence.
  - intros [= -> <-]. exists w1. split; [ reflexivity | reflexivity ].
Qed.

Lemma grows_buffer (w w' : World) (b : loc) :
  grows w w' -> b < next_loc w -> buffer_bytes w' b = buffer_bytes w b.
Proof.
  intros [_ Hheap] Hb. unfold buffer_bytes.
  rewrite !lookup_total_alt. f_equal. apply Hheap, Hb.
Qed.

Lemma arrayBufferToBase64_run (pf : Platform) (b : loc) (w : World) :
  arrayBufferToBase64 pf b w = (Return (base64_encode (buffer_bytes w b)), w).
Proof. unfold arrayBufferToBase64, bind, read. destruct (has_btoa pf); reflexivity. Qed.

Lemma encryptKey_Return_inv (pf : Platform) (aesKey : loc) (publicKey : CryptoKey)
    (w w' : World) (out : loc) :
  RSAOperations.encryptKey pf aesKey publicKey w = (Return out, w') ->
  out = next_loc w /\ next_loc w' = S (next_loc w)
  /\ (forall b, b <> out -> buffer_bytes w' b = buffer_bytes w b).
Proof.
  unfold RSAOperations.encryptKey, subtle_encrypt_RSA_OAEP, require_kind.
  destruct (key_kind publicKey); try discriminate.
  unfold bind, read, draw, of_option, alloc, ret. simpl.
  destruct (rsa_oaep_encrypt _ _ _ _); [ | discriminate ].
  intros [= <- <-]. split; [ reflexivity | split; [ reflexivity | ] ].
  intros b Hb. unfold buffer_bytes. simpl. apply lookup_total_insert_ne. congruence.
Qed.

Lemma stringToArrayBuffer_run (s : string) (w : World) :
  stringToArrayBuffer s w
  = (Return (next_loc w),
     set_heap (<[next_loc w := utf8_encode s]> (heap w)) (S (next_loc w)) w).
Proof. reflexivity. Qed.

Lemma generateKey_Return_inv (pf : Platform) (w w' : World) (key : CryptoKey) :
  AESEncryption.generateKey pf w = (Return key, w') ->
  key_kind key = AesGcmKey /\ next_loc w' = next_loc w.
Proof.
  unfold AESEncryption.generateKey, subtle_generateKey_AES_GCM_256, bind, draw, ret.
  intros [= <- <-]. split; reflexivity.
Qed.

Lemma exportKey_Return_inv (key : CryptoKey) (w w' : World) (out : loc) :
  AESEncryption.exportKey key w = (Return out, w') ->
  out = next_loc w /\ next_loc w' = S (next_loc w).
Proof.
  unfold AESEncryption.exportKey, subtle_exportKey, require_kind.
  destruct (key_kind key); try discriminate.
  unfold bind, alloc, ret. intros [= <- <-]. split; reflexivity.
Qed.

Lemma encrypt_Return_inv (pf : Platform) (data : loc) (key : CryptoKey) (w w' : World)
    (ciphertext nonce : loc) :
  AESEncryption.encrypt pf data key w = (Return (ciphertext, nonce), w') ->
  nonce = next_loc w /\ ciphertext = S (next_loc w)
  /\ next_loc w' = S (S (next_loc w))
  /\ length (buffer_bytes w' nonce) = 12.
Proof.
  rewrite encrypt_run. unfold after_nonce.
  set (iv := map (entropy pf) (seq (rng_pos w) 12)).
  assert (Hiv : length iv = 12) by (subst iv; rewrite length_map, length_seq; reflexivity).
  destruct (key_kind key); try discriminate.
  destruct (aes_gcm_encrypt _ _ _ _ _) as [ct|]; [ | discriminate ].
  intros [= <- <- <-]. repeat split.
  unfold buffer_bytes. cbn [heap set_heap].
  rewrite lookup_total_insert_ne by lia. rewrite lookup_total_insert_eq. exact Hiv.
Qed.

(** What performEncryption returns: a fresh buffer that holds the text of
    the envelope. *)
Lemma performEncryption_envelope (pf : Platform) (this : SecureCompletionClient.t)
    (payloadBytes : loc) (w w' : World) (out : loc) :
  SecureCompletionClient.performEncryption pf this payloadBytes w = (Return out, w') ->
  next_loc w < out
  /\ exists ciphertext nonce wrappedKey : bytes,
       buffer_bytes w' out
       = utf8_encode (SecureCompletionClient.stringify
                        (SecureCompletionClient.encryptedPackage
                           (base64_encode ciphertext) (base64_encode nonce)
                           (base64_encode wrappedKey)))
       /\ length nonce = 12.
Proof.
  unfold SecureCompletionClient.performEncryption. intros H.
  apply bind_Return_inv in H as (aesKey & w1 & H1 & H).
  apply generateKey_Return_inv in H1 as [Hkind Hn1].
  apply bind_Return_inv in H as (aesKeyBytes & w2 & H2 & H).
  apply exportKey_Return_inv in H2 as [-> Hn2].
  apply use_Return_heap in H as (w3 & H & Hkept).
  apply bind_Return_inv in H as ([ciphertext nonce] & w4 & H4 & H).
  apply encrypt_Return_inv in H4 as (-> & -> & Hn4 & Hnonce).
  apply bind_Return_inv in H as (pem & w5 & H5 & H).
  apply bind_Return_inv in H as (serverPublicKey & w6 & H6 & H).
  apply bind_Return_inv in H as (encryptedAesKey & w7 & H7 & H).
  apply encryptKey_Return_inv in H7 as (-> & Hn7 & Hkept7).
  apply bind_Return_inv in H as (c64 & w8 & H8 & H).
  rewrite arrayBufferToBase64_run in H8. injection H8 as <- <-.
  apply bind_Return_inv in H as (n64 & w9 & H9 & H).
  rewrite arrayBufferToBase64_run in H9. injection H9 as <- <-.
  apply bind_Return_inv in H as (k64 & w10 & H10 & H).
  rewrite arrayBufferToBase64_run in H10. injection H10 as <- <-.
  apply bind_Return_inv in H as (packageBytes & w11 & H11 & H).
  rewrite stringToArrayBuffer_run in H11. injection H11 as <- <-.
  unfold bind, get_world, console_log, emit, ret in H.
  cbn [fst snd] in H. injection H as <- <-.
  assert (Hgrow : grows w4 w6).
  { etransitivity.
    - pose proof (keeps_fetchServerPublicKey grows pf this
                    (fun m url => grows_admits (EvHttp m url)) w4) as Hk.
      rewrite H5 in Hk. exact Hk.
    - pose proof (keeps_importPublicKey grows pf pem w5) as Hk.
      rewrite H6 in Hk. exact Hk. }
  pose proof Hgrow as [Hnext _].
  split; [ lia | ].
  rewrite Hkept by lia.
  exists (buffer_bytes w7 (S (next_loc w2))), (buffer_bytes w7 (next_loc w2)),
         (buffer_bytes w7 (next_loc w6)).
  split.
  - unfold buffer_bytes at 1. cbn [heap set_heap set_trace].
    rewrite lookup_total_insert_eq. reflexivity.
  - rewrite (Hkept7 (next_loc w2)) by lia.
    rewrite (grows_buffer _ _ _ Hgrow) by lia. exact Hnonce.
Qed.

(** C5: the buffer that encryptPayload returns holds the UTF-8 bytes of the
    JSON text of an object with exactly the fields version = '1.0',
    algorithm = 'hybrid-aes256-rsa4096', encrypted_payload = {ciphertext,
    nonce}, encrypted_aes_key, key_algorithm = 'RSA-OAEP-SHA256' and
    payload_algorithm = 'AES-256-GCM', in that order; ciphertext, nonce and
    encrypted_aes_key are the base64 texts of byte sequences, and the nonce
    text decodes to exactly its 12 bytes. *)
Theorem encryptPayload_envelope (pf : Platform) (this : SecureCompletionClient.t)
    (payload : JValue) (w w' : World) (out : loc) :
  SecureCompletionClient.encryptPayload pf this payload w = (Return out, w') ->
  exists ciphertext nonce wrappedKey : bytes,
    let c64 := base64_encode ciphertext in
    let n64 := base64_encode nonce in
    let k64 := base64_encode wrappedKey in
    buffer_bytes w' out = utf8_encode (envelope_text c64 n64 k64)
    /\ JSON_stringify (SecureCompletionClient.encryptedPackage c64 n64 k64)
       = Some (envelope_text c64 n64 k64)
    /\ length nonce = 12
    /\ atob n64 = Some nonce.
Proof.
  unfold SecureCompletionClient.encryptPayload. intros H.
  apply bind_Return_inv in H as ([] & w1 & _ & H).
  destruct (negb (truthy payload) || negb (SecureCompletionClient.typeof_object payload));
    [ discriminate | ].
  apply bind_Return_inv in H as ([] & w2 & _ & H).
  apply bind_Return_inv in H as (payloadBytes & w3 & H3 & H).
  rewrite stringToArrayBuffer_run in H3. injection H3 as <- <-.
  apply bind_Return_inv in H as (w4 & w5 & H4 & H).
  unfold get_world in H4. injection H4 as <- <-.
  match type of H with
  | (if ?b then _ else _) _ = _ => destruct b; [ discriminate | ]
  end.
  apply bind_Return_inv in H as ([] & w6 & H6 & H).
  assert (Hn6 : next_loc w6 = S (next_loc w2)).
  { unfold console_log, emit in H6. injection H6 as <-. reflexivity. }
  assert (Hsecure : exists w7, SecureCompletionClient.performEncryption pf this
                                 (next_loc w2) w6 = (Return out, w7)
                               /\ (next_loc w2 < out ->
                                   buffer_bytes w' out = buffer_bytes w7 out)).
  { destruct (SecureCompletionClient.secureMemory this).
    - apply use_Return_heap in H as (w7 & H & Hkept).
      exists w7. split; [ exact H | ]. intros Hout. apply Hkept. lia.
    - exists w'. split; [ exact H | reflexivity ]. }
  destruct Hsecure as (w7 & Hrun & Hsame).
  apply performEncryption_envelope in Hrun
    as (Hfresh & ciphertext & nonce & wrappedKey & Hbytes & Hnonce).
  exists ciphertext, nonce, wrappedKey. cbv zeta.
  pose proof (stringify_envelope ciphertext nonce wrappedKey) as Htext.
  split; [ | split; [ exact Htext | split; [ exact Hnonce | apply atob_base64_encode ] ] ].
  rewrite Hsame by lia. rewrite Hbytes.
  unfold SecureCompletionClient.stringify. rewrite Htext. reflexivity.
Qed.

(** C5 on the payload [{"model":"x","messages":[]}], against a router
    that serves its public key. *)
Lemma encryptPayload_envelope_witness :
  let pf := Example.node Example.parse_unauthorized Example.router_401 in
  let run := SecureCompletionClient.encryptPayload pf Example.https_client
               Example.chat_payload Example.ready_world in
  exists ciphertext nonce wrappedKey : bytes,
    let c64 := base64_encode ciphertext in
    let n64 := base64_encode nonce in
    let k64 := base64_encode wrappedKey in
    buffer_bytes run.2 8 = utf8_encode (envelope_text c64 n64 k64)
    /\ JSON_stringify (SecureCompletionClient.encryptedPackage c64 n64 k64)
       = Some (envelope_text c64 n64 k64)
    /\ length nonce = 12
    /\ atob n64 = Some nonce.
Proof.
  intros pf run.
  apply (encryptPayload_envelope pf Example.https_client Example.chat_payload
           Example.ready_world run.2 8).
  vm_compute. reflexivity.
Defined.

(** ** PEM *)

Lemma prefix_app (p s : string) : String.prefix p (p +:+ s) = true.
Proof.
  induction p as [ | c p IH ]; [ destruct s; reflexivity | ].
  change (String.prefix (String c p) (String c (p +:+ s)) = true). simpl.
  destruct (ascii_dec c c) as [ _ | Hne ]; [ exact IH | contradiction ].
Qed.

Lemma string_drop_app (p s : string) : string_drop (String.length p) (p +:+ s) = s.
Proof.
  induction p as [ | c p IH ]; [ destruct s; reflexivity | ].
  change (string_drop (S (String.length p)) (String c (p +:+ s)) = s). simpl. exact IH.
Qed.

Lemma replace_first_unfold (pat rep s : string) :
  replace_first pat rep s
  = if String.prefix pat s then rep +:+ string_drop (String.length pat) s
    else match s with
         | EmptyString => EmptyString
         | String c rest => String c (replace_first pat rep rest)
         end.
Proof. destruct s; reflexivity. Qed.

(** Removing a pattern that the text starts with. *)
Lemma replace_first_head (p s : string) : replace_first p "" (p +:+ s) = s.
Proof.
  rewrite replace_first_unfold, prefix_app, string_drop_app. reflexivity.
Qed.

(** Removing a pattern that starts with a character the text before it
    does not contain. *)
Lemma replace_first_tail (c : ascii) (p a : string) :
  Forall (fun x => x <> c) (list_ascii_of_string a) ->
  replace_first (String c p) "" (a +:+ String c p) = a.
Proof.
  induction a as [ | x a IH ]; intros Ha.
  - change (EmptyString +:+ String c p) with (String c p).
    rewrite <- (replace_first_head (String c p) "") at 2.
    f_equal. clear. induction p; [ reflexivity | ].
    change (String c (String a p) = String c (String a (p +:+ ""))).
    do 2 f_equal. injection IHp as IHp. exact IHp.
  - apply Forall_cons_1 in Ha as [Hx Ha].
    change (String x a +:+ String c p) with (String x (a +:+ String c p)).
    rewrite replace_first_unfold. simpl.
    destruct (ascii_dec c x) as [ -> | _ ]; [ contradiction | ].
    f_equal. apply IH, Ha.
Qed.

Lemma remove_whitespace_safe (c : ascii) (rest : string) :
  pem_safe c = true ->
  remove_whitespace (String c rest) = String c (remove_whitespace rest).
Proof.
  unfold pem_safe. intros [[Hspace Hascii]%andb_true_iff _]%andb_true_iff.
  apply negb_true_iff in Hspace. apply N.ltb_lt in Hascii.
  cbn [remove_whitespace]. rewrite Hspace.
  destruct rest as [ | c2 rest2 ]; [ reflexivity | ].
  assert (H2 : is_space2 c c2 = false).
  { unfold is_space2. destruct (N.eqb_spec (N_of_ascii c) 194); [ lia | reflexivity ]. }
  rewrite H2.
  destruct rest2 as [ | c3 rest3 ]; [ reflexivity | ].
  assert (H3 : is_space3 c c2 c3 = false).
  { unfold is_space3.
    destruct (N.eqb_spec (N_of_ascii c) 225); [ lia | ].
    destruct (N.eqb_spec (N_of_ascii c) 226); [ lia | ].
    destruct (N.eqb_spec (N_of_ascii c) 227); [ lia | ].
    destruct (N.eqb_spec (N_of_ascii c) 239); [ lia | ].
    reflexivity. }
  rewrite H3. reflexivity.
Qed.

Lemma remove_whitespace_LF (rest : string) :
  remove_whitespace (String "010"%char rest) = remove_whitespace rest.
Proof. reflexivity. Qed.

(** The line breaks that [wrap64] adds are the white space that
    [remove_whitespace] takes out. *)
Lemma remove_whitespace_wrap64 (s : string) (col : nat) :
  Forall (fun c => pem_safe c = true) (list_ascii_of_string s) ->
  remove_whitespace (wrap64 col s) = s.
Proof.
  revert col. induction s as [ | c s IH ]; intros col Hs; [ reflexivity | ].
  apply Forall_cons_1 in Hs as [Hc Hs].
  cbn [wrap64]. destruct (col =? 64)%nat.
  - rewrite remove_whitespace_LF, remove_whitespace_safe by exact Hc.
    f_equal. apply IH, Hs.
  - rewrite remove_whitespace_safe by exact Hc. f_equal. apply IH, Hs.
Qed.

Lemma b64_char_pem_safe (n : N) : (n < 64)%N -> pem_safe (b64_char n) = true.
Proof.
  intros Hn.
  assert (Hcases : exists k, k < 64 /\ n = N.of_nat k).
  { exists (N.to_nat n). split; lia. }
  destruct Hcases as (k & Hk & ->). clear Hn.
  do 64 (destruct k as [ | k ]; [ reflexivity | ]). lia.
Qed.

Lemma base64_encode_pem_safe (bs : bytes) :
  Forall (fun c => pem_safe c = true) (list_ascii_of_string (base64_encode bs)).
Proof.
  unfold base64_encode. rewrite list_ascii_of_string_of_list_ascii.
  unfold encoded_chars. apply Forall_app. split.
  - apply Forall_map. eapply Forall_impl; [ apply sextets_of_bytes_lt | ].
    intros n Hn. apply b64_char_pem_safe, Hn.
  - destruct (b64_padding_cases (length bs)) as [-> | [-> | ->]];
      repeat constructor.
Qed.

Lemma list_ascii_of_string_app (a b : string) :
  list_ascii_of_string (a +:+ b) = list_ascii_of_string a ++ list_ascii_of_string b.
Proof.
  induction a as [ | c a IH ]; [ reflexivity | ].
  change (c :: list_ascii_of_string (a +:+ b)
          = c :: (list_ascii_of_string a ++ list_ascii_of_string b)).
  f_equal. exact IH.
Qed.

Lemma wrap64_no_hyphen (s : string) (col : nat) :
  Forall (fun c => pem_safe c = true) (list_ascii_of_string s) ->
  Forall (fun x => x <> "-"%char) (list_ascii_of_string (wrap64 col s)).
Proof.
  revert col. induction s as [ | c s IH ]; intros col Hs; [ constructor | ].
  apply Forall_cons_1 in Hs as [Hc Hs].
  assert (Hne : c <> "-"%char).
  { intros ->. discriminate Hc. }
  cbn [wrap64]. destruct (col =? 64)%nat; cbn [list_ascii_of_string].
  - constructor; [ discriminate | ]. constructor; [ exact Hne | apply IH, Hs ].
  - constructor; [ exact Hne | apply IH, Hs ].
Qed.

(** The PEM reader gives back the base64 text that the PEM writer wrapped. *)
Lemma pem_contents_pem_text (bs : bytes) (type : PemType) :
  pem_contents (pem_text (base64_encode bs) type) type = base64_encode bs.
Proof.
  unfold pem_contents, pem_text. cbv zeta.
  rewrite replace_first_head.
  assert (Hfooter : exists p, pem_footer type = String "-"%char p).
  { destruct type; eexists; reflexivity. }
  destruct Hfooter as (p & Hp). rewrite Hp.
  do 2 rewrite <- string_app_assoc.
  rewrite replace_first_tail.
  - rewrite string_app_assoc.
    change (LF +:+ wrap64 0 (base64_encode bs) +:+ LF)
      with (String "010"%char (wrap64 0 (base64_encode bs) +:+ LF)).
    rewrite remove_whitespace_LF.
    assert (Htail : forall s, Forall (fun c => pem_safe c = true) (list_ascii_of_string s) ->
                              forall col, remove_whitespace (wrap64 col s +:+ LF) = s).
    { induction s as [ | c s IH ]; intros Hs col; [ reflexivity | ].
      apply Forall_cons_1 in Hs as [Hc Hs].
      cbn [wrap64]. destruct (col =? 64)%nat.
      - change (String "010"%char (String c (wrap64 1 s)) +:+ LF)
          with (String "010"%char (String c (wrap64 1 s +:+ LF))).
        rewrite remove_whitespace_LF, remove_whitespace_safe by exact Hc.
        f_equal. apply IH, Hs.
      - change (String c (wrap64 (S col) s) +:+ LF)
          with (String c (wrap64 (S col) s +:+ LF)).
        rewrite remove_whitespace_safe by exact Hc. f_equal. apply IH, Hs. }
    apply Htail, base64_encode_pem_safe.
  - rewrite !list_ascii_of_string_app. apply Forall_app. split; [ apply Forall_app; split | ].
    + repeat constructor. discriminate.
    + apply wrap64_no_hyphen, base64_encode_pem_safe.
    + repeat constructor. discriminate.
Qed.

(** ** Password-protected private keys *)

Ltac heap_simpl :=
  unfold buffer_bytes;
  cbn [heap next_loc rng_pos trace fs km_publicKey km_privateKey km_publicKeyPem
       set_heap set_rng_pos set_trace set_fs set_km fst snd];
  repeat first [ rewrite lookup_total_insert_eq
               | rewrite lookup_total_insert_ne by lia ].

Lemma global_crypto_getRandomValues_run (pf : Platform) (n : nat) (w : World) :
  has_global_crypto pf = true -> (N.of_nat n <= 65536)%N ->
  RSAOperations.global_crypto_getRandomValues pf n w
  = (Return (next_loc w),
     set_heap (<[next_loc w := map (entropy pf) (seq (rng_pos w) n)]> (heap w))
              (S (next_loc w)) (set_rng_pos (rng_pos w + n) w)).
Proof.
  intros Hg Hn. unfold RSAOperations.global_crypto_getRandomValues. rewrite Hg.
  unfold crypto_getRandomValues.
  destruct (N.ltb_spec 65536 (N.of_nat n)); [ lia | reflexivity ].
Qed.

Lemma pem_decode_pem_text (pf : Platform) (bs : bytes) (type : PemType) :
  decodes_base64 pf -> pem_decode pf (pem_text (base64_encode bs) type) type = Some bs.
Proof. intros Hdec. unfold pem_decode. rewrite pem_contents_pem_text. apply Hdec. Qed.

Lemma atob_platform_decodes (pf : Platform) : has_atob pf = true -> decodes_base64 pf.
Proof.
  intros Ha bs. unfold decode_base64. rewrite Ha. cbn [js_ToString].
  apply atob_base64_encode.
Qed.

Ltac world_simpl :=
  cbn [heap next_loc rng_pos trace fs km_publicKey km_privateKey km_publicKeyPem
       set_heap set_rng_pos set_trace set_fs set_km fst snd key_kind key_data].

Lemma bind_run {A B} (m : M A) (k : A -> M B) (w w1 : World) (a : A) :
  m w = (Return a, w1) -> bind m k w = k a w1.
Proof. intros H. unfold bind. rewrite H. reflexivity. Qed.

Lemma bind_throw {A B} (m : M A) (k : A -> M B) (w w1 : World) (t : Thrown) :
  m w = (Throw t, w1) -> bind m k w = (Throw t, w1).
Proof. intros H. unfold bind. rewrite H. reflexivity. Qed.

Lemma require_kind_same (key : CryptoKey) (w : World) :
  require_kind (key_kind key) key w = (Return tt, w).
Proof. unfold require_kind. destruct (key_kind key); reflexivity. Qed.

Lemma subtle_exportKey_run (key : CryptoKey) (w : World) :
  subtle_exportKey (key_kind key) key w
  = (Return (next_loc w),
     set_heap (<[next_loc w := key_data key]> (heap w)) (S (next_loc w)) w).
Proof.
  unfold subtle_exportKey. erewrite bind_run by apply require_kind_same. reflexivity.
Qed.

Lemma subtle_deriveKey_run (pf : Platform) (salt : loc) (iterations : N)
    (password : bytes) (len : N) (w : World) :
  subtle_deriveKey_PBKDF2_AES_CBC pf salt iterations (mkCryptoKey Pbkdf2Key password) len w
  = (Return (mkCryptoKey AesCbcKey
               (pbkdf2_hmac_sha256 (subtle pf) password (buffer_bytes w salt) iterations len)),
     w).
Proof. reflexivity. Qed.

Lemma subtle_encrypt_AES_CBC_run (pf : Platform) (iv : loc) (key : bytes) (data : loc)
    (w : World) :
  subtle_encrypt_AES_CBC pf iv (mkCryptoKey AesCbcKey key) data w
  = match aes_cbc_encrypt (subtle pf) key (buffer_bytes w iv) (buffer_bytes w data) with
    | Some ct => (Return (next_loc w),
                  set_heap (<[next_loc w := ct]> (heap w)) (S (next_loc w)) w)
    | None => (Throw (ErrObj OperationError), w)
    end.
Proof.
  unfold subtle_encrypt_AES_CBC, bind, require_kind, read, of_option, alloc, ret.
  world_simpl. destruct (aes_cbc_encrypt _ _ _ _); reflexivity.
Qed.

Lemma subtle_decrypt_AES_CBC_run (pf : Platform) (iv : loc) (key : bytes) (data : loc)
    (w : World) :
  subtle_decrypt_AES_CBC pf iv (mkCryptoKey AesCbcKey key) data w
  = match aes_cbc_decrypt (subtle pf) key (buffer_bytes w iv) (buffer_bytes w data) with
    | Some pt => (Return (next_loc w),
                  set_heap (<[next_loc w := pt]> (heap w)) (S (next_loc w)) w)
    | None => (Throw (ErrObj OperationError), w)
    end.
Proof.
  unfold subtle_decrypt_AES_CBC, bind, require_kind, read, of_option, alloc, ret.
  world_simpl. destruct (aes_cbc_decrypt _ _ _ _); reflexivity.
Qed.

Lemma subtle_importKey_pkcs8_run (pf : Platform) (keyData : loc) (w : World) :
  subtle_importKey_pkcs8 pf keyData w
  = match parse_pkcs8 (subtle pf) (buffer_bytes w keyData) with
    | Some pkcs8 => (Return (mkCryptoKey RsaPrivateKey pkcs8), w)
    | None => (Throw (ErrObj DataError), w)
    end.
Proof.
  unfold subtle_importKey_pkcs8, bind, read, of_option, ret.
  destruct (parse_pkcs8 _ _); reflexivity.
Qed.

Lemma arrayBufferToPem_run (pf : Platform) (b : loc) (type : PemType) (w : World) :
  arrayBufferToPem pf b type w
  = (Return (pem_text (base64_encode (buffer_bytes w b)) type), w).
Proof.
  unfold arrayBufferToPem. erewrite bind_run by apply arrayBufferToBase64_run.
  reflexivity.
Qed.

Lemma pemToArrayBuffer_run (pf : Platform) (pem : string) (type : PemType) (w : World)
    (bs : bytes) :
  pem_decode pf pem type = Some bs ->
  pemToArrayBuffer pf pem type w
  = (Return (next_loc w), set_heap (<[next_loc w := bs]> (heap w)) (S (next_loc w)) w).
Proof.
  intros Hdec. unfold pemToArrayBuffer. rewrite base64ToArrayBuffer_run.
  unfold pem_decode in Hdec. rewrite Hdec. reflexivity.
Qed.

(** What encryptPrivateKeyWithPassword returns. *)
Lemma encryptPrivateKeyWithPassword_run (pf : Platform) (keyData : loc)
    (password : string) (w : World) :
  has_global_crypto pf = true ->
  keyData < next_loc w ->
  let salt := map (entropy pf) (seq (rng_pos w) 16) in
  let iv := map (entropy pf) (seq (rng_pos w + 16) 16) in
  (RSAOperations.encryptPrivateKeyWithPassword pf keyData password w).1
  = match aes_cbc_encrypt (subtle pf) (derived_key pf password salt) iv
            (buffer_bytes w keyData) with
    | Some ct => Return (pem_text (base64_encode (salt ++ iv ++ ct)) PRIVATE)
    | None => Throw (ErrObj OperationError)
    end.
Proof.
  intros Hg Hdata salt iv.
  unfold RSAOperations.encryptPrivateKeyWithPassword.
  erewrite bind_run by apply stringToArrayBuffer_run.
  erewrite bind_run by reflexivity.
  erewrite bind_run
    by (apply global_crypto_getRandomValues_run; [ exact Hg | vm_compute; discriminate ]).
  world_simpl. fold salt.
  erewrite bind_run by apply subtle_deriveKey_run.
  erewrite bind_run
    by (apply global_crypto_getRandomValues_run; [ exact Hg | vm_compute; discriminate ]).
  world_simpl. fold iv.
  heap_simpl. fold (derived_key pf password salt).
  unfold bind at 1. rewrite subtle_encrypt_AES_CBC_run. heap_simpl.
  destruct (aes_cbc_encrypt (subtle pf) (derived_key pf password salt) iv (heap w !!! keyData))
    as [ct|]; [ | reflexivity ].
  erewrite bind_run by reflexivity.
  erewrite bind_run by reflexivity.
  erewrite bind_run by reflexivity.
  erewrite bind_run by reflexivity.
  rewrite arrayBufferToPem_run. heap_simpl. reflexivity.
Qed.

(** What decryptPrivateKeyWithPassword does with a PEM that decodes to
    salt, iv and ciphertext: the plaintext in a fresh buffer when AES-CBC
    accepts, the one generic error when it rejects. *)
Lemma decryptPrivateKeyWithPassword_run (pf : Platform) (pem password : string)
    (combined : bytes) (w : World) :
  pem_decode pf pem PRIVATE = Some combined ->
  let salt := take 16 combined in
  let iv := take 16 (drop 16 combined) in
  let encrypted := drop 32 combined in
  match aes_cbc_decrypt (subtle pf) (derived_key pf password salt) iv encrypted with
  | Some pt =>
      exists out w',
        RSAOperations.decryptPrivateKeyWithPassword pf pem password w = (Return out, w')
        /\ buffer_bytes w' out = pt
  | None =>
      (RSAOperations.decryptPrivateKeyWithPassword pf pem password w).1
      = Throw private_key_decrypt_failed
  end.
Proof.
  intros Hdec salt iv encrypted.
  unfold RSAOperations.decryptPrivateKeyWithPassword.
  erewrite bind_run by (apply pemToArrayBuffer_run; exact Hdec).
  erewrite bind_run by reflexivity.
  heap_simpl. fold salt iv encrypted.
  erewrite bind_run by reflexivity.
  erewrite bind_run by reflexivity.
  erewrite bind_run by reflexivity.
  erewrite bind_run by apply stringToArrayBuffer_run.
  erewrite bind_run by reflexivity.
  erewrite bind_run by apply subtle_deriveKey_run.
  unfold try_catch. rewrite subtle_decrypt_AES_CBC_run.
  heap_simpl. fold (derived_key pf password salt).
  destruct (aes_cbc_decrypt (subtle pf) (derived_key pf password salt) iv encrypted)
    as [pt|].
  - eexists. eexists. split; [ reflexivity | ]. heap_simpl. reflexivity.
  - reflexivity.
Qed.

Lemma take_drop_layout (salt iv ct : bytes) :
  length salt = 16 -> length iv = 16 ->
  take 16 (salt ++ iv ++ ct) = salt
  /\ take 16 (drop 16 (salt ++ iv ++ ct)) = iv
  /\ drop 32 (salt ++ iv ++ ct) = ct.
Proof.
  intros Hs Hi.
  assert (H1 : take 16 (salt ++ iv ++ ct) = salt).
  { rewrite <- Hs. apply take_app_length. }
  assert (H2 : drop 16 (salt ++ iv ++ ct) = iv ++ ct).
  { rewrite <- Hs. apply drop_app_length. }
  split; [ exact H1 | ]. rewrite H2. split.
  - rewrite <- Hi. apply take_app_length.
  - replace 32 with (16 + 16) by reflexivity. rewrite <- drop_drop, H2.
    rewrite <- Hi. apply drop_app_length.
Qed.

(** C8 (as amended): on a platform with the global crypto object and for a
    password that is not empty, the PEM that exportPrivateKey produces is a
    PRIVATE KEY block that decodes to salt(16) ++ iv(16) ++ ciphertext, the
    ciphertext being the AES-256-CBC encryption of the PKCS8 bytes under
    the PBKDF2-HMAC-SHA256 key (100,000 iterations) of the password and the
    salt; importPrivateKey with the same password gives the key back; and
    with a non-empty password whose derived key AES-CBC rejects, it throws
    the generic 'Failed to decrypt private key' error. *)
Theorem exportPrivateKey_password_roundtrip (pf : Platform) (key : CryptoKey)
    (password : string) (w w1 : World) (pem : string) :
  has_global_crypto pf = true ->
  decodes_base64 pf ->
  aes_cbc_correct (subtle pf) ->
  well_formed_private_key pf key ->
  password <> ""%string ->
  RSAOperations.exportPrivateKey pf key (Some password) w = (Return pem, w1) ->
  exists salt iv ct,
    password_layout pf key password salt iv ct
    /\ pem = pem_text (base64_encode (salt ++ iv ++ ct)) PRIVATE
    /\ pem_decode pf pem PRIVATE = Some (salt ++ iv ++ ct)
    /\ (forall w2, (RSAOperations.importPrivateKey pf pem (Some password) w2).1 = Return key)
    /\ (forall other w2,
          other <> ""%string ->
          aes_cbc_decrypt (subtle pf) (derived_key pf other salt) iv ct = None ->
          (RSAOperations.importPrivateKey pf pem (Some other) w2).1
          = Throw private_key_decrypt_failed).
Proof.
  intros Hg Hdec Hcbc [Hkind Hpkcs8] Hpw Hexport.
  set (salt := map (entropy pf) (seq (rng_pos w) 16)).
  set (iv := map (entropy pf) (seq (rng_pos w + 16) 16)).
  assert (Hsalt : length salt = 16)
    by (subst salt; rewrite length_map, length_seq; reflexivity).
  assert (Hiv : length iv = 16)
    by (subst iv; rewrite length_map, length_seq; reflexivity).
  assert (Hrun : (RSAOperations.exportPrivateKey pf key (Some password) w).1
                 = match aes_cbc_encrypt (subtle pf) (derived_key pf password salt) iv
                         (key_data key) with
                   | Some ct => Return (pem_text (base64_encode (salt ++ iv ++ ct)) PRIVATE)
                   | None => Throw (ErrObj OperationError)
                   end).
  { unfold RSAOperations.exportPrivateKey, password_given.
    destruct (String.eqb_spec password "") as [ | _ ]; [ contradiction | ].
    rewrite <- Hkind at 1.
    erewrite bind_run by apply subtle_exportKey_run.
    unfold bind.
    pose proof (encryptPrivateKeyWithPassword_run pf (next_loc w) password
                  (set_heap (<[next_loc w := key_data key]> (heap w)) (S (next_loc w)) w)
                  Hg) as Henc.
    cbn [next_loc set_heap rng_pos] in Henc. specialize (Henc ltac:(lia)).
    cbv zeta in Henc. fold salt iv in Henc.
    unfold buffer_bytes in Henc. cbn [heap set_heap] in Henc.
    rewrite lookup_total_insert_eq in Henc.
    destruct (RSAOperations.encryptPrivateKeyWithPassword pf (next_loc w) password _)
      as [[p|t] w']; cbn [fst] in Henc |- *; exact Henc. }
  rewrite Hexport in Hrun. cbn [fst] in Hrun.
  destruct (aes_cbc_encrypt (subtle pf) (derived_key pf password salt) iv (key_data key))
    as [ct|] eqn:Henc; [ | discriminate ].
  injection Hrun as ->.
  exists salt, iv, ct.
  assert (Hdecoded : pem_decode pf (pem_text (base64_encode (salt ++ iv ++ ct)) PRIVATE)
                       PRIVATE = Some (salt ++ iv ++ ct))
    by (apply pem_decode_pem_text, Hdec).
  destruct (take_drop_layout salt iv ct Hsalt Hiv) as (Ht1 & Ht2 & Ht3).
  split; [ repeat split; assumption | ].
  split; [ reflexivity | ].
  split; [ exact Hdecoded | ].
  split.
  - intros w2. unfold RSAOperations.importPrivateKey, password_given.
    destruct (String.eqb_spec password "") as [ | _ ]; [ contradiction | ].
    pose proof (decryptPrivateKeyWithPassword_run pf _ password _ w2 Hdecoded) as Hrun.
    cbv zeta in Hrun. rewrite Ht1, Ht2, Ht3 in Hrun.
    rewrite (Hcbc _ _ _ _ Henc) in Hrun.
    destruct Hrun as (out & w' & Hrun & Hbytes).
    erewrite bind_run by exact Hrun.
    rewrite subtle_importKey_pkcs8_run, Hbytes, Hpkcs8.
    destruct key as [kind data]. cbn in Hkind. subst kind. reflexivity.
  - intros other w2 Hother Hreject.
    unfold RSAOperations.importPrivateKey, password_given.
    destruct (String.eqb_spec other "") as [ | _ ]; [ contradiction | ].
    pose proof (decryptPrivateKeyWithPassword_run pf _ other _ w2 Hdecoded) as Hrun.
    cbv zeta in Hrun. rewrite Ht1, Ht2, Ht3, Hreject in Hrun.
    unfold bind.
    destruct (RSAOperations.decryptPrivateKeyWithPassword pf _ other w2) as [[o|t] w'];
      cbn [fst] in Hrun |- *; [ discriminate | injection Hrun as ->; reflexivity ].
Qed.

Lemma Example_aes_cbc_correct : aes_cbc_correct Example.primitives.
Proof. intros key iv data ct. apply Example_unseal_seal. Qed.

(** C8 (as amended) on the key of the examples and the password hunter2. *)
Lemma exportPrivateKey_password_roundtrip_witness :
  let pf := Example.node Example.no_json Example.offline in
  exists salt iv ct,
    password_layout pf Example.private_key "hunter2" salt iv ct
    /\ Example.protected_pem = pem_text (base64_encode (salt ++ iv ++ ct)) PRIVATE
    /\ pem_decode pf Example.protected_pem PRIVATE = Some (salt ++ iv ++ ct)
    /\ (forall w2,
          (RSAOperations.importPrivateKey pf Example.protected_pem (Some "hunter2") w2).1
          = Return Example.private_key)
    /\ (forall other w2,
          other <> ""%string ->
          aes_cbc_decrypt (subtle pf) (derived_key pf other salt) iv ct = None ->
          (RSAOperations.importPrivateKey pf Example.protected_pem (Some other) w2).1
          = Throw private_key_decrypt_failed).
Proof.
  intros pf.
  apply (exportPrivateKey_password_roundtrip pf Example.private_key "hunter2"
           Example.empty_world
           (RSAOperations.exportPrivateKey pf Example.private_key (Some "hunter2")
              Example.empty_world).2
           Example.protected_pem).
  - reflexivity.
  - apply atob_platform_decodes. reflexivity.
  - exact Example_aes_cbc_correct.
  - split; reflexivity.
  - discriminate.
  - vm_compute. reflexivity.
Defined.

(** C8 (as stated) fails at the empty password: exportPrivateKey takes it
    for no password and writes the PKCS8 bytes themselves, which are not a
    salt, an iv and a ciphertext of the key. *)
Lemma exportPrivateKey_empty_password_unprotected :
  let pf := Example.node Example.no_json Example.offline in
  let pem := pem_text (base64_encode (key_data Example.private_key)) PRIVATE in
  (RSAOperations.exportPrivateKey pf Example.private_key (Some "") Example.empty_world).1
  = Return pem
  /\ pem_decode pf pem PRIVATE = Some (key_data Example.private_key)
  /\ ~ exists salt iv ct,
         password_layout pf Example.private_key "" salt iv ct
         /\ pem_decode pf pem PRIVATE = Some (salt ++ iv ++ ct).
Proof.
  intros pf pem. split; [ vm_compute; reflexivity | ].
  assert (Hdec : pem_decode pf pem PRIVATE = Some (key_data Example.private_key)).
  { apply pem_decode_pem_text, atob_platform_decodes. reflexivity. }
  split; [ exact Hdec | ].
  intros (salt & iv & ct & (Hsalt & Hiv & _) & Hlayout).
  rewrite Hdec in Hlayout. injection Hlayout as Hlayout.
  apply (f_equal length) in Hlayout.
  rewrite !length_app, Hsalt, Hiv in Hlayout. cbn in Hlayout. lia.
Qed.

(** And at an empty password on the way back: importPrivateKey does not
    decrypt at all, and what the caller gets is the DataError of importKey,
    not the generic error. *)
Lemma importPrivateKey_empty_password_not_generic :
  let pf := Example.node Example.no_json Example.offline in
  (RSAOperations.importPrivateKey pf Example.protected_pem (Some "") Example.empty_world).1
  = Throw (ErrObj DataError)
  /\ ErrObj DataError <> private_key_decrypt_failed.
Proof. split; [ vm_compute; reflexivity | discriminate ]. Qed.

(** * Further properties of the code *)

(** ** utils.ts *)

(** X1: on a platform with atob, the text that arrayBufferToBase64 gives
    for a buffer is read back by base64ToArrayBuffer into a fresh buffer
    with the same bytes; every buffer that existed keeps its contents. *)
Theorem base64_buffer_roundtrip (pf : Platform) (buffer : loc) (w : World) :
  has_atob pf = true ->
  exists text w1 w2,
    arrayBufferToBase64 pf buffer w = (Return text, w1)
    /\ base64ToArrayBuffer pf (JString text) w1 = (Return (next_loc w), w2)
    /\ buffer_bytes w2 (next_loc w) = buffer_bytes w buffer
    /\ forall b, b <> next_loc w -> buffer_bytes w2 b = buffer_bytes w b.
Proof.
  intros Hatob.
  eexists _, _, _. split; [ apply arrayBufferToBase64_run | ].
  rewrite base64ToArrayBuffer_run.
  unfold decode_base64. rewrite Hatob. cbn [js_ToString].
  rewrite atob_base64_encode.
  split; [ reflexivity | ].
  split.
  - unfold buffer_bytes at 1. cbn [heap set_heap]. apply lookup_total_insert_eq.
  - intros b Hb. unfold buffer_bytes. cbn [heap set_heap].
    apply lookup_total_insert_ne. congruence.
Qed.

Lemma base64_buffer_roundtrip_witness :
  let pf := Example.node Example.no_json Example.offline in
  exists text w1 w2,
    arrayBufferToBase64 pf 0 Example.world_with_secret = (Return text, w1)
    /\ base64ToArrayBuffer pf (JString text) w1 = (Return 1, w2)
    /\ buffer_bytes w2 1 = [Byte.x01; Byte.x02; Byte.x03]
    /\ forall b, b <> 1 -> buffer_bytes w2 b = buffer_bytes Example.world_with_secret b.
Proof.
  intros pf.
  exact (base64_buffer_roundtrip pf 0 Example.world_with_secret eq_refl).
Defined.

(** X2: the outcomes of generateRandomBytes(n).  Past the largest typed
    array length of the engine (between 2^30 - 1 and 2^53 - 1) the call
    fails with the RangeError of new Uint8Array.  Below it, where the
    global crypto object is used, a request for more than 65536 bytes
    fails with a QuotaExceededError; the Node.js fallback has no such
    quota but fails with the RangeError of crypto.randomBytes above
    2^31 - 1 bytes.  A failed call draws nothing.  In every other case the
    call returns a fresh buffer with the next n bytes of the entropy
    stream and moves the cursor past them, so that two calls never return
    the same stretch. *)
Theorem generateRandomBytes_bounds (pf : Platform) (n : nat) (w : World) :
  let r := generateRandomBytes pf n w in
  let size := N.of_nat n in
  let fails_with (c : ErrorClass) :=
    (exists msg, r.1 = Throw (ErrObj (new_error c msg))) /\ r.2 = w in
  let returns_fresh_bytes :=
    r.1 = Return (next_loc w)
    /\ buffer_bytes r.2 (next_loc w) = map (entropy pf) (seq (rng_pos w) n)
    /\ length (buffer_bytes r.2 (next_loc w)) = n
    /\ rng_pos r.2 = rng_pos w + n
    /\ forall b, b <> next_loc w -> buffer_bytes r.2 b = buffer_bytes w b in
  (2 ^ 30 - 1 <= max_typed_array_length pf <= 2 ^ 53 - 1)%N
  /\ if (max_typed_array_length pf <? size)%N then fails_with RangeError
     else if has_global_crypto pf
     then if (65536 <? size)%N then fails_with (DOMException "QuotaExceededError")
          else returns_fresh_bytes
     else if (2 ^ 31 - 1 <? size)%N then fails_with RangeError
          else returns_fresh_bytes.
Proof.
  cbv zeta.
  assert (Hrun : forall m : M loc,
             m = (bs <- draw pf n ;; alloc bs) ->
             (m w).1 = Return (next_loc w)
             /\ buffer_bytes (m w).2 (next_loc w) = map (entropy pf) (seq (rng_pos w) n)
             /\ length (buffer_bytes (m w).2 (next_loc w)) = n
             /\ rng_pos (m w).2 = rng_pos w + n
             /\ forall b, b <> next_loc w -> buffer_bytes (m w).2 b = buffer_bytes w b).
  { intros m ->. unfold bind, draw, alloc. cbn [fst snd].
    unfold buffer_bytes. cbn [heap next_loc rng_pos set_heap set_rng_pos].
    rewrite lookup_total_insert_eq.
    repeat split; try reflexivity.
    - rewrite length_map, length_seq. reflexivity.
    - intros b Hb. apply lookup_total_insert_ne. congruence. }
  split; [ unfold max_typed_array_length; lia | ].
  unfold generateRandomBytes, crypto_getRandomValues.
  destruct (N.ltb_spec (max_typed_array_length pf) (N.of_nat n)) as [Hbig | Hfits].
  { split; [ eexists; reflexivity | reflexivity ]. }
  destruct (has_global_crypto pf).
  - destruct (65536 <? N.of_nat n)%N; [ | apply Hrun; reflexivity ].
    split; [ eexists; reflexivity | reflexivity ].
  - destruct (N.ltb_spec (2 ^ 31 - 1) (N.of_nat n)) as [Hlarge | Hsmall];
      destruct (N.ltb_spec (N.min (max_typed_array_length pf) (2 ^ 31 - 1)) (N.of_nat n));
      try lia.
    + split; [ eexists; reflexivity | reflexivity ].
    + apply Hrun. reflexivity.
Qed.

(** X3: on a platform with atob, pemToArrayBuffer reads the PEM text that
    arrayBufferToPem writes for a buffer, under the same type, back into a
    fresh buffer with the same bytes. *)
Theorem pem_buffer_roundtrip (pf : Platform) (buffer : loc) (type : PemType) (w : World) :
  has_atob pf = true ->
  exists pem w1 w2,
    arrayBufferToPem pf buffer type w = (Return pem, w1)
    /\ pemToArrayBuffer pf pem type w1 = (Return (next_loc w), w2)
    /\ buffer_bytes w2 (next_loc w) = buffer_bytes w buffer
    /\ forall b, b <> next_loc w -> buffer_bytes w2 b = buffer_bytes w b.
Proof.
  intros Hatob.
  eexists _, _, _. split; [ apply arrayBufferToPem_run | ].
  split.
  { apply pemToArrayBuffer_run, pem_decode_pem_text, atob_platform_decodes, Hatob. }
  split.
  - unfold buffer_bytes at 1. cbn [heap set_heap]. apply lookup_total_insert_eq.
  - intros b Hb. unfold buffer_bytes. cbn [heap set_heap].
    apply lookup_total_insert_ne. congruence.
Qed.

Lemma pem_buffer_roundtrip_witness :
  let pf := Example.node Example.no_json Example.offline in
  exists pem w1 w2,
    arrayBufferToPem pf 0 PUBLIC Example.world_with_secret = (Return pem, w1)
    /\ pemToArrayBuffer pf pem PUBLIC w1 = (Return 1, w2)
    /\ buffer_bytes w2 1 = [Byte.x01; Byte.x02; Byte.x03]
    /\ forall b, b <> 1 -> buffer_bytes w2 b = buffer_bytes Example.world_with_secret b.
Proof.
  intros pf.
  exact (pem_buffer_roundtrip pf 0 PUBLIC Example.world_with_secret eq_refl).
Defined.

(** ** AESEncryption *)

(** X4: a key made by generateKey has 32 bytes drawn from the entropy
    stream, exportKey writes those bytes to a fresh buffer, and importKey
    of that buffer passes the length check and gives the same key back. *)
Theorem generateKey_exportKey_importKey (pf : Platform) (w : World) :
  exists key raw w1 w2,
    AESEncryption.generateKey pf w = (Return key, w1)
    /\ key_data key = map (entropy pf) (seq (rng_pos w) 32)
    /\ length (key_data key) = 32
    /\ AESEncryption.exportKey key w1 = (Return raw, w2)
    /\ buffer_bytes w2 raw = key_data key
    /\ AESEncryption.importKey raw w2 = (Return key, w2).
Proof.
  set (k := map (entropy pf) (seq (rng_pos w) 32)).
  assert (Hlen : length k = 32) by (subst k; rewrite length_map, length_seq; reflexivity).
  exists (mkCryptoKey AesGcmKey k). eexists _, _, _.
  split; [ reflexivity | ].
  split; [ reflexivity | ].
  split; [ exact Hlen | ].
  split; [ apply (subtle_exportKey_run (mkCryptoKey AesGcmKey k)) | ].
  split; [ heap_simpl; reflexivity | ].
  rewrite importKey_run. heap_simpl. world_simpl. rewrite Hlen. reflexivity.
Qed.

(** X5: decrypt either returns a fresh buffer holding what AES-256-GCM
    (128-bit tag) makes of the ciphertext under the key and the nonce, or
    throws a plain Error whose message begins with 'AES-GCM decryption
    failed: ' and leaves the world as it was; the DOMException of Web
    Crypto never gets out. *)
Theorem decrypt_outcomes (pf : Platform) (ciphertext nonce : loc) (key : CryptoKey)
    (w : World) :
  let r := AESEncryption.decrypt pf ciphertext nonce key w in
  match r.1 with
  | Return plaintext =>
      key_kind key = AesGcmKey
      /\ plaintext = next_loc w
      /\ aes_gcm_decrypt (subtle pf) (key_data key) (buffer_bytes w nonce) 128
           (buffer_bytes w ciphertext)
         = Some (buffer_bytes r.2 plaintext)
  | Throw t =>
      r.2 = w
      /\ exists reason,
           t = ErrObj (new_error Error ("AES-GCM decryption failed: " +:+ reason))
  end.
Proof.
  cbv zeta. rewrite decrypt_run.
  destruct (key_kind key); try (cbn [fst snd]; split; [ reflexivity | eexists; reflexivity ]).
  destruct (aes_gcm_decrypt _ _ _ _ _) as [pt|] eqn:Hdec; cbn [fst snd].
  - heap_simpl. auto.
  - split; [ reflexivity | eexists; reflexivity ].
Qed.

(** ** RSAOperations *)

(** X6: under the RSA-OAEP law for a key pair, decryptKey with the private
    key gives back, in a fresh buffer, the bytes that encryptKey wrapped
    with the public key. *)
Theorem encryptKey_decryptKey_roundtrip (pf : Platform) (aesKey : loc)
    (publicKey privateKey : CryptoKey) (w w' : World) (wrapped : loc) :
  rsa_oaep_correct (subtle pf) publicKey privateKey ->
  key_kind privateKey = RsaPrivateKey ->
  RSAOperations.encryptKey pf aesKey publicKey w = (Return wrapped, w') ->
  exists out w'',
    RSAOperations.decryptKey pf wrapped privateKey w' = (Return out, w'')
    /\ buffer_bytes w'' out = buffer_bytes w aesKey.
Proof.
  intros Hlaw Hkind Henc.
  unfold RSAOperations.encryptKey, subtle_encrypt_RSA_OAEP in Henc.
  apply bind_Return_inv in Henc as (u & w1 & Hk & Henc).
  assert (w1 = w) as ->.
  { unfold require_kind in Hk.
    destruct (key_kind publicKey); unfold ret, throw in Hk; congruence. }
  apply bind_Return_inv in Henc as (msg & w2 & Hread & Henc).
  injection Hread as <- <-.
  apply bind_Return_inv in Henc as (seed & w3 & Hdraw & Henc).
  unfold draw in Hdraw. injection Hdraw as <- <-.
  apply bind_Return_inv in Henc as (ct & w4 & Hct & Henc).
  destruct (rsa_oaep_encrypt (subtle pf) (key_data publicKey) _ (buffer_bytes w aesKey))
    as [c|] eqn:Hprim; cbn in Hct; [ | discriminate ].
  injection Hct as <- <-.
  unfold alloc in Henc. injection Henc as <- <-.
  rewrite decryptKey_run, Hkind.
  heap_simpl. rewrite (Hlaw _ _ _ Hprim).
  eexists _, _. split; [ reflexivity | ]. heap_simpl. reflexivity.
Qed.

Lemma encryptKey_decryptKey_roundtrip_witness :
  let pf := Example.node Example.no_json Example.offline in
  let run := RSAOperations.encryptKey pf 0 Fixtures.public_key Example.world_with_secret in
  exists out w'',
    RSAOperations.decryptKey pf 1 Example.private_key run.2 = (Return out, w'')
    /\ buffer_bytes w'' out = buffer_bytes Example.world_with_secret 0.
Proof.
  intros pf run.
  apply (encryptKey_decryptKey_roundtrip pf 0 Fixtures.public_key Example.private_key
           Example.world_with_secret run.2 1).
  - intros seed msg ct. apply Example_unseal_seal.
  - reflexivity.
  - vm_compute. reflexivity.
Defined.

Lemma subtle_importKey_spki_run (pf : Platform) (keyData : loc) (w : World) :
  subtle_importKey_spki pf keyData w
  = match parse_spki (subtle pf) (buffer_bytes w keyData) with
    | Some spki => (Return (mkCryptoKey RsaPublicKey spki), w)
    | None => (Throw (ErrObj DataError), w)
    end.
Proof.
  unfold subtle_importKey_spki, bind, read, of_option, ret.
  destruct (parse_spki _ _); reflexivity.
Qed.

Lemma password_given_nonempty (p : string) : p <> ""%string -> password_given (Some p) = Some p.
Proof.
  intros Hp. unfold password_given.
  destruct (String.eqb_spec p ""); [ contradiction | reflexivity ].
Qed.

(** What exportPublicKey returns for a public key, and the world after. *)
Lemma exportPublicKey_run (pf : Platform) (key : CryptoKey) (w : World) :
  key_kind key = RsaPublicKey ->
  RSAOperations.exportPublicKey pf key w
  = (Return (pem_text (base64_encode (key_data key)) PUBLIC),
     set_heap (<[next_loc w := key_data key]> (heap w)) (S (next_loc w)) w).
Proof.
  intros Hkind. unfold RSAOperations.exportPublicKey.
  rewrite <- Hkind at 1.
  erewrite bind_run by apply subtle_exportKey_run.
  rewrite arrayBufferToPem_run. heap_simpl. reflexivity.
Qed.

(** What importPublicKey does with a PEM text that decodes. *)
Lemma importPublicKey_run (pf : Platform) (pem : string) (bs : bytes) (w : World) :
  pem_decode pf pem PUBLIC = Some bs ->
  RSAOperations.importPublicKey pf pem w
  = match parse_spki (subtle pf) bs with
    | Some spki =>
        (Return (mkCryptoKey RsaPublicKey spki),
         set_heap (<[next_loc w := bs]> (heap w)) (S (next_loc w)) w)
    | None =>
        (Throw (ErrObj DataError),
         set_heap (<[next_loc w := bs]> (heap w)) (S (next_loc w)) w)
    end.
Proof.
  intros Hdec. unfold RSAOperations.importPublicKey.
  erewrite bind_run by (apply pemToArrayBuffer_run; exact Hdec).
  rewrite subtle_importKey_spki_run. heap_simpl. reflexivity.
Qed.

(** X7: for a public key whose SPKI encoding importKey reads back, the PEM
    that exportPublicKey writes is the PUBLIC KEY block around the base64
    of that encoding, and importPublicKey of it gives the same key. *)
Theorem exportPublicKey_importPublicKey (pf : Platform) (key : CryptoKey) (w : World) :
  decodes_base64 pf ->
  well_formed_public_key pf key ->
  exists pem w1,
    RSAOperations.exportPublicKey pf key w = (Return pem, w1)
    /\ pem = pem_text (base64_encode (key_data key)) PUBLIC
    /\ forall w2, (RSAOperations.importPublicKey pf pem w2).1 = Return key.
Proof.
  intros Hdec [Hkind Hspki].
  eexists _, _. split; [ apply exportPublicKey_run, Hkind | ].
  split; [ reflexivity | ].
  intros w2.
  rewrite (importPublicKey_run pf _ (key_data key)) by (apply pem_decode_pem_text, Hdec).
  rewrite Hspki. destruct key as [kind data]. cbn in Hkind. subst kind. reflexivity.
Qed.

Lemma exportPublicKey_importPublicKey_witness :
  let pf := Example.node Example.no_json Example.offline in
  exists pem w1,
    RSAOperations.exportPublicKey pf Fixtures.public_key Example.empty_world
    = (Return pem, w1)
    /\ pem = pem_text (base64_encode (key_data Fixtures.public_key)) PUBLIC
    /\ forall w2, (RSAOperations.importPublicKey pf pem w2).1 = Return Fixtures.public_key.
Proof.
  intros pf.
  apply (exportPublicKey_importPublicKey pf Fixtures.public_key Example.empty_world).
  - apply atob_platform_decodes. reflexivity.
  - split; reflexivity.
Defined.

(** What exportPrivateKey returns for a private key when the password is
    absent or empty, and the world after. *)
Lemma exportPrivateKey_plain_run (pf : Platform) (key : CryptoKey)
    (password : option string) (w : World) :
  key_kind key = RsaPrivateKey ->
  password_given password = None ->
  RSAOperations.exportPrivateKey pf key password w
  = (Return (pem_text (base64_encode (key_data key)) PRIVATE),
     set_heap (<[next_loc w := key_data key]> (heap w)) (S (next_loc w)) w).
Proof.
  intros Hkind Hpw. unfold RSAOperations.exportPrivateKey.
  rewrite <- Hkind at 1.
  erewrite bind_run by apply subtle_exportKey_run.
  rewrite Hpw, arrayBufferToPem_run. heap_simpl. reflexivity.
Qed.

(** What importPrivateKey does, without a password, with a PEM text that
    decodes. *)
Lemma importPrivateKey_plain_run (pf : Platform) (pem : string) (bs : bytes)
    (password : option string) (w : World) :
  password_given password = None ->
  pem_decode pf pem PRIVATE = Some bs ->
  RSAOperations.importPrivateKey pf pem password w
  = match parse_pkcs8 (subtle pf) bs with
    | Some pkcs8 =>
        (Return (mkCryptoKey RsaPrivateKey pkcs8),
         set_heap (<[next_loc w := bs]> (heap w)) (S (next_loc w)) w)
    | None =>
        (Throw (ErrObj DataError),
         set_heap (<[next_loc w := bs]> (heap w)) (S (next_loc w)) w)
    end.
Proof.
  intros Hpw Hdec. unfold RSAOperations.importPrivateKey. rewrite Hpw.
  erewrite bind_run by (apply pemToArrayBuffer_run; exact Hdec).
  rewrite subtle_importKey_pkcs8_run. heap_simpl. reflexivity.
Qed.

(** X8: when the password is absent or empty on both sides, exportPrivateKey
    writes the PRIVATE KEY block around the base64 of the PKCS8 bytes
    themselves, and importPrivateKey of that PEM gives the key back. *)
Theorem exportPrivateKey_plain_roundtrip (pf : Platform) (key : CryptoKey)
    (password password' : option string) (w : World) :
  decodes_base64 pf ->
  well_formed_private_key pf key ->
  password_given password = None ->
  password_given password' = None ->
  exists pem w1,
    RSAOperations.exportPrivateKey pf key password w = (Return pem, w1)
    /\ pem = pem_text (base64_encode (key_data key)) PRIVATE
    /\ forall w2, (RSAOperations.importPrivateKey pf pem password' w2).1 = Return key.
Proof.
  intros Hdec [Hkind Hpkcs8] Hpw Hpw'.
  eexists _, _. split; [ apply exportPrivateKey_plain_run; assumption | ].
  split; [ reflexivity | ].
  intros w2.
  rewrite (importPrivateKey_plain_run pf _ (key_data key))
    by (try assumption; apply pem_decode_pem_text, Hdec).
  rewrite Hpkcs8. destruct key as [kind data]. cbn in Hkind. subst kind. reflexivity.
Qed.

Lemma exportPrivateKey_plain_roundtrip_witness :
  let pf := Example.node Example.no_json Example.offline in
  exists pem w1,
    RSAOperations.exportPrivateKey pf Example.private_key None Example.empty_world
    = (Return pem, w1)
    /\ pem = pem_text (base64_encode (key_data Example.private_key)) PRIVATE
    /\ forall w2,
         (RSAOperations.importPrivateKey pf pem (Some ""%string) w2).1
         = Return Example.private_key.
Proof.
  intros pf.
  apply (exportPrivateKey_plain_roundtrip pf Example.private_key None (Some ""%string)
           Example.empty_world).
  - apply atob_platform_decodes. reflexivity.
  - split; reflexivity.
  - reflexivity.
  - reflexivity.
Defined.

(** Without the global crypto object the random salt cannot be drawn. *)
Lemma exportPrivateKey_without_global_crypto (pf : Platform) (key : CryptoKey)
    (password : string) (w : World) :
  has_global_crypto pf = false ->
  key_kind key = RsaPrivateKey ->
  password <> ""%string ->
  (RSAOperations.exportPrivateKey pf key (Some password) w).1
  = Throw (ErrObj (new_error ReferenceError "crypto is not defined")).
Proof.
  intros Hg Hkind Hpw.
  unfold RSAOperations.exportPrivateKey.
  rewrite <- Hkind at 1.
  erewrite bind_run by apply subtle_exportKey_run.
  rewrite (password_given_nonempty _ Hpw).
  unfold RSAOperations.encryptPrivateKeyWithPassword.
  erewrite bind_throw; [ reflexivity | ].
  erewrite bind_run by apply stringToArrayBuffer_run.
  erewrite bind_run by reflexivity.
  erewrite bind_throw; [ reflexivity | ].
  unfold RSAOperations.global_crypto_getRandomValues. rewrite Hg. reflexivity.
Qed.

(** X9: rsa.ts calls the global crypto.getRandomValues without the
    fallback that generateRandomBytes has.  On a platform without the
    global crypto object, exportPrivateKey with a password that is not
    empty fails with a ReferenceError before anything is encrypted, while
    generateRandomBytes still returns its bytes. *)
Theorem exportPrivateKey_password_without_global_crypto (pf : Platform)
    (key : CryptoKey) (password : string) (w : World) :
  has_global_crypto pf = false ->
  key_kind key = RsaPrivateKey ->
  password <> ""%string ->
  (RSAOperations.exportPrivateKey pf key (Some password) w).1
  = Throw (ErrObj (new_error ReferenceError "crypto is not defined"))
  /\ (generateRandomBytes pf 16 w).1 = Return (next_loc w).
Proof.
  intros Hg Hkind Hpw. split.
  - apply exportPrivateKey_without_global_crypto; assumption.
  - rewrite generateRandomBytes_small by (vm_compute; discriminate). reflexivity.
Qed.

Lemma exportPrivateKey_password_without_global_crypto_witness :
  (RSAOperations.exportPrivateKey Fixtures.legacy_node Example.private_key
     (Some "hunter2"%string) Example.empty_world).1
  = Throw (ErrObj (new_error ReferenceError "crypto is not defined"))
  /\ (generateRandomBytes Fixtures.legacy_node 16 Example.empty_world).1 = Return 0.
Proof.
  apply (exportPrivateKey_password_without_global_crypto Fixtures.legacy_node
           Example.private_key "hunter2" Example.empty_world).
  - reflexivity.
  - reflexivity.
  - discriminate.
Defined.

(** ** SecureCompletionClient: validation and error translation *)

Lemma require_fields_cons (f : string) (fields : list string) (obj : JValue)
    (msg : string) :
  require_fields (f :: fields) obj msg
  = match has_field f obj with
    | None => throw (new_error TypeError
                       ("Cannot use 'in' operator to search for '" +:+ f +:+ "' in "
                        +:+ js_ToString obj))
    | Some false => throw (new_error Error (msg +:+ f))
    | Some true => require_fields fields obj msg
    end.
Proof. reflexivity. Qed.

(** The two outcomes of a field check: every field is there and nothing
    happens, or the first field that is not there is named in the error
    (a TypeError when the value searched is a primitive). *)
Lemma require_fields_outcome (fields : list string) (obj : JValue) (msg : string)
    (w : World) :
  if fields_present fields obj
  then require_fields fields obj msg w = (Return tt, w)
  else exists e f,
         require_fields fields obj msg w = (Throw (ErrObj e), w)
         /\ In f fields
         /\ ((has_field f obj = None
              /\ e = new_error TypeError
                       ("Cannot use 'in' operator to search for '" +:+ f +:+ "' in "
                        +:+ js_ToString obj))
             \/ (has_field f obj = Some false /\ e = new_error Error (msg +:+ f))).
Proof.
  induction fields as [ | f fields IH ]; [ reflexivity | ].
  rewrite require_fields_cons.
  cbn [fields_present forallb]. unfold fields_present in IH.
  destruct (has_field f obj) as [[|]|] eqn:Hf.
  - rewrite bool_decide_eq_true_2 by reflexivity. cbn [andb].
    destruct (forallb _ fields).
    + exact IH.
    + destruct IH as (e & g & Hrun & Hin & He).
      exists e, g. split; [ exact Hrun | split; [ right; exact Hin | exact He ] ].
  - rewrite bool_decide_eq_false_2 by discriminate. cbn [andb].
    eexists _, f. split; [ reflexivity | ].
    split; [ left; reflexivity | right; split; [ exact Hf | reflexivity ] ].
  - rewrite bool_decide_eq_false_2 by discriminate. cbn [andb].
    eexists _, f. split; [ reflexivity | ].
    split; [ left; reflexivity | left; split; [ exact Hf | reflexivity ] ].
Qed.

(** decryptResponse, by the checks it makes before it decrypts. *)
Lemma decryptResponse_run (pf : Platform) (this : SecureCompletionClient.t)
    (encryptedResponse : loc) (payloadId : string) (w : World) :
  let logged := set_trace (EvConsoleLog "Decrypting response..." :: trace w) w in
  SecureCompletionClient.decryptResponse pf this encryptedResponse payloadId w
  = match buffer_bytes w encryptedResponse with
    | [] => (Throw (ErrObj (new_error Error "Empty encrypted response")), logged)
    | _ :: _ =>
        match JSON_parse pf (TextDecoder_decode pf (buffer_bytes w encryptedResponse)) with
        | None =>
            (Throw (ErrObj (new_error Error
                              "Invalid encrypted package format: malformed JSON")), logged)
        | Some packageData =>
            (require_fields ["version"; "algorithm"; "encrypted_payload"; "encrypted_aes_key"]
               packageData "Missing required field in encrypted package: " ;;
             require_fields ["ciphertext"; "nonce"] (get_field packageData "encrypted_payload")
               "Missing field in encrypted_payload: " ;;
             try_catch
               (SecureCompletionClient.decrypt_package pf this packageData payloadId)
               (fun _ => throw (new_error SecurityError SECURITY_ERROR_MESSAGE)))%js logged
        end
    end.
Proof.
  intros logged. unfold SecureCompletionClient.decryptResponse.
  unfold bind at 1. cbn [console_log emit fst snd]. fold logged.
  unfold bind at 1. cbn [read].
  assert (Hsame : buffer_bytes logged encryptedResponse = buffer_bytes w encryptedResponse)
    by reflexivity.
  rewrite Hsame.
  destruct (buffer_bytes w encryptedResponse) as [ | b bs ] eqn:Hbody; [ reflexivity | ].
  cbn [length Nat.eqb].
  unfold bind at 1. rewrite parse_buffer_run, Hsame.
  destruct (JSON_parse pf _); reflexivity.
Qed.

(** X10: what decryptResponse throws, by the check that fails.  An empty
    body, a body that is not JSON and a package without one of its fields
    each give a plain Error of their own (a TypeError when the package is
    a primitive) before any key is used: the world is only one console
    line further.  Past these checks the one thing thrown is the
    SecurityError. *)
Theorem decryptResponse_validation (pf : Platform) (this : SecureCompletionClient.t)
    (encryptedResponse : loc) (payloadId : string) (w : World) :
  let r := SecureCompletionClient.decryptResponse pf this encryptedResponse payloadId w in
  let body := buffer_bytes w encryptedResponse in
  let logged := set_trace (EvConsoleLog "Decrypting response..." :: trace w) w in
  match body with
  | [] => r = (Throw (ErrObj (new_error Error "Empty encrypted response")), logged)
  | _ :: _ =>
      match JSON_parse pf (TextDecoder_decode pf body) with
      | None =>
          r = (Throw (ErrObj (new_error Error
                                "Invalid encrypted package format: malformed JSON")), logged)
      | Some packageData =>
          if package_fields_present packageData
          then forall t, r.1 = Throw t -> t = decryption_failed
          else r.2 = logged
               /\ exists e,
                    r.1 = Throw (ErrObj e)
                    /\ (err_class e = TypeError
                        \/ (exists f,
                              In f ["version"; "algorithm"; "encrypted_payload";
                                    "encrypted_aes_key"]
                              /\ has_field f packageData = Some false
                              /\ e = new_error Error
                                       ("Missing required field in encrypted package: "
                                        +:+ f))
                        \/ (exists f,
                              In f ["ciphertext"; "nonce"]
                              /\ has_field f (get_field packageData "encrypted_payload")
                                 = Some false
                              /\ e = new_error Error
                                       ("Missing field in encrypted_payload: " +:+ f)))
      end
  end.
Proof.
  cbv zeta. rewrite decryptResponse_run. cbv zeta.
  set (logged := set_trace _ w).
  destruct (buffer_bytes w encryptedResponse) as [ | b bs ]; [ reflexivity | ].
  destruct (JSON_parse pf _) as [packageData|]; [ | reflexivity ].
  unfold package_fields_present.
  pose proof (require_fields_outcome
                ["version"; "algorithm"; "encrypted_payload"; "encrypted_aes_key"]
                packageData "Missing required field in encrypted package: " logged) as H1.
  pose proof (require_fields_outcome ["ciphertext"; "nonce"]
                (get_field packageData "encrypted_payload")
                "Missing field in encrypted_payload: " logged) as H2.
  destruct (fields_present _ packageData); cbn [andb].
  - erewrite bind_run by exact H1.
    destruct (fields_present _ (get_field packageData "encrypted_payload")).
    + erewrite bind_run by exact H2.
      intros t Ht. apply try_catch_constant in Ht. exact Ht.
    + destruct H2 as (e & f & Hrun & Hin & He).
      erewrite bind_throw by exact Hrun. cbn [fst snd].
      split; [ reflexivity | ]. exists e. split; [ reflexivity | ].
      destruct He as [[_ ->] | [Hf ->]]; [ left; reflexivity | ].
      right; right. exists f. auto.
  - destruct H1 as (e & f & Hrun & Hin & He).
    erewrite bind_throw by exact Hrun. cbn [fst snd].
    split; [ reflexivity | ]. exists e. split; [ reflexivity | ].
    destruct He as [[_ ->] | [Hf ->]]; [ left; reflexivity | ].
    right; left. exists f. auto.
Qed.

(** importPublicKey returns exactly on the texts that import. *)
Lemma importPublicKey_imports (pf : Platform) (pem : string) (w : World) :
  match (RSAOperations.importPublicKey pf pem w).1 with
  | Return _ => imports_as_public_key pf pem = true
  | Throw _ => imports_as_public_key pf pem = false
  end.
Proof.
  unfold imports_as_public_key, RSAOperations.importPublicKey, pemToArrayBuffer, pem_decode.
  unfold bind at 1. rewrite base64ToArrayBuffer_run.
  destruct (decode_base64 pf _) as [bs|]; [ | reflexivity ].
  rewrite subtle_importKey_spki_run. heap_simpl.
  destruct (parse_spki (subtle pf) bs); cbn [fst].
  - apply bool_decide_eq_true_2. eexists; reflexivity.
  - apply bool_decide_eq_false_2. intros [x Hx]. discriminate.
Qed.

(** The result of fetchServerPublicKey when the channel rule lets it send,
    by the reply to the GET. *)
Lemma fetchServerPublicKey_result (pf : Platform) (this : SecureCompletionClient.t)
    (w : World) :
  insecure_channel this = false ->
  let r := SecureCompletionClient.fetchServerPublicKey pf this w in
  let url := SecureCompletionClient.routerUrl this +:+ "/pki/public_key" in
  r.1 = match network pf (mkRequest GET url [] []) with
        | Rejects t =>
            match t with
            | ErrObj e =>
                if instanceof_SecurityError t then Throw t
                else Throw (ErrObj (new_error APIConnectionError
                                      ("Failed to fetch server's public key: "
                                       +:+ message e)))
            | NonError _ => Throw t
            end
        | Responds status _ body =>
            if (status =? 200)%Z then
              let pem := TextDecoder_decode pf body in
              if imports_as_public_key pf pem then Return pem
              else Throw (ErrObj (new_error APIConnectionError
                                    ("Failed to fetch server's public key: "
                                     +:+ "Server returned invalid public key format")))
            else Throw (ErrObj (new_error APIConnectionError
                                  ("Failed to fetch server's public key: "
                                   +:+ ("Failed to fetch server's public key: HTTP "
                                        +:+ string_of_Z status))))
        end.
Proof.
  intros Hchannel. cbv zeta.
  unfold SecureCompletionClient.fetchServerPublicKey.
  unfold bind at 1. cbn [console_log emit fst snd].
  match goal with
  | |- context [ bind ?check _ ?w0 ] =>
      assert (Hcheck : exists w1, check w0 = (Return tt, w1))
  end.
  { unfold insecure_channel in Hchannel.
    destruct (startsWith _ "https://"); cbn [negb] in *; [ eexists; reflexivity | ].
    destruct (SecureCompletionClient.allowHttp this); cbn [negb andb] in *;
      [ eexists; reflexivity | discriminate ]. }
  destruct Hcheck as (w1 & Hcheck).
  erewrite bind_run by exact Hcheck.
  unfold try_catch, http_get, http_send.
  unfold bind at 1. unfold bind at 1. cbn [emit fst snd req_method req_url].
  destruct (network pf _) as [status headers body | [e|v]].
  2: { cbn [rethrow fst snd]. destruct (instanceof_SecurityError (ErrObj e)); reflexivity. }
  2: reflexivity.
  unfold bind at 1. cbn [alloc ret fst snd resp_statusCode resp_body].
  destruct (status =? 200)%Z; [ | reflexivity ].
  unfold bind at 1, arrayBufferToString, read at 1. unfold bind at 1.
  cbn [fst snd ret]. heap_simpl.
  unfold bind at 1, try_catch. unfold bind at 1.
  match goal with
  | |- context [ RSAOperations.importPublicKey pf ?pem ?w2 ] =>
      pose proof (importPublicKey_imports pf pem w2) as Himp;
      destruct (RSAOperations.importPublicKey pf pem w2) as [[k|t] w3]
  end; cbn [fst] in Himp; rewrite Himp; cbn [ret throw fst snd]; [ | reflexivity ].
  unfold bind at 1.
  destruct (startsWith _ "https://"); reflexivity.
Qed.

(** X11: what fetchServerPublicKey returns when the channel rule lets it
    send, by the reply to the GET of routerUrl/pki/public_key.  The body of
    a 200 reply is returned as text when it imports as a public key; a body
    that does not import, another status and a rejected request each come
    out as an APIConnectionError whose message begins with 'Failed to fetch
    server's public key: ' (for another status the prefix stands twice); a
    rejection that is not an Error, or that is a SecurityError, passes
    through. *)
Theorem fetchServerPublicKey_outcomes (pf : Platform) (this : SecureCompletionClient.t)
    (w : World) :
  insecure_channel this = false ->
  let r := SecureCompletionClient.fetchServerPublicKey pf this w in
  let url := SecureCompletionClient.routerUrl this +:+ "/pki/public_key" in
  r.1 = match network pf (mkRequest GET url [] []) with
        | Rejects t =>
            match t with
            | ErrObj e =>
                if instanceof_SecurityError t then Throw t
                else Throw (ErrObj (new_error APIConnectionError
                                      ("Failed to fetch server's public key: "
                                       +:+ message e)))
            | NonError _ => Throw t
            end
        | Responds status _ body =>
            if (status =? 200)%Z then
              let pem := TextDecoder_decode pf body in
              if imports_as_public_key pf pem then Return pem
              else Throw (ErrObj (new_error APIConnectionError
                                    ("Failed to fetch server's public key: "
                                     +:+ "Server returned invalid public key format")))
            else Throw (ErrObj (new_error APIConnectionError
                                  ("Failed to fetch server's public key: "
                                   +:+ ("Failed to fetch server's public key: HTTP "
                                        +:+ string_of_Z status))))
        end.
Proof. apply fetchServerPublicKey_result. Qed.

Lemma fetchServerPublicKey_outcomes_witness :
  let pf := Example.node Example.parse_unauthorized Example.router_401 in
  (SecureCompletionClient.fetchServerPublicKey pf Example.https_client Example.empty_world).1
  = Return Example.router_pem.
Proof.
  intros pf.
  exact (fetchServerPublicKey_outcomes pf Example.https_client Example.empty_world eq_refl).
Defined.

(** Nothing that decryptResponse throws is taken for a timeout. *)
Lemma decryptResponse_not_a_timeout (pf : Platform) (this : SecureCompletionClient.t)
    (encryptedResponse : loc) (payloadId : string) (w : World) (t : Thrown) :
  (SecureCompletionClient.decryptResponse pf this encryptedResponse payloadId w).1 = Throw t ->
  not_a_timeout t.
Proof.
  rewrite decryptResponse_run. cbv zeta.
  set (logged := set_trace _ w).
  destruct (buffer_bytes w encryptedResponse) as [ | b bs ]; [ intros [= <-]; reflexivity | ].
  destruct (JSON_parse pf _) as [packageData|]; [ | intros [= <-]; reflexivity ].
  pose proof (require_fields_outcome
                ["version"; "algorithm"; "encrypted_payload"; "encrypted_aes_key"]
                packageData "Missing required field in encrypted package: " logged) as H1.
  pose proof (require_fields_outcome ["ciphertext"; "nonce"]
                (get_field packageData "encrypted_payload")
                "Missing field in encrypted_payload: " logged) as H2.
  destruct (fields_present _ packageData).
  - erewrite bind_run by exact H1.
    destruct (fields_present _ (get_field packageData "encrypted_payload")).
    + erewrite bind_run by exact H2.
      intros Ht. apply try_catch_constant in Ht. subst t. reflexivity.
    + destruct H2 as (e & f & Hrun & _ & He).
      erewrite bind_throw by exact Hrun. intros [= <-].
      destruct He as [[_ ->] | [_ ->]]; reflexivity.
  - destruct H1 as (e & f & Hrun & _ & He).
    erewrite bind_throw by exact Hrun. intros [= <-].
    destruct He as [[_ ->] | [_ ->]]; reflexivity.
Qed.

(** Neither is the error that handleErrorResponse builds, nor the
    TypeError it throws on a body that is the JSON null. *)
Lemma handleErrorResponse_not_a_timeout (pf : Platform) (this : SecureCompletionClient.t)
    (response : HttpResponse) (w : World) :
  match (SecureCompletionClient.handleErrorResponse pf this response w).1 with
  | Return e => not_a_timeout (ErrObj e)
  | Throw t => not_a_timeout t
  end.
Proof.
  unfold SecureCompletionClient.handleErrorResponse.
  unfold bind at 1. rewrite parse_buffer_run.
  assert (Hrest : forall errorData,
             match ((d <- get_prop errorData "detail" ;;
                     let detail := if truthy d then js_ToString d else "Unknown error" in
                     let status := resp_statusCode response in
                     if (status =? 400)%Z then
                       ret (new_api_error InvalidRequestError ("Bad request: " +:+ detail)
                              400 errorData)
                     else if (status =? 401)%Z then
                       ret (new_api_error AuthenticationError
                              ("Invalid API key or authentication failed: " +:+ detail)
                              401 errorData)
                     else if (status =? 404)%Z then
                       ret (new_api_error APIError ("Endpoint not found: " +:+ detail)
                              404 errorData)
                     else if (status =? 429)%Z then
                       ret (new_api_error RateLimitError ("Rate limit exceeded: " +:+ detail)
                              429 errorData)
                     else if (status =? 500)%Z then
                       ret (new_api_error ServerError ("Server error: " +:+ detail)
                              500 errorData)
                     else
                       ret (new_api_error APIError
                              ("Unexpected status code: " +:+ string_of_Z status)
                              status errorData))%js w).1 with
             | Return e => not_a_timeout (ErrObj e)
             | Throw t => not_a_timeout t
             end).
  { intros errorData. unfold bind.
    destruct (get_prop errorData "detail" w) as [[d|t] w1] eqn:Hd.
    - cbv zeta.
      repeat match goal with
             | |- context [ if (?a =? ?b)%Z then _ else _ ] => destruct (a =? b)%Z
             end; reflexivity.
    - destruct errorData; cbn in Hd; try discriminate;
        injection Hd as <- <-; reflexivity. }
  destruct (JSON_parse pf _) as [errorData|]; apply Hrest.
Qed.

(** X12: what the try block of sendSecureRequest lets out, by the reply to
    the POST.  A rejected request comes out as an APIConnectionError:
    'Connection to server timed out' when the client reported 'Request
    timeout', 'Failed to connect to router: ' and the message otherwise
    (a rejection that is not an Error passes through).  After a reply,
    a result is returned only for status 200, and every failure, be it the
    error of the taxonomy for the status or the SecurityError of a failed
    decryption, comes out as an APIConnectionError whose message begins
    with 'Failed to connect to router: '. *)
Theorem transmit_outcomes (pf : Platform) (this : SecureCompletionClient.t)
    (url : string) (headers : list (string * string)) (body : loc)
    (payloadId : string) (w : World) :
  let r := SecureCompletionClient.transmit pf this url headers body payloadId w in
  match network pf (mkRequest POST url headers (buffer_bytes w body)) with
  | Rejects (ErrObj e) =>
      r.1 = Throw (ErrObj (new_error APIConnectionError
                             (if String.eqb (message e) "Request timeout"
                              then "Connection to server timed out"
                              else "Failed to connect to router: " +:+ message e)))
  | Rejects (NonError v) => r.1 = Throw (NonError v)
  | Responds status _ _ =>
      match r.1 with
      | Return _ => status = 200%Z
      | Throw t =>
          exists reason,
            t = ErrObj (new_error APIConnectionError
                          ("Failed to connect to router: " +:+ reason))
      end
  end.
Proof.
  cbv zeta.
  assert (Hwrap : forall (m : M JValue) (w0 : World),
             (forall t, (m w0).1 = Throw t -> not_a_timeout t) ->
             match (try_catch m
                      (fun error =>
                         match error with
                         | ErrObj e =>
                             if String.eqb (message e) "Request timeout"
                             then throw (new_error APIConnectionError
                                           "Connection to server timed out")
                             else throw (new_error APIConnectionError
                                           ("Failed to connect to router: " +:+ message e))
                         | NonError _ => rethrow error
                         end) w0).1 with
             | Return _ => exists v, (m w0).1 = Return v
             | Throw t =>
                 exists reason,
                   t = ErrObj (new_error APIConnectionError
                                 ("Failed to connect to router: " +:+ reason))
             end).
  { intros m w0 Hm. unfold try_catch.
    destruct (m w0) as [[v|t] w1]; cbn [fst] in *; [ eexists; reflexivity | ].
    specialize (Hm t eq_refl). destruct t as [e|v]; cbn in Hm; [ | contradiction ].
    rewrite Hm. eexists. reflexivity. }
  unfold SecureCompletionClient.transmit.
  destruct (network pf _) as [status hs reply | [e|v]] eqn:Hnet.
  - match goal with
    | |- context [ try_catch ?m ?h w ] => pose proof (Hwrap m w) as Hw
    end.
    cbv beta in Hw.
    assert (Hinner : forall o w1,
               (response <- http_post pf url headers body ;;
                console_log ("HTTP Status: " +:+ string_of_Z (resp_statusCode response)) ;;
                if (resp_statusCode response =? 200)%Z then
                  decryptedResponse <-
                    SecureCompletionClient.decryptResponse pf this (resp_body response)
                      payloadId ;;
                  ret decryptedResponse
                else
                  e <- SecureCompletionClient.handleErrorResponse pf this response ;;
                  throw e)%js w = (o, w1) ->
               match o with
               | Return _ => status = 200%Z
               | Throw t => not_a_timeout t
               end).
    { intros o w1.
      unfold http_post, http_send.
      unfold bind at 1. unfold bind at 1. cbn [read fst snd].
      unfold bind at 1. cbn [emit fst snd req_method req_url]. rewrite Hnet.
      unfold bind at 1. cbn [alloc ret fst snd].
      unfold bind at 1. cbn [console_log emit fst snd resp_statusCode resp_body].
      destruct (Z.eqb_spec status 200) as [-> | Hne].
      - unfold bind at 1.
        match goal with
        | |- context [ SecureCompletionClient.decryptResponse pf this ?b payloadId ?w2 ] =>
            pose proof (decryptResponse_not_a_timeout pf this b payloadId w2) as Hd;
            destruct (SecureCompletionClient.decryptResponse pf this b payloadId w2)
              as [[v|t] w3]
        end; cbn [fst] in Hd; intros [= <- <-]; [ reflexivity | apply Hd; reflexivity ].
      - unfold bind at 1.
        match goal with
        | |- context [ SecureCompletionClient.handleErrorResponse pf this ?r ?w2 ] =>
            pose proof (handleErrorResponse_not_a_timeout pf this r w2) as Hh;
            destruct (SecureCompletionClient.handleErrorResponse pf this r w2)
              as [[e|t] w3]
        end; cbn [fst] in Hh; intros [= <- <-]; exact Hh. }
    match type of Hw with
    | (forall t, (?m w).1 = Throw t -> _) -> _ =>
        destruct (m w) as [o w1] eqn:Hrun
    end.
    specialize (Hinner o w1 eq_refl).
    cbn [fst] in Hw.
    assert (Hnt : forall t, o = Throw t -> not_a_timeout t)
      by (intros t ->; exact Hinner).
    specialize (Hw Hnt).
    destruct (try_catch _ _ w).1 as [v|t]; [ | exact Hw ].
    destruct Hw as (v' & ->). exact Hinner.
  - unfold try_catch, http_post, http_send.
    unfold bind at 1. unfold bind at 1. cbn [read fst snd].
    unfold bind at 1. cbn [emit fst snd req_method req_url]. rewrite Hnet.
    cbn [rethrow fst snd].
    destruct (String.eqb (message e) "Request timeout"); reflexivity.
  - unfold try_catch, http_post, http_send.
    unfold bind at 1. unfold bind at 1. cbn [read fst snd].
    unfold bind at 1. cbn [emit fst snd req_method req_url]. rewrite Hnet.
    reflexivity.
Qed.

(** ** Frames for the client *)

Section ClientFrames.

Context (R : World -> World -> Prop) `{!Frame R}.
Context (pf : Platform).

Lemma keeps_get_prop (v : JValue) (k : string) : keeps R (get_prop v k).
Proof. unfold get_prop. keeps_auto. Qed.

Lemma keeps_set_prop (v : JValue) (k : string) (x : JValue) : keeps R (set_prop v k x).
Proof. unfold set_prop. keeps_auto. Qed.

Lemma keeps_require_fields (fields : list string) (obj : JValue) (msg : string) :
  keeps R (require_fields fields obj msg).
Proof.
  induction fields as [ | f fields IH ]; [ apply keeps_ret; typeclasses eauto | ].
  rewrite require_fields_cons. keeps_auto.
Qed.

Lemma keeps_json_parse (text : string) : keeps R (SecureCompletionClient.json_parse pf text).
Proof. unfold SecureCompletionClient.json_parse. keeps_auto. Qed.

Lemma keeps_AES_generateKey : keeps R (AESEncryption.generateKey pf).
Proof. unfold AESEncryption.generateKey. keeps_auto. Qed.

Lemma keeps_AES_exportKey (key : CryptoKey) : keeps R (AESEncryption.exportKey key).
Proof. unfold AESEncryption.exportKey. keeps_auto. Qed.

Lemma keeps_AES_importKey (keyData : loc) : keeps R (AESEncryption.importKey keyData).
Proof. unfold AESEncryption.importKey. keeps_auto. Qed.

Lemma keeps_AES_encrypt (data : loc) (key : CryptoKey) :
  keeps R (AESEncryption.encrypt pf data key).
Proof. unfold AESEncryption.encrypt. keeps_auto. Qed.

Lemma keeps_AES_decrypt (ciphertext nonce : loc) (key : CryptoKey) :
  keeps R (AESEncryption.decrypt pf ciphertext nonce key).
Proof. unfold AESEncryption.decrypt. keeps_auto. Qed.

Lemma keeps_decryptKey (encryptedKey : loc) (privateKey : CryptoKey) :
  keeps R (RSAOperations.decryptKey pf encryptedKey privateKey).
Proof. unfold RSAOperations.decryptKey. keeps_auto. Qed.

Lemma keeps_handleErrorResponse (this : SecureCompletionClient.t) (response : HttpResponse) :
  keeps R (SecureCompletionClient.handleErrorResponse pf this response).
Proof.
  unfold SecureCompletionClient.handleErrorResponse.
  pose proof keeps_get_prop. pose proof keeps_json_parse. keeps_auto.
Qed.

(** A context that does not zero adds nothing to what its operation does. *)
Lemma keeps_use_plain {T} (data : loc) (fn : loc -> M T) :
  keeps R (fn data) -> keeps R (use (new_SecureByteContext pf data false) fn).
Proof. intros Hfn. unfold use, new_SecureByteContext. cbn. keeps_auto. Qed.

Section KeyGeneration.

Hypothesis Hgen : forall n, admits R (EvRsaGenerate n).

Lemma keeps_generateKeyPair (keySize : KeySize) :
  keeps R (RSAOperations.generateKeyPair pf keySize).
Proof.
  unfold RSAOperations.generateKeyPair, subtle_generateKey_RSA_OAEP.
  apply keeps_bind; try typeclasses eauto.
  - apply keeps_emit; try typeclasses eauto. apply Hgen.
  - intros _ w.
    destruct (rsa_generate (subtle pf) (keySize_bits keySize) (entropy pf) (rng_pos w))
      as [[pkcs8 spki] pos].
    apply frame_rng.
Qed.

Lemma keeps_KeyManager_generateKeys (options : KeyGenOptions) :
  keeps R (KeyManager.generateKeys pf options).
Proof.
  unfold KeyManager.generateKeys. cbv zeta.
  pose proof keeps_generateKeyPair. keeps_auto.
Qed.

Lemma keeps_ensureKeys (this : SecureCompletionClient.t) :
  keeps R (SecureCompletionClient.ensureKeys pf this).
Proof.
  unfold SecureCompletionClient.ensureKeys, SecureCompletionClient.generateKeys,
    SecureCompletionClient.loadKeys.
  pose proof keeps_KeyManager_generateKeys. keeps_auto.
Qed.

End KeyGeneration.

End ClientFrames.

(** What the client does without secure memory, in a frame that admits
    key generation and requests. *)
Section PlainClient.

Context (R : World -> World -> Prop) `{!Frame R}.
Context (pf : Platform).
Hypothesis Hgen : forall n, admits R (EvRsaGenerate n).
Hypothesis Hhttp : forall m url, admits R (EvHttp m url).

Context (this : SecureCompletionClient.t).
Hypothesis Hplain : SecureCompletionClient.secureMemory this = false.

Ltac plain_auto :=
  repeat first [ rewrite Hplain
               | apply keeps_use_plain; try typeclasses eauto; intros
               | keeps_step ].

Lemma keeps_performEncryption_plain (payloadBytes : loc) :
  keeps R (SecureCompletionClient.performEncryption pf this payloadBytes).
Proof.
  unfold SecureCompletionClient.performEncryption.
  pose proof (keeps_AES_generateKey R pf). pose proof (keeps_AES_exportKey R).
  pose proof (keeps_AES_encrypt R pf).
  pose proof (keeps_fetchServerPublicKey R pf this Hhttp).
  plain_auto.
Qed.

Lemma keeps_encryptPayload_plain (payload : JValue) :
  keeps R (SecureCompletionClient.encryptPayload pf this payload).
Proof.
  unfold SecureCompletionClient.encryptPayload.
  pose proof (keeps_ensureKeys R pf Hgen this).
  pose proof keeps_performEncryption_plain.
  plain_auto.
Qed.

Lemma keeps_decrypt_package_plain (packageData : JValue) (payloadId : string) :
  keeps R (SecureCompletionClient.decrypt_package pf this packageData payloadId).
Proof.
  unfold SecureCompletionClient.decrypt_package.
  pose proof (keeps_get_prop R). pose proof (keeps_set_prop R).
  pose proof (keeps_json_parse R pf). pose proof (keeps_AES_importKey R).
  pose proof (keeps_AES_decrypt R pf). pose proof (keeps_decryptKey R pf).
  plain_auto.
Qed.

Lemma keeps_decryptResponse_plain (encryptedResponse : loc) (payloadId : string) :
  keeps R (SecureCompletionClient.decryptResponse pf this encryptedResponse payloadId).
Proof.
  unfold SecureCompletionClient.decryptResponse.
  pose proof (keeps_require_fields R). pose proof (keeps_json_parse R pf).
  pose proof keeps_decrypt_package_plain.
  plain_auto.
Qed.

Lemma keeps_transmit_plain (target : string) (headers : list (string * string))
    (body : loc) (payloadId : string) :
  keeps R (SecureCompletionClient.transmit pf this target headers body payloadId).
Proof.
  unfold SecureCompletionClient.transmit, http_post.
  pose proof keeps_decryptResponse_plain.
  pose proof (keeps_handleErrorResponse R pf this).
  plain_auto. apply keeps_http_send; [ typeclasses eauto | apply Hhttp ].
Qed.

Lemma keeps_sendSecureRequest_plain (payload : JValue) (payloadId : string)
    (apiKey : option string) :
  keeps R (SecureCompletionClient.sendSecureRequest pf this payload payloadId apiKey).
Proof.
  unfold SecureCompletionClient.sendSecureRequest.
  pose proof (keeps_ensureKeys R pf Hgen this).
  pose proof keeps_encryptPayload_plain.
  pose proof keeps_transmit_plain.
  plain_auto.
Qed.

End PlainClient.

(** X13: a client constructed with secureMemory = false never calls
    zeroMemory: across encryptPayload, decryptResponse and a whole
    sendSecureRequest the list of zeroed buffers stays as it was, and
    every buffer that existed before the request keeps its contents. *)
Theorem plain_client_never_zeroes (pf : Platform) (this : SecureCompletionClient.t)
    (payload : JValue) (payloadId : string) (apiKey : option string)
    (encryptedResponse : loc) (w : World) :
  SecureCompletionClient.secureMemory this = false ->
  zeroed_buffers (SecureCompletionClient.encryptPayload pf this payload w).2
  = zeroed_buffers w
  /\ zeroed_buffers
       (SecureCompletionClient.decryptResponse pf this encryptedResponse payloadId w).2
     = zeroed_buffers w
  /\ zeroed_buffers
       (SecureCompletionClient.sendSecureRequest pf this payload payloadId apiKey w).2
     = zeroed_buffers w
  /\ grows w (SecureCompletionClient.sendSecureRequest pf this payload payloadId apiKey w).2.
Proof.
  intros Hplain.
  assert (Hgen : forall n, admits (same_on zeroed_buffers) (EvRsaGenerate n))
    by (intros n; apply zeroed_buffers_admits; discriminate).
  assert (Hhttp : forall m url, admits (same_on zeroed_buffers) (EvHttp m url))
    by (intros m url; apply zeroed_buffers_admits; discriminate).
  split; [ apply (keeps_encryptPayload_plain _ pf Hgen Hhttp this Hplain) | ].
  split; [ apply (keeps_decryptResponse_plain (same_on zeroed_buffers) pf this Hplain) | ].
  split; [ apply (keeps_sendSecureRequest_plain _ pf Hgen Hhttp this Hplain) | ].
  apply (keeps_sendSecureRequest_plain grows pf); auto using grows_admits.
Qed.

Lemma plain_client_never_zeroes_witness :
  let pf := Example.node Example.parse_unauthorized Example.router_401 in
  let w := Example.ready_world in
  zeroed_buffers (SecureCompletionClient.encryptPayload pf Fixtures.plain_client
                    Example.chat_payload w).2
  = zeroed_buffers w
  /\ zeroed_buffers
       (SecureCompletionClient.decryptResponse pf Fixtures.plain_client 0 "id-1" w).2
     = zeroed_buffers w
  /\ zeroed_buffers
       (SecureCompletionClient.sendSecureRequest pf Fixtures.plain_client
          Example.chat_payload "id-1" None w).2
     = zeroed_buffers w
  /\ grows w (SecureCompletionClient.sendSecureRequest pf Fixtures.plain_client
                Example.chat_payload "id-1" None w).2.
Proof.
  intros pf w.
  exact (plain_client_never_zeroes pf Fixtures.plain_client Example.chat_payload "id-1"
           None 0 w eq_refl).
Defined.

(** ** The requests of a submission *)

Section Requests.

Context (pf : Platform).

Abbreviation quiet := (keeps (same_on http_requests)).

Lemma quiet_zeroMemory (data : loc) : quiet (@zeroMemory (createSecureMemory pf) data).
Proof.
  assert (Hfill : quiet (fill_zero data))
    by (intros w; apply http_requests_trace_only; reflexivity).
  unfold createSecureMemory.
  destruct (has_window pf); cbn [zeroMemory BrowserSecureMemory NodeSecureMemory];
    keeps_auto.
Qed.

Lemma quiet_use {T} (data : loc) (useSecure : bool) (fn : loc -> M T) :
  quiet (fn data) -> quiet (use (new_SecureByteContext pf data useSecure) fn).
Proof.
  intros Hfn. unfold use, new_SecureByteContext.
  cbn [sbc_data sbc_useSecure sbc_secureMemory].
  pose proof (quiet_zeroMemory data). keeps_auto.
Qed.

Lemma quiet_generation (n : N) : admits (same_on http_requests) (EvRsaGenerate n).
Proof. apply http_requests_admits. discriminate. Qed.

Ltac quiet_auto :=
  repeat first [ apply quiet_use; intros | keeps_step ].

Lemma quiet_decryptResponse (this : SecureCompletionClient.t) (encryptedResponse : loc)
    (payloadId : string) :
  quiet (SecureCompletionClient.decryptResponse pf this encryptedResponse payloadId).
Proof.
  unfold SecureCompletionClient.decryptResponse.
  pose proof (keeps_require_fields (same_on http_requests)).
  pose proof (keeps_json_parse (same_on http_requests) pf).
  assert (Hpkg : forall packageData,
             quiet (SecureCompletionClient.decrypt_package pf this packageData payloadId)).
  { intros packageData. unfold SecureCompletionClient.decrypt_package.
    pose proof (keeps_get_prop (same_on http_requests)).
    pose proof (keeps_set_prop (same_on http_requests)).
    pose proof (keeps_AES_importKey (same_on http_requests)).
    pose proof (keeps_AES_decrypt (same_on http_requests) pf).
    pose proof (keeps_decryptKey (same_on http_requests) pf).
    quiet_auto. }
  quiet_auto.
Qed.

Lemma sends_throw {A} (x : HttpMethod * string) (e : JsError) :
  sends_or_fails x (@throw A e).
Proof. intros w. left. split; [ reflexivity | eexists; reflexivity ]. Qed.

(** A quiet prefix. *)
Lemma sends_after {A B} (x : HttpMethod * string) (m : M A) (k : A -> M B) :
  quiet m -> (forall a, sends_or_fails x (k a)) -> sends_or_fails x (bind m k).
Proof.
  intros Hm Hk w. unfold bind. specialize (Hm w). unfold same_on in Hm.
  destruct (m w) as [[a|t] w1]; cbn [fst snd] in *.
  - destruct (Hk a w1) as [[Hsame Hthrow] | Hsent]; [ left | right ].
    + split; [ congruence | exact Hthrow ].
    + congruence.
  - left. split; [ exact Hm | eexists; reflexivity ].
Qed.

(** A quiet rest. *)
Lemma sends_before {A B} (x : HttpMethod * string) (m : M A) (k : A -> M B) :
  sends_or_fails x m -> (forall a, quiet (k a)) -> sends_or_fails x (bind m k).
Proof.
  intros Hm Hk w. unfold bind. specialize (Hm w).
  destruct (m w) as [[a|t] w1]; cbn [fst snd] in *.
  - specialize (Hk a w1). unfold same_on in Hk.
    destruct Hm as [[_ [t Ht]] | Hsent]; [ discriminate | ].
    right. congruence.
  - destruct Hm as [[Hsame _] | Hsent]; [ left | right; exact Hsent ].
    split; [ exact Hsame | eexists; reflexivity ].
Qed.

Lemma sends_use {T} (x : HttpMethod * string) (data : loc) (useSecure : bool)
    (fn : loc -> M T) :
  sends_or_fails x (fn data) ->
  sends_or_fails x (use (new_SecureByteContext pf data useSecure) fn).
Proof.
  intros Hfn w. unfold use, new_SecureByteContext, try_finally.
  cbn [sbc_data sbc_useSecure sbc_secureMemory].
  specialize (Hfn w).
  destruct (fn data w) as [o w1]; cbn [fst snd] in Hfn.
  assert (Hz : quiet (if useSecure
                      then @zeroMemory (createSecureMemory pf) data else ret tt)).
  { pose proof (quiet_zeroMemory data). keeps_auto. }
  specialize (Hz w1). unfold same_on in Hz.
  set (fin := if useSecure then @zeroMemory (createSecureMemory pf) data else ret tt) in *.
  destruct (fin w1) as [[u|t] w2]; cbn [fst snd] in *.
  - destruct Hfn as [[Hsame Hthrow] | Hsent]; [ left | right ].
    + split; [ congruence | exact Hthrow ].
    + congruence.
  - destruct Hfn as [[Hsame Hthrow] | Hsent]; [ left | right ].
    + split; [ congruence | eexists; reflexivity ].
    + congruence.
Qed.

(** The channel rule, for the request that fetches the key. *)
Lemma sends_fetchServerPublicKey (this : SecureCompletionClient.t) :
  sends_or_fails (GET, SecureCompletionClient.routerUrl this +:+ "/pki/public_key")
    (SecureCompletionClient.fetchServerPublicKey pf this).
Proof.
  intros w. unfold SecureCompletionClient.fetchServerPublicKey.
  destruct this as [url allow secure].
  cbn [SecureCompletionClient.routerUrl SecureCompletionClient.allowHttp].
  destruct (startsWith url "https://") eqn:Hs, allow eqn:Ha; cbn [negb].
  4: { left. split; [ reflexivity | eexists; reflexivity ]. }
  all: right.
  all: unfold bind at 1; cbn [console_log console_warn emit ret fst snd];
    unfold bind at 1; cbn [console_log console_warn emit ret fst snd].
  all: rewrite obs_try_catch_bind;
    [ unfold http_get; rewrite http_send_requests; reflexivity
    | intros resp; keeps_auto
    | intros t; keeps_auto ].
Qed.

Lemma sends_performEncryption (this : SecureCompletionClient.t) (payloadBytes : loc) :
  sends_or_fails (GET, SecureCompletionClient.routerUrl this +:+ "/pki/public_key")
    (SecureCompletionClient.performEncryption pf this payloadBytes).
Proof.
  unfold SecureCompletionClient.performEncryption.
  apply sends_after; [ apply keeps_AES_generateKey; typeclasses eauto | intros aesKey ].
  apply sends_after; [ apply keeps_AES_exportKey; typeclasses eauto | intros aesKeyBytes ].
  apply sends_use.
  apply sends_after; [ apply keeps_AES_encrypt; typeclasses eauto | intros [ciphertext nonce] ].
  apply sends_before; [ apply sends_fetchServerPublicKey | intros pem ].
  keeps_auto.
Qed.

Lemma sends_encryptPayload (this : SecureCompletionClient.t) (payload : JValue) :
  sends_or_fails (GET, SecureCompletionClient.routerUrl this +:+ "/pki/public_key")
    (SecureCompletionClient.encryptPayload pf this payload).
Proof.
  unfold SecureCompletionClient.encryptPayload.
  apply sends_after; [ keeps_auto | intros _ ].
  destruct (negb (truthy payload) || negb (SecureCompletionClient.typeof_object payload)); [ apply sends_throw | ].
  apply sends_after;
    [ apply keeps_ensureKeys; [ typeclasses eauto | apply quiet_generation ] | intros _ ].
  apply sends_after; [ keeps_auto | intros payloadBytes ].
  apply sends_after; [ keeps_auto | intros w1 ].
  destruct (SecureCompletionClient.MAX_PAYLOAD_SIZE <? _)%N; [ apply sends_throw | ].
  apply sends_after; [ keeps_auto | intros _ ].
  destruct (SecureCompletionClient.secureMemory this).
  - apply sends_use, sends_performEncryption.
  - apply sends_performEncryption.
Qed.

(** The submission goes out once, whatever comes back. *)
Lemma transmit_requests (this : SecureCompletionClient.t) (url : string)
    (headers : list (string * string)) (body : loc) (payloadId : string) (w : World) :
  http_requests (SecureCompletionClient.transmit pf this url headers body payloadId w).2
  = (POST, url) :: http_requests w.
Proof.
  unfold SecureCompletionClient.transmit.
  rewrite obs_try_catch_bind.
  - unfold http_post, bind, read. cbn [fst snd]. rewrite http_send_requests. reflexivity.
  - intros response.
    pose proof (quiet_decryptResponse this).
    pose proof (keeps_handleErrorResponse (same_on http_requests) pf this).
    keeps_auto.
  - intros t. keeps_auto.
Qed.

End Requests.

(** X14: the requests of sendSecureRequest.  It contacts two URLs of the
    router and no other: first the GET of routerUrl/pki/public_key, then
    the POST to routerUrl/v1/chat/secure_completion.  It sends nothing
    when it fails before the key is fetched, the GET alone when it fails
    before the submission, and the POST never without the GET before it;
    a result is returned only after both. *)
Theorem sendSecureRequest_requests (pf : Platform) (this : SecureCompletionClient.t)
    (payload : JValue) (payloadId : string) (apiKey : option string) (w : World) :
  let r := SecureCompletionClient.sendSecureRequest pf this payload payloadId apiKey w in
  let key_request := (GET, SecureCompletionClient.routerUrl this +:+ "/pki/public_key") in
  let submission :=
    (POST, SecureCompletionClient.routerUrl this +:+ "/v1/chat/secure_completion") in
  (http_requests r.2 = http_requests w /\ exists t, r.1 = Throw t)
  \/ (http_requests r.2 = key_request :: http_requests w /\ exists t, r.1 = Throw t)
  \/ http_requests r.2 = submission :: key_request :: http_requests w.
Proof.
  cbv zeta. unfold SecureCompletionClient.sendSecureRequest.
  set (w0 := set_trace (EvConsoleLog "Sending secure chat completion request..." :: trace w) w).
  assert (H0 : http_requests w0 = http_requests w) by reflexivity.
  rewrite (bind_run (console_log _) _ w w0 tt eq_refl).
  pose proof (keeps_ensureKeys (same_on http_requests) pf (quiet_generation) this w0) as He.
  unfold same_on in He.
  destruct (SecureCompletionClient.ensureKeys pf this w0) as [[u|t] w1] eqn:Hrun1;
    cbn [fst snd] in He.
  2: { rewrite (bind_throw _ _ _ _ _ Hrun1). cbn [fst snd].
       left. split; [ congruence | eexists; reflexivity ]. }
  rewrite (bind_run _ _ _ _ _ Hrun1).
  pose proof (sends_encryptPayload pf this payload w1) as Hp.
  destruct (SecureCompletionClient.encryptPayload pf this payload w1) as [[enc|t] w2] eqn:Hrun2;
    cbn [fst snd] in Hp.
  2: { rewrite (bind_throw _ _ _ _ _ Hrun2). cbn [fst snd].
       destruct Hp as [[Hsame _] | Hsent].
       - left. split; [ congruence | eexists; reflexivity ].
       - right; left. split; [ congruence | eexists; reflexivity ]. }
  rewrite (bind_run _ _ _ _ _ Hrun2).
  destruct Hp as [[_ [t Ht]] | Hsent]; [ discriminate | ].
  pose proof (keeps_getPublicKeyPEM (same_on http_requests) pf w2) as Hk.
  unfold same_on in Hk.
  destruct (KeyManager.getPublicKeyPEM pf w2) as [[pem|t] w3] eqn:Hrun3; cbn [fst snd] in Hk.
  2: { rewrite (bind_throw _ _ _ _ _ Hrun3). cbn [fst snd].
       right; left. split; [ congruence | eexists; reflexivity ]. }
  rewrite (bind_run _ _ _ _ _ Hrun3).
  set (w4 := set_trace (EvConsoleLog ("Target URL: " +:+ SecureCompletionClient.routerUrl this
                                      +:+ "/v1/chat/secure_completion") :: trace w3) w3).
  assert (H4 : http_requests w4 = http_requests w3) by reflexivity.
  rewrite (bind_run (console_log _) _ w3 w4 tt eq_refl).
  right; right. rewrite transmit_requests. congruence.
Qed.

(** ** What encryptPayload puts in the envelope *)

Lemma zeroMemory_run (pf : Platform) (data : loc) (w : World) :
  @zeroMemory (createSecureMemory pf) data w = (Return tt, zeroed data w).
Proof. unfold createSecureMemory. destruct (has_window pf); reflexivity. Qed.

Lemma use_run {T} (pf : Platform) (data : loc) (useSecure : bool) (fn : loc -> M T)
    (w w1 : World) (o : Outcome T) :
  fn data w = (o, w1) ->
  use (new_SecureByteContext pf data useSecure) fn w
  = (o, if useSecure then zeroed data w1 else w1).
Proof.
  intros Hfn. unfold use, try_finally, new_SecureByteContext.
  cbn [sbc_data sbc_useSecure sbc_secureMemory]. rewrite Hfn.
  destruct useSecure; [ rewrite zeroMemory_run | ]; reflexivity.
Qed.

Lemma generateKey_run (pf : Platform) (w : World) :
  AESEncryption.generateKey pf w
  = (Return (mkCryptoKey AesGcmKey (map (entropy pf) (seq (rng_pos w) 32))),
     set_rng_pos (rng_pos w + 32) w).
Proof. reflexivity. Qed.

(** A key that fetchServerPublicKey returns is the body of the 200 reply
    to the GET of routerUrl/pki/public_key, and it imports. *)
Lemma fetchServerPublicKey_Return_inv (pf : Platform) (this : SecureCompletionClient.t)
    (w w' : World) (pem : string) :
  SecureCompletionClient.fetchServerPublicKey pf this w = (Return pem, w') ->
  exists hs body,
    network pf (mkRequest GET (SecureCompletionClient.routerUrl this +:+ "/pki/public_key")
                  [] [])
    = Responds 200 hs body
    /\ pem = TextDecoder_decode pf body.
Proof.
  intros H.
  destruct (insecure_channel this) eqn:Hchannel.
  { exfalso. revert H. unfold SecureCompletionClient.fetchServerPublicKey.
    unfold insecure_channel in Hchannel.
    apply andb_true_iff in Hchannel as [Hs Ha]. rewrite Hs, Ha.
    unfold bind. cbn. discriminate. }
  pose proof (fetchServerPublicKey_result pf this w Hchannel) as Hr.
  cbv zeta in Hr. rewrite H in Hr. cbn [fst] in Hr.
  destruct (network pf _) as [status hs body | [e|v]].
  - destruct (Z.eqb_spec status 200) as [-> | _]; [ | discriminate ].
    exists hs, body. split; [ reflexivity | ].
    cbv zeta in Hr. destruct (imports_as_public_key pf _); [ | discriminate ].
    congruence.
  - destruct (instanceof_SecurityError _); discriminate.
  - discriminate.
Qed.

Lemma importPublicKey_Return_inv (pf : Platform) (pem : string) (w w' : World)
    (key : CryptoKey) :
  RSAOperations.importPublicKey pf pem w = (Return key, w') ->
  exists spki,
    imported_public_key pf pem = Some spki /\ key = mkCryptoKey RsaPublicKey spki.
Proof.
  unfold imported_public_key, RSAOperations.importPublicKey, pemToArrayBuffer, pem_decode.
  unfold bind at 1. rewrite base64ToArrayBuffer_run.
  destruct (decode_base64 pf _) as [bs|]; [ | discriminate ].
  rewrite subtle_importKey_spki_run. heap_simpl.
  destruct (parse_spki (subtle pf) bs) as [spki|]; [ | discriminate ].
  intros [= <- _]. exists spki. split; reflexivity.
Qed.

Lemma encryptKey_run (pf : Platform) (aesKey : loc) (spki : bytes) (w : World) :
  RSAOperations.encryptKey pf aesKey (mkCryptoKey RsaPublicKey spki) w
  = match rsa_oaep_encrypt (subtle pf) spki (map (entropy pf) (seq (rng_pos w) 32))
            (buffer_bytes w aesKey) with
    | Some ct =>
        (Return (next_loc w),
         set_heap (<[next_loc w := ct]> (heap w)) (S (next_loc w))
                  (set_rng_pos (rng_pos w + 32) w))
    | None => (Throw (ErrObj OperationError), set_rng_pos (rng_pos w + 32) w)
    end.
Proof.
  unfold RSAOperations.encryptKey, subtle_encrypt_RSA_OAEP, bind, require_kind, read, draw,
    of_option, alloc, ret. world_simpl.
  destruct (rsa_oaep_encrypt _ _ _ _); reflexivity.
Qed.

Lemma grows_next (w w' : World) : grows w w' -> next_loc w <= next_loc w'.
Proof. intros [H _]. exact H. Qed.

Lemma hasKeys_run (w : World) :
  KeyManager.hasKeys w
  = (Return (bool_decide (is_Some (km_privateKey w))
             && bool_decide (is_Some (km_publicKey w))), w).
Proof. reflexivity. Qed.

(** With both keys in the key manager ensureKeys does nothing. *)
Lemma ensureKeys_noop (pf : Platform) (this : SecureCompletionClient.t) (w : World)
    (privateKey publicKey : CryptoKey) :
  km_privateKey w = Some privateKey ->
  km_publicKey w = Some publicKey ->
  SecureCompletionClient.ensureKeys pf this w = (Return tt, w).
Proof.
  intros Hp Hq. unfold SecureCompletionClient.ensureKeys, bind.
  rewrite hasKeys_run, Hp, Hq. reflexivity.
Qed.

(** ** The entropy cursor *)

Section Cursor.

Context (pf : Platform).

Abbreviation steady := (keeps (same_on rng_pos)).

Lemma steady_alloc (bs : bytes) : steady (alloc bs).
Proof. intros w. reflexivity. Qed.

Lemma steady_emit (e : Event) : steady (emit e).
Proof. intros w. reflexivity. Qed.

Ltac steady_step :=
  lazymatch goal with
  | |- keeps _ (bind _ _) => apply keeps_bind; try typeclasses eauto; [ | intros ]
  | |- keeps _ (ret _) => apply keeps_ret; try typeclasses eauto
  | |- keeps _ (throw _) => apply keeps_throw; try typeclasses eauto
  | |- keeps _ (rethrow _) => apply keeps_rethrow; try typeclasses eauto
  | |- keeps _ get_world => apply keeps_get_world; try typeclasses eauto
  | |- keeps _ (read _) => apply keeps_read; try typeclasses eauto
  | |- keeps _ (of_option _ _) => apply keeps_of_option; try typeclasses eauto
  | |- keeps _ (require_kind _ _) => apply keeps_require_kind; try typeclasses eauto
  | |- keeps _ (try_catch _ _) => apply keeps_try_catch; try typeclasses eauto; [ | intros ]
  | |- keeps _ (alloc _) => apply steady_alloc
  | |- keeps _ (emit _) => apply steady_emit
  | |- keeps _ (console_log _) => apply steady_emit
  | |- keeps _ (console_warn _) => apply steady_emit
  | |- keeps _ (if ?b then _ else _) => destruct b
  | |- keeps _ (match ?x with _ => _ end) => destruct x
  | |- keeps _ _ => solve [ auto ]
  end.

Ltac steady_auto := repeat steady_step.

Lemma steady_importPublicKey (pem : string) : steady (RSAOperations.importPublicKey pf pem).
Proof.
  unfold RSAOperations.importPublicKey, pemToArrayBuffer, base64ToArrayBuffer,
    subtle_importKey_spki.
  steady_auto.
Qed.

Lemma steady_fetchServerPublicKey (this : SecureCompletionClient.t) :
  steady (SecureCompletionClient.fetchServerPublicKey pf this).
Proof.
  unfold SecureCompletionClient.fetchServerPublicKey, http_get, http_send,
    arrayBufferToString.
  pose proof steady_importPublicKey. steady_auto.
Qed.

End Cursor.

(** What a run of performEncryption that returns has done: the AES key
    and the nonce are the next 32 and 12 bytes of entropy, the ciphertext
    is the AES-256-GCM encryption of the payload buffer, the wrapped key
    is the RSA-OAEP encryption of the AES key to the key that the router
    served, and the result holds the envelope made of the three. *)
Lemma performEncryption_inv (pf : Platform) (this : SecureCompletionClient.t)
    (payloadBytes : loc) (w w' : World) (out : loc) :
  SecureCompletionClient.performEncryption pf this payloadBytes w = (Return out, w') ->
  payloadBytes < next_loc w ->
  let key := map (entropy pf) (seq (rng_pos w) 32) in
  let nonce := map (entropy pf) (seq (rng_pos w + 32) 12) in
  let seed := map (entropy pf) (seq (rng_pos w + 44) 32) in
  exists ct hs body serverKey wrapped w3,
    aes_gcm_encrypt (subtle pf) key nonce 128 (buffer_bytes w payloadBytes) = Some ct
    /\ network pf (mkRequest GET (SecureCompletionClient.routerUrl this +:+ "/pki/public_key")
                     [] [])
       = Responds 200 hs body
    /\ imported_public_key pf (TextDecoder_decode pf body) = Some serverKey
    /\ rsa_oaep_encrypt (subtle pf) serverKey seed key = Some wrapped
    /\ buffer_bytes w3 out
       = utf8_encode (SecureCompletionClient.stringify
                        (SecureCompletionClient.encryptedPackage
                           (base64_encode ct) (base64_encode nonce) (base64_encode wrapped)))
    /\ next_loc w < out
    /\ buffer_bytes w3 (next_loc w) = key
    /\ buffer_bytes w3 payloadBytes = buffer_bytes w payloadBytes
    /\ zeroed_buffers w3 = zeroed_buffers w
    /\ rng_pos w3 = rng_pos w + 76
    /\ w' = if SecureCompletionClient.secureMemory this then zeroed (next_loc w) w3 else w3.
Proof.
  intros H Hp key nonce seed.
  unfold SecureCompletionClient.performEncryption in H.
  rewrite (bind_run _ _ _ _ _ (generateKey_run pf w)) in H. fold key in H.
  set (w1 := set_rng_pos (rng_pos w + 32) w) in H.
  pose proof (subtle_exportKey_run (mkCryptoKey AesGcmKey key) w1) as He.
  cbn [key_kind key_data] in He.
  unfold AESEncryption.exportKey in H.
  rewrite (bind_run _ _ _ _ _ He) in H. clear He.
  change (next_loc w1) with (next_loc w) in H.
  set (w2 := set_heap (<[next_loc w := key]> (heap w1)) (S (next_loc w)) w1) in H.
  match type of H with
  | use (new_SecureByteContext pf ?d ?s) ?fn ?w0 = _ =>
      destruct (fn d w0) as [o w3] eqn:Hfn; rewrite (use_run pf d s fn w0 w3 o Hfn) in H
  end.
  cbv beta in Hfn. injection H as -> Hw'.
  apply bind_Return_inv in Hfn as ([c n] & w4 & H4 & Hfn).
  pose proof (keeps_AES_encrypt grows pf payloadBytes (mkCryptoKey AesGcmKey key) w2) as G24.
  pose proof (keeps_AES_encrypt (same_on zeroed_buffers) pf payloadBytes
                (mkCryptoKey AesGcmKey key) w2) as Z24.
  rewrite H4 in G24, Z24. cbn [snd] in G24, Z24.
  rewrite encrypt_run in H4. cbn [key_kind key_data] in H4. cbv zeta in H4.
  change (rng_pos w2) with (rng_pos w + 32) in H4. fold nonce in H4.
  assert (Hpayload : buffer_bytes (after_nonce pf w2) payloadBytes = buffer_bytes w payloadBytes).
  { unfold after_nonce, w2, w1. heap_simpl. reflexivity. }
  rewrite Hpayload in H4.
  destruct (aes_gcm_encrypt (subtle pf) key nonce 128 (buffer_bytes w payloadBytes))
    as [ct|] eqn:Hct; [ | discriminate ].
  assert (Hc : c = S (next_loc w2)) by congruence.
  assert (Hn : n = next_loc w2) by congruence.
  assert (Hw4 : buffer_bytes w4 (next_loc w) = key
                /\ buffer_bytes w4 (S (next_loc w)) = nonce
                /\ buffer_bytes w4 (S (S (next_loc w))) = ct
                /\ buffer_bytes w4 payloadBytes = buffer_bytes w payloadBytes
                /\ next_loc w4 = S (S (S (next_loc w)))
                /\ rng_pos w4 = rng_pos w + 32 + 12).
  { assert (E : w4 = set_heap (<[S (next_loc w2) := ct]> (heap (after_nonce pf w2)))
                       (S (S (next_loc w2))) (after_nonce pf w2)) by congruence.
    rewrite E. unfold after_nonce, w2, w1. heap_simpl. fold nonce.
    repeat split; reflexivity. }
  clear H4. subst c n. change (next_loc w2) with (S (next_loc w)) in Hfn.
  destruct Hw4 as (Hk4 & Hn4 & Hc4 & Hp4 & Hnext4 & Hrng4).
  apply bind_Return_inv in Hfn as (pem & w5 & H5 & Hfn).
  pose proof (keeps_fetchServerPublicKey grows pf this
                (fun m url => grows_admits (EvHttp m url)) w4) as G45.
  assert (Z45 : same_on zeroed_buffers w4 w5).
  { pose proof (keeps_fetchServerPublicKey (same_on zeroed_buffers) pf this) as Z.
    specialize (Z ltac:(intros m url; apply zeroed_buffers_admits; discriminate) w4).
    rewrite H5 in Z. exact Z. }
  rewrite H5 in G45. cbn [snd] in G45.
  assert (R45 : rng_pos w5 = rng_pos w4).
  { pose proof (steady_fetchServerPublicKey pf this w4) as R. rewrite H5 in R. exact R. }
  apply fetchServerPublicKey_Return_inv in H5 as (hs & body & Hnet & ->).
  apply bind_Return_inv in Hfn as (spk & w6 & H6 & Hfn).
  pose proof (keeps_importPublicKey grows pf (TextDecoder_decode pf body) w5) as G56.
  pose proof (keeps_importPublicKey (same_on zeroed_buffers) pf
                (TextDecoder_decode pf body) w5) as Z56.
  rewrite H6 in G56, Z56. cbn [snd] in G56, Z56.
  assert (R56 : rng_pos w6 = rng_pos w + 44).
  { pose proof (steady_importPublicKey pf (TextDecoder_decode pf body) w5) as R.
    rewrite H6 in R. unfold same_on in R. cbn [snd] in R. lia. }
  apply importPublicKey_Return_inv in H6 as (serverKey & Himp & ->).
  assert (G46 : grows w4 w6) by (etransitivity; eassumption).
  apply bind_Return_inv in Hfn as (wl & w7 & H7 & Hfn).
  rewrite encryptKey_run in H7.
  rewrite (grows_buffer _ _ _ G46), Hk4, R56 in H7 by lia. fold seed in H7.
  destruct (rsa_oaep_encrypt (subtle pf) serverKey seed key) as [wrapped|] eqn:Hwrap;
    [ | discriminate ].
  assert (Hwl : wl = next_loc w6) by congruence.
  assert (Hw7 : w7 = set_heap (<[next_loc w6 := wrapped]> (heap w6)) (S (next_loc w6))
                       (set_rng_pos (rng_pos w + 44 + 32) w6)) by congruence.
  clear H7. subst wl.
  pose proof (grows_next _ _ G46) as Hnext6. rewrite Hnext4 in Hnext6.
  assert (Hold7 : forall b, b < next_loc w6 -> buffer_bytes w7 b = buffer_bytes w6 b).
  { intros b Hb. rewrite Hw7. heap_simpl. reflexivity. }
  assert (Hnew7 : buffer_bytes w7 (next_loc w6) = wrapped).
  { rewrite Hw7. heap_simpl. reflexivity. }
  apply bind_Return_inv in Hfn as (c64 & w8 & H8 & Hfn).
  rewrite arrayBufferToBase64_run in H8. injection H8 as <- <-.
  apply bind_Return_inv in Hfn as (n64 & w9 & H9 & Hfn).
  rewrite arrayBufferToBase64_run in H9. injection H9 as <- <-.
  apply bind_Return_inv in Hfn as (k64 & w10 & H10 & Hfn).
  rewrite arrayBufferToBase64_run in H10. injection H10 as <- <-.
  apply bind_Return_inv in Hfn as (packageBytes & w11 & H11 & Hfn).
  rewrite stringToArrayBuffer_run in H11. injection H11 as <- <-.
  unfold bind, get_world, console_log, emit, ret in Hfn.
  cbn [fst snd] in Hfn. injection Hfn as Hout Hw3.
  rewrite Hnew7, !Hold7, !(grows_buffer _ _ _ G46), Hc4, Hn4 in Hw3 by lia.
  assert (Hnext7 : next_loc w7 = S (next_loc w6)) by (rewrite Hw7; reflexivity).
  exists ct, hs, body, serverKey, wrapped, w3.
  split; [ reflexivity | ]. split; [ exact Hnet | ]. split; [ exact Himp | ].
  split; [ exact Hwrap | ].
  rewrite <- Hout, <- Hw3.
  split.
  { unfold buffer_bytes at 1. cbn [heap set_heap set_trace].
    rewrite lookup_total_insert_eq. reflexivity. }
  split; [ lia | ].
  split.
  { unfold buffer_bytes at 1. cbn [heap set_heap set_trace].
    rewrite lookup_total_insert_ne by lia. fold (buffer_bytes w7 (next_loc w)).
    rewrite Hold7, (grows_buffer _ _ _ G46) by lia. exact Hk4. }
  split.
  { unfold buffer_bytes at 1. cbn [heap set_heap set_trace].
    rewrite lookup_total_insert_ne by lia. fold (buffer_bytes w7 payloadBytes).
    rewrite Hold7, (grows_buffer _ _ _ G46) by lia. exact Hp4. }
  split.
  { unfold same_on in Z24, Z45, Z56.
    transitivity (zeroed_buffers w6); [ rewrite Hw7; reflexivity | ].
    rewrite Z56, Z45, Z24. reflexivity. }
  split; [ | rewrite Hw3; symmetry; exact Hw' ].
  cbn [rng_pos set_heap set_trace]. rewrite Hw7. cbn [rng_pos set_heap set_rng_pos]. lia.
Qed.

Lemma buffer_bytes_zeroed_ne (data b : loc) (w : World) :
  b <> data -> buffer_bytes (zeroed data w) b = buffer_bytes w b.
Proof.
  intros Hb. unfold zeroed, buffer_bytes. cbn [heap set_heap set_trace].
  apply lookup_total_insert_ne. congruence.
Qed.

Lemma buffer_bytes_zeroed_eq (data : loc) (w : World) :
  buffer_bytes (zeroed data w) data = replicate (length (buffer_bytes w data)) zero_byte.
Proof.
  unfold zeroed, buffer_bytes. cbn [heap set_heap set_trace].
  apply lookup_total_insert_eq.
Qed.

Lemma zeroed_buffers_zeroed (data : loc) (w : World) :
  zeroed_buffers (zeroed data w) = data :: zeroed_buffers w.
Proof. reflexivity. Qed.

(** What a run of encryptPayload that returns has done before and after
    performEncryption: the JSON text went into the first buffer allocated
    once the keys were ensured. *)
Lemma encryptPayload_inv (pf : Platform) (this : SecureCompletionClient.t)
    (payload : JValue) (w w' : World) (out : loc) :
  SecureCompletionClient.encryptPayload pf this payload w = (Return out, w') ->
  let payloadLoc := next_loc (keys_ensured pf this w) in
  exists w0 w1,
    SecureCompletionClient.performEncryption pf this payloadLoc w0 = (Return out, w1)
    /\ next_loc w0 = S payloadLoc
    /\ rng_pos w0 = rng_pos (keys_ensured pf this w)
    /\ buffer_bytes w0 payloadLoc = utf8_encode (SecureCompletionClient.stringify payload)
    /\ zeroed_buffers w0 = zeroed_buffers w
    /\ w' = if SecureCompletionClient.secureMemory this then zeroed payloadLoc w1 else w1.
Proof.
  unfold SecureCompletionClient.encryptPayload, keys_ensured. intros H.
  apply bind_Return_inv in H as ([] & w1 & H1 & H).
  unfold console_log, emit in H1. injection H1 as <-.
  destruct (negb (truthy payload) || negb (SecureCompletionClient.typeof_object payload));
    [ discriminate | ].
  apply bind_Return_inv in H as ([] & w2 & H2 & H).
  assert (Z2 : zeroed_buffers w2 = zeroed_buffers w).
  { pose proof (keeps_ensureKeys (same_on zeroed_buffers) pf) as Z.
    specialize (Z ltac:(intros n; apply zeroed_buffers_admits; discriminate) this
                    (set_trace (EvConsoleLog "Encrypting payload..." :: trace w) w)).
    rewrite H2 in Z. exact Z. }
  rewrite H2. cbn [snd].
  apply bind_Return_inv in H as (payloadBytes & w3 & H3 & H).
  rewrite stringToArrayBuffer_run in H3. injection H3 as <- <-.
  apply bind_Return_inv in H as (w4 & w5 & H4 & H).
  unfold get_world in H4. injection H4 as <- <-.
  match type of H with
  | (if ?b then _ else _) _ = _ => destruct b; [ discriminate | ]
  end.
  apply bind_Return_inv in H as ([] & w6 & H6 & H).
  unfold console_log, emit in H6. injection H6 as <-.
  match type of H with
  | _ ?w0 = _ => set (w6 := w0) in *
  end.
  exists w6.
  assert (Hfacts : next_loc w6 = S (next_loc w2)
                   /\ rng_pos w6 = rng_pos w2
                   /\ buffer_bytes w6 (next_loc w2)
                      = utf8_encode (SecureCompletionClient.stringify payload)
                   /\ zeroed_buffers w6 = zeroed_buffers w).
  { subst w6. split; [ reflexivity | ]. split; [ reflexivity | ].
    split; [ heap_simpl; reflexivity | ].
    transitivity (zeroed_buffers w2); [ reflexivity | exact Z2 ]. }
  destruct Hfacts as (Hnext & Hrng & Hbytes & Hz).
  destruct (SecureCompletionClient.secureMemory this).
  - destruct (SecureCompletionClient.performEncryption pf this (next_loc w2) w6)
      as [o w7] eqn:Hrun.
    rewrite (use_run pf (next_loc w2) true
               (fun p => SecureCompletionClient.performEncryption pf this p) w6 w7 o Hrun)
      in H.
    injection H as -> <-. exists w7. repeat split; assumption.
  - exists w'. repeat split; assumption.
Qed.

(** X15: what is inside the envelope that encryptPayload returns.  The
    AES key is the next 32
    bytes of the entropy source at the cursor that ensureKeys left (the
    cursor of the call itself when the keys were held already), the nonce
    the 12 bytes after them and the OAEP seed the 32 after those; the call
    consumes them, leaving the cursor 76 bytes further.  The payload's
    JSON text, in UTF-8, is encrypted with AES-256-GCM (128-bit tag) under
    that key and nonce; the key is wrapped with RSA-OAEP to the public key
    that the router served in its 200 reply to the GET of
    routerUrl/pki/public_key; the envelope holds the base64 of ciphertext,
    nonce and wrapped key.  So the holder of the router's private key, and
    under the laws of the two ciphers, recovers first the AES key and then
    the JSON text. *)
Theorem encryptPayload_content (pf : Platform) (this : SecureCompletionClient.t)
    (payload : JValue) (w w' : World) (out : loc) :
  SecureCompletionClient.encryptPayload pf this payload w = (Return out, w') ->
  let cursor := rng_pos (keys_ensured pf this w) in
  let key := map (entropy pf) (seq cursor 32) in
  let nonce := map (entropy pf) (seq (cursor + 32) 12) in
  let seed := map (entropy pf) (seq (cursor + 44) 32) in
  let text := utf8_encode (SecureCompletionClient.stringify payload) in
  rng_pos w' = cursor + 76
  /\ (KeyManager.hasKeys w = (Return true, w) -> cursor = rng_pos w)
  /\ exists ct hs body serverKey wrapped,
       aes_gcm_encrypt (subtle pf) key nonce 128 text = Some ct
       /\ network pf (mkRequest GET
                       (SecureCompletionClient.routerUrl this +:+ "/pki/public_key") [] [])
          = Responds 200 hs body
       /\ imported_public_key pf (TextDecoder_decode pf body) = Some serverKey
       /\ rsa_oaep_encrypt (subtle pf) serverKey seed key = Some wrapped
       /\ buffer_bytes w' out
          = utf8_encode (envelope_text (base64_encode ct) (base64_encode nonce)
                           (base64_encode wrapped))
       /\ forall serverPrivate,
            aes_gcm_correct (subtle pf) ->
            rsa_oaep_correct (subtle pf) (mkCryptoKey RsaPublicKey serverKey)
              serverPrivate ->
            rsa_oaep_decrypt (subtle pf) (key_data serverPrivate) wrapped = Some key
            /\ aes_gcm_decrypt (subtle pf) key nonce 128 ct = Some text.
Proof.
  intros H. cbv zeta.
  apply encryptPayload_inv in H. cbv zeta in H.
  destruct H as (w0 & w1 & Hrun & Hnext & Hrng & Hbytes & _ & Hw').
  apply performEncryption_inv in Hrun; [ | lia ].
  cbv zeta in Hrun.
  destruct Hrun as (ct & hs & body & serverKey & wrapped & w3
                    & Hct & Hnet & Himp & Hwrap & Hout & Hfresh & _ & _ & _ & Hrng3 & Hw1).
  rewrite Hbytes in Hct. rewrite Hrng in Hct, Hwrap, Hrng3, Hout.
  split.
  { rewrite Hw', Hw1.
    destruct (SecureCompletionClient.secureMemory this); exact Hrng3. }
  split.
  { intros Hhas. rewrite hasKeys_run in Hhas.
    assert (Hheld : bool_decide (is_Some (km_privateKey w))
                    && bool_decide (is_Some (km_publicKey w)) = true) by congruence.
    apply andb_true_iff in Hheld as [H1 H2].
    apply bool_decide_eq_true_1 in H1 as [k1 H1].
    apply bool_decide_eq_true_1 in H2 as [k2 H2].
    unfold keys_ensured.
    rewrite (ensureKeys_noop pf this _ k1 k2) by assumption. reflexivity. }
  exists ct, hs, body, serverKey, wrapped.
  split; [ exact Hct | ]. split; [ exact Hnet | ]. split; [ exact Himp | ].
  split; [ exact Hwrap | ].
  split.
  - assert (Hsame : buffer_bytes w' out = buffer_bytes w3 out).
    { rewrite Hw', Hw1.
      destruct (SecureCompletionClient.secureMemory this); [ | reflexivity ].
      rewrite !buffer_bytes_zeroed_ne by lia. reflexivity. }
    rewrite Hsame, Hout. unfold SecureCompletionClient.stringify.
    rewrite stringify_envelope. reflexivity.
  - intros serverPrivate Hgcm Hrsa. split.
    + exact (Hrsa _ _ _ Hwrap).
    + exact (Hgcm _ _ _ _ _ Hct).
Qed.

Lemma encryptPayload_content_witness :
  let pf := Example.node Example.parse_unauthorized Example.router_401 in
  let run := SecureCompletionClient.encryptPayload pf Example.https_client
               Example.chat_payload Example.ready_world in
  let key := map (entropy pf) (seq 0 32) in
  let nonce := map (entropy pf) (seq 32 12) in
  let seed := map (entropy pf) (seq 44 32) in
  let text := utf8_encode (SecureCompletionClient.stringify Example.chat_payload) in
  rng_pos run.2 = 76
  /\ exists ct hs body serverKey wrapped,
       aes_gcm_encrypt (subtle pf) key nonce 128 text = Some ct
       /\ network pf (mkRequest GET "https://api.nomyo.ai:12434/pki/public_key" [] [])
          = Responds 200 hs body
       /\ imported_public_key pf (TextDecoder_decode pf body) = Some serverKey
       /\ rsa_oaep_encrypt (subtle pf) serverKey seed key = Some wrapped
       /\ buffer_bytes run.2 8
          = utf8_encode (envelope_text (base64_encode ct) (base64_encode nonce)
                           (base64_encode wrapped)).
Proof.
  intros pf run key nonce seed text.
  destruct (encryptPayload_content pf Example.https_client Example.chat_payload
              Example.ready_world run.2 8 ltac:(vm_compute; reflexivity))
    as (Hcursor & _ & ct & hs & body & serverKey & wrapped
        & Hct & Hnet & Himp & Hwrap & Hout & _).
  split; [ exact Hcursor | ].
  exists ct, hs, body, serverKey, wrapped.
  split; [ exact Hct | ]. split; [ exact Hnet | ]. split; [ exact Himp | ].
  split; [ exact Hwrap | exact Hout ].
Defined.

(** ** The wipes of encryptPayload *)

(** Nothing in the key manager or in the exchange with the router depends
    on secureMemory. *)
Lemma ensureKeys_with_secureMemory (pf : Platform) (secure : bool)
    (this : SecureCompletionClient.t) :
  SecureCompletionClient.ensureKeys pf (with_secureMemory secure this)
  = SecureCompletionClient.ensureKeys pf this.
Proof. reflexivity. Qed.

Lemma fetchServerPublicKey_with_secureMemory (pf : Platform) (secure : bool)
    (this : SecureCompletionClient.t) :
  SecureCompletionClient.fetchServerPublicKey pf (with_secureMemory secure this)
  = SecureCompletionClient.fetchServerPublicKey pf this.
Proof. reflexivity. Qed.

(** performEncryption with secure memory is performEncryption without,
    followed by the wipe of the buffer of the exported key. *)
Lemma performEncryption_with_secureMemory (pf : Platform)
    (this : SecureCompletionClient.t) (payloadBytes : loc) (w : World) :
  let plain := SecureCompletionClient.performEncryption pf (with_secureMemory false this)
                 payloadBytes w in
  SecureCompletionClient.performEncryption pf (with_secureMemory true this) payloadBytes w
  = (plain.1, zeroed (next_loc w) plain.2).
Proof.
  cbv zeta. unfold SecureCompletionClient.performEncryption.
  rewrite !fetchServerPublicKey_with_secureMemory.
  cbn [SecureCompletionClient.secureMemory with_secureMemory].
  rewrite !(bind_run _ _ _ _ _ (generateKey_run pf w)).
  set (key := map (entropy pf) (seq (rng_pos w) 32)).
  set (w1 := set_rng_pos (rng_pos w + 32) w).
  pose proof (subtle_exportKey_run (mkCryptoKey AesGcmKey key) w1) as He.
  cbn [key_kind key_data] in He.
  unfold AESEncryption.exportKey.
  rewrite !(bind_run _ _ _ _ _ He).
  change (next_loc w1) with (next_loc w).
  match goal with
  | |- use (new_SecureByteContext pf ?d true) ?fn ?w0 = _ =>
      destruct (fn d w0) as [o w3] eqn:Hfn;
      rewrite (use_run pf d true fn w0 w3 o Hfn), (use_run pf d false fn w0 w3 o Hfn)
  end.
  reflexivity.
Qed.

(** encryptPayload with secure memory is encryptPayload without, followed
    by the wipes of the key buffer and of the payload buffer, in a run
    that gets as far as performEncryption. *)
Lemma encryptPayload_with_secureMemory (pf : Platform) (this : SecureCompletionClient.t)
    (payload : JValue) (w w' : World) (out : loc) :
  SecureCompletionClient.encryptPayload pf (with_secureMemory true this) payload w
  = (Return out, w') ->
  let plain := SecureCompletionClient.encryptPayload pf (with_secureMemory false this)
                 payload w in
  let payloadLoc := next_loc (keys_ensured pf this w) in
  plain.1 = Return out
  /\ w' = zeroed payloadLoc (zeroed (S payloadLoc) plain.2).
Proof.
  cbv zeta. unfold SecureCompletionClient.encryptPayload, keys_ensured.
  rewrite !ensureKeys_with_secureMemory.
  cbn [SecureCompletionClient.secureMemory with_secureMemory].
  set (wl := set_trace (EvConsoleLog "Encrypting payload..." :: trace w) w).
  rewrite !(bind_run (console_log _) _ w wl tt eq_refl).
  destruct (negb (truthy payload) || negb (SecureCompletionClient.typeof_object payload));
    [ discriminate | ].
  destruct (SecureCompletionClient.ensureKeys pf this wl) as [[[]|t] w1] eqn:Hkeys.
  2: { rewrite (bind_throw _ _ _ _ _ Hkeys). discriminate. }
  rewrite !(bind_run _ _ _ _ _ Hkeys). cbn [snd].
  rewrite !(bind_run _ _ _ _ _ (stringToArrayBuffer_run _ w1)).
  set (w2 := set_heap _ _ w1).
  rewrite !(bind_run get_world _ w2 w2 w2 eq_refl).
  match goal with
  | |- (if ?b then _ else _) _ = _ -> _ => destruct b; [ discriminate | ]
  end.
  match goal with
  | |- bind (console_log ?s) _ _ = _ -> _ =>
      set (w3 := set_trace (EvConsoleLog s :: trace w2) w2);
      rewrite !(bind_run (console_log s) _ w2 w3 tt eq_refl)
  end.
  pose proof (performEncryption_with_secureMemory pf this (next_loc w1) w3) as Hpe.
  cbv zeta in Hpe.
  destruct (SecureCompletionClient.performEncryption pf (with_secureMemory false this)
              (next_loc w1) w3) as [o w4] eqn:Hplain.
  cbn [fst snd] in Hpe |- *.
  rewrite (use_run pf (next_loc w1) true
             (fun p => SecureCompletionClient.performEncryption pf
                         (with_secureMemory true this) p) w3 _ _ Hpe).
  intros [= -> <-]. split; reflexivity.
Qed.

(** X16: what secure memory adds to encryptPayload.  The run of a client with secureMemory
    returns the envelope that the same client without secureMemory
    returns, and leaves the world of that run but for two calls of
    zeroMemory: first on the buffer in which that run still holds the
    exported AES key, then on the buffer in which it still holds the
    payload's JSON text.  So the 32 key bytes and every byte of the text
    are zero afterwards, no other buffer has changed, and the envelope is
    in another buffer. *)
Theorem encryptPayload_wipes (pf : Platform) (this : SecureCompletionClient.t)
    (payload : JValue) (w w' : World) (out : loc) :
  SecureCompletionClient.secureMemory this = true ->
  SecureCompletionClient.encryptPayload pf this payload w = (Return out, w') ->
  let plain := SecureCompletionClient.encryptPayload pf (with_secureMemory false this)
                 payload w in
  let payloadLoc := next_loc (keys_ensured pf this w) in
  let keyLoc := S payloadLoc in
  let text := utf8_encode (SecureCompletionClient.stringify payload) in
  plain.1 = Return out
  /\ buffer_bytes plain.2 payloadLoc = text
  /\ buffer_bytes plain.2 keyLoc
     = map (entropy pf) (seq (rng_pos (keys_ensured pf this w)) 32)
  /\ zeroed_buffers plain.2 = zeroed_buffers w
  /\ w' = zeroed payloadLoc (zeroed keyLoc plain.2)
  /\ zeroed_buffers w' = payloadLoc :: keyLoc :: zeroed_buffers w
  /\ buffer_bytes w' keyLoc = replicate 32 zero_byte
  /\ buffer_bytes w' payloadLoc = replicate (length text) zero_byte
  /\ (forall b, b <> payloadLoc -> b <> keyLoc ->
      buffer_bytes w' b = buffer_bytes plain.2 b)
  /\ payloadLoc < keyLoc < out.
Proof.
  intros Hsecure H. cbv zeta.
  assert (Hthis : this = with_secureMemory true this).
  { destruct this as [url allow secure]. cbn in Hsecure. subst secure. reflexivity. }
  rewrite Hthis in H.
  apply encryptPayload_with_secureMemory in H. cbv zeta in H.
  destruct H as [Hout ->].
  set (plain := SecureCompletionClient.encryptPayload pf (with_secureMemory false this)
                  payload w) in *.
  assert (Hplain : SecureCompletionClient.encryptPayload pf (with_secureMemory false this)
                     payload w = (Return out, plain.2)).
  { fold plain. destruct plain as [o wp]. cbn [fst snd] in *. subst o. reflexivity. }
  apply encryptPayload_inv in Hplain. cbv zeta in Hplain.
  change (keys_ensured pf (with_secureMemory false this) w)
    with (keys_ensured pf this w) in Hplain.
  destruct Hplain as (w0 & w1 & Hrun & Hnext & Hrng & Hbytes & Hz0 & Hw1).
  cbn [SecureCompletionClient.secureMemory with_secureMemory] in Hw1.
  apply performEncryption_inv in Hrun; [ | lia ].
  cbv zeta in Hrun.
  destruct Hrun as (ct & hs & body & serverKey & wrapped & w3
                    & _ & _ & _ & _ & _ & Hfresh & Hkey & Hpayload & Hz3 & _ & Hw3).
  cbn [SecureCompletionClient.secureMemory with_secureMemory] in Hw3.
  rewrite Hw1, Hw3. rewrite Hnext in Hkey, Hfresh. rewrite Hrng in Hkey.
  set (payloadLoc := next_loc (keys_ensured pf this w)) in *.
  split; [ exact Hout | ].
  split; [ rewrite Hpayload; exact Hbytes | ].
  split; [ exact Hkey | ].
  split; [ rewrite Hz3; exact Hz0 | ].
  split; [ reflexivity | ].
  split; [ rewrite !zeroed_buffers_zeroed, Hz3, Hz0; reflexivity | ].
  split.
  { rewrite buffer_bytes_zeroed_ne by lia. rewrite buffer_bytes_zeroed_eq, Hkey.
    rewrite length_map, length_seq. reflexivity. }
  split.
  { rewrite buffer_bytes_zeroed_eq, buffer_bytes_zeroed_ne by lia.
    rewrite Hpayload, Hbytes. reflexivity. }
  split; [ | lia ].
  intros b Hb1 Hb2. rewrite !buffer_bytes_zeroed_ne by assumption. reflexivity.
Qed.

Lemma encryptPayload_wipes_witness :
  let pf := Example.node Example.parse_unauthorized Example.router_401 in
  let run := SecureCompletionClient.encryptPayload pf Example.https_client
               Example.chat_payload Example.ready_world in
  let plain := SecureCompletionClient.encryptPayload pf
                 (with_secureMemory false Example.https_client)
                 Example.chat_payload Example.ready_world in
  let text := utf8_encode (SecureCompletionClient.stringify Example.chat_payload) in
  plain.1 = Return 8
  /\ buffer_bytes plain.2 0 = text
  /\ buffer_bytes plain.2 1 = map (entropy pf) (seq 0 32)
  /\ run.2 = zeroed 0 (zeroed 1 plain.2)
  /\ zeroed_buffers run.2 = [0; 1]
  /\ buffer_bytes run.2 1 = replicate 32 zero_byte
  /\ buffer_bytes run.2 0 = replicate (length text) zero_byte.
Proof.
  intros pf run plain text.
  destruct (encryptPayload_wipes pf Example.https_client Example.chat_payload
              Example.ready_world run.2 8 eq_refl
              ltac:(vm_compute; reflexivity))
    as (H1 & H2 & H3 & _ & H5 & H6 & H7 & H8 & _).
  split; [ exact H1 | ]. split; [ exact H2 | ]. split; [ exact H3 | ].
  split; [ exact H5 | ]. split; [ exact H6 | ]. split; [ exact H7 | exact H8 ].
Defined.

(** ** What decryptResponse returns *)

Lemma assoc_lookup_set_eq (k : string) (v : JValue) (fs : list (string * JValue)) :
  assoc_lookup k (assoc_set k v fs) = Some v.
Proof.
  induction fs as [ | [k' v'] fs IH ]; cbn [assoc_set assoc_lookup].
  - rewrite String.eqb_refl. reflexivity.
  - destruct (String.eqb k k') eqn:E; cbn [assoc_lookup]; rewrite ?String.eqb_refl, ?E;
      [ reflexivity | exact IH ].
Qed.

Lemma assoc_lookup_set_ne (k k' : string) (v : JValue) (fs : list (string * JValue)) :
  k <> k' -> assoc_lookup k' (assoc_set k v fs) = assoc_lookup k' fs.
Proof.
  intros Hne.
  induction fs as [ | [k0 v0] fs IH ]; cbn [assoc_set assoc_lookup].
  - destruct (String.eqb_spec k' k); [ congruence | reflexivity ].
  - destruct (String.eqb_spec k k0) as [<- | Hk0]; cbn [assoc_lookup].
    + destruct (String.eqb_spec k' k); [ congruence | reflexivity ].
    + destruct (String.eqb k' k0); [ reflexivity | exact IH ].
Qed.

(** The four fields that decryptResponse writes into _metadata. *)
Lemma response_metadata_fields (old : JValue) (payloadId : string) (packageData : JValue) :
  let meta := SecureCompletionClient.response_metadata old payloadId packageData in
  get_field meta "payload_id" = JString payloadId
  /\ get_field meta "processed_at" = get_field packageData "processed_at"
  /\ get_field meta "is_encrypted" = JBool true
  /\ get_field meta "encryption_algorithm" = get_field packageData "algorithm".
Proof.
  cbv zeta. unfold SecureCompletionClient.response_metadata.
  assert (Hget : forall fs k v, assoc_lookup k fs = Some v -> get_field (JObject fs) k = v)
    by (intros fs k v H; cbn [get_field]; rewrite H; reflexivity).
  repeat split; apply Hget;
    rewrite ?assoc_lookup_set_ne by discriminate; apply assoc_lookup_set_eq.
Qed.

Lemma getPrivateKey_run (w : World) (key : CryptoKey) :
  km_privateKey w = Some key -> KeyManager.getPrivateKey w = (Return key, w).
Proof. intros H. unfold KeyManager.getPrivateKey, bind, get_world. rewrite H. reflexivity. Qed.

Lemma has_field_object (k : string) (v : JValue) :
  has_field k v = Some true -> exists fs, v = JObject fs.
Proof. destruct v; try discriminate. eexists; reflexivity. Qed.

Lemma get_prop_object (fs : list (string * JValue)) (k : string) (w : World) :
  get_prop (JObject fs) k w = (Return (get_field (JObject fs) k), w).
Proof. reflexivity. Qed.

(** The run of the decryption block when every step succeeds and the
    plaintext is the JSON text of an object. *)
Lemma decrypt_package_run (pf : Platform) (this : SecureCompletionClient.t)
    (packageData : JValue) (payloadId : string) (w : World)
    (wrapped keyBytes ct nonce plaintext : bytes) (privateKey : CryptoKey)
    (fields : list (string * JValue)) :
  package_fields_present packageData = true ->
  decode_base64 pf (get_field packageData "encrypted_aes_key") = Some wrapped ->
  km_privateKey w = Some privateKey ->
  key_kind privateKey = RsaPrivateKey ->
  rsa_oaep_decrypt (subtle pf) (key_data privateKey) wrapped = Some keyBytes ->
  length keyBytes = 32 ->
  decode_base64 pf (get_field (get_field packageData "encrypted_payload") "ciphertext")
  = Some ct ->
  decode_base64 pf (get_field (get_field packageData "encrypted_payload") "nonce")
  = Some nonce ->
  aes_gcm_decrypt (subtle pf) keyBytes nonce 128 ct = Some plaintext ->
  JSON_parse pf (TextDecoder_decode pf plaintext) = Some (JObject fields) ->
  let keyLoc := S (next_loc w) in
  let textLoc := S (S (S (S (next_loc w)))) in
  let old := get_field (JObject fields) "_metadata" in
  let base := if truthy old then old else JObject [] in
  let decrypted :=
    set_heap (<[textLoc := plaintext]>
                (<[S (S keyLoc) := nonce]>
                   (<[S keyLoc := ct]>
                      (<[keyLoc := keyBytes]>
                         (<[next_loc w := wrapped]> (heap w))))))
             (S textLoc) w in
  exists result wf,
    SecureCompletionClient.decrypt_package pf this packageData payloadId w
    = (Return (JObject result), wf)
    /\ assoc_lookup "_metadata" result
       = Some (SecureCompletionClient.response_metadata base payloadId packageData)
    /\ (forall k, k <> "_metadata"%string -> assoc_lookup k result = assoc_lookup k fields)
    /\ zeroed_buffers wf
       = (if SecureCompletionClient.secureMemory this then [keyLoc; textLoc] else [])
         ++ zeroed_buffers w
    /\ (SecureCompletionClient.secureMemory this = true ->
        buffer_bytes wf keyLoc = replicate 32 zero_byte
        /\ buffer_bytes wf textLoc = replicate (length plaintext) zero_byte)
    /\ result
       = assoc_set "_metadata"
           (SecureCompletionClient.response_metadata base payloadId packageData)
           (if truthy old then fields else assoc_set "_metadata" (JObject []) fields)
    /\ wf = (let wiped := if SecureCompletionClient.secureMemory this
                          then zeroed keyLoc (zeroed textLoc decrypted) else decrypted in
             set_trace (EvConsoleLog "Response decrypted successfully" :: trace wiped)
                       wiped).
Proof.
  intros Hpresent Hwrapped Hpriv Hkind Hrsa Hlen Hct Hnonce Hgcm Hjson keyLoc textLoc old base
    decrypted.
  apply andb_true_iff in Hpresent as [Hpkg Hpayload].
  assert (Hobj : exists fs, packageData = JObject fs).
  { cbn [fields_present forallb] in Hpkg. apply andb_true_iff in Hpkg as [Hv _].
    apply bool_decide_eq_true_1 in Hv. eapply has_field_object, Hv. }
  destruct Hobj as (pfs & ->).
  set (packageData := JObject pfs) in *.
  assert (Hobj : exists fs, get_field packageData "encrypted_payload" = JObject fs).
  { cbn [fields_present forallb] in Hpayload. apply andb_true_iff in Hpayload as [Hv _].
    apply bool_decide_eq_true_1 in Hv. eapply has_field_object, Hv. }
  destruct Hobj as (efs & Hep).
  set (secure := SecureCompletionClient.secureMemory this).
  unfold SecureCompletionClient.decrypt_package.
  rewrite (bind_run (base64ToArrayBuffer pf _) _ w
             (set_heap (<[next_loc w := wrapped]> (heap w)) (S (next_loc w)) w)
             (next_loc w))
    by (rewrite base64ToArrayBuffer_run, Hwrapped; reflexivity).
  set (w1 := set_heap (<[next_loc w := wrapped]> (heap w)) (S (next_loc w)) w).
  rewrite (bind_run _ _ _ _ _ (getPrivateKey_run w1 privateKey Hpriv)).
  assert (Hdk : RSAOperations.decryptKey pf (next_loc w) privateKey w1
                = (Return keyLoc,
                   set_heap (<[keyLoc := keyBytes]> (heap w1)) (S keyLoc) w1)).
  { rewrite decryptKey_run, Hkind.
    replace (buffer_bytes w1 (next_loc w)) with wrapped
      by (unfold w1; heap_simpl; reflexivity).
    rewrite Hrsa. reflexivity. }
  rewrite (bind_run _ _ _ _ _ Hdk).
  set (w2 := set_heap (<[keyLoc := keyBytes]> (heap w1)) (S keyLoc) w1).
  set (w3 := set_heap (<[S keyLoc := ct]> (heap w2)) (S (S keyLoc)) w2).
  set (w4 := set_heap (<[S (S keyLoc) := nonce]> (heap w3)) (S (S (S keyLoc))) w3).
  set (w5 := set_heap (<[textLoc := plaintext]> (heap w4)) (S textLoc) w4).
  set (w6 := if secure then zeroed textLoc w5 else w5).
  set (w7 := if secure then zeroed keyLoc w6 else w6).
  assert (Hinner :
            use (new_SecureByteContext pf textLoc secure)
              (fun protectedPlaintext =>
                 responseJson <- arrayBufferToString pf protectedPlaintext ;;
                 SecureCompletionClient.json_parse pf responseJson) w5
            = (Return (JObject fields), w6)).
  { apply use_run. cbv beta.
    cbv [bind arrayBufferToString read SecureCompletionClient.json_parse of_option ret].
    replace (buffer_bytes w5 textLoc) with plaintext
      by (unfold w5; heap_simpl; reflexivity).
    rewrite Hjson. reflexivity. }
  match goal with
  | |- context [ use (new_SecureByteContext pf keyLoc ?s) ?fn ] =>
      assert (Hfn : fn keyLoc w2 = (Return (JObject fields), w6))
  end.
  { cbv beta.
    rewrite (bind_run (AESEncryption.importKey keyLoc) _ w2 w2
               (mkCryptoKey AesGcmKey keyBytes)).
    2: { rewrite importKey_run.
         replace (buffer_bytes w2 keyLoc) with keyBytes
           by (unfold w2; heap_simpl; reflexivity).
         rewrite Hlen. reflexivity. }
    rewrite (bind_run _ _ _ _ _ (get_prop_object pfs "encrypted_payload" w2)).
    fold packageData. rewrite Hep.
    rewrite (bind_run _ _ _ _ _ (get_prop_object efs "ciphertext" w2)).
    rewrite <- Hep.
    rewrite (bind_run (base64ToArrayBuffer pf _) _ w2 w3 (S keyLoc))
      by (rewrite base64ToArrayBuffer_run, Hct; reflexivity).
    rewrite Hep.
    rewrite (bind_run _ _ _ _ _ (get_prop_object efs "nonce" w3)).
    rewrite <- Hep.
    rewrite (bind_run (base64ToArrayBuffer pf _) _ w3 w4 (S (S keyLoc)))
      by (rewrite base64ToArrayBuffer_run, Hnonce; reflexivity).
    rewrite (bind_run (AESEncryption.decrypt pf _ _ _) _ w4 w5 textLoc).
    2: { rewrite decrypt_run. cbn [key_kind key_data].
         replace (buffer_bytes w4 (S (S keyLoc))) with nonce
           by (unfold w4; heap_simpl; reflexivity).
         replace (buffer_bytes w4 (S keyLoc)) with ct
           by (unfold w4, w3; heap_simpl; reflexivity).
         rewrite Hgcm. reflexivity. }
    exact Hinner. }
  rewrite (bind_run _ _ _ _ _ (use_run pf keyLoc secure _ w2 w6 _ Hfn)).
  fold w7.
  rewrite (bind_run _ _ _ _ _ (get_prop_object fields "_metadata" w7)).
  fold old.
  assert (Hz7 : zeroed_buffers w7
                = (if secure then [keyLoc; textLoc] else []) ++ zeroed_buffers w).
  { unfold w7, w6. destruct secure; reflexivity. }
  assert (Hb7 : secure = true ->
                buffer_bytes w7 keyLoc = replicate 32 zero_byte
                /\ buffer_bytes w7 textLoc = replicate (length plaintext) zero_byte).
  { intros ->. unfold w7, w6. split.
    - rewrite buffer_bytes_zeroed_eq, buffer_bytes_zeroed_ne by (unfold textLoc, keyLoc; lia).
      replace (buffer_bytes w5 keyLoc) with keyBytes
        by (unfold w5, w4, w3, w2, textLoc, keyLoc; heap_simpl; reflexivity).
      rewrite Hlen. reflexivity.
    - rewrite buffer_bytes_zeroed_ne by (unfold textLoc, keyLoc; lia).
      rewrite buffer_bytes_zeroed_eq.
      replace (buffer_bytes w5 textLoc) with plaintext
        by (unfold w5; heap_simpl; reflexivity).
      reflexivity. }
  destruct (truthy old) eqn:Hold; cbn [negb].
  - rewrite (bind_run (ret _) _ w7 w7 (JObject fields) eq_refl).
    rewrite (bind_run _ _ _ _ _ (get_prop_object fields "_metadata" w7)).
    fold old.
    eexists _, _. split; [ reflexivity | ].
    split; [ apply assoc_lookup_set_eq | ].
    split; [ intros k Hk; apply assoc_lookup_set_ne; congruence | ].
    split; [ exact Hz7 | ]. split; [ exact Hb7 | ].
    split; [ unfold base; destruct (truthy old) eqn:E; [ reflexivity | congruence ] | ].
    unfold w7, w6, decrypted, w5, w4, w3, w2, w1, secure.
    destruct (SecureCompletionClient.secureMemory this); reflexivity.
  - rewrite (bind_run (set_prop (JObject fields) "_metadata" (JObject [])) _ w7 w7
               (JObject (assoc_set "_metadata" (JObject []) fields)) eq_refl).
    rewrite (bind_run _ _ _ _ _
               (get_prop_object (assoc_set "_metadata" (JObject []) fields) "_metadata" w7)).
    cbn [get_field]. rewrite assoc_lookup_set_eq. cbn [default from_option].
    eexists _, _. split; [ reflexivity | ].
    split; [ apply assoc_lookup_set_eq | ].
    split; [ intros k Hk; rewrite !assoc_lookup_set_ne by congruence; reflexivity | ].
    split; [ exact Hz7 | ]. split; [ exact Hb7 | ].
    split; [ unfold base; destruct (truthy old) eqn:E; [ congruence | reflexivity ] | ].
    unfold w7, w6, decrypted, w5, w4, w3, w2, w1, secure.
    destruct (SecureCompletionClient.secureMemory this); reflexivity.
Qed.

(** X17: completeness of decryptResponse.  When the response is not empty,
    parses to a package with its fields, every step of the decryption
    succeeds and the plaintext is the JSON text of an object, then
    decryptResponse returns that object: every field but _metadata as it
    was sent, and a _metadata that carries the caller's payload id, the
    package's processed_at and algorithm, and is_encrypted = true. *)
Theorem decryptResponse_returns (pf : Platform) (this : SecureCompletionClient.t)
    (encryptedResponse : loc) (payloadId : string) (w : World) (packageData : JValue)
    (wrapped keyBytes ct nonce plaintext : bytes) (privateKey : CryptoKey)
    (fields : list (string * JValue)) :
  buffer_bytes w encryptedResponse <> [] ->
  JSON_parse pf (TextDecoder_decode pf (buffer_bytes w encryptedResponse))
  = Some packageData ->
  package_fields_present packageData = true ->
  decode_base64 pf (get_field packageData "encrypted_aes_key") = Some wrapped ->
  km_privateKey w = Some privateKey ->
  key_kind privateKey = RsaPrivateKey ->
  rsa_oaep_decrypt (subtle pf) (key_data privateKey) wrapped = Some keyBytes ->
  length keyBytes = 32 ->
  decode_base64 pf (get_field (get_field packageData "encrypted_payload") "ciphertext")
  = Some ct ->
  decode_base64 pf (get_field (get_field packageData "encrypted_payload") "nonce")
  = Some nonce ->
  aes_gcm_decrypt (subtle pf) keyBytes nonce 128 ct = Some plaintext ->
  JSON_parse pf (TextDecoder_decode pf plaintext) = Some (JObject fields) ->
  exists result meta w',
    SecureCompletionClient.decryptResponse pf this encryptedResponse payloadId w
    = (Return (JObject result), w')
    /\ (forall k, k <> "_metadata"%string -> assoc_lookup k result = assoc_lookup k fields)
    /\ assoc_lookup "_metadata" result = Some meta
    /\ get_field meta "payload_id" = JString payloadId
    /\ get_field meta "processed_at" = get_field packageData "processed_at"
    /\ get_field meta "is_encrypted" = JBool true
    /\ get_field meta "encryption_algorithm" = get_field packageData "algorithm".
Proof.
  intros Hbody Hparse Hpresent Hwrapped Hpriv Hkind Hrsa Hlen Hct Hnonce Hgcm Hjson.
  rewrite decryptResponse_run. cbv zeta.
  destruct (buffer_bytes w encryptedResponse) as [ | b bs ] eqn:Hb; [ contradiction | ].
  rewrite Hparse.
  pose proof Hpresent as [Hpkg Hpayload]%andb_true_iff.
  rewrite (bind_run _ _ _ _ _ (require_fields_present _ _ _ _ Hpkg)).
  rewrite (bind_run _ _ _ _ _ (require_fields_present _ _ _ _ Hpayload)).
  set (logged := set_trace _ w).
  destruct (decrypt_package_run pf this packageData payloadId logged
              wrapped keyBytes ct nonce plaintext privateKey fields
              Hpresent Hwrapped Hpriv Hkind Hrsa Hlen Hct Hnonce Hgcm Hjson)
    as (result & wf & Hrun & Hmeta & Hrest & _ & _).
  unfold try_catch. rewrite Hrun.
  pose proof (response_metadata_fields
                (if truthy (get_field (JObject fields) "_metadata")
                 then get_field (JObject fields) "_metadata" else JObject [])
                payloadId packageData) as (H1 & H2 & H3 & H4).
  eexists result, _, wf.
  split; [ reflexivity | ]. split; [ exact Hrest | ]. split; [ exact Hmeta | ].
  auto.
Qed.

Lemma decryptResponse_returns_witness :
  let pf := Example.node Fixtures.parse_reply Example.offline in
  exists result meta w',
    SecureCompletionClient.decryptResponse pf Example.https_client 0 "id-1"
      Fixtures.world_with_reply
    = (Return (JObject result), w')
    /\ (forall k, k <> "_metadata"%string ->
                  assoc_lookup k result = assoc_lookup k [("id", JString "r1")])
    /\ assoc_lookup "_metadata" result = Some meta
    /\ get_field meta "payload_id" = JString "id-1"
    /\ get_field meta "processed_at" = get_field Fixtures.reply_package "processed_at"
    /\ get_field meta "is_encrypted" = JBool true
    /\ get_field meta "encryption_algorithm" = get_field Fixtures.reply_package "algorithm".
Proof.
  intros pf.
  apply (decryptResponse_returns pf Example.https_client 0 "id-1" Fixtures.world_with_reply
           Fixtures.reply_package Fixtures.reply_wrapped_key Fixtures.session_key
           Fixtures.reply_ciphertext Fixtures.reply_nonce
           (utf8_encode Fixtures.reply_text) Example.private_key [("id", JString "r1")]).
  - vm_compute. discriminate.
  - vm_compute. reflexivity.
  - vm_compute. reflexivity.
  - vm_compute. reflexivity.
  - reflexivity.
  - reflexivity.
  - vm_compute. reflexivity.
  - reflexivity.
  - vm_compute. reflexivity.
  - vm_compute. reflexivity.
  - vm_compute. reflexivity.
  - vm_compute. reflexivity.
Defined.

(** The run of decryptResponse when every step succeeds, with the
    buffers it has filled: the wrapped key, the AES key, the ciphertext,
    the nonce and the plaintext, in this order. *)
Lemma decryptResponse_success (pf : Platform) (this : SecureCompletionClient.t)
    (encryptedResponse : loc) (payloadId : string) (w : World) (packageData : JValue)
    (wrapped keyBytes ct nonce plaintext : bytes) (privateKey : CryptoKey)
    (fields : list (string * JValue)) :
  buffer_bytes w encryptedResponse <> [] ->
  JSON_parse pf (TextDecoder_decode pf (buffer_bytes w encryptedResponse))
  = Some packageData ->
  package_fields_present packageData = true ->
  decode_base64 pf (get_field packageData "encrypted_aes_key") = Some wrapped ->
  km_privateKey w = Some privateKey ->
  key_kind privateKey = RsaPrivateKey ->
  rsa_oaep_decrypt (subtle pf) (key_data privateKey) wrapped = Some keyBytes ->
  length keyBytes = 32 ->
  decode_base64 pf (get_field (get_field packageData "encrypted_payload") "ciphertext")
  = Some ct ->
  decode_base64 pf (get_field (get_field packageData "encrypted_payload") "nonce")
  = Some nonce ->
  aes_gcm_decrypt (subtle pf) keyBytes nonce 128 ct = Some plaintext ->
  JSON_parse pf (TextDecoder_decode pf plaintext) = Some (JObject fields) ->
  let keyLoc := S (next_loc w) in
  let textLoc := S (S (S (S (next_loc w)))) in
  let old := get_field (JObject fields) "_metadata" in
  let base := if truthy old then old else JObject [] in
  let decrypted :=
    set_heap (<[textLoc := plaintext]>
                (<[S (S keyLoc) := nonce]>
                   (<[S keyLoc := ct]>
                      (<[keyLoc := keyBytes]>
                         (<[next_loc w := wrapped]> (heap w))))))
             (S textLoc)
             (set_trace (EvConsoleLog "Decrypting response..." :: trace w) w) in
  SecureCompletionClient.decryptResponse pf this encryptedResponse payloadId w
  = (Return (JObject
               (assoc_set "_metadata"
                  (SecureCompletionClient.response_metadata base payloadId packageData)
                  (if truthy old then fields
                   else assoc_set "_metadata" (JObject []) fields))),
     let wiped := if SecureCompletionClient.secureMemory this
                  then zeroed keyLoc (zeroed textLoc decrypted) else decrypted in
     set_trace (EvConsoleLog "Response decrypted successfully" :: trace wiped) wiped).
Proof.
  intros Hbody Hparse Hpresent Hwrapped Hpriv Hkind Hrsa Hlen Hct Hnonce Hgcm Hjson.
  cbv zeta. rewrite decryptResponse_run. cbv zeta.
  destruct (buffer_bytes w encryptedResponse) as [ | b bs ] eqn:Hb; [ contradiction | ].
  rewrite Hparse.
  pose proof Hpresent as [Hpkg Hpayload]%andb_true_iff.
  rewrite (bind_run _ _ _ _ _ (require_fields_present _ _ _ _ Hpkg)).
  rewrite (bind_run _ _ _ _ _ (require_fields_present _ _ _ _ Hpayload)).
  set (logged := set_trace _ w).
  destruct (decrypt_package_run pf this packageData payloadId logged
              wrapped keyBytes ct nonce plaintext privateKey fields
              Hpresent Hwrapped Hpriv Hkind Hrsa Hlen Hct Hnonce Hgcm Hjson)
    as (result & wf & Hrun & _ & _ & _ & _ & -> & ->).
  unfold try_catch. rewrite Hrun. reflexivity.
Qed.

(** X18: what secure memory adds to a decryptResponse whose steps all
    succeed.  The run of a client with secureMemory returns what the same
    client without secureMemory returns; it has called zeroMemory twice,
    first on the buffer in which that run still holds the plaintext and
    then on the buffer in which it still holds the unwrapped AES key, and
    leaves the heap of that run with these two buffers all zero: the
    object returned is the one copy of the plaintext that remains. *)
Theorem decryptResponse_wipes (pf : Platform) (this : SecureCompletionClient.t)
    (encryptedResponse : loc) (payloadId : string) (w : World) (packageData : JValue)
    (wrapped keyBytes ct nonce plaintext : bytes) (privateKey : CryptoKey)
    (fields : list (string * JValue)) :
  SecureCompletionClient.secureMemory this = true ->
  buffer_bytes w encryptedResponse <> [] ->
  JSON_parse pf (TextDecoder_decode pf (buffer_bytes w encryptedResponse))
  = Some packageData ->
  package_fields_present packageData = true ->
  decode_base64 pf (get_field packageData "encrypted_aes_key") = Some wrapped ->
  km_privateKey w = Some privateKey ->
  key_kind privateKey = RsaPrivateKey ->
  rsa_oaep_decrypt (subtle pf) (key_data privateKey) wrapped = Some keyBytes ->
  length keyBytes = 32 ->
  decode_base64 pf (get_field (get_field packageData "encrypted_payload") "ciphertext")
  = Some ct ->
  decode_base64 pf (get_field (get_field packageData "encrypted_payload") "nonce")
  = Some nonce ->
  aes_gcm_decrypt (subtle pf) keyBytes nonce 128 ct = Some plaintext ->
  JSON_parse pf (TextDecoder_decode pf plaintext) = Some (JObject fields) ->
  let r := SecureCompletionClient.decryptResponse pf this encryptedResponse payloadId w in
  let plain := SecureCompletionClient.decryptResponse pf (with_secureMemory false this)
                 encryptedResponse payloadId w in
  let keyLoc := S (next_loc w) in
  let textLoc := S (S (S (S (next_loc w)))) in
  r.1 = plain.1
  /\ buffer_bytes plain.2 keyLoc = keyBytes
  /\ buffer_bytes plain.2 textLoc = plaintext
  /\ zeroed_buffers plain.2 = zeroed_buffers w
  /\ zeroed_buffers r.2 = keyLoc :: textLoc :: zeroed_buffers w
  /\ heap r.2 = heap (zeroed keyLoc (zeroed textLoc plain.2))
  /\ buffer_bytes r.2 keyLoc = replicate 32 zero_byte
  /\ buffer_bytes r.2 textLoc = replicate (length plaintext) zero_byte
  /\ (forall b, b <> keyLoc -> b <> textLoc -> buffer_bytes r.2 b = buffer_bytes plain.2 b).
Proof.
  intros Hsecure Hbody Hparse Hpresent Hwrapped Hpriv Hkind Hrsa Hlen Hct Hnonce Hgcm Hjson.
  cbv zeta.
  rewrite (decryptResponse_success pf this encryptedResponse payloadId w packageData
             wrapped keyBytes ct nonce plaintext privateKey fields) by assumption.
  rewrite (decryptResponse_success pf (with_secureMemory false this) encryptedResponse
             payloadId w packageData wrapped keyBytes ct nonce plaintext privateKey fields)
    by assumption.
  cbv zeta. rewrite Hsecure.
  cbn [SecureCompletionClient.secureMemory with_secureMemory fst snd].
  set (textLoc := S (S (S (S (next_loc w))))). set (keyLoc := S (next_loc w)).
  match goal with
  | |- context [ zeroed keyLoc (zeroed textLoc ?d) ] => set (decrypted := d)
  end.
  assert (Hk : buffer_bytes decrypted keyLoc = keyBytes).
  { unfold decrypted, textLoc, keyLoc. heap_simpl. reflexivity. }
  assert (Ht : buffer_bytes decrypted textLoc = plaintext).
  { unfold decrypted, textLoc, keyLoc. heap_simpl. reflexivity. }
  split; [ reflexivity | ].
  split; [ exact Hk | ]. split; [ exact Ht | ].
  split; [ reflexivity | ]. split; [ reflexivity | ]. split; [ reflexivity | ].
  assert (Hb : forall b, buffer_bytes
                           (set_trace (EvConsoleLog "Response decrypted successfully"
                                       :: trace (zeroed keyLoc (zeroed textLoc decrypted)))
                                      (zeroed keyLoc (zeroed textLoc decrypted))) b
                         = buffer_bytes (zeroed keyLoc (zeroed textLoc decrypted)) b)
    by reflexivity.
  split.
  { rewrite Hb, buffer_bytes_zeroed_eq, buffer_bytes_zeroed_ne by (unfold textLoc, keyLoc; lia).
    rewrite Hk, Hlen. reflexivity. }
  split.
  { rewrite Hb, buffer_bytes_zeroed_ne by (unfold textLoc, keyLoc; lia).
    rewrite buffer_bytes_zeroed_eq, Ht. reflexivity. }
  intros b Hb1 Hb2. rewrite Hb, !buffer_bytes_zeroed_ne by assumption. reflexivity.
Qed.

Lemma decryptResponse_wipes_witness :
  let pf := Example.node Fixtures.parse_reply Example.offline in
  let r := SecureCompletionClient.decryptResponse pf Example.https_client 0 "id-1"
             Fixtures.world_with_reply in
  let plain := SecureCompletionClient.decryptResponse pf
                 (with_secureMemory false Example.https_client) 0 "id-1"
                 Fixtures.world_with_reply in
  r.1 = plain.1
  /\ buffer_bytes plain.2 2 = Fixtures.session_key
  /\ buffer_bytes plain.2 5 = utf8_encode Fixtures.reply_text
  /\ zeroed_buffers r.2 = [2; 5]
  /\ buffer_bytes r.2 2 = replicate 32 zero_byte
  /\ buffer_bytes r.2 5 = replicate (length (utf8_encode Fixtures.reply_text)) zero_byte.
Proof.
  intros pf r plain.
  destruct (decryptResponse_wipes pf Example.https_client 0 "id-1" Fixtures.world_with_reply
              Fixtures.reply_package Fixtures.reply_wrapped_key Fixtures.session_key
              Fixtures.reply_ciphertext Fixtures.reply_nonce
              (utf8_encode Fixtures.reply_text) Example.private_key [("id", JString "r1")]
              eq_refl
              ltac:(vm_compute; discriminate)
              ltac:(vm_compute; reflexivity)
              ltac:(vm_compute; reflexivity)
              ltac:(vm_compute; reflexivity)
              eq_refl eq_refl
              ltac:(vm_compute; reflexivity)
              eq_refl
              ltac:(vm_compute; reflexivity)
              ltac:(vm_compute; reflexivity)
              ltac:(vm_compute; reflexivity)
              ltac:(vm_compute; reflexivity))
    as (H1 & H2 & H3 & _ & H5 & _ & H7 & H8 & _).
  split; [ exact H1 | ]. split; [ exact H2 | ]. split; [ exact H3 | ].
  split; [ exact H5 | ]. split; [ exact H7 | exact H8 ].
Defined.

(** ** Memory frames: what the codecs and the ciphers leave alone *)

Section MemFrames.

Context (R : World -> World -> Prop) `{!MemFrame R}.
Context (pf : Platform).

Lemma mkeeps_alloc (bs : bytes) : keeps R (alloc bs).
Proof. intros w. apply mem_alloc. Qed.

Lemma mkeeps_draw (n : nat) : keeps R (draw pf n).
Proof. intros w. apply mem_rng. Qed.

Ltac mem_step :=
  lazymatch goal with
  | |- keeps _ (bind _ _) => apply keeps_bind; try typeclasses eauto; [ | intros ]
  | |- keeps _ (ret _) => apply keeps_ret; try typeclasses eauto
  | |- keeps _ (throw _) => apply keeps_throw; try typeclasses eauto
  | |- keeps _ (rethrow _) => apply keeps_rethrow; try typeclasses eauto
  | |- keeps _ get_world => apply keeps_get_world; try typeclasses eauto
  | |- keeps _ (read _) => apply keeps_read; try typeclasses eauto
  | |- keeps _ (of_option _ _) => apply keeps_of_option; try typeclasses eauto
  | |- keeps _ (require_kind _ _) => apply keeps_require_kind; try typeclasses eauto
  | |- keeps _ (try_catch _ _) => apply keeps_try_catch; try typeclasses eauto; [ | intros ]
  | |- keeps _ (alloc _) => apply mkeeps_alloc
  | |- keeps _ (draw _ _) => apply mkeeps_draw
  | |- keeps _ (if ?b then _ else _) => destruct b
  | |- keeps _ (match ?x with _ => _ end) => destruct x
  | |- keeps _ _ => solve [ auto ]
  end.

Ltac mem_auto := repeat mem_step.

Lemma mkeeps_arrayBufferToBase64 (b : loc) : keeps R (arrayBufferToBase64 pf b).
Proof. unfold arrayBufferToBase64. mem_auto. Qed.

Lemma mkeeps_base64ToArrayBuffer (v : JValue) : keeps R (base64ToArrayBuffer pf v).
Proof. unfold base64ToArrayBuffer. mem_auto. Qed.

Lemma mkeeps_stringToArrayBuffer (s : string) : keeps R (stringToArrayBuffer s).
Proof. unfold stringToArrayBuffer. mem_auto. Qed.

Lemma mkeeps_pemToArrayBuffer (pem : string) (type : PemType) :
  keeps R (pemToArrayBuffer pf pem type).
Proof. unfold pemToArrayBuffer. apply mkeeps_base64ToArrayBuffer. Qed.

Lemma mkeeps_arrayBufferToPem (b : loc) (type : PemType) :
  keeps R (arrayBufferToPem pf b type).
Proof. unfold arrayBufferToPem. pose proof mkeeps_arrayBufferToBase64. mem_auto. Qed.

Lemma mkeeps_global_crypto_getRandomValues (n : nat) :
  keeps R (RSAOperations.global_crypto_getRandomValues pf n).
Proof.
  unfold RSAOperations.global_crypto_getRandomValues, crypto_getRandomValues. mem_auto.
Qed.

Lemma mkeeps_exportPublicKey (key : CryptoKey) :
  keeps R (RSAOperations.exportPublicKey pf key).
Proof.
  unfold RSAOperations.exportPublicKey, subtle_exportKey.
  pose proof mkeeps_arrayBufferToPem. mem_auto.
Qed.

Lemma mkeeps_importPublicKey (pem : string) :
  keeps R (RSAOperations.importPublicKey pf pem).
Proof.
  unfold RSAOperations.importPublicKey, subtle_importKey_spki.
  pose proof mkeeps_pemToArrayBuffer. mem_auto.
Qed.

Lemma mkeeps_encryptPrivateKeyWithPassword (keyData : loc) (password : string) :
  keeps R (RSAOperations.encryptPrivateKeyWithPassword pf keyData password).
Proof.
  unfold RSAOperations.encryptPrivateKeyWithPassword, subtle_importKey_raw_PBKDF2,
    subtle_deriveKey_PBKDF2_AES_CBC, subtle_encrypt_AES_CBC.
  pose proof mkeeps_stringToArrayBuffer. pose proof mkeeps_global_crypto_getRandomValues.
  pose proof mkeeps_arrayBufferToPem. mem_auto.
Qed.

Lemma mkeeps_decryptPrivateKeyWithPassword (pem password : string) :
  keeps R (RSAOperations.decryptPrivateKeyWithPassword pf pem password).
Proof.
  unfold RSAOperations.decryptPrivateKeyWithPassword, subtle_importKey_raw_PBKDF2,
    subtle_deriveKey_PBKDF2_AES_CBC, subtle_decrypt_AES_CBC.
  pose proof mkeeps_stringToArrayBuffer. pose proof mkeeps_pemToArrayBuffer. mem_auto.
Qed.

Lemma mkeeps_exportPrivateKey (key : CryptoKey) (password : option string) :
  keeps R (RSAOperations.exportPrivateKey pf key password).
Proof.
  unfold RSAOperations.exportPrivateKey, subtle_exportKey.
  pose proof mkeeps_encryptPrivateKeyWithPassword. pose proof mkeeps_arrayBufferToPem.
  mem_auto.
Qed.

Lemma mkeeps_importPrivateKey (pem : string) (password : option string) :
  keeps R (RSAOperations.importPrivateKey pf pem password).
Proof.
  unfold RSAOperations.importPrivateKey, subtle_importKey_pkcs8.
  pose proof mkeeps_decryptPrivateKeyWithPassword. pose proof mkeeps_pemToArrayBuffer.
  mem_auto.
Qed.

End MemFrames.

#[global] Instance same_store_preorder : PreOrder same_store.
Proof.
  split.
  - intros w. repeat split.
  - intros a b c (H1 & H2 & H3 & H4) (H5 & H6 & H7 & H8). repeat split; congruence.
Qed.

#[global] Instance same_store_mem : MemFrame same_store.
Proof. split; [ typeclasses eauto | | ]; intros; repeat split. Qed.

(** ** KeyManager: keys on file *)

(** A private key that exportPrivateKey wrote is read back by
    importPrivateKey under the same password, given or not. *)
Lemma exportPrivateKey_importPrivateKey (pf : Platform) (key : CryptoKey)
    (password : option string) (w w1 : World) (pem : string) :
  decodes_base64 pf ->
  aes_cbc_correct (subtle pf) ->
  well_formed_private_key pf key ->
  RSAOperations.exportPrivateKey pf key password w = (Return pem, w1) ->
  forall w2, (RSAOperations.importPrivateKey pf pem password w2).1 = Return key.
Proof.
  intros Hdec Hcbc [Hkind Hpkcs8] Hexport w2.
  destruct (password_given password) as [p|] eqn:Hpw.
  - assert (Hp : password = Some p /\ p <> ""%string).
    { destruct password as [q|]; [ | discriminate ]. unfold password_given in Hpw.
      destruct (String.eqb_spec q ""); [ discriminate | ].
      injection Hpw as <-. split; [ reflexivity | assumption ]. }
    destruct Hp as [-> Hp].
    assert (Hg : has_global_crypto pf = true).
    { destruct (has_global_crypto pf) eqn:Hg; [ reflexivity | exfalso ].
      pose proof (exportPrivateKey_without_global_crypto pf key p w Hg Hkind Hp) as Hno.
      rewrite Hexport in Hno. discriminate. }
    set (salt := map (entropy pf) (seq (rng_pos w) 16)).
    set (iv := map (entropy pf) (seq (rng_pos w + 16) 16)).
    assert (Hsalt : length salt = 16)
      by (subst salt; rewrite length_map, length_seq; reflexivity).
    assert (Hiv : length iv = 16)
      by (subst iv; rewrite length_map, length_seq; reflexivity).
    assert (Hrun : (RSAOperations.exportPrivateKey pf key (Some p) w).1
                   = match aes_cbc_encrypt (subtle pf) (derived_key pf p salt) iv
                           (key_data key) with
                     | Some ct => Return (pem_text (base64_encode (salt ++ iv ++ ct)) PRIVATE)
                     | None => Throw (ErrObj OperationError)
                     end).
    { unfold RSAOperations.exportPrivateKey. rewrite Hpw.
      rewrite <- Hkind at 1.
      erewrite bind_run by apply subtle_exportKey_run.
      unfold bind.
      pose proof (encryptPrivateKeyWithPassword_run pf (next_loc w) p
                    (set_heap (<[next_loc w := key_data key]> (heap w)) (S (next_loc w)) w)
                    Hg) as Henc.
      cbn [next_loc set_heap rng_pos] in Henc. specialize (Henc ltac:(lia)).
      cbv zeta in Henc. fold salt iv in Henc.
      unfold buffer_bytes in Henc. cbn [heap set_heap] in Henc.
      rewrite lookup_total_insert_eq in Henc.
      destruct (RSAOperations.encryptPrivateKeyWithPassword pf (next_loc w) p _)
        as [[q|t] w']; cbn [fst] in Henc |- *; exact Henc. }
    rewrite Hexport in Hrun. cbn [fst] in Hrun.
    destruct (aes_cbc_encrypt (subtle pf) (derived_key pf p salt) iv (key_data key))
      as [ct|] eqn:Henc; [ | discriminate ].
    injection Hrun as ->.
    assert (Hdecoded : pem_decode pf (pem_text (base64_encode (salt ++ iv ++ ct)) PRIVATE)
                         PRIVATE = Some (salt ++ iv ++ ct))
      by (apply pem_decode_pem_text, Hdec).
    destruct (take_drop_layout salt iv ct Hsalt Hiv) as (Ht1 & Ht2 & Ht3).
    unfold RSAOperations.importPrivateKey. rewrite Hpw.
    pose proof (decryptPrivateKeyWithPassword_run pf _ p _ w2 Hdecoded) as Hrun.
    cbv zeta in Hrun. rewrite Ht1, Ht2, Ht3 in Hrun.
    rewrite (Hcbc _ _ _ _ Henc) in Hrun.
    destruct Hrun as (out & w' & Hrun & Hbytes).
    erewrite bind_run by exact Hrun.
    rewrite subtle_importKey_pkcs8_run, Hbytes, Hpkcs8.
    destruct key as [kind data]. cbn in Hkind. subst kind. reflexivity.
  - rewrite (exportPrivateKey_plain_run pf key password w Hkind Hpw) in Hexport.
    injection Hexport as <- _.
    rewrite (importPrivateKey_plain_run pf _ (key_data key) password w2 Hpw)
      by (apply pem_decode_pem_text, Hdec).
    rewrite Hpkcs8. destruct key as [kind data]. cbn in Hkind. subst kind. reflexivity.
Qed.

Lemma pem_text_not_empty (base64 : string) (type : PemType) :
  password_given (Some (pem_text base64 type)) = Some (pem_text base64 type).
Proof. destruct type; reflexivity. Qed.

(** The two attempts at chmod of saveKeys change neither the files nor
    the key manager, and do not fail. *)
Lemma try_chmod_inv (pf : Platform) (path ok failed : string) (w w' : World) (o : Outcome unit) :
  try_catch (fs_chmod pf path ;; console_log ok) (fun _ => console_warn failed) w = (o, w') ->
  o = Return tt /\ same_store w w'.
Proof.
  unfold try_catch, bind, fs_chmod, console_log, console_warn, emit, ret, throw.
  destruct (fs_chmod_ok pf path); intros [= <- <-]; split; try reflexivity; repeat split.
Qed.

Lemma console_log_inv (s : string) (w w' : World) (o : Outcome unit) :
  console_log s w = (o, w') -> o = Return tt /\ same_store w w'.
Proof. intros [= <- <-]. split; [ reflexivity | repeat split ]. Qed.

Lemma console_warn_inv (s : string) (w w' : World) (o : Outcome unit) :
  console_warn s w = (o, w') -> o = Return tt /\ same_store w w'.
Proof. intros [= <- <-]. split; [ reflexivity | repeat split ]. Qed.

Lemma fs_writeFile_inv (pf : Platform) (path content : string) (w w' : World) :
  fs_writeFile pf path content w = (Return tt, w') ->
  w' = set_fs (<[path := content]> (fs w)) w.
Proof.
  unfold fs_writeFile. destruct (fs_writable pf path); [ | discriminate ].
  intros [= <-]. reflexivity.
Qed.

(** The files that a run of saveKeys that returns has written. *)
Lemma saveKeys_files (pf : Platform) (directory : string) (password : option string)
    (w w1 : World) (privateKey publicKey : CryptoKey) :
  has_window pf = false ->
  km_privateKey w = Some privateKey ->
  km_publicKey w = Some publicKey ->
  key_kind publicKey = RsaPublicKey ->
  path_join pf directory "private_key.pem" <> path_join pf directory "public_key.pem" ->
  KeyManager.saveKeys pf directory password w = (Return tt, w1) ->
  exists privateKeyPem wa wb,
    RSAOperations.exportPrivateKey pf privateKey password wa = (Return privateKeyPem, wb)
    /\ fs w1 !! path_join pf directory "private_key.pem" = Some privateKeyPem
    /\ fs w1 !! path_join pf directory "public_key.pem"
       = Some (match password_given (km_publicKeyPem w) with
               | Some cached => cached
               | None => pem_text (base64_encode (key_data publicKey)) PUBLIC
               end).
Proof.
  intros Hwindow Hpriv Hpub Hkind Hpaths H.
  unfold KeyManager.saveKeys in H. rewrite Hwindow in H.
  apply bind_Return_inv in H as (w0 & w0' & H0 & H).
  unfold get_world in H0. injection H0 as <- <-.
  rewrite Hpriv, Hpub in H.
  apply bind_Return_inv in H as ([] & wa & Ha & H).
  apply console_log_inv in Ha as [_ Sa].
  apply bind_Return_inv in H as ([] & wb & Hb & H).
  assert (wb = wa) as ->.
  { unfold fs_mkdir in Hb. destruct (fs_writable pf directory); [ | discriminate ].
    injection Hb as <-. reflexivity. }
  apply bind_Return_inv in H as (privateKeyPem & wc & Hc & H).
  pose proof (mkeeps_exportPrivateKey same_store pf privateKey password wa) as Sc.
  rewrite Hc in Sc. cbn [snd] in Sc.
  apply bind_Return_inv in H as ([] & wd & Hd & H).
  apply fs_writeFile_inv in Hd.
  apply bind_Return_inv in H as ([] & we & He & H).
  apply try_chmod_inv in He as [_ Se].
  apply bind_Return_inv in H as (w' & we' & H' & H).
  unfold get_world in H'. injection H' as <- <-.
  apply bind_Return_inv in H as (publicKeyPem & wf & Hf & H).
  assert (Hpem : km_publicKeyPem we = km_publicKeyPem w).
  { destruct Sa as (_ & _ & _ & Sa), Sc as (_ & _ & _ & Sc), Se as (_ & _ & _ & Se).
    rewrite Se, Hd. cbn [km_publicKeyPem set_fs]. congruence. }
  assert (Hfs : fs we = <[path_join pf directory "private_key.pem" := privateKeyPem]> (fs wc)).
  { destruct Se as (Se & _). rewrite Se, Hd. reflexivity. }
  assert (Hpub' : publicKeyPem
                  = match password_given (km_publicKeyPem w) with
                    | Some cached => cached
                    | None => pem_text (base64_encode (key_data publicKey)) PUBLIC
                    end
                  /\ fs wf = fs we).
  { rewrite Hpem in Hf.
    destruct (password_given (km_publicKeyPem w)) as [cached|] eqn:Hcache.
    - injection Hf as <- <-. split; reflexivity.
    - rewrite (bind_run _ _ _ _ _ (exportPublicKey_run pf publicKey we Hkind)) in Hf.
      unfold bind, KeyManager.set_publicKeyPem, ret in Hf. cbn [fst snd] in Hf.
      injection Hf as <- <-. split; reflexivity. }
  destruct Hpub' as [-> Hfsf].
  apply bind_Return_inv in H as ([] & wg & Hg & H).
  apply fs_writeFile_inv in Hg.
  apply bind_Return_inv in H as ([] & wh & Hh & H).
  apply try_chmod_inv in Hh as [_ Sh].
  apply bind_Return_inv in H as ([] & wi & Hi & H).
  assert (Si : same_store wh wi).
  { destruct (password_given password);
      [ apply console_log_inv in Hi | apply console_warn_inv in Hi ]; apply Hi. }
  apply console_log_inv in H as [_ Sj].
  assert (Hfinal : fs w1 = <[path_join pf directory "public_key.pem"
                              := match password_given (km_publicKeyPem w) with
                                 | Some cached => cached
                                 | None => pem_text (base64_encode (key_data publicKey)) PUBLIC
                                 end]>
                             (<[path_join pf directory "private_key.pem" := privateKeyPem]>
                                (fs wc))).
  { destruct Sh as (Sh & _), Si as (Si & _), Sj as (Sj & _).
    rewrite Sj, Si, Sh, Hg. cbn [fs set_fs]. rewrite Hfsf, Hfs. reflexivity. }
  exists privateKeyPem, wa, wc. split; [ exact Hc | ].
  rewrite Hfinal. split.
  - rewrite lookup_insert_ne by congruence. apply lookup_insert_eq.
  - apply lookup_insert_eq.
Qed.

Lemma fs_readFile_run (path content : string) (w : World) :
  fs w !! path = Some content -> fs_readFile path w = (Return content, w).
Proof. intros H. unfold fs_readFile. rewrite H. reflexivity. Qed.

(** X19: keys that saveKeys wrote are the keys that loadKeys reads.  On
    Node.js, where path.join gives the two files different names, not
    empty, where the base64 decoder inverts the encoder and under the law
    of AES-CBC: for a key manager that holds a well-formed key pair and
    whose cached PEM text, if it has one, imports as that public key,
    after saveKeys(directory, password) has returned, loadKeys on the two
    files of that directory and with the same password, from any world
    with those files, returns and leaves the same private and public key
    in the key manager, with or without a password. *)
Theorem saveKeys_loadKeys_roundtrip (pf : Platform) (directory : string)
    (password : option string) (w w1 : World) (privateKey publicKey : CryptoKey) :
  has_window pf = false ->
  decodes_base64 pf ->
  aes_cbc_correct (subtle pf) ->
  km_privateKey w = Some privateKey ->
  km_publicKey w = Some publicKey ->
  well_formed_private_key pf privateKey ->
  well_formed_public_key pf publicKey ->
  (forall cached, password_given (km_publicKeyPem w) = Some cached ->
                  imported_public_key pf cached = Some (key_data publicKey)) ->
  let privatePath := path_join pf directory "private_key.pem" in
  let publicPath := path_join pf directory "public_key.pem" in
  privatePath <> publicPath ->
  publicPath <> ""%string ->
  KeyManager.saveKeys pf directory password w = (Return tt, w1) ->
  forall w2,
    fs w2 = fs w1 ->
    exists w3,
      KeyManager.loadKeys pf (mkKeyPaths privatePath (Some publicPath)) password w2
      = (Return tt, w3)
      /\ km_privateKey w3 = Some privateKey
      /\ km_publicKey w3 = Some publicKey.
Proof.
  intros Hwindow Hdec Hcbc Hpriv Hpub Hwfpriv Hwfpub Hcached privatePath publicPath
    Hpaths Hnonempty Hsave w2 Hfs.
  destruct (saveKeys_files pf directory password w w1 privateKey publicKey
              Hwindow Hpriv Hpub (proj1 Hwfpub) Hpaths Hsave)
    as (privateKeyPem & wa & wb & Hexport & Hfile1 & Hfile2).
  fold privatePath in Hfile1. fold publicPath in Hfile2.
  destruct Hwfpub as [Hkind Hspki].
  set (pem := match password_given (km_publicKeyPem w) with
              | Some cached => cached
              | None => pem_text (base64_encode (key_data publicKey)) PUBLIC
              end) in *.
  assert (Himports : imported_public_key pf pem = Some (key_data publicKey)).
  { subst pem. destruct (password_given (km_publicKeyPem w)) as [cached|] eqn:Hc.
    - apply Hcached. reflexivity.
    - unfold imported_public_key. rewrite pem_decode_pem_text by exact Hdec. exact Hspki. }
  unfold KeyManager.loadKeys. rewrite Hwindow.
  cbn [privateKeyPath publicKeyPath].
  set (w2a := set_trace (EvConsoleLog "Loading keys from files..." :: trace w2) w2).
  rewrite (bind_run (console_log _) _ w2 w2a tt eq_refl).
  rewrite (bind_run _ _ _ _ _ (fs_readFile_run privatePath privateKeyPem w2a
                                 ltac:(cbn [fs w2a set_trace]; congruence))).
  pose proof (exportPrivateKey_importPrivateKey pf privateKey password wa wb privateKeyPem
                Hdec Hcbc Hwfpriv Hexport w2a) as Himport.
  pose proof (mkeeps_importPrivateKey same_store pf privateKeyPem password w2a) as Sb.
  destruct (RSAOperations.importPrivateKey pf privateKeyPem password w2a) as [o w2b] eqn:Hrun.
  cbn [fst snd] in Himport, Sb. subst o.
  rewrite (bind_run _ _ _ _ _ Hrun).
  set (w2c := set_km (km_publicKey w2b) (Some privateKey) (km_publicKeyPem w2b) w2b).
  rewrite (bind_run (KeyManager.set_privateKey _) _ w2b w2c tt eq_refl).
  rewrite (password_given_nonempty publicPath Hnonempty).
  assert (Hfile : fs w2c !! publicPath = Some pem).
  { destruct Sb as (Sb & _). cbn [fs w2c set_km]. rewrite Sb. cbn [fs w2a set_trace].
    congruence. }
  unfold bind at 1.
  rewrite (bind_run _ _ _ _ _ (fs_readFile_run publicPath pem w2c Hfile)).
  set (w2d := set_km (km_publicKey w2c) (km_privateKey w2c) (Some pem) w2c).
  rewrite (bind_run (KeyManager.set_publicKeyPem _) _ w2c w2d tt eq_refl).
  unfold imported_public_key in Himports.
  destruct (pem_decode pf pem PUBLIC) as [bs|] eqn:Hbs; [ | discriminate ].
  assert (Hip : RSAOperations.importPublicKey pf pem w2d
                = (Return (mkCryptoKey RsaPublicKey (key_data publicKey)),
                   set_heap (<[next_loc w2d := bs]> (heap w2d)) (S (next_loc w2d)) w2d)).
  { rewrite (importPublicKey_run pf pem bs) by exact Hbs.
    rewrite Himports. reflexivity. }
  rewrite (bind_run _ _ _ _ _ Hip).
  unfold KeyManager.set_publicKey, console_log, emit. cbn [fst snd].
  eexists. split; [ reflexivity | ].
  cbn [km_privateKey km_publicKey set_trace set_km set_heap w2d w2c].
  split; [ reflexivity | ].
  destruct publicKey as [kind data]. cbn in Hkind. subst kind. reflexivity.
Qed.

Lemma saveKeys_loadKeys_roundtrip_witness :
  let pf := Example.node Example.no_json Example.offline in
  let saved := (KeyManager.saveKeys pf "client_keys" (Some "hunter2"%string)
                  Example.ready_world).2 in
  let restarted := mkWorld ∅ 0 [] 0 (fs saved) None None None in
  exists w3,
    KeyManager.loadKeys pf
      (mkKeyPaths "client_keys/private_key.pem" (Some "client_keys/public_key.pem"%string))
      (Some "hunter2"%string) restarted
    = (Return tt, w3)
    /\ km_privateKey w3 = Some Example.private_key
    /\ km_publicKey w3 = Some Fixtures.public_key.
Proof.
  intros pf saved restarted.
  apply (saveKeys_loadKeys_roundtrip pf "client_keys" (Some "hunter2"%string)
           Example.ready_world saved Example.private_key Fixtures.public_key).
  - reflexivity.
  - apply atob_platform_decodes. reflexivity.
  - exact Example_aes_cbc_correct.
  - reflexivity.
  - reflexivity.
  - split; reflexivity.
  - split; reflexivity.
  - intros cached H. discriminate H.
  - discriminate.
  - discriminate.
  - vm_compute. reflexivity.
  - reflexivity.
Defined.

(** ** The key manager of a client *)

Lemma try_catch_inv {A} (m : M A) (h : Thrown -> M A) (w w' : World) (o : Outcome A) :
  try_catch m h w = (o, w') ->
  (exists a, m w = (Return a, w') /\ o = Return a)
  \/ exists t w1, m w = (Throw t, w1) /\ h t w1 = (o, w').
Proof.
  unfold try_catch. destruct (m w) as [[a|t] w1]; intros H.
  - left. exists a. injection H as <- <-. split; reflexivity.
  - right. exists t, w1. split; [ reflexivity | exact H ].
Qed.

#[global] Instance same_keys_preorder : PreOrder same_keys.
Proof.
  split.
  - intros w. split; reflexivity.
  - intros a b c [H1 H2] [H3 H4]. split; congruence.
Qed.

#[global] Instance same_keys_mem : MemFrame same_keys.
Proof. split; [ typeclasses eauto | | ]; intros; split; reflexivity. Qed.

(** saveKeys sets the cached PEM at most: the two keys stay. *)
Lemma saveKeys_same_keys (pf : Platform) (directory : string) (password : option string) :
  keeps same_keys (KeyManager.saveKeys pf directory password).
Proof.
  assert (Hlog : forall s, keeps same_keys (console_log s)) by (intros s w; split; reflexivity).
  assert (Hwarn : forall s, keeps same_keys (console_warn s)) by (intros s w; split; reflexivity).
  assert (Hmk : forall p, keeps same_keys (fs_mkdir pf p)).
  { intros p w. unfold fs_mkdir. destruct (fs_writable pf p); split; reflexivity. }
  assert (Hwr : forall p c, keeps same_keys (fs_writeFile pf p c)).
  { intros p c w. unfold fs_writeFile. destruct (fs_writable pf p); split; reflexivity. }
  assert (Hch : forall p, keeps same_keys (fs_chmod pf p)).
  { intros p w. unfold fs_chmod. destruct (fs_chmod_ok pf p); split; reflexivity. }
  assert (Hpem : forall p, keeps same_keys (KeyManager.set_publicKeyPem p))
    by (intros p w; split; reflexivity).
  pose proof (mkeeps_exportPrivateKey same_keys pf) as Hpriv.
  pose proof (mkeeps_exportPublicKey same_keys pf) as Hpub.
  unfold KeyManager.saveKeys.
  repeat lazymatch goal with
  | |- keeps _ (bind _ _) => apply keeps_bind; try typeclasses eauto; [ | intros ]
  | |- keeps _ (ret _) => apply keeps_ret; try typeclasses eauto
  | |- keeps _ (throw _) => apply keeps_throw; try typeclasses eauto
  | |- keeps _ get_world => apply keeps_get_world; try typeclasses eauto
  | |- keeps _ (try_catch _ _) => apply keeps_try_catch; try typeclasses eauto; [ | intros ]
  | |- keeps _ (if ?b then _ else _) => destruct b
  | |- keeps _ (match ?x with _ => _ end) => destruct x
  | |- keeps _ _ => solve [ auto ]
  end.
Qed.

(** What a run of loadKeys that returns leaves in the key manager. *)
Lemma loadKeys_keys (pf : Platform) (paths : KeyPaths) (password : option string)
    (w w' : World) :
  KeyManager.loadKeys pf paths password w = (Return tt, w') ->
  exists privateKey publicKey,
    km_privateKey w' = Some privateKey /\ km_publicKey w' = Some publicKey.
Proof.
  unfold KeyManager.loadKeys. destruct (has_window pf); [ discriminate | ].
  intros H.
  apply bind_Return_inv in H as ([] & wa & _ & H).
  apply bind_Return_inv in H as (privateKeyPem & wb & _ & H).
  apply bind_Return_inv in H as (privateKey & wc & _ & H).
  apply bind_Return_inv in H as ([] & wd & Hd & H).
  injection Hd as <-.
  apply bind_Return_inv in H as ([] & we & He & H).
  apply console_log_inv in H as [_ (_ & Hpub & Hpriv & _)].
  exists privateKey.
  assert (Hload : forall path wd',
             km_privateKey wd' = Some privateKey ->
             (pem <- fs_readFile path ;;
              KeyManager.set_publicKeyPem pem ;;
              publicKey <- RSAOperations.importPublicKey pf pem ;;
              KeyManager.set_publicKey publicKey) wd' = (Return tt, we) ->
             exists publicKey,
               km_privateKey we = Some privateKey /\ km_publicKey we = Some publicKey).
  { intros path wd' Hk Hrun.
    apply bind_Return_inv in Hrun as (pem & w1 & H1 & Hrun).
    assert (w1 = wd') as ->.
    { unfold fs_readFile in H1. destruct (fs wd' !! path); [ | discriminate ].
      injection H1 as _ <-. reflexivity. }
    apply bind_Return_inv in Hrun as ([] & w2 & H2 & Hrun).
    injection H2 as <-.
    apply bind_Return_inv in Hrun as (publicKey & w3 & H3 & Hrun).
    pose proof (mkeeps_importPublicKey same_keys pf pem
                  (set_km (km_publicKey wd') (km_privateKey wd') (Some pem) wd')) as [_ S3].
    rewrite H3 in S3. cbn [snd] in S3.
    injection Hrun as <-. exists publicKey. split; [ | reflexivity ].
    cbn. rewrite S3. cbn. exact Hk. }
  rewrite Hpub, Hpriv.
  destruct (password_given (publicKeyPath paths)) as [path|];
    (eapply Hload in He as (publicKey & Hk1 & Hk2); [ | reflexivity ]);
    exists publicKey; split; assumption.
Qed.

(** What a run of generateKeys that returns leaves: the new key pair in
    the key manager and, when it saves without a password, its two PEM
    texts in the files of the directory. *)
Lemma generateKeys_inv (pf : Platform) (options : KeyGenOptions) (w w' : World) :
  KeyManager.generateKeys pf options w = (Return tt, w') ->
  exists privateKey publicKey,
    key_kind privateKey = RsaPrivateKey
    /\ key_kind publicKey = RsaPublicKey
    /\ km_privateKey w' = Some privateKey
    /\ km_publicKey w' = Some publicKey
    /\ (default false (kg_saveToFile options) = true ->
        has_window pf = false ->
        password_given (kg_password options) = None ->
        let directory := default "client_keys"%string (kg_keyDir options) in
        path_join pf directory "private_key.pem" <> path_join pf directory "public_key.pem" ->
        fs w' !! path_join pf directory "private_key.pem"
        = Some (pem_text (base64_encode (key_data privateKey)) PRIVATE)
        /\ fs w' !! path_join pf directory "public_key.pem"
           = Some (pem_text (base64_encode (key_data publicKey)) PUBLIC)).
Proof.
  unfold KeyManager.generateKeys. cbv zeta. intros H.
  apply bind_Return_inv in H as ([] & wa & _ & H).
  apply bind_Return_inv in H as ([publicKey privateKey] & wb & Hb & H).
  assert (Hkinds : key_kind privateKey = RsaPrivateKey /\ key_kind publicKey = RsaPublicKey).
  { unfold RSAOperations.generateKeyPair, subtle_generateKey_RSA_OAEP, bind, emit in Hb.
    destruct (rsa_generate _ _ _ _) as [[pkcs8 spki] pos].
    injection Hb as <- <- _. split; reflexivity. }
  destruct Hkinds as [Hkpriv Hkpub].
  cbn [fst snd] in H.
  apply bind_Return_inv in H as ([] & wc & Hc & H). injection Hc as <-.
  apply bind_Return_inv in H as ([] & wd & Hd & H). injection Hd as <-.
  apply bind_Return_inv in H as (pem & we & He & H).
  rewrite exportPublicKey_run in He by exact Hkpub.
  injection He as <- <-.
  apply bind_Return_inv in H as ([] & wf & Hf & H). injection Hf as <-.
  apply bind_Return_inv in H as ([] & wg & Hg & H). injection Hg as <-.
  exists privateKey, publicKey.
  split; [ exact Hkpriv | split; [ exact Hkpub | ] ].
  destruct (default false (kg_saveToFile options)).
  - pose proof (saveKeys_same_keys pf (default "client_keys"%string (kg_keyDir options))
                  (kg_password options)) as Hsame.
    unfold keeps in Hsame.
    match type of H with ?m ?x = _ => specialize (Hsame x) end.
    rewrite H in Hsame. destruct Hsame as [Hpub Hpriv]. cbn [snd] in Hpub, Hpriv.
    split; [ rewrite Hpriv; reflexivity | split; [ rewrite Hpub; reflexivity | ] ].
    intros _ Hwindow Hpw Hpaths.
    eapply saveKeys_files in H as (privateKeyPem & w1 & w2 & Hexp & Hf1 & Hf2);
      [ | exact Hwindow | reflexivity | reflexivity | exact Hkpub | exact Hpaths ].
    rewrite exportPrivateKey_plain_run in Hexp by assumption.
    injection Hexp as <- _. split; [ assumption | ].
    cbn [km_publicKeyPem set_trace set_km] in Hf2.
    rewrite pem_text_not_empty in Hf2. exact Hf2.
  - injection H as <-.
    split; [ reflexivity | split; [ reflexivity | discriminate ] ].
Qed.

(** A run of ensureKeys that returns leaves both keys in the key manager. *)
Lemma ensureKeys_keys (pf : Platform) (this : SecureCompletionClient.t) (w w' : World) :
  SecureCompletionClient.ensureKeys pf this w = (Return tt, w') ->
  exists privateKey publicKey,
    km_privateKey w' = Some privateKey /\ km_publicKey w' = Some publicKey.
Proof.
  intros H.
  unfold SecureCompletionClient.ensureKeys in H.
  apply bind_Return_inv in H as (has & w0 & H0 & H).
  rewrite hasKeys_run in H0. injection H0 as <- <-.
  destruct (bool_decide (is_Some (km_privateKey w))
            && bool_decide (is_Some (km_publicKey w))) eqn:Hhas.
  - injection H as <-.
    apply andb_true_iff in Hhas as [H1 H2].
    apply bool_decide_eq_true_1 in H1 as [privateKey H1].
    apply bool_decide_eq_true_1 in H2 as [publicKey H2].
    exists privateKey, publicKey. split; assumption.
  - apply bind_Return_inv in H as (loaded & w1 & H1 & H).
    destruct loaded.
    + injection H as <-.
      destruct (has_window pf); [ discriminate | ]. cbn [negb] in H1.
      apply try_catch_inv in H1 as [(a & H1 & _) | (t & w2 & _ & H1)].
      * apply bind_Return_inv in H1 as ([] & wa & _ & H1).
        apply bind_Return_inv in H1 as ([] & wb & _ & H1).
        apply bind_Return_inv in H1 as ([] & wc & Hc & H1).
        apply bind_Return_inv in H1 as ([] & wd & Hd & H1).
        apply console_log_inv in Hd as [_ (_ & Hpub & Hpriv & _)].
        apply loadKeys_keys in Hc as (privateKey & publicKey & Hp & Hq).
        assert (w1 = wd) as -> by (unfold ret in H1; congruence).
        exists privateKey, publicKey. split; congruence.
      * discriminate.
    + apply generateKeys_inv in H as (privateKey & publicKey & _ & _ & Hp & Hq & _).
      exists privateKey, publicKey. split; assumption.
Qed.

(** X20: ensureKeys establishes the keys once.  When ensureKeys returns,
    the key manager holds a private and a public key, the ones that
    getPrivateKey and getPublicKey then return; a further ensureKeys of
    the client returns at once and changes nothing: no file is read, no
    key pair generated, nothing logged. *)
Theorem ensureKeys_establishes_keys (pf : Platform)
    (this : SecureCompletionClient.t) (w w' : World) :
  SecureCompletionClient.ensureKeys pf this w = (Return tt, w') ->
  (exists privateKey publicKey,
     KeyManager.getPrivateKey w' = (Return privateKey, w')
     /\ KeyManager.getPublicKey w' = (Return publicKey, w'))
  /\ KeyManager.hasKeys w' = (Return true, w')
  /\ SecureCompletionClient.ensureKeys pf this w' = (Return tt, w').
Proof.
  intros H.
  apply ensureKeys_keys in H as (privateKey & publicKey & Hp & Hq).
  split; [ exists privateKey, publicKey | split ].
  - unfold KeyManager.getPrivateKey, KeyManager.getPublicKey, bind, get_world.
    rewrite Hp, Hq. split; reflexivity.
  - rewrite hasKeys_run, Hp, Hq. reflexivity.
  - eapply ensureKeys_noop; eassumption.
Qed.

Lemma ensureKeys_establishes_keys_witness :
  let pf := Example.node Example.no_json Example.offline in
  let w' := (SecureCompletionClient.ensureKeys pf Example.https_client
               Example.empty_world).2 in
  (exists privateKey publicKey,
     KeyManager.getPrivateKey w' = (Return privateKey, w')
     /\ KeyManager.getPublicKey w' = (Return publicKey, w'))
  /\ KeyManager.hasKeys w' = (Return true, w')
  /\ SecureCompletionClient.ensureKeys pf Example.https_client w' = (Return tt, w').
Proof.
  apply (ensureKeys_establishes_keys (Example.node Example.no_json Example.offline)
           Example.https_client Example.empty_world).
  vm_compute. reflexivity.
Defined.

(** The attempt of ensureKeys to load the key files generates no key. *)
Lemma ensureKeys_generates (pf : Platform) (this : SecureCompletionClient.t)
    (w w' : World) :
  SecureCompletionClient.ensureKeys pf this w = (Return tt, w') ->
  rsa_generations w' <> rsa_generations w ->
  exists w1,
    KeyManager.generateKeys pf
      (mkKeyGenOptions (Some K4096) (Some (negb (has_window pf)))
                       (Some "client_keys"%string) None) w1
    = (Return tt, w').
Proof.
  intros H Hgen. unfold SecureCompletionClient.ensureKeys in H.
  apply bind_Return_inv in H as (has & w0 & H0 & H).
  rewrite hasKeys_run in H0. injection H0 as <- <-.
  destruct (bool_decide (is_Some (km_privateKey w))
            && bool_decide (is_Some (km_publicKey w))).
  { injection H as <-. contradiction Hgen. reflexivity. }
  apply bind_Return_inv in H as (loaded & w1 & H1 & H).
  destruct loaded.
  - injection H as <-. contradiction Hgen.
    match type of H1 with ?m w = _ =>
      assert (Hk : keeps (same_on rsa_generations) m)
    end.
    { keeps_auto. unfold SecureCompletionClient.loadKeys. keeps_auto. }
    specialize (Hk w). rewrite H1 in Hk. exact Hk.
  - exists w1. exact H.
Qed.

(** X21: keys that ensureKeys generates on Node.js are written to disk
    without a password.  Whenever a run of ensureKeys that returns has
    generated a key pair, client_keys/private_key.pem holds the PEM block
    around the plain PKCS8 bytes of the private key now in the key manager
    and client_keys/public_key.pem the PEM of its public key, whatever the
    two files held before: key files that were there and could not be
    loaded are overwritten. *)
Theorem ensureKeys_persists_unencrypted (pf : Platform)
    (this : SecureCompletionClient.t) (w w' : World) :
  has_window pf = false ->
  path_join pf "client_keys" "private_key.pem" <> path_join pf "client_keys" "public_key.pem" ->
  SecureCompletionClient.ensureKeys pf this w = (Return tt, w') ->
  rsa_generations w' <> rsa_generations w ->
  exists privateKey publicKey,
    km_privateKey w' = Some privateKey
    /\ km_publicKey w' = Some publicKey
    /\ fs w' !! path_join pf "client_keys" "private_key.pem"
       = Some (pem_text (base64_encode (key_data privateKey)) PRIVATE)
    /\ fs w' !! path_join pf "client_keys" "public_key.pem"
       = Some (pem_text (base64_encode (key_data publicKey)) PUBLIC).
Proof.
  intros Hwindow Hpaths H Hgen.
  apply ensureKeys_generates in H as (w1 & H); [ | exact Hgen ].
  apply generateKeys_inv in H as (privateKey & publicKey & _ & _ & Hp & Hq & Hfiles).
  rewrite Hwindow in Hfiles. cbn in Hfiles.
  destruct Hfiles as [Hf1 Hf2]; try reflexivity; try assumption.
  exists privateKey, publicKey. repeat split; assumption.
Qed.

Lemma ensureKeys_persists_unencrypted_witness :
  let pf := Example.node Example.no_json Example.offline in
  let w := Fixtures.world_with_protected_keys in
  let w' := (SecureCompletionClient.ensureKeys pf Example.https_client w).2 in
  fs w !! "client_keys/private_key.pem"%string = Some Example.protected_pem
  /\ exists privateKey publicKey,
       km_privateKey w' = Some privateKey
       /\ km_publicKey w' = Some publicKey
       /\ fs w' !! "client_keys/private_key.pem"%string
          = Some (pem_text (base64_encode (key_data privateKey)) PRIVATE)
       /\ fs w' !! "client_keys/public_key.pem"%string
          = Some (pem_text (base64_encode (key_data publicKey)) PUBLIC).
Proof.
  split; [ vm_compute; reflexivity | ].
  apply (ensureKeys_persists_unencrypted (Example.node Example.no_json Example.offline)
           Example.https_client Fixtures.world_with_protected_keys).
  - reflexivity.
  - vm_compute. discriminate.
  - vm_compute. reflexivity.
  - vm_compute. discriminate.
Defined.

(** ** SecureChatCompletion *)

Lemma assoc_lookup_delete_eq (k : string) (fields : list (string * JValue)) :
  assoc_lookup k (delete_field k fields) = None.
Proof.
  induction fields as [|[k' v] rest IH]; [ reflexivity | ].
  unfold delete_field in *. cbn [List.filter fst].
  destruct (String.eqb_spec k' k) as [->|Hne]; cbn [negb]; [ exact IH | ].
  cbn [assoc_lookup].
  destruct (String.eqb_spec k k') as [->|_]; [ contradiction Hne; reflexivity | exact IH ].
Qed.

Lemma assoc_lookup_delete_ne (k d : string) (fields : list (string * JValue)) :
  k <> d -> assoc_lookup k (delete_field d fields) = assoc_lookup k fields.
Proof.
  intros Hne.
  induction fields as [|[k' v] rest IH]; [ reflexivity | ].
  unfold delete_field in *. cbn [List.filter fst].
  destruct (String.eqb_spec k' d) as [->|Hk']; cbn [negb assoc_lookup].
  - destruct (String.eqb_spec k d) as [->|_]; [ contradiction Hne; reflexivity | exact IH ].
  - rewrite IH. reflexivity.
Qed.

(** With an apiKey that is a string or undefined, as its signature has
    it, the untyped call is sendSecureRequest. *)
Lemma sendSecureRequest_typed (pf : Platform) (this : SecureCompletionClient.t)
    (payload : JValue) (payloadId : string) (apiKey : option string) :
  SecureChatCompletion.sendSecureRequest pf this payload payloadId (optional_string apiKey)
  = SecureCompletionClient.sendSecureRequest pf this payload payloadId apiKey.
Proof.
  unfold SecureChatCompletion.sendSecureRequest, SecureCompletionClient.sendSecureRequest.
  destruct apiKey as [s|]; [ | reflexivity ].
  unfold password_given. cbn [optional_string truthy js_ToString].
  destruct (String.eqb s ""); reflexivity.
Qed.

(** What create does with a request object, by its fields. *)
Lemma create_run (pf : Platform) (this : SecureChatCompletion.t) (now : Z)
    (random36 : string) (fields : list (string * JValue)) (w : World) :
  SecureChatCompletion.create pf this now random36 (JObject fields) w
  = if negb (truthy (default JUndefined (assoc_lookup "model" fields)))
    then (Throw (ErrObj (new_error Error "Missing required field: model")), w)
    else
      match default JUndefined (assoc_lookup "messages" fields) with
      | JArray items =>
          SecureChatCompletion.sendSecureRequest pf (SecureChatCompletion.client this)
            (JObject (delete_field "api_key" fields))
            ("openai-compat-" +:+ SecureChatCompletion.generatePayloadId now random36)
            (if truthy (default JUndefined (assoc_lookup "api_key" fields))
             then default JUndefined (assoc_lookup "api_key" fields)
             else optional_string (SecureChatCompletion.apiKey this)) w
      | _ => (Throw (ErrObj (new_error Error "Missing or invalid required field: messages")),
              w)
      end.
Proof.
  unfold SecureChatCompletion.create. cbv zeta.
  unfold get_prop. cbn [own_properties get_field].
  unfold bind at 1. unfold ret at 1.
  rewrite !assoc_lookup_delete_ne by discriminate.
  destruct (negb (truthy (default JUndefined (assoc_lookup "model" fields))));
    [ reflexivity | ].
  destruct (default JUndefined (assoc_lookup "messages" fields)) as [| |b|n|s|items|fs];
    cbn [truthy negb orb]; rewrite ?orb_true_r; try reflexivity.
  unfold bind.
    destruct (SecureChatCompletion.sendSecureRequest _ _ _ _ _ _) as [[r|t] w1]; reflexivity.
Qed.

(** X22: create validates the request before anything else happens.  A
    request that is null or undefined fails with a TypeError; a request
    object without a truthy model fails with 'Missing required field:
    model'; one with a model whose messages is not an array (absent, null,
    a string, an object) fails with 'Missing or invalid required field:
    messages'.  In the three cases the world is as before: no key is
    loaded or generated, nothing is logged and no request goes out,
    whatever api_key the request or the instance carries. *)
Theorem create_rejects_invalid_requests (pf : Platform) (this : SecureChatCompletion.t)
    (now : Z) (random36 : string) (fields : list (string * JValue)) (w : World) :
  let create := SecureChatCompletion.create pf this now random36 in
  (exists e, create JNull w = (Throw (ErrObj e), w) /\ err_class e = TypeError)
  /\ (exists e, create JUndefined w = (Throw (ErrObj e), w) /\ err_class e = TypeError)
  /\ (lacks_model fields ->
      create (JObject fields) w
      = (Throw (ErrObj (new_error Error "Missing required field: model")), w))
  /\ (~ lacks_model fields ->
      ~ messages_array fields ->
      create (JObject fields) w
      = (Throw (ErrObj (new_error Error "Missing or invalid required field: messages")), w)).
Proof.
  cbv zeta. split; [ | split; [ | split ] ].
  - eexists. split; reflexivity.
  - eexists. split; reflexivity.
  - intros Hmodel. rewrite create_run. unfold lacks_model in Hmodel.
    rewrite Hmodel. reflexivity.
  - intros Hmodel Hmessages. rewrite create_run. unfold lacks_model in Hmodel.
    destruct (truthy (default JUndefined (assoc_lookup "model" fields)));
      [ | contradiction Hmodel; reflexivity ].
    cbn [negb].
    destruct (assoc_lookup "messages" fields) as [[| | | | |items|]|] eqn:Hm;
      try reflexivity.
    contradiction Hmessages. exists items. exact Hm.
Qed.

(** X23: what create submits for a valid request.  The payload handed to
    sendSecureRequest is the request without its api_key member, every
    other member unchanged; the payload id is 'openai-compat-', the clock
    reading, a dash and at most 13 characters of the random text; the
    bearer token is the api_key of the request when that is a non-empty
    string and the apiKey of the instance when the request has no api_key
    or a falsy one. *)
Theorem create_submits_without_api_key (pf : Platform) (this : SecureChatCompletion.t)
    (now : Z) (random36 : string) (fields : list (string * JValue)) (w : World) :
  ~ lacks_model fields ->
  messages_array fields ->
  let payload := delete_field "api_key" fields in
  let payloadId := ("openai-compat-" +:+ string_of_Z now +:+ "-"
                    +:+ substring 2 13 random36)%string in
  let api_key := default JUndefined (assoc_lookup "api_key" fields) in
  let submit := SecureCompletionClient.sendSecureRequest pf
                  (SecureChatCompletion.client this) (JObject payload) payloadId in
  assoc_lookup "api_key" payload = None
  /\ (forall k, k <> "api_key"%string -> assoc_lookup k payload = assoc_lookup k fields)
  /\ (forall key, api_key = JString key -> key <> ""%string ->
      SecureChatCompletion.create pf this now random36 (JObject fields) w
      = submit (Some key) w)
  /\ (truthy api_key = false ->
      SecureChatCompletion.create pf this now random36 (JObject fields) w
      = submit (SecureChatCompletion.apiKey this) w)
  /\ SecureChatCompletion.acreate pf this now random36 (JObject fields) w
     = SecureChatCompletion.create pf this now random36 (JObject fields) w.
Proof.
  intros Hmodel [items Hmessages]. cbv zeta.
  assert (Hrun : SecureChatCompletion.create pf this now random36 (JObject fields) w
                 = SecureChatCompletion.sendSecureRequest pf
                     (SecureChatCompletion.client this)
                     (JObject (delete_field "api_key" fields))
                     ("openai-compat-" +:+ string_of_Z now +:+ "-"
                      +:+ substring 2 13 random36)
                     (if truthy (default JUndefined (assoc_lookup "api_key" fields))
                      then default JUndefined (assoc_lookup "api_key" fields)
                      else optional_string (SecureChatCompletion.apiKey this)) w).
  { rewrite create_run. unfold lacks_model in Hmodel.
    destruct (truthy (default JUndefined (assoc_lookup "model" fields)));
      [ | contradiction Hmodel; reflexivity ].
    rewrite Hmessages. reflexivity. }
  split; [ apply assoc_lookup_delete_eq | ].
  split; [ intros k Hk; apply assoc_lookup_delete_ne; exact Hk | ].
  split; [ | split; [ | reflexivity ] ].
  - intros key Hkey Hne. rewrite Hrun, Hkey. cbn [truthy].
    destruct (String.eqb_spec key "") as [->|_]; [ contradiction Hne; reflexivity | ].
    cbn [negb]. apply (f_equal (fun m => m w)).
    apply (sendSecureRequest_typed pf _ _ _ (Some key)).
  - intros Hfalsy. rewrite Hrun, Hfalsy.
    apply (f_equal (fun m => m w)). apply sendSecureRequest_typed.
Qed.

Lemma create_submits_without_api_key_witness :
  let pf := Example.node Example.no_json Example.offline in
  let this := SecureChatCompletion.mkChat Example.https_client (Some "sk-instance"%string) in
  let fields := [("model", JString "x"); ("api_key", JString "sk-request");
                 ("messages", JArray [])]%string in
  let payload := delete_field "api_key" fields in
  let payloadId := ("openai-compat-" +:+ string_of_Z 1700000000000 +:+ "-"
                    +:+ substring 2 13 "0.4fzyo82mvyr")%string in
  let api_key := default JUndefined (assoc_lookup "api_key" fields) in
  let submit := SecureCompletionClient.sendSecureRequest pf
                  (SecureChatCompletion.client this) (JObject payload) payloadId in
  assoc_lookup "api_key" payload = None
  /\ (forall k, k <> "api_key"%string -> assoc_lookup k payload = assoc_lookup k fields)
  /\ (forall key, api_key = JString key -> key <> ""%string ->
      SecureChatCompletion.create pf this 1700000000000 "0.4fzyo82mvyr" (JObject fields)
        Example.empty_world
      = submit (Some key) Example.empty_world)
  /\ (truthy api_key = false ->
      SecureChatCompletion.create pf this 1700000000000 "0.4fzyo82mvyr" (JObject fields)
        Example.empty_world
      = submit (SecureChatCompletion.apiKey this) Example.empty_world)
  /\ SecureChatCompletion.acreate pf this 1700000000000 "0.4fzyo82mvyr" (JObject fields)
       Example.empty_world
     = SecureChatCompletion.create pf this 1700000000000 "0.4fzyo82mvyr" (JObject fields)
         Example.empty_world.
Proof.
  apply (create_submits_without_api_key (Example.node Example.no_json Example.offline)
           (SecureChatCompletion.mkChat Example.https_client (Some "sk-instance"%string))
           1700000000000 "0.4fzyo82mvyr"
           [("model", JString "x"); ("api_key", JString "sk-request");
            ("messages", JArray [])]%string
           Example.empty_world).
  - unfold lacks_model. cbn. discriminate.
  - exists []. reflexivity.
Defined.

(** ** loadKeys and generateKeys when a later step fails *)

Lemma bind_Throw_inv {A B} (m : M A) (k : A -> M B) (w w' : World) (t : Thrown) :
  bind m k w = (Throw t, w') ->
  m w = (Throw t, w')
  \/ exists a w1, m w = (Return a, w1) /\ k a w1 = (Throw t, w').
Proof.
  unfold bind. destruct (m w) as [[a|t'] w1]; intros H.
  - right. exists a, w1. split; [ reflexivity | exact H ].
  - left. injection H as <- <-. reflexivity.
Qed.

(** The second half of loadKeys: a failure in it leaves the keys and the
    files as they were. *)
Lemma load_public_key_throws (pf : Platform) (path : string) (w w' : World) (t : Thrown) :
  (pem <- fs_readFile path ;;
   KeyManager.set_publicKeyPem pem ;;
   publicKey <- RSAOperations.importPublicKey pf pem ;;
   KeyManager.set_publicKey publicKey) w = (Throw t, w') ->
  km_privateKey w' = km_privateKey w
  /\ km_publicKey w' = km_publicKey w
  /\ fs w' = fs w.
Proof.
  intros H.
  apply bind_Throw_inv in H as [H | (pem & w1 & H1 & H)].
  { unfold fs_readFile in H. destruct (fs w !! path); [ discriminate | ].
    injection H as _ <-. repeat split. }
  assert (w1 = w) as ->.
  { unfold fs_readFile in H1. destruct (fs w !! path); [ | discriminate ].
    injection H1 as _ <-. reflexivity. }
  apply bind_Throw_inv in H as [H | ([] & w2 & H2 & H)]; [ discriminate | ].
  injection H2 as <-.
  apply bind_Throw_inv in H as [H | (publicKey & w3 & _ & H)]; [ | discriminate ].
  pose proof (mkeeps_importPublicKey same_store pf pem
                (set_km (km_publicKey w) (km_privateKey w) (Some pem) w))
    as (Sfs & Spub & Spriv & _).
  rewrite H in Sfs, Spub, Spriv. cbn [snd] in Sfs, Spub, Spriv.
  repeat split; assumption.
Qed.

(** X24: loadKeys is not atomic.  When the private key file imports but
    loadKeys then fails, because the public key file is missing or is not
    a public key, the key manager is left with the private key of the
    file and with the public key it had before; the files are untouched.
    A key manager that held a key pair therefore still reports hasKeys,
    with a private key and a public key that do not belong together. *)
Theorem loadKeys_failure_leaves_private_key (pf : Platform) (paths : KeyPaths)
    (password : option string) (w : World) (pem : string) (privateKey : CryptoKey) :
  has_window pf = false ->
  fs w !! privateKeyPath paths = Some pem ->
  (forall w0, (RSAOperations.importPrivateKey pf pem password w0).1 = Return privateKey) ->
  let r := KeyManager.loadKeys pf paths password w in
  (exists t, r.1 = Throw t) ->
  km_privateKey r.2 = Some privateKey
  /\ km_publicKey r.2 = km_publicKey w
  /\ fs r.2 = fs w
  /\ (is_Some (km_publicKey w) -> KeyManager.hasKeys r.2 = (Return true, r.2)).
Proof.
  intros Hwindow Hfile Himport r [t Ht].
  assert (Hr : r = (Throw t, r.2)) by (destruct r; cbn in *; congruence).
  assert (Hstate : km_privateKey r.2 = Some privateKey
                   /\ km_publicKey r.2 = km_publicKey w /\ fs r.2 = fs w).
  { revert Hr. generalize (r.2). subst r. intros w' H.
    unfold KeyManager.loadKeys in H. rewrite Hwindow in H.
    apply bind_Throw_inv in H as [H | ([] & wa & Ha & H)]; [ discriminate | ].
    injection Ha as <-.
    apply bind_Throw_inv in H as [H | (pem' & wb & Hb & H)].
    { unfold fs_readFile in H. cbn [fs set_trace] in H. rewrite Hfile in H. discriminate. }
    unfold fs_readFile in Hb. cbn [fs set_trace] in Hb. rewrite Hfile in Hb.
    injection Hb as <- <-.
    apply bind_Throw_inv in H as [H | (key & wc & Hc & H)].
    { match type of H with ?m ?x = _ => specialize (Himport x) end.
      rewrite H in Himport. discriminate. }
    match type of Hc with ?m ?x = _ =>
      pose proof (Himport x) as Hkey;
      pose proof (mkeeps_importPrivateKey same_store pf pem password x)
        as (Sfs & Spub & _ & _)
    end.
    rewrite Hc in Hkey, Sfs, Spub. cbn [fst snd] in Hkey, Sfs, Spub.
    injection Hkey as ->.
    apply bind_Throw_inv in H as [H | ([] & wd & Hd & H)]; [ discriminate | ].
    injection Hd as <-.
    apply bind_Throw_inv in H as [H | ([] & we & _ & H)]; [ | discriminate ].
    assert (Hrest : km_privateKey w' = Some privateKey
                    /\ km_publicKey w' = km_publicKey wc /\ fs w' = fs wc).
    { destruct (password_given (publicKeyPath paths)) as [path|];
        apply load_public_key_throws in H as (H1 & H2 & H3);
        (split; [ rewrite H1; reflexivity | split; [ rewrite H2 | rewrite H3 ]; reflexivity ]). }
    destruct Hrest as (H1 & H2 & H3).
    split; [ exact H1 | split; [ rewrite H2, Spub | rewrite H3, Sfs ]; reflexivity ]. }
  destruct Hstate as (H1 & H2 & H3).
  split; [ exact H1 | split; [ exact H2 | split; [ exact H3 | ] ] ].
  intros [publicKey Hpub]. rewrite hasKeys_run, H1, H2, Hpub. reflexivity.
Qed.

Lemma loadKeys_failure_leaves_private_key_witness :
  let pf := Example.node Example.no_json Example.offline in
  let w := Fixtures.world_with_lone_private_key in
  let r := KeyManager.loadKeys pf (mkKeyPaths "keys/private.pem" None) None w in
  km_privateKey w = Some Example.private_key
  /\ km_privateKey r.2 = Some Fixtures.other_private_key
  /\ km_publicKey r.2 = km_publicKey w
  /\ fs r.2 = fs w
  /\ (is_Some (km_publicKey w) -> KeyManager.hasKeys r.2 = (Return true, r.2)).
Proof.
  split; [ reflexivity | ].
  apply (loadKeys_failure_leaves_private_key
           (Example.node Example.no_json Example.offline)
           (mkKeyPaths "keys/private.pem" None) None Fixtures.world_with_lone_private_key
           (pem_text (base64_encode (key_data Fixtures.other_private_key)) PRIVATE)
           Fixtures.other_private_key).
  - reflexivity.
  - vm_compute. reflexivity.
  - intros w0.
    rewrite (importPrivateKey_plain_run _ _ (key_data Fixtures.other_private_key))
      by (vm_compute; reflexivity).
    reflexivity.
  - eexists. vm_compute. reflexivity.
Defined.

(** saveKeys where the directory cannot be created: the failure of mkdir,
    after one line on the console. *)
Lemma saveKeys_readonly (pf : Platform) (directory : string) (password : option string)
    (w : World) (privateKey publicKey : CryptoKey) :
  has_window pf = false ->
  fs_writable pf directory = false ->
  km_privateKey w = Some privateKey ->
  km_publicKey w = Some publicKey ->
  KeyManager.saveKeys pf directory password w
  = (Throw (ErrObj (fs_error "EACCES" directory)),
     set_trace (EvConsoleLog ("Saving keys to " +:+ directory +:+ "/...") :: trace w) w).
Proof.
  intros Hwindow Hro Hpriv Hpub.
  unfold KeyManager.saveKeys. rewrite Hwindow.
  unfold bind at 1. unfold get_world at 1. rewrite Hpriv, Hpub.
  unfold bind at 1. unfold console_log at 1, emit at 1.
  unfold bind at 1. unfold fs_mkdir at 1. rewrite Hro. reflexivity.
Qed.

(** What generateKeys does, up to the saving. *)
Lemma generateKeys_run (pf : Platform) (options : KeyGenOptions) (w : World) :
  exists privateKey publicKey w1,
    km_privateKey w1 = Some privateKey
    /\ km_publicKey w1 = Some publicKey
    /\ KeyManager.generateKeys pf options w
       = if default false (kg_saveToFile options)
         then KeyManager.saveKeys pf (default "client_keys"%string (kg_keyDir options))
                (kg_password options) w1
         else (Return tt, w1).
Proof.
  unfold KeyManager.generateKeys. cbv zeta.
  unfold bind at 1. unfold console_log at 1, emit at 1.
  unfold bind at 1.
  unfold RSAOperations.generateKeyPair at 1, subtle_generateKey_RSA_OAEP at 1.
  unfold bind at 1. unfold emit at 1.
  cbn [set_trace rng_pos].
  destruct (rsa_generate (subtle pf) _ (entropy pf) (rng_pos w)) as [[pkcs8 spki] pos].
  cbn [fst snd].
  unfold bind at 1. unfold KeyManager.set_publicKey at 1.
  unfold bind at 1. unfold KeyManager.set_privateKey at 1.
  unfold bind at 1. rewrite exportPublicKey_run by reflexivity.
  unfold bind at 1. unfold KeyManager.set_publicKeyPem at 1.
  unfold bind at 1. unfold console_log at 1, emit at 1.
  match goal with
  | |- context [ (if _ then _ else ret tt) ?x ] =>
      exists (mkCryptoKey RsaPrivateKey pkcs8), (mkCryptoKey RsaPublicKey spki), x
  end.
  split; [ reflexivity | split; [ reflexivity | ] ].
  destruct (default false (kg_saveToFile options)); reflexivity.
Qed.

(** X25: on a Node.js that cannot create the client_keys directory, a
    run of ensureKeys that generates a key pair fails with the EACCES of
    mkdir, but only after the new keys were installed in the key manager:
    hasKeys is true afterwards and the next ensureKeys returns at once,
    so the client goes on with keys that were never written to disk. *)
Theorem ensureKeys_fails_once_on_readonly_disk (pf : Platform)
    (this : SecureCompletionClient.t) (w : World) :
  has_window pf = false ->
  fs_writable pf "client_keys" = false ->
  let r := SecureCompletionClient.ensureKeys pf this w in
  rsa_generations r.2 <> rsa_generations w ->
  r.1 = Throw (ErrObj (fs_error "EACCES" "client_keys"))
  /\ KeyManager.hasKeys r.2 = (Return true, r.2)
  /\ SecureCompletionClient.ensureKeys pf this r.2 = (Return tt, r.2).
Proof.
  intros Hwindow Hro r Hgen. subst r.
  destruct (SecureCompletionClient.ensureKeys pf this w) as [o w'] eqn:Hrun.
  cbn [fst snd] in *.
  unfold SecureCompletionClient.ensureKeys in Hrun.
  match type of Hrun with
  | context [ bind (if negb (has_window pf) then ?a else ?b) _ ] =>
      set (load := if negb (has_window pf) then a else b) in Hrun
  end.
  unfold bind in Hrun. rewrite hasKeys_run in Hrun. cbv beta iota in Hrun.
  destruct (bool_decide (is_Some (km_privateKey w))
            && bool_decide (is_Some (km_publicKey w))).
  { injection Hrun as <- <-. contradiction Hgen. reflexivity. }
  assert (Hload : rsa_generations (load w).2 = rsa_generations w).
  { assert (Hk : keeps (same_on rsa_generations) load).
    { subst load. keeps_auto. unfold SecureCompletionClient.loadKeys. keeps_auto. }
    apply Hk. }
  destruct (load w) as [[[|]|t] w1]; cbn [snd] in Hload.
  - injection Hrun as <- <-. contradiction.
  - clear Hgen Hload. unfold SecureCompletionClient.generateKeys in Hrun.
    rewrite Hwindow in Hrun.
    destruct (generateKeys_run pf
                (mkKeyGenOptions (Some K4096) (Some (negb false))
                   (Some "client_keys"%string) None) w1)
      as (privateKey & publicKey & w2 & Hp & Hq & Heq).
    cbn [gk_keySize gk_saveToFile gk_keyDir gk_password] in Hrun.
    rewrite Heq in Hrun.
    cbn [default from_option id kg_saveToFile kg_keyDir kg_password negb] in Hrun.
    rewrite (saveKeys_readonly pf "client_keys" None w2 privateKey publicKey) in Hrun
      by assumption.
    injection Hrun as <- <-.
    split; [ reflexivity | ].
    split.
    + rewrite hasKeys_run. cbn [km_privateKey km_publicKey set_trace].
      rewrite Hp, Hq. reflexivity.
    + unfold SecureCompletionClient.ensureKeys, bind.
      rewrite hasKeys_run. cbn [km_privateKey km_publicKey set_trace].
      rewrite Hp, Hq. reflexivity.
  - injection Hrun as <- <-. contradiction.
Qed.

Lemma ensureKeys_fails_once_on_readonly_disk_witness :
  let pf := Fixtures.readonly_node in
  let r := SecureCompletionClient.ensureKeys pf Example.https_client Example.empty_world in
  r.1 = Throw (ErrObj (fs_error "EACCES" "client_keys"))
  /\ KeyManager.hasKeys r.2 = (Return true, r.2)
  /\ SecureCompletionClient.ensureKeys pf Example.https_client r.2 = (Return tt, r.2).
Proof.
  apply (ensureKeys_fails_once_on_readonly_disk Fixtures.readonly_node
           Example.https_client Example.empty_world).
  - reflexivity.
  - reflexivity.
  - vm_compute. discriminate.
Defined.

(** ** Key generation across a request *)

Section Generations.

Context (pf : Platform).

Abbreviation calm := (keeps (same_on rsa_generations)).

Lemma calm_request (m : HttpMethod) (url : string) :
  admits (same_on rsa_generations) (EvHttp m url).
Proof. apply rsa_generations_admits. discriminate. Qed.

Lemma calm_zeroMemory (data : loc) : calm (@zeroMemory (createSecureMemory pf) data).
Proof.
  assert (Hfill : calm (fill_zero data))
    by (intros w; apply rsa_generations_trace_only; reflexivity).
  assert (Hzero : admits (same_on rsa_generations) (EvZeroMemory data))
    by (apply rsa_generations_admits; discriminate).
  unfold createSecureMemory.
  destruct (has_window pf); cbn [zeroMemory BrowserSecureMemory NodeSecureMemory];
    keeps_auto.
Qed.

Lemma calm_use {T} (data : loc) (useSecure : bool) (fn : loc -> M T) :
  calm (fn data) -> calm (use (new_SecureByteContext pf data useSecure) fn).
Proof.
  intros Hfn. unfold use, new_SecureByteContext.
  cbn [sbc_data sbc_useSecure sbc_secureMemory].
  pose proof (calm_zeroMemory data). keeps_auto.
Qed.

Ltac calm_auto :=
  repeat first [ apply calm_use; intros | keeps_step ].

Lemma calm_performEncryption (this : SecureCompletionClient.t) (payloadBytes : loc) :
  calm (SecureCompletionClient.performEncryption pf this payloadBytes).
Proof.
  unfold SecureCompletionClient.performEncryption.
  pose proof (keeps_AES_generateKey (same_on rsa_generations) pf).
  pose proof (keeps_AES_exportKey (same_on rsa_generations)).
  pose proof (keeps_AES_encrypt (same_on rsa_generations) pf).
  pose proof (keeps_fetchServerPublicKey (same_on rsa_generations) pf this calm_request).
  calm_auto.
Qed.

Lemma calm_decryptResponse (this : SecureCompletionClient.t) (encryptedResponse : loc)
    (payloadId : string) :
  calm (SecureCompletionClient.decryptResponse pf this encryptedResponse payloadId).
Proof.
  unfold SecureCompletionClient.decryptResponse.
  pose proof (keeps_require_fields (same_on rsa_generations)).
  pose proof (keeps_json_parse (same_on rsa_generations) pf).
  assert (Hpkg : forall packageData,
             calm (SecureCompletionClient.decrypt_package pf this packageData payloadId)).
  { intros packageData. unfold SecureCompletionClient.decrypt_package.
    pose proof (keeps_get_prop (same_on rsa_generations)).
    pose proof (keeps_set_prop (same_on rsa_generations)).
    pose proof (keeps_AES_importKey (same_on rsa_generations)).
    pose proof (keeps_AES_decrypt (same_on rsa_generations) pf).
    pose proof (keeps_decryptKey (same_on rsa_generations) pf).
    calm_auto. }
  calm_auto.
Qed.

Lemma calm_transmit (this : SecureCompletionClient.t) (url : string)
    (headers : list (string * string)) (body : loc) (payloadId : string) :
  calm (SecureCompletionClient.transmit pf this url headers body payloadId).
Proof.
  unfold SecureCompletionClient.transmit, http_post.
  pose proof (calm_decryptResponse this).
  pose proof (keeps_handleErrorResponse (same_on rsa_generations) pf this).
  calm_auto. apply keeps_http_send; [ typeclasses eauto | apply calm_request ].
Qed.

(** With keys in the key manager encryptPayload generates none. *)
Lemma encryptPayload_generations (this : SecureCompletionClient.t) (payload : JValue)
    (w : World) (privateKey publicKey : CryptoKey) :
  km_privateKey w = Some privateKey ->
  km_publicKey w = Some publicKey ->
  rsa_generations (SecureCompletionClient.encryptPayload pf this payload w).2
  = rsa_generations w.
Proof.
  intros Hp Hq. unfold SecureCompletionClient.encryptPayload.
  rewrite (bind_run (console_log _) _ w _ tt eq_refl).
  destruct (negb (truthy payload) || negb (SecureCompletionClient.typeof_object payload));
    [ reflexivity | ].
  erewrite bind_run by (eapply ensureKeys_noop; [ exact Hp | exact Hq ]).
  match goal with
  | |- rsa_generations (?m ?x).2 = _ => assert (Hk : calm m)
  end.
  { pose proof (calm_performEncryption this). calm_auto. }
  rewrite (Hk _). reflexivity.
Qed.

End Generations.

(** X26: a request generates at most one key pair.  sendSecureRequest
    calls ensureKeys itself and again inside encryptPayload; the second
    call finds the keys of the first, so a whole run generates either no
    RSA key pair or one of 4096 bits, and none at all when the key manager
    held a key pair before. *)
Theorem sendSecureRequest_generates_at_most_once (pf : Platform)
    (this : SecureCompletionClient.t) (payload : JValue) (payloadId : string)
    (apiKey : option string) (w : World) :
  let r := SecureCompletionClient.sendSecureRequest pf this payload payloadId apiKey w in
  (rsa_generations r.2 = rsa_generations w
   \/ rsa_generations r.2 = 4096%N :: rsa_generations w)
  /\ (KeyManager.hasKeys w = (Return true, w) -> rsa_generations r.2 = rsa_generations w).
Proof.
  cbv zeta. unfold SecureCompletionClient.sendSecureRequest.
  set (w0 := set_trace (EvConsoleLog "Sending secure chat completion request..." :: trace w) w).
  rewrite (bind_run (console_log _) _ w w0 tt eq_refl).
  assert (Hrest : forall w1 privateKey publicKey (k : loc -> M JValue),
             km_privateKey w1 = Some privateKey ->
             km_publicKey w1 = Some publicKey ->
             (forall a, keeps (same_on rsa_generations) (k a)) ->
             rsa_generations
               (bind (SecureCompletionClient.encryptPayload pf this payload) k w1).2
             = rsa_generations w1).
  { intros w1 privateKey publicKey k Hp Hq Hk.
    rewrite obs_bind_keeps by exact Hk.
    eapply encryptPayload_generations; eassumption. }
  assert (Hafter : forall encryptedPayload : loc,
             keeps (same_on rsa_generations)
               (publicKeyPem <- KeyManager.getPublicKeyPEM pf ;;
                console_log ("Target URL: " +:+ SecureCompletionClient.routerUrl this
                             +:+ "/v1/chat/secure_completion") ;;
                SecureCompletionClient.transmit pf this
                  (SecureCompletionClient.routerUrl this +:+ "/v1/chat/secure_completion")
                  ([("X-Payload-ID", payloadId);
                    ("X-Public-Key", encodeURIComponent publicKeyPem);
                    ("Content-Type", "application/octet-stream")]%string
                   ++ match password_given apiKey with
                      | Some key => [("Authorization", "Bearer " +:+ key)]%string
                      | None => []
                      end)
                  encryptedPayload payloadId)).
  { intros encryptedPayload. pose proof (calm_transmit pf this). keeps_auto. }
  destruct (SecureCompletionClient.ensureKeys pf this w0) as [[[]|t] w1] eqn:Hrun.
  - rewrite (bind_run _ _ _ _ _ Hrun).
    pose proof (ensureKeys_keys pf this w0 w1 Hrun) as (privateKey & publicKey & Hp & Hq).
    rewrite (Hrest w1 privateKey publicKey _ Hp Hq Hafter).
    destruct (ensureKeys_generations pf this w0) as (l & Hl & Hcases).
    rewrite Hrun in Hl. cbn [snd] in Hl.
    split.
    + destruct Hcases as [-> | ->]; [ left | right ]; exact Hl.
    + intros Hhas. rewrite hasKeys_run in Hhas.
      assert (Hheld : bool_decide (is_Some (km_privateKey w))
                      && bool_decide (is_Some (km_publicKey w)) = true) by congruence.
      apply andb_true_iff in Hheld as [H1 H2].
      apply bool_decide_eq_true_1 in H1 as [k1 H1].
      apply bool_decide_eq_true_1 in H2 as [k2 H2].
      rewrite (ensureKeys_noop pf this w0 k1 k2 H1 H2) in Hrun.
      injection Hrun as <-. reflexivity.
  - rewrite (bind_throw _ _ _ _ _ Hrun). cbn [snd].
    destruct (ensureKeys_generations pf this w0) as (l & Hl & Hcases).
    rewrite Hrun in Hl. cbn [snd] in Hl.
    split.
    + destruct Hcases as [-> | ->]; [ left | right ]; exact Hl.
    + intros Hhas. rewrite hasKeys_run in Hhas.
      assert (Hheld : bool_decide (is_Some (km_privateKey w))
                      && bool_decide (is_Some (km_publicKey w)) = true) by congruence.
      apply andb_true_iff in Hheld as [H1 H2].
      apply bool_decide_eq_true_1 in H1 as [k1 H1].
      apply bool_decide_eq_true_1 in H2 as [k2 H2].
      rewrite (ensureKeys_noop pf this w0 k1 k2 H1 H2) in Hrun. discriminate.
Qed.
